(** * Fake-news detector: the scoring engine of [src/lib/analysisService.ts]

    A shallow embedding of [AnalysisService] and the properties its
    specification states about it.

    - A JavaScript string is the list of its UTF-16 code units.
    - A regular-expression literal is a term of [regex], run by a backtracking
      matcher with the priorities of the ECMAScript one.
    - A JavaScript Number is a binary64 value, [spec_float] with the
      operations of the Standard Library's [SpecFloat] at precision 53 and
      maximal exponent 1024.  The sub-scores, which the code builds from small
      integer constants only, are carried as [Z] and injected with [of_Z]
      where they meet a fractional number.
    - The static fields of the class are an explicit state, and the external
      [pipeline] loader and the classifier it returns are parameters. *)

From Stdlib Require Import ZArith NArith List String Ascii Bool Lia.
From Stdlib Require Import QArith Qpower Lqa.
From Stdlib Require Import Floats.SpecFloat.
Import ListNotations.

Local Open Scope string_scope.
Local Open Scope Z_scope.

(* ================================================================== *)
(** ** Strings *)

(** [text: string]: UTF-16 code units. *)
Definition text := list N.

(** A string literal of the source (all of them are ASCII). *)
Definition js (s : string) : text := map N_of_ascii (list_ascii_of_string s).

(** [text.length] *)
Definition length_of (t : text) : Z := Z.of_nat (List.length t).

(* ================================================================== *)
(** ** Regular expressions *)

Module RegExp.

(** The fragment of the pattern language the source uses.  Quantifiers
    only ever apply to a single character class there ([\d+], [.*], [.?],
    [[!?]{2,}]), so [Star] ranges over a class. *)
Inductive regex : Type :=
| Eps  : regex
| Cls  : (N -> bool) -> regex
| Cat  : regex -> regex -> regex
| Alt  : regex -> regex -> regex
| Star : (N -> bool) -> regex.

(** Greedy [c*]: take as many as possible, give back one at a time. *)
Fixpoint star (p : N -> bool) (k : text -> option text) (s : text)
  : option text :=
  match s with
  | c :: s' =>
      if p c then
        match star p k s' with
        | Some r => Some r
        | None => k s
        end
      else k s
  | [] => k s
  end.

(** [run r s k]: match [r] at the head of [s], then continue with [k] on
    what is left; the first success in priority order wins. *)
Fixpoint run (r : regex) (s : text) (k : text -> option text)
  : option text :=
  match r with
  | Eps => k s
  | Cls p =>
      match s with
      | c :: s' => if p c then k s' else None
      | [] => None
      end
  | Cat a b => run a s (fun s' => run b s' k)
  | Alt a b =>
      match run a s k with
      | Some x => Some x
      | None => run b s k
      end
  | Star p => star p k s
  end.

(** [exec] at a fixed position: what is left of the input after the match. *)
Definition exec_at (r : regex) (s : text) : option text := run r s Some.

(** [r.test(s)] for a fresh regex object: is there a match at some index? *)
Fixpoint test (r : regex) (s : text) : bool :=
  match exec_at r s with
  | Some _ => true
  | None =>
      match s with
      | [] => false
      | _ :: s' => test r s'
      end
  end.

(** [(s.match(/r/g) || []).length]: the successive non-overlapping matches,
    scanning from the left.  [skip] is the number of code units of the
    current match still to step over. *)
Fixpoint match_count_from (r : regex) (skip : nat) (s : text) : nat :=
  match s with
  | [] =>
      match skip, exec_at r [] with
      | O, Some _ => 1
      | _, _ => 0
      end
  | _ :: s' =>
      match skip with
      | S n => match_count_from r n s'
      | O =>
          match exec_at r s with
          | Some rest =>
              S (match_count_from r (List.length s - List.length rest - 1) s')
          | None => match_count_from r 0 s'
          end
      end
  end.

Definition match_count (r : regex) (s : text) : Z :=
  Z.of_nat (match_count_from r 0 s).

(** *** Character classes *)

Definition code (a : ascii) : N := N_of_ascii a.

(** [Canonicalize] of a non-unicode [/i] pattern, on the ASCII range: a code
    unit outside ASCII never canonicalizes to an ASCII one, and every pattern
    character of the source is ASCII. *)
Definition canonicalize (c : N) : N :=
  if ((97 <=? c) && (c <=? 122))%N then (c - 32)%N else c.

Definition is_char (a : N) : N -> bool := fun c => (c =? a)%N.
Definition is_char_i (a : N) : N -> bool :=
  fun c => (canonicalize c =? canonicalize a)%N.

(** [[A-Z]] *)
Definition upper : N -> bool := fun c => ((65 <=? c) && (c <=? 90))%N.
(** [\d] *)
Definition digit : N -> bool := fun c => ((48 <=? c) && (c <=? 57))%N.
(** [[!?]] *)
Definition bang_or_query : N -> bool := fun c => ((c =? 33) || (c =? 63))%N.
(** [.]: anything but a line terminator *)
Definition dot : N -> bool :=
  fun c => negb ((c =? 10) || (c =? 13) || (c =? 8232) || (c =? 8233))%N.

(** *** Pattern builders *)

Fixpoint lit (s : string) : regex :=
  match s with
  | EmptyString => Eps
  | String a s' => Cat (Cls (is_char (code a))) (lit s')
  end.

Fixpoint lit_i (s : string) : regex :=
  match s with
  | EmptyString => Eps
  | String a s' => Cat (Cls (is_char_i (code a))) (lit_i s')
  end.

Definition opt (p : N -> bool) : regex := Alt (Cls p) Eps.
Definition plus (p : N -> bool) : regex := Cat (Cls p) (Star p).
Definition at_least_2 (p : N -> bool) : regex := Cat (Cls p) (Cat (Cls p) (Star p)).

End RegExp.

Import RegExp.

Declare Scope regex_scope.
Delimit Scope regex_scope with re.
Notation "a ++ b" := (Cat a b) : regex_scope.
Notation "a || b" := (Alt a b) : regex_scope.

(* ================================================================== *)
(** ** Numbers *)

Module Number.

(** A Number is a binary64 value. *)
Definition number := spec_float.

Definition prec : Z := 53.
Definition emax : Z := 1024.

Definition add : number -> number -> number := SFadd prec emax.
Definition sub : number -> number -> number := SFsub prec emax.
Definition mul : number -> number -> number := SFmul prec emax.
Definition div : number -> number -> number := SFdiv prec emax.

(** The Number of an integer (an array length, a match count, an integer
    literal): the nearest binary64 value, the integer itself below [2^53]. *)
Definition of_Z (n : Z) : number := binary_normalize prec emax n 0 false.

(** The literals [0.3], [0.2] and [0.5]: the binary64 values nearest to the
    decimal fractions ([0x3FD3333333333333], [0x3FC999999999999A] and
    [0x3FE0000000000000]). *)
Definition lit_0_3 : number := S754_finite false 5404319552844595 (-54).
Definition lit_0_2 : number := S754_finite false 7205759403792794 (-55).
Definition lit_0_5 : number := S754_finite false 4503599627370496 (-53).

(** *** Comparison

    The relational operators compare the real numbers the operands stand
    for; the value of [S754_finite s m e] is [(-1)^s * m * 2^e].  Both
    mantissas are brought to the smaller exponent and compared in [Z]. *)
Definition signed (s : bool) (m : positive) : Z := cond_Zopp s (Zpos m).

Definition compare (x y : number) : option comparison :=
  match x, y with
  | S754_nan, _ | _, S754_nan => None
  | S754_infinity s1, S754_infinity s2 =>
      Some (match s1, s2 with
            | true, false => Lt
            | false, true => Gt
            | _, _ => Eq
            end)
  | S754_infinity s, _ => Some (if s then Lt else Gt)
  | _, S754_infinity s => Some (if s then Gt else Lt)
  | S754_zero _, S754_zero _ => Some Eq
  | S754_zero _, S754_finite s _ _ => Some (if s then Gt else Lt)
  | S754_finite s _ _, S754_zero _ => Some (if s then Lt else Gt)
  | S754_finite s1 m1 e1, S754_finite s2 m2 e2 =>
      let e := Z.min e1 e2 in
      Some (Z.compare (signed s1 m1 * 2 ^ (e1 - e)) (signed s2 m2 * 2 ^ (e2 - e)))
  end.

(** [x < y], [x > y], [x <= y], [x >= y] *)
Definition ltb (x y : number) : bool :=
  match compare x y with Some Lt => true | _ => false end.
Definition gtb (x y : number) : bool :=
  match compare x y with Some Gt => true | _ => false end.
Definition leb (x y : number) : bool :=
  match compare x y with Some (Lt | Eq) => true | _ => false end.
Definition geb (x y : number) : bool :=
  match compare x y with Some (Gt | Eq) => true | _ => false end.

(** [ToBoolean]: [NaN], [+0] and [-0] are falsy. *)
Definition truthy (x : number) : bool :=
  match x with
  | S754_nan | S754_zero _ => false
  | _ => true
  end.

(** *** The [Math] functions the source calls *)

Definition Math_abs : number -> number := SFabs.

(** [Math.min] and [Math.max]: [NaN] if either operand is; [-0] is below
    [+0]. *)
Definition Math_min (a b : number) : number :=
  match compare a b with
  | None => S754_nan
  | Some Lt => a
  | Some Gt => b
  | Some Eq => match a with S754_zero true => a | _ => b end
  end.

Definition Math_max (a b : number) : number :=
  match compare a b with
  | None => S754_nan
  | Some Lt => b
  | Some Gt => a
  | Some Eq => match a with S754_zero false => a | _ => b end
  end.

(** The integer [floor (v + 1/2)] for the finite value
    [v = (-1)^s * m * 2^e]. *)
Definition round_half_up (s : bool) (m : positive) (e : Z) : Z :=
  if 0 <=? e then signed s m * 2 ^ e
  else (2 * signed s m + 2 ^ (- e)) / 2 ^ (1 - e).

(** [Math.round]: the nearest integer, a tie going towards [+Infinity];
    a result of zero keeps the sign of the argument; [NaN], the infinities
    and the zeros are returned as they are. *)
Definition Math_round (x : number) : number :=
  match x with
  | S754_finite s m e =>
      let n := round_half_up s m e in
      if n =? 0 then S754_zero s else of_Z n
  | _ => x
  end.

End Number.

Import Number.

(* ================================================================== *)
(** ** The analysis service *)

Inductive Classification := trustworthy | misleading | uncertain.

Record Factors := {
  languagePattern : number;
  sentimentAnalysis : number;
  factualConsistency : number;
  sourceReliability : number
}.

Record AnalysisResult := {
  credibilityScore : number;
  classification : Classification;
  factors : Factors;
  riskFactors : list string;
  confidenceLevel : number
}.

(** What an awaited call into the external library does. *)
Inductive Outcome (A : Type) :=
| Throws : Outcome A
| Returns : A -> Outcome A.
Arguments Throws {A}.
Arguments Returns {A} _.

(** One entry of a classifier's answer, [{ label, score }]. *)
Record SentimentEntry := { label : string; score : number }.

(** A loaded pipeline, called on the text. *)
Definition Pipeline := text -> Outcome (list SentimentEntry).

(** The two static fields; [None] is [null]. *)
Record Models := {
  sentimentAnalyzer : option Pipeline;
  textClassifier : option Pipeline
}.

Definition no_models : Models :=
  {| sentimentAnalyzer := None; textClassifier := None |}.

Module AnalysisService.

Definition model_name : string :=
  "Xenova/distilbert-base-uncased-finetuned-sst-2-english".

(** [initializeModels]: each handle is loaded if it is still [null]; an
    exception of either load is caught and logged, and ends the function.
    [pipeline] is the imported [pipeline(task, model)]. *)
Definition initializeModels (pipeline : string -> string -> Outcome Pipeline)
  (st : Models) : Models :=
  let load_classifier (st : Models) : Models :=
    match textClassifier st with
    | Some _ => st
    | None =>
        match pipeline "text-classification" model_name with
        | Returns p =>
            {| sentimentAnalyzer := sentimentAnalyzer st;
               textClassifier := Some p |}
        | Throws => st
        end
    end in
  match sentimentAnalyzer st with
  | Some _ => load_classifier st
  | None =>
      match pipeline "sentiment-analysis" model_name with
      | Returns p =>
          load_classifier
            {| sentimentAnalyzer := Some p;
               textClassifier := textClassifier st |}
      | Throws => st
      end
  end.

(** *** Pattern tables *)

Definition count_filter (ps : list regex) (t : text) : Z :=
  Z.of_nat (List.length (filter (fun pattern => test pattern t) ps)).

Definition clickbaitPatterns : list regex :=
  [ lit_i "you won't believe";
    lit_i "shocking";
    lit_i "amazing";
    lit_i "incredible";
    lit_i "unbelievable";
    lit_i "must see";
    lit_i "viral" ].

Definition emotionalWords : list regex :=
  [ lit_i "devastating";
    lit_i "outrageous";
    lit_i "scandal";
    lit_i "explosive";
    lit_i "bombshell" ].

Definition absolutePatterns : list regex :=
  [ lit_i "always";
    lit_i "never";
    lit_i "everyone";
    lit_i "nobody";
    (lit_i "all " ++ Star dot ++ lit_i " are")%re;
    lit_i "completely";
    lit_i "totally" ].

Definition conspiracyPatterns : list regex :=
  [ lit_i "they don't want you to know";
    lit_i "hidden truth";
    (lit_i "cover" ++ opt dot ++ lit_i "up")%re;
    lit_i "mainstream media";
    lit_i "wake up" ].

Definition crediblePatterns : list regex :=
  [ lit ".edu";
    lit ".gov";
    lit_i "reuters";
    lit_i "associated press";
    lit_i "bbc";
    (lit_i "peer" ++ opt dot ++ lit_i "reviewed")%re;
    lit_i "journal";
    lit_i "university" ].

Definition unreliablePatterns : list regex :=
  [ lit_i "blog";
    lit_i "facebook post";
    lit_i "twitter";
    lit_i "anonymous source";
    lit_i "leaked";
    lit_i "exclusive" ].

(** [/\d+%|\d+\.\d+%|\$\d+|\d+ (million|billion|thousand)/i] *)
Definition numbers_re : regex :=
  (   (plus digit ++ lit "%")
   || (plus digit ++ lit "." ++ plus digit ++ lit "%")
   || (lit "$" ++ plus digit)
   || (plus digit ++ lit " "
        ++ (lit_i "million" || lit_i "billion" || lit_i "thousand")))%re.

(** [/(according to|source:|study shows|research indicates)/i] *)
Definition sources_re : regex :=
  (lit_i "according to" || lit_i "source:" || lit_i "study shows"
   || lit_i "research indicates")%re.

(** [/said|according|reported|stated/i] *)
Definition attribution_re : regex :=
  (lit_i "said" || lit_i "according" || lit_i "reported" || lit_i "stated")%re.

(** [/you won't believe|shocking|amazing/i] *)
Definition clickbait_risk_re : regex :=
  (lit_i "you won't believe" || lit_i "shocking" || lit_i "amazing")%re.

(** [/(they don't want you to know|hidden truth|cover.?up)/i] *)
Definition conspiracy_risk_re : regex :=
  (lit_i "they don't want you to know" || lit_i "hidden truth"
   || (lit_i "cover" ++ opt dot ++ lit_i "up"))%re.

(** [/[!?]{2,}/g] *)
Definition punctuation_run_re : regex := at_least_2 bang_or_query.

(** [(text.match(/[A-Z]/g) || []).length / text.length] *)
Definition capsRatio (t : text) : number :=
  div (of_Z (match_count (Cls upper) t)) (of_Z (length_of t)).

(** [(text.match(/[!?]{2,}/g) || []).length] *)
Definition punctuationRatio (t : text) : Z := match_count punctuation_run_re t.

(** [Math.max(0, Math.min(100, score))] on an integer score. *)
Definition clamp_0_100 (score : Z) : Z := Z.max 0 (Z.min 100 score).

(** *** The three text sub-scores *)

Definition analyzeLanguagePatterns (t : text) : Z :=
  let score := 80 in
  let score := if gtb (capsRatio t) lit_0_3 then score - 20 else score in
  let score := if 0 <? punctuationRatio t then score - 15 else score in
  let clickbaitMatches := count_filter clickbaitPatterns t in
  let score := score - clickbaitMatches * 10 in
  let emotionalMatches := count_filter emotionalWords t in
  let score := score - emotionalMatches * 8 in
  clamp_0_100 score.

Definition analyzeFactualConsistency (t : text) : Z :=
  let score := 75 in
  let hasNumbers := test numbers_re t in
  let hasSources := test sources_re t in
  let score := if hasNumbers && negb hasSources then score - 25 else score in
  let absoluteMatches := count_filter absolutePatterns t in
  let score := score - absoluteMatches * 10 in
  let conspiracyMatches := count_filter conspiracyPatterns t in
  let score := score - conspiracyMatches * 15 in
  clamp_0_100 score.

Definition analyzeSourceReliability (t : text) : Z :=
  let score := 60 in
  let credibleMatches := count_filter crediblePatterns t in
  let score := score + credibleMatches * 15 in
  let unreliableMatches := count_filter unreliablePatterns t in
  let score := score - unreliableMatches * 10 in
  let score := if negb (test attribution_re t) then score - 20 else score in
  clamp_0_100 score.

(** *** Risk factors *)

(** [riskFactors.push(s)] *)
Definition push (riskFactors : list string) (s : string) : list string :=
  (riskFactors ++ [s])%list.

Definition identifyRiskFactors (t : text) (languageScore factualScore : Z)
  : list string :=
  let riskFactors := [] in
  let riskFactors :=
    if languageScore <? 50
    then push riskFactors "Suspicious language patterns detected"
    else riskFactors in
  let riskFactors :=
    if factualScore <? 50
    then push riskFactors "Lack of factual substantiation"
    else riskFactors in
  let riskFactors :=
    if test clickbait_risk_re t
    then push riskFactors "Clickbait-style language"
    else riskFactors in
  let riskFactors :=
    if test conspiracy_risk_re t
    then push riskFactors "Conspiracy-style rhetoric"
    else riskFactors in
  let riskFactors :=
    if gtb (capsRatio t) lit_0_3
    then push riskFactors "Excessive capitalization"
    else riskFactors in
  let riskFactors :=
    if test punctuation_run_re t
    then push riskFactors "Excessive punctuation"
    else riskFactors in
  let riskFactors :=
    if negb (test attribution_re t) && (100 <? length_of t)
    then push riskFactors "No attribution to sources"
    else riskFactors in
  riskFactors.

(** *** The fallback analysis *)

(** [text.split(sep)] for a separator of one code unit. *)
Fixpoint split (sep : N) (t : text) : list text :=
  match t with
  | [] => [[]]
  | c :: t' =>
      if (c =? sep)%N then [] :: split sep t'
      else
        match split sep t' with
        | piece :: pieces => (c :: piece) :: pieces
        | [] => [[c]]
        end
  end.

Definition getFallbackAnalysis (t : text) : AnalysisResult :=
  let wordCount := Z.of_nat (List.length (split (code " "%char) t)) in
  let hasQuestionMarks := match_count (Cls (is_char (code "?"%char))) t in
  let hasExclamation := match_count (Cls (is_char (code "!"%char))) t in
  let credibilityScore :=
    Math_max (of_Z 30)
      (Math_min (of_Z 85)
         (add
            (sub
               (sub (of_Z 70) (mul (of_Z hasQuestionMarks) (of_Z 5)))
               (mul (of_Z hasExclamation) (of_Z 3)))
            (Math_min (div (of_Z wordCount) (of_Z 10)) (of_Z 15)))) in
  let classification :=
    if geb credibilityScore (of_Z 75) then trustworthy
    else if leb credibilityScore (of_Z 40) then misleading
    else uncertain in
  {| credibilityScore := Math_round credibilityScore;
     classification := classification;
     factors :=
       {| languagePattern := of_Z (analyzeLanguagePatterns t);
          sentimentAnalysis := of_Z 60;
          factualConsistency := of_Z (analyzeFactualConsistency t);
          sourceReliability := of_Z (analyzeSourceReliability t) |};
     riskFactors := identifyRiskFactors t 60 60;
     confidenceLevel := of_Z 75 |}.

(** *** The entry point *)

(** The body of the [try] block once the classifier has answered
    [sentimentResult]. *)
Definition analyzeWith (sentimentResult : list SentimentEntry) (t : text)
  : AnalysisResult :=
  let languageScore := analyzeLanguagePatterns t in
  let factualScore := analyzeFactualConsistency t in
  let sourceScore := analyzeSourceReliability t in
  (* sentimentResult[0]?.score || 0.5 *)
  let sentimentScore :=
    match sentimentResult with
    | first :: _ => if truthy (score first) then score first else lit_0_5
    | [] => lit_0_5
    end in
  (* sentimentResult[0]?.label === 'NEGATIVE' *)
  let isNegativeSentiment :=
    match sentimentResult with
    | first :: _ => String.eqb (label first) "NEGATIVE"
    | [] => false
    end in
  let credibilityScore :=
    Math_round
      (add
         (add
            (add
               (mul (of_Z languageScore) lit_0_3)
               (mul
                  (if isNegativeSentiment
                   then mul (sub (of_Z 1) sentimentScore) (of_Z 100)
                   else mul sentimentScore (of_Z 100))
                  lit_0_2))
            (mul (of_Z factualScore) lit_0_3))
         (mul (of_Z sourceScore) lit_0_2)) in
  let classification :=
    if geb credibilityScore (of_Z 75) then trustworthy
    else if leb credibilityScore (of_Z 40) then misleading
    else uncertain in
  let riskFactors := identifyRiskFactors t languageScore factualScore in
  let confidenceLevel :=
    Math_round (mul (Math_abs (sub credibilityScore (of_Z 50))) (of_Z 2)) in
  {| credibilityScore := credibilityScore;
     classification := classification;
     factors :=
       {| languagePattern := of_Z languageScore;
          sentimentAnalysis := Math_round (mul sentimentScore (of_Z 100));
          factualConsistency := of_Z factualScore;
          sourceReliability := of_Z sourceScore |};
     riskFactors := riskFactors;
     confidenceLevel := Math_min confidenceLevel (of_Z 95) |}.

(** [analyzeText]: the models are initialized, then the classifier is asked
    when its handle is set and a neutral answer stands in for it otherwise;
    an exception inside the [try] block leads to the fallback analysis.
    Returns the static fields as it leaves them, and the result. *)
Definition analyzeText (pipeline : string -> string -> Outcome Pipeline)
  (st : Models) (t : text) : Models * AnalysisResult :=
  let st := initializeModels pipeline st in
  let answer :=
    match sentimentAnalyzer st with
    | Some analyzer => analyzer t
    | None => Returns [ {| label := "NEUTRAL"; score := lit_0_5 |} ]
    end in
  (st,
   match answer with
   | Returns sentimentResult => analyzeWith sentimentResult t
   | Throws => getFallbackAnalysis t
   end).

End AnalysisService.

Import AnalysisService.

(* ================================================================== *)
(** ** Stubs of the external library and test inputs *)

(** A loader whose pipelines answer every text with [answer]. *)
Definition stub (answer : Outcome (list SentimentEntry))
  : string -> string -> Outcome Pipeline :=
  fun _ _ => Returns (fun _ => answer).

(** A loader that fails: [pipeline(...)] rejects. *)
Definition unavailable : string -> string -> Outcome Pipeline :=
  fun _ _ => Throws.

Definition entry (l : string) (p : number) : SentimentEntry :=
  {| label := l; score := p |}.

(** The example texts of the specification. *)
Definition shocking : text :=
  js "SHOCKING!! You won't believe this amazing secret they don't want you to know!!!".

Definition attributed : text :=
  js "According to a study published in a peer-reviewed journal, researchers at a university found a 12% increase, reported by Reuters.".

(** [n] one-letter words separated by single spaces. *)
Fixpoint words (n : nat) : text :=
  match n with
  | O => []
  | S O => js "a"
  | S n' => (js "a " ++ words n')%list
  end.

(* ================================================================== *)
(** ** The specification's notions *)

(** The checks of [identifyRiskFactors], in source order, each with its
    label. *)
Definition risk_checks (t : text) (languageScore factualScore : Z)
  : list (bool * string) :=
  [ (languageScore <? 50, "Suspicious language patterns detected");
    (factualScore <? 50, "Lack of factual substantiation");
    (test clickbait_risk_re t, "Clickbait-style language");
    (test conspiracy_risk_re t, "Conspiracy-style rhetoric");
    (gtb (capsRatio t) lit_0_3, "Excessive capitalization");
    (test punctuation_run_re t, "Excessive punctuation");
    (negb (test attribution_re t) && (100 <? length_of t),
     "No attribution to sources") ].

Definition risk_labels : list string :=
  [ "Suspicious language patterns detected";
    "Lack of factual substantiation";
    "Clickbait-style language";
    "Conspiracy-style rhetoric";
    "Excessive capitalization";
    "Excessive punctuation";
    "No attribution to sources" ].

(** The labels a list of checks selects. *)
Definition selected (checks : list (bool * string)) : list string :=
  map snd (filter fst checks).

(** The classification of a score: 'trustworthy' from 75, 'misleading' up
    to 40, 'uncertain' in between. *)
Definition classify (credibility : number) : Classification :=
  if geb credibility (of_Z 75) then trustworthy
  else if leb credibility (of_Z 40) then misleading
  else uncertain.

(** The sentiment term of the weighted sum: [(1 - p) * 100] for a NEGATIVE
    label, [p * 100] otherwise. *)
Definition sentimentAdjusted (l : string) (p : number) : number :=
  if String.eqb l "NEGATIVE"
  then mul (sub (of_Z 1) p) (of_Z 100)
  else mul p (of_Z 100).

(** [language * 0.3 + sentiment * 0.2 + factual * 0.3 + source * 0.2] *)
Definition weighted_sum (language sentiment factual source : number) : number :=
  add (add (add (mul language lit_0_3) (mul sentiment lit_0_2))
           (mul factual lit_0_3))
      (mul source lit_0_2).

(** [min(|score - 50| * 2, 95)] *)
Definition confidence_of (credibility : number) : number :=
  Math_min (mul (Math_abs (sub credibility (of_Z 50))) (of_Z 2)) (of_Z 95).

(** [clamp(x, lo, hi)] *)
Definition clamp (x lo hi : number) : number :=
  if ltb x lo then lo else if gtb x hi then hi else x.

(** The number of occurrences of a code unit. *)
Definition occurrences (c : N) (t : text) : Z :=
  Z.of_nat (count_occ N.eq_dec t c).

(** The word count of the fallback: one more than the number of spaces. *)
Definition word_count (t : text) : Z := 1 + occurrences (code " "%char) t.


(** [lo <= x <= hi]; no [NaN] is in any range. *)
Definition between (lo hi : Z) (x : number) : Prop :=
  leb (of_Z lo) x = true /\ leb x (of_Z hi) = true.

(** A classifier answer whose first entry, if any, carries a probability
    in [[0,1]]. *)
Definition probability_answer (sentimentResult : list SentimentEntry) : Prop :=
  match sentimentResult with
  | first :: _ => between 0 1 (score first)
  | [] => True
  end.

(* ================================================================== *)
(** ** Parts of the source functions, named *)

(** The neutral answer that stands in for an unset handle. *)
Definition neutral : list SentimentEntry := [entry "NEUTRAL" lit_0_5].

(** The classifier's answer as [analyzeText] obtains it: the handle is
    called when it is set, the neutral answer stands in for it otherwise. *)
Definition answer_of (pipeline : string -> string -> Outcome Pipeline)
  (st : Models) (t : text) : Outcome (list SentimentEntry) :=
  match sentimentAnalyzer (initializeModels pipeline st) with
  | Some analyzer => analyzer t
  | None => Returns neutral
  end.

(** The probability [analyzeWith] works with:
    [sentimentResult[0]?.score || 0.5]. *)
Definition sentimentScore_of (sentimentResult : list SentimentEntry) : number :=
  match sentimentResult with
  | first :: _ => if truthy (score first) then score first else lit_0_5
  | [] => lit_0_5
  end.

(** [sentimentResult[0]?.label === 'NEGATIVE'] *)
Definition isNegative_of (sentimentResult : list SentimentEntry) : bool :=
  match sentimentResult with
  | first :: _ => String.eqb (label first) "NEGATIVE"
  | [] => false
  end.

(** The confidence as [analyzeWith] computes it from the rounded score. *)
Definition confidence_code (credibility : number) : number :=
  Math_min
    (Math_round (mul (Math_abs (sub credibility (of_Z 50))) (of_Z 2)))
    (of_Z 95).

(** The argument of the clamp in [getFallbackAnalysis]. *)
Definition fallback_raw (wordCount questionMarks exclamations : Z) : number :=
  add
    (sub (sub (of_Z 70) (mul (of_Z questionMarks) (of_Z 5)))
         (mul (of_Z exclamations) (of_Z 3)))
    (Math_min (div (of_Z wordCount) (of_Z 10)) (of_Z 15)).

(* ================================================================== *)
(** ** Values of numbers *)

(** The rational number a finite Number stands for: [(-1)^s * m * 2^e];
    a zero stands for 0. *)
Definition value (x : number) : Q :=
  match x with
  | S754_finite s m e => (inject_Z (signed s m) * 2 ^ e)%Q
  | _ => 0%Q
  end.

(** The zeros and the finite numbers. *)
Definition finite (x : number) : bool :=
  match x with
  | S754_zero _ | S754_finite _ _ _ => true
  | _ => false
  end.

Definition is_nan (x : number) : bool :=
  match x with
  | S754_nan => true
  | _ => false
  end.

(** [+0] and the positive finite numbers. *)
Definition nonneg (x : number) : bool :=
  match x with
  | S754_zero false | S754_finite false _ _ => true
  | _ => false
  end.

(** A positive finite number. *)
Definition positive_finite (x : number) : bool :=
  match x with
  | S754_finite false _ _ => true
  | _ => false
  end.

(** What a count, and a product of a count with a positive constant, can
    be: [+0], a positive finite number or [+Infinity]. *)
Definition nonneg_or_inf (x : number) : bool :=
  match x with
  | S754_zero false | S754_finite false _ _ | S754_infinity false => true
  | _ => false
  end.

(** A non-negative finite number not above the rational [b]. *)
Definition below (x : number) (b : Q) : Prop :=
  nonneg x = true /\ (value x <= b)%Q.

(** [-Infinity], or a finite number not above the rational [b]. *)
Definition capped (x : number) (b : Q) : Prop :=
  x = S754_infinity true \/ (finite x = true /\ (value x <= b)%Q).

(** An infinity, or a finite number, of sign [s] and of magnitude at least
    [b]. *)
Definition far (s : bool) (x : number) (b : Q) : Prop :=
  x = S754_infinity s
  \/ exists m e, x = S754_finite s m e
       /\ (b <= inject_Z (Zpos m) * 2 ^ e)%Q.

(** [m * 2^e] is a binary64 value: at most 53 digits, an exponent in
    range. *)
Definition representable (m : positive) (e : Z) : bool :=
  (Zpos (digits2_pos m) <=? 53) && (-1074 <=? e) && (e <=? 971).

(** A positive binary64 value. *)
Definition representable_number (x : number) : bool :=
  match x with
  | S754_finite false m e => representable m e
  | _ => false
  end.

(** Structural equality of numbers. *)
Definition same (x y : number) : bool :=
  match x, y with
  | S754_zero s1, S754_zero s2 => Bool.eqb s1 s2
  | S754_infinity s1, S754_infinity s2 => Bool.eqb s1 s2
  | S754_nan, S754_nan => true
  | S754_finite s1 m1 e1, S754_finite s2 m2 e2 =>
      Bool.eqb s1 s2 && (m1 =? m2)%positive && (e1 =? e2)
  | _, _ => false
  end.

(** What [k] right shifts have made of the mantissa [m0]: the quotient, and
    a remainder that the round and sticky bits witness. *)
Definition shifted (m0 : Z) (k : Z) (mrs : shr_record) : Prop :=
  0 <= shr_m mrs
  /\ exists rem, m0 = shr_m mrs * 2 ^ k + rem
       /\ 0 <= rem < 2 ^ k
       /\ (rem = 0 -> loc_of_shr_record mrs = loc_Exact).

(** The shape of a result that is of sign [s] and, in magnitude, not above
    [Y * 2^F]. *)
Definition rounded_below (s : bool) (Y : positive) (F : Z) (r : number) : Prop :=
  r = S754_zero s
  \/ exists m' e', r = S754_finite s m' e'
       /\ (inject_Z (Zpos m') * 2 ^ e' <= inject_Z (Zpos Y) * 2 ^ F)%Q.

(** Representable upper bounds of the partial sums of the weighted sum:
    100, 30, [20 + 2^-48], [50 + 2^-47], [80 + 2^-46] and [100 + 2^-45]. *)
Definition ub_100 : number := S754_finite false 7036874417766400 (-46).
Definition ub_30 : number := S754_finite false 8444249301319680 (-48).
Definition ub_20 : number := S754_finite false 5629499534213121 (-48).
Definition ub_50 : number := S754_finite false 7036874417766401 (-47).
Definition ub_80 : number := S754_finite false 5629499534213121 (-46).
Definition ub_sum : number := S754_finite false 7036874417766402 (-46).

(** A closed inequality between rationals, by evaluation. *)
Ltac closed_Qle := apply Qle_bool_iff; vm_compute; reflexivity.

(* ================================================================== *)
(** ** The detector component of [FakeNewsDetector]

    The component keeps four state cells and calls the analysis service
    from [handleAnalyze].  The cells are a record, the toasts shown are
    returned as a list, and the static fields of the service are threaded
    through as for [analyzeText]. *)

Module FakeNewsDetector.

(** The code units [String.prototype.trim] strips: [WhiteSpace] (TAB, VT,
    FF, SP, NBSP, ZWNBSP and the space separators) and [LineTerminator]
    (LF, CR, LS, PS). *)
Definition white_space (c : N) : bool :=
  (((9 <=? c) && (c <=? 13))
   || (c =? 32) || (c =? 160) || (c =? 5760)
   || ((8192 <=? c) && (c <=? 8202))
   || (c =? 8232) || (c =? 8233) || (c =? 8239) || (c =? 8287)
   || (c =? 12288) || (c =? 65279))%N.

Fixpoint trimStart (t : text) : text :=
  match t with
  | c :: t' => if white_space c then trimStart t' else t
  | [] => []
  end.

Definition trimEnd (t : text) : text := rev (trimStart (rev t)).

(** [text.trim()] *)
Definition trim (t : text) : text := trimEnd (trimStart t).

(** The argument of a [toast] call. *)
Record Toast := {
  title : string;
  description : string;
  variant : option string
}.

(** The state cells [text], [isAnalyzing], [result] and [progress] ([text]
    is [textValue] here, the name being that of the type of strings). *)
Record State := {
  textValue : text;
  isAnalyzing : bool;
  result : option AnalysisResult;
  progress : Z
}.

Definition setIsAnalyzing (b : bool) (s : State) : State :=
  {| textValue := textValue s; isAnalyzing := b;
     result := result s; progress := progress s |}.

Definition setResult (r : option AnalysisResult) (s : State) : State :=
  {| textValue := textValue s; isAnalyzing := isAnalyzing s;
     result := r; progress := progress s |}.

Definition setProgress (p : Z) (s : State) : State :=
  {| textValue := textValue s; isAnalyzing := isAnalyzing s;
     result := result s; progress := p |}.

(** The value of the [classification] field as the string it is. *)
Definition classification_string (c : Classification) : string :=
  match c with
  | trustworthy => "trustworthy"
  | misleading => "misleading"
  | uncertain => "uncertain"
  end.

Definition progressUpdates : list Z := [20; 45; 70; 90; 100].

(** [handleAnalyze]: a blank text is refused with a toast; otherwise the
    cells are reset, the progress is stepped through [progressUpdates], the
    service is called and its result stored and announced, and
    [isAnalyzing] is cleared in the [finally] block.  [analyzeText] catches
    its own exceptions and always returns, so the [catch] block of
    [handleAnalyze] has nothing to catch. *)
Definition handleAnalyze (pipeline : string -> string -> Outcome Pipeline)
  (models : Models) (s : State) : Models * State * list Toast :=
  match trim (textValue s) with
  | [] =>
      (models, s,
       [ {| title := "Error";
            description := "Please enter some text to analyze";
            variant := Some "destructive" |} ])
  | _ :: _ =>
      let s := setIsAnalyzing true s in
      let s := setProgress 0 s in
      let s := setResult None s in
      let s := fold_left (fun s p => setProgress p s) progressUpdates s in
      let '(models, analysisResult) :=
        analyzeText pipeline models (textValue s) in
      let s := setResult (Some analysisResult) s in
      let toasts :=
        [ {| title := "Analysis Complete";
             description :=
               "Text classified as "
               ++ classification_string (classification analysisResult);
             variant := None |} ] in
      let s := setIsAnalyzing false s in
      (models, s, toasts)
  end.

(** [getClassificationColor] *)
Definition getClassificationColor (classification : string) : string :=
  if String.eqb classification "trustworthy" then "trust-high"
  else if String.eqb classification "misleading" then "trust-low"
  else "trust-medium".

(** [disabled={isAnalyzing || !text.trim()}] of the button that calls
    [handleAnalyze]. *)
Definition button_disabled (s : State) : bool :=
  isAnalyzing s || match trim (textValue s) with [] => true | _ => false end.

(** [{result.riskFactors.length > 0 && ...}]: is the card of the risk
    factors rendered? *)
Definition risk_card_shown (s : State) : bool :=
  match result s with
  | Some r => 0 <? Z.of_nat (List.length (riskFactors r))
  | None => false
  end.

End FakeNewsDetector.

(* ================================================================== *)
(** ** Further notions *)

(** Successive calls of [analyzeText], each with the behaviour of the
    loader at its time and with its text: the static fields after the last
    one. *)
Definition after_calls (st : Models)
  (calls : list ((string -> string -> Outcome Pipeline) * text)) : Models :=
  fold_left (fun st call => fst (analyzeText (fst call) st (snd call))) calls st.

Definition Classification_eqb (a b : Classification) : bool :=
  match a, b with
  | trustworthy, trustworthy | misleading, misleading | uncertain, uncertain => true
  | _, _ => false
  end.

(** Representable upper bounds of the partial sums of the weighted sum of a
    language score of at most 80 and a factual score of at most 75: 24,
    22.5, [44 + 2^-47], [66.5 + 2^-46] and [86.5 + 2^-45]. *)
Definition ub_24 : number := S754_finite false 3 3.
Definition ub_22_5 : number := S754_finite false 45 (-1).
Definition ub_44 : number := S754_finite false 6192449487634433 (-47).
Definition ub_66_5 : number := S754_finite false 4679521487814657 (-46).
Definition ub_86_5 : number := S754_finite false 3043448185683969 (-45).

(** The score under the neutral answer, in integers:
    [0.3*language + 10 + 0.3*factual + 0.2*source], rounded half up. *)
Definition neutral_score (language factual source : Z) : Z :=
  (3 * language + 100 + 3 * factual + 2 * source + 5) / 10.

(** The check of one triple of sub-scores against [neutral_score]; the
    factual and the source score are counted in fives. *)
Definition neutral_check (language factual source : Z) : bool :=
  same
    (Math_round
       (weighted_sum (of_Z language) (mul lit_0_5 (of_Z 100))
          (of_Z (5 * factual)) (of_Z (5 * source))))
    (of_Z (neutral_score language (5 * factual) (5 * source))).

(** *** Letter case *)

(** Two texts that differ in the case of ASCII letters only. *)
Definition same_letters (u v : text) : Prop :=
  map canonicalize u = map canonicalize v.

(** The phrase [s] occurs in [t], up to the case of ASCII letters. *)
Definition occurs_i (s : string) (t : text) : Prop :=
  exists before w after,
    t = (before ++ w ++ after)%list /\ same_letters w (js s).

(** A class that does not tell a lowercase ASCII letter from its capital. *)
Definition case_blind_class (p : N -> bool) : bool :=
  forallb (fun c => Bool.eqb (p c) (p (c - 32)%N)) (map N.of_nat (seq 97 26)).

(** A pattern all of whose classes are case-blind. *)
Fixpoint case_blind (r : regex) : bool :=
  match r with
  | Eps => true
  | Cls p | Star p => case_blind_class p
  | Cat a b | Alt a b => case_blind a && case_blind b
  end.

(** Two results of a match that agree up to letter case. *)
Definition same_rest (o o' : option text) : Prop :=
  match o, o' with
  | Some u, Some u' => same_letters u u'
  | None, None => True
  | _, _ => False
  end.

(** [s'] is what is left of [s] after some of its first code units. *)
Definition suffix (s' s : text) : Prop := exists before, s = (before ++ s')%list.

(** *** Rounding a quotient *)

(** Where the remainder [rem] of a division by [W] lies: it is zero, or
    below, at or above the half of [W]. *)
Definition loc_of (rem W : Z) : location :=
  if rem =? 0 then loc_Exact else loc_Inexact (2 * rem ?= W).

(** [mrs] holds the quotient of [N] by [W] and the location of the
    remainder. *)
Definition located (N W : Z) (mrs : shr_record) : Prop :=
  0 <= shr_m mrs
  /\ 0 <= N - shr_m mrs * W < W
  /\ loc_of_shr_record mrs = loc_of (N - shr_m mrs * W) W.

(** What the rounding returns for the rounded mantissa [q1] at the
    exponent [e1]: a zero, an infinity when [q1 * 2^e1] is out of range, or
    the finite number of that value. *)
Definition outcome (s : bool) (q1 e1 : Z) (r : number) : Prop :=
  (q1 = 0 /\ r = S754_zero s)
  \/ (0 < q1 /\ r = S754_infinity s /\ 971 <= e1 /\ 2 ^ 1024 <= q1 * 2 ^ e1)
  \/ (exists m e,
        r = S754_finite s m e /\ e1 <= e <= 971 /\ Zpos m * 2 ^ (e - e1) = q1
        /\ Zpos m < 2 ^ 53).

(** The same for a rational value [v]. *)
Definition outcomeQ (s : bool) (v : Q) (r : number) : Prop :=
  (r = S754_zero s /\ (v == 0)%Q)
  \/ (r = S754_infinity s /\ (2 ^ 1024 <= v)%Q)
  \/ (exists m e,
        r = S754_finite s m e /\ (inject_Z (Zpos m) * 2 ^ e == v)%Q
        /\ (v < 2 ^ 1024)%Q).

(** *** The fallback score in integers *)

(** Ten times the fallback score before the clamp:
    [10 * (70 - 5*questionMarks - 3*exclamations) + min(wordCount, 150)]. *)
Definition fallback_tenths (wordCount questionMarks exclamations : Z) : Z :=
  10 * (70 - 5 * questionMarks - 3 * exclamations) + Z.min wordCount 150.

(** The clamped score, rounded half up. *)
Definition fallback_score (wordCount questionMarks exclamations : Z) : Z :=
  (Z.max 300 (Z.min 850 (fallback_tenths wordCount questionMarks exclamations))
   + 5) / 10.

(** The thresholds 75 and 40 on the score before rounding. *)
Definition fallback_classification (wordCount questionMarks exclamations : Z)
  : Classification :=
  if 750 <=? fallback_tenths wordCount questionMarks exclamations
  then trustworthy
  else if fallback_tenths wordCount questionMarks exclamations <=? 400
       then misleading
       else uncertain.

(** The word term [Math.min(wordCount / 10, 15)]. *)
Definition word_term (wordCount : Z) : number :=
  Math_min (div (of_Z wordCount) (of_Z 10)) (of_Z 15).

(** The punctuation term [70 - questionMarks * 5 - exclamations * 3]. *)
Definition punctuation_term (questionMarks exclamations : Z) : number :=
  sub (sub (of_Z 70) (mul (of_Z questionMarks) (of_Z 5)))
      (mul (of_Z exclamations) (of_Z 3)).

(** The check of one value of the punctuation term and one word count
    against the integer formulas. *)
Definition fallback_check (base wordCount : Z) : bool :=
  let clamped :=
    clamp (add (of_Z base) (word_term wordCount)) (of_Z 30) (of_Z 85) in
  let tenths := 10 * base + wordCount in
  same (Math_round clamped) (of_Z ((Z.max 300 (Z.min 850 tenths) + 5) / 10))
  && Classification_eqb (classify clamped)
       (if 750 <=? tenths then trustworthy
        else if tenths <=? 400 then misleading else uncertain).

(** *** The order of numbers *)

(** [+0] or a positive binary64 value. *)
Definition nonneg_binary64 (x : number) : bool :=
  match x with
  | S754_zero false => true
  | S754_finite false m e => representable m e
  | _ => false
  end.

(** The checks of one triple of sub-scores at the two ends of the sentiment
    term, 0 and 100; the factual and the source score are counted in
    fives. *)
Definition low_check (language factual source : Z) : bool :=
  same
    (Math_round
       (weighted_sum (of_Z language) (S754_zero false)
          (of_Z (5 * factual)) (of_Z (5 * source))))
    (of_Z (neutral_score language (5 * factual) (5 * source) - 10)).

Definition high_check (language factual source : Z) : bool :=
  same
    (Math_round
       (weighted_sum (of_Z language) (of_Z 100)
          (of_Z (5 * factual)) (of_Z (5 * source))))
    (of_Z (neutral_score language (5 * factual) (5 * source) + 10)).

(** *** The language of a pattern *)

(** [w] is a word of the pattern [r]. *)
Fixpoint matches (r : regex) (w : text) : Prop :=
  match r with
  | Eps => w = []
  | Cls p => exists c, w = [c] /\ p c = true
  | Cat a b =>
      exists w1 w2, w = (w1 ++ w2)%list /\ matches a w1 /\ matches b w2
  | Alt a b => matches a w \/ matches b w
  | Star p => forallb p w = true
  end.

(** [t] holds, one after the other and up to the case of ASCII letters,
    the phrase [first], at least [least] and at most [most] code units that
    are not line terminators, and the phrase [last]. *)
Definition occurs_apart (first last : string) (least most : nat) (t : text) : Prop :=
  exists before w1 between w2 after,
    t = (before ++ w1 ++ between ++ w2 ++ after)%list
    /\ same_letters w1 (js first)
    /\ (least <= List.length between <= most)%nat
    /\ forallb dot between = true
    /\ same_letters w2 (js last).

(** *** Words, phrases and conditions as the specification has them *)





(** The clickbait phrases and the conspiracy phrases of the
    specification. *)
Definition clickbait_phrases : list string :=
  [ "you won't believe"; "shocking"; "amazing"; "incredible"; "unbelievable";
    "must see"; "viral" ].

Definition conspiracy_phrases : list string :=
  [ "they don't want you to know"; "hidden truth"; "cover-up";
    "mainstream media"; "wake up" ].

(** Some phrase of the list occurs in the text, up to the case of ASCII
    letters. *)
Definition phrase_match (phrases : list string) (t : text) : Prop :=
  exists s, In s phrases /\ occurs_i s t.

(** Two adjacent code units out of [!] and [?]. *)
Definition punctuation_run (t : text) : Prop :=
  exists before c1 c2 after,
    t = (before ++ [c1; c2] ++ after)%list
    /\ In c1 [code "!"%char; code "?"%char]
    /\ In c2 [code "!"%char; code "?"%char].

(** The number of code units from [A] to [Z]. *)
Definition capitals (t : text) : Z :=
  Z.of_nat (List.length (filter (fun c => (65 <=? c) && (c <=? 90))%N t)).

(** The seven conditions of the risk factors, in check order, each with its
    label: the two scores below 50; one of three clickbait phrases; one of
    two conspiracy phrases, or 'cover' and 'up' at most one code unit
    apart; more than three tenths of the code units capitals; a
    punctuation run; none of the four attribution verbs in a text of more
    than 100 code units. *)
Definition risk_conditions (t : text) (languageScore factualScore : Z)
  : list (Prop * string) :=
  [ (languageScore < 50, "Suspicious language patterns detected");
    (factualScore < 50, "Lack of factual substantiation");
    (phrase_match ["you won't believe"; "shocking"; "amazing"] t,
     "Clickbait-style language");
    (phrase_match ["they don't want you to know"; "hidden truth"] t
     \/ occurs_apart "cover" "up" 0 1 t,
     "Conspiracy-style rhetoric");
    (3 * length_of t < 10 * capitals t, "Excessive capitalization");
    (punctuation_run t, "Excessive punctuation");
    (~ phrase_match ["said"; "according"; "reported"; "stated"] t
     /\ 100 < length_of t,
     "No attribution to sources") ].

(** [labels] lists, in order and once each, the labels of the conditions
    that hold. *)
Inductive selects : list (Prop * string) -> list string -> Prop :=
| selects_nil : selects [] []
| selects_take (P : Prop) (s : string) conditions labels :
    P -> selects conditions labels ->
    selects ((P, s) :: conditions) (s :: labels)
| selects_skip (P : Prop) (s : string) conditions labels :
    ~ P -> selects conditions labels ->
    selects ((P, s) :: conditions) labels.

(* ================================================================== *)
(** * Facts on binary64 numbers *)

Module Binary64.

(* ================================================================== *)
(** ** Rounding to binary64 *)

Lemma digits2_pos_bounds (m : positive) :
  2 ^ (Zpos (digits2_pos m) - 1) <= Zpos m < 2 ^ Zpos (digits2_pos m).
Proof.
  induction m as [m IH|m IH|]; simpl digits2_pos.
  - rewrite Pos2Z.inj_succ.
    replace (Z.succ (Zpos (digits2_pos m)) - 1) with (Z.succ (Zpos (digits2_pos m) - 1)) by lia.
    rewrite !Z.pow_succ_r by lia. lia.
  - rewrite Pos2Z.inj_succ.
    replace (Z.succ (Zpos (digits2_pos m)) - 1) with (Z.succ (Zpos (digits2_pos m) - 1)) by lia.
    rewrite !Z.pow_succ_r by lia. lia.
  - simpl. lia.
Qed.

Lemma Zdigits2_bounds (m : Z) :
  0 < m -> 2 ^ (Zdigits2 m - 1) <= m < 2 ^ Zdigits2 m.
Proof.
  destruct m as [|m|m]; try lia. intros _. apply digits2_pos_bounds.
Qed.

Lemma Zdigits2_nonneg (m : Z) : 0 <= Zdigits2 m.
Proof. destruct m; simpl; lia. Qed.

Lemma pow2_pos (k : Z) : 0 <= k -> 0 < 2 ^ k.
Proof. intros. apply Z.pow_pos_nonneg; lia. Qed.

Lemma pow2_split (a b : Z) : 0 <= a -> 0 <= b -> 2 ^ (a + b) = 2 ^ a * 2 ^ b.
Proof. intros. apply Z.pow_add_r; lia. Qed.

Lemma pow2_ge_2 (k : Z) : 0 < k -> 2 <= 2 ^ k.
Proof.
  intros Hk. replace k with (1 + (k - 1)) by lia.
  rewrite pow2_split by lia. pose proof (pow2_pos (k - 1)). lia.
Qed.

(** iter_pos runs its function [Pos.to_nat n] times. *)
Lemma iter_pos_invariant {A : Type} (f : A -> A) (P : Z -> A -> Prop) :
  (forall k x, 0 <= k -> P k x -> P (k + 1) (f x)) ->
  forall (n : positive) (k : Z) (x : A),
    0 <= k -> P k x -> P (k + Zpos n) (SpecFloat.iter_pos f n x).
Proof.
  intros Hstep. induction n as [n IH|n IH|]; intros k x Hk Hx; simpl.
  - replace (k + Zpos n~1) with (k + 1 + Zpos n + Zpos n) by lia.
    apply IH; [lia|]. apply IH; [lia|]. now apply Hstep.
  - replace (k + Zpos n~0) with (k + Zpos n + Zpos n) by lia.
    apply IH; [lia|]. now apply IH.
  - now apply Hstep.
Qed.

Lemma shifted_start (m0 : Z) :
  0 <= m0 -> shifted m0 0 (Build_shr_record m0 false false).
Proof.
  intros H. split; [exact H|]. exists 0. simpl. repeat split; lia.
Qed.

Lemma shifted_step (m0 k : Z) (mrs : shr_record) :
  0 <= k -> shifted m0 k mrs -> shifted m0 (k + 1) (shr_1 mrs).
Proof.
  intros Hk [Hm (rem & Heq & Hrem & Hloc)].
  destruct mrs as [m r s]. simpl in Hm, Heq.
  assert (Hpow : 2 ^ (k + 1) = 2 * 2 ^ k) by (rewrite Z.pow_add_r by lia; lia).
  assert (Hpos : 0 < 2 ^ k) by (apply Z.pow_pos_nonneg; lia).
  assert (Hexact : rem = 0 -> (r || s)%bool = false).
  { intros H0. specialize (Hloc H0). destruct r, s; simpl in *; congruence. }
  destruct m as [|[p|p|]|p]; try lia;
    unfold shifted, shr_1; cbn [shr_m]; (split; [lia|]).
  - exists rem. rewrite Hpow. repeat split; try lia.
    intros H0. now rewrite (Hexact H0).
  - exists (2 ^ k + rem). rewrite Hpow. repeat split; try lia.
  - exists rem. rewrite Hpow. repeat split; try lia.
    intros H0. now rewrite (Hexact H0).
  - exists (2 ^ k + rem). rewrite Hpow. repeat split; try lia.
Qed.

Lemma shr_shifted (m0 e n : Z) :
  0 <= m0 ->
  shifted m0 (Z.max 0 n) (fst (shr (Build_shr_record m0 false false) e n))
  /\ snd (shr (Build_shr_record m0 false false) e n) = e + Z.max 0 n.
Proof.
  intros Hm. destruct n as [|n|n]; simpl.
  - split; [now apply shifted_start | lia].
  - split; [|lia].
    change (Z.pos n) with (0 + Z.pos n).
    apply (iter_pos_invariant shr_1 (shifted m0)); [|lia|now apply shifted_start].
    intros k x Hk Hx. now apply shifted_step.
  - split; [now apply shifted_start | lia].
Qed.

Lemma round_nearest_even_bounds (q : Z) (l : location) :
  q <= round_nearest_even q l <= q + 1
  /\ (l = loc_Exact -> round_nearest_even q l = q).
Proof.
  destruct l as [|[| |]]; simpl; try destruct (Z.even q); split; try lia; try discriminate; auto.
Qed.

(** The quotient of a first shift to the exponent [fexp] is normal as soon
    as that exponent is above the smallest one. *)
Lemma shifted_normal (m q rem d e k : Z) :
  2 ^ (d - 1) <= m ->
  0 <= k ->
  e + k = fexp 53 1024 (d + e) ->
  m = q * 2 ^ k + rem -> 0 <= rem < 2 ^ k ->
  -1074 < e + k -> 2 ^ 52 <= q.
Proof.
  intros Hd Hk Hfe Hm Hrem Hmin.
  unfold fexp, emin in Hfe.
  assert (Hdk : d - 1 = 52 + k) by lia.
  rewrite Hdk, pow2_split in Hd by lia.
  pose proof (pow2_pos k Hk). nia.
Qed.

(** Rounding a quotient up stays below every representable bound of the
    exact value. *)
Lemma round_up_below (m q q1 rem Y e F c k : Z) :
  0 <= k -> c <= e -> c <= F ->
  m = q * 2 ^ k + rem -> 0 <= rem < 2 ^ k ->
  0 <= q ->
  q <= q1 <= q + 1 -> (rem = 0 -> q1 = q) ->
  0 < Y < 2 ^ 53 ->
  (F < e + k -> 2 ^ 52 <= q) ->
  m * 2 ^ (e - c) <= Y * 2 ^ (F - c) ->
  q1 * 2 ^ (e + k - c) <= Y * 2 ^ (F - c).
Proof.
  intros Hk Hce HcF Hm Hrem Hq Hq1 Hexact HY Hnorm Hle.
  replace (e + k - c) with (k + (e - c)) by lia.
  rewrite pow2_split by lia.
  pose proof (pow2_pos k Hk) as HN.
  pose proof (pow2_pos (e - c) ltac:(lia)) as HP.
  pose proof (pow2_pos (F - c) ltac:(lia)) as HR.
  set (N := 2 ^ k) in *. set (P := 2 ^ (e - c)) in *.
  destruct (Z.eq_dec q1 q) as [->|Hup].
  - assert (q * N <= m) by lia. nia.
  - assert (Hq1' : q1 = q + 1) by lia. subst q1.
    assert (Hrem' : 0 < rem) by (destruct (Z.eq_dec rem 0); [exfalso; auto | lia]).
    destruct (Z_lt_le_dec F (e + k)) as [Hlt|Hge].
    + exfalso. specialize (Hnorm Hlt).
      assert (HNP : N * P = 2 ^ (e + k - F) * 2 ^ (F - c)).
      { unfold N, P. rewrite <- !pow2_split by lia. f_equal. lia. }
      pose proof (pow2_ge_2 (e + k - F) ltac:(lia)) as HH.
      set (H := 2 ^ (e + k - F)) in *. set (R := 2 ^ (F - c)) in *.
      assert (q * (N * P) <= m * P) by nia.
      rewrite HNP in *.
      assert (2 ^ 53 * R <= q * (H * R)).
      { change (2 ^ 53) with (2 ^ 52 * 2). nia. }
      nia.
    + assert (HR' : 2 ^ (F - c) = 2 ^ (F - (e + k)) * (N * P)).
      { unfold N, P. rewrite <- !pow2_split by lia. f_equal. lia. }
      pose proof (pow2_pos (F - (e + k)) ltac:(lia)) as HG.
      rewrite HR' in *. set (G := 2 ^ (F - (e + k))) in *.
      assert (m <= Y * G * N) by nia.
      assert (q < Y * G) by nia.
      nia.
Qed.

Lemma shr_1_nonneg (mrs : shr_record) : 0 <= shr_m mrs -> 0 <= shr_m (shr_1 mrs).
Proof.
  destruct mrs as [[|[p|p|]|p] r s]; unfold shr_1; cbn [shr_m]; lia.
Qed.

Lemma shr_nonneg (mrs : shr_record) (e n : Z) :
  0 <= shr_m mrs -> 0 <= shr_m (fst (shr mrs e n)).
Proof.
  intros Hm. destruct n as [|n|n]; simpl; auto.
  apply (iter_pos_invariant shr_1 (fun _ x => 0 <= shr_m x)) with (k := 0);
    [|lia|exact Hm].
  intros k x _. apply shr_1_nonneg.
Qed.

Lemma shr_record_of_loc_m (m : Z) (l : location) :
  shr_m (shr_record_of_loc m l) = m.
Proof. destruct l as [|[| |]]; reflexivity. Qed.

(** A rounded non-negative mantissa gives a zero, a finite number or an
    infinity of the given sign, never [NaN]. *)
Lemma round_aux_signed (s : bool) (mx e : Z) (l : location) :
  0 <= mx ->
  binary_round_aux 53 1024 s mx e l = S754_zero s
  \/ binary_round_aux 53 1024 s mx e l = S754_infinity s
  \/ exists m' e', binary_round_aux 53 1024 s mx e l = S754_finite s m' e'.
Proof.
  intros Hmx. unfold binary_round_aux, shr_fexp.
  pose proof (shr_nonneg (shr_record_of_loc mx l) e
                (fexp 53 1024 (Zdigits2 mx + e) - e)) as H1.
  rewrite shr_record_of_loc_m in H1. specialize (H1 Hmx).
  destruct (shr (shr_record_of_loc mx l) e _) as [mrs1 e1]. cbn [fst] in H1.
  pose proof (round_nearest_even_bounds (shr_m mrs1) (loc_of_shr_record mrs1))
    as [Hq1 _].
  set (q1 := round_nearest_even (shr_m mrs1) (loc_of_shr_record mrs1)) in *.
  pose proof (shr_nonneg (shr_record_of_loc q1 loc_Exact) e1
                (fexp 53 1024 (Zdigits2 q1 + e1) - e1)) as H2.
  rewrite shr_record_of_loc_m in H2. specialize (H2 ltac:(lia)).
  destruct (shr (shr_record_of_loc q1 loc_Exact) e1 _) as [mrs2 e2].
  cbn [fst] in H2.
  destruct (shr_m mrs2) as [|m2|m2]; [now left| |lia].
  destruct (e2 <=? 1024 - 53); [right; right; now exists m2, e2 | right; now left].
Qed.

(** The rounding of an exact positive value [m * 2^e], presented at an
    exponent not above its canonical one, is a zero or a finite number that
    stays below every representable bound [Y * 2^F] of the exact value. *)
Lemma scaled_above (T m A B R : Z) :
  0 < T -> T <= m -> 0 < A -> 2 <= B -> 0 < R ->
  T * (2 * R) <= m * (A * (B * R)).
Proof.
  intros HT Hm HA HB HR.
  assert (H1 : 2 * R <= B * R) by nia.
  assert (H2 : B * R <= A * (B * R)) by nia.
  apply Z.mul_le_mono_nonneg; lia.
Qed.

Lemma round_aux_bound (s : bool) (m : positive) (e : Z) (Y : positive) (F c : Z) :
  e <= fexp 53 1024 (Zpos (digits2_pos m) + e) ->
  Zpos (digits2_pos Y) <= 53 -> -1074 <= F <= 971 ->
  c <= e -> c <= F ->
  Zpos m * 2 ^ (e - c) <= Zpos Y * 2 ^ (F - c) ->
  binary_round_aux 53 1024 s (Zpos m) e loc_Exact = S754_zero s
  \/ exists m' e',
       binary_round_aux 53 1024 s (Zpos m) e loc_Exact = S754_finite s m' e'
       /\ e <= e'
       /\ Zpos m' * 2 ^ (e' - c) <= Zpos Y * 2 ^ (F - c).
Proof.
  intros Hcanon HdY HF Hce HcF Hle.
  pose proof (digits2_pos_bounds m) as Hd.
  pose proof (digits2_pos_bounds Y) as HdY'.
  assert (HY : 0 < Zpos Y < 2 ^ 53).
  { split; [lia|]. eapply Z.lt_le_trans; [apply HdY'|].
    apply Z.pow_le_mono_r; lia. }
  unfold binary_round_aux, shr_fexp.
  cbn [shr_record_of_loc Zdigits2].
  set (d := Zpos (digits2_pos m)) in *.
  set (n := fexp 53 1024 (d + e) - e).
  destruct (shr_shifted (Zpos m) e n ltac:(lia)) as [[Hq (rem & Hm & Hrem & Hloc)] He1].
  destruct (shr {| shr_m := Zpos m; shr_r := false; shr_s := false |} e n)
    as [mrs1 e1]. cbn [fst snd] in *.
  assert (Hk : Z.max 0 n = n) by (unfold n; lia).
  rewrite Hk in *.
  assert (Hn : 0 <= n) by (unfold n; lia).
  set (q := shr_m mrs1) in *.
  pose proof (round_nearest_even_bounds q (loc_of_shr_record mrs1)) as [Hq1 Hq1e].
  set (q1 := round_nearest_even q (loc_of_shr_record mrs1)) in *.
  assert (Hnormal : -1074 < e + n -> 2 ^ 52 <= q).
  { apply (shifted_normal (Zpos m) q rem d e n); try lia; unfold n; lia. }
  assert (Hmain : q1 * 2 ^ (e + n - c) <= Zpos Y * 2 ^ (F - c)).
  { apply (round_up_below (Zpos m) q q1 rem (Zpos Y) e F c n); auto; try lia. }
  set (n2 := fexp 53 1024 (Zdigits2 q1 + e1) - e1).
  destruct (shr_shifted q1 e1 n2 ltac:(lia)) as [[Hm2 (rem2 & Hq1m & Hrem2 & _)] He2].
  destruct (shr {| shr_m := q1; shr_r := false; shr_s := false |} e1 n2)
    as [mrs2 e2]. cbn [fst snd] in *.
  remember (shr_m mrs2) as m2 eqn:Em2'. set (k2 := Z.max 0 n2) in *.
  assert (Hk2 : 0 <= k2) by (unfold k2; lia).
  pose proof (pow2_pos k2 Hk2) as HN2.
  assert (Hfinal : m2 * 2 ^ (e2 - c) <= Zpos Y * 2 ^ (F - c)).
  { eapply Z.le_trans; [|exact Hmain].
    rewrite He2, He1. replace (e + n + k2 - c) with (k2 + (e + n - c)) by lia.
    rewrite pow2_split by lia.
    pose proof (pow2_pos (e + n - c) ltac:(lia)). nia. }
  destruct m2 as [|m2'|m2']; [now left| |lia].
  right. exists m2', e2.
  assert (Hno : e2 <= 971).
  { destruct (Z_le_gt_dec e2 971) as [|Hbig]; [assumption|exfalso].
    assert (Hm2n : 2 ^ 52 <= Zpos m2').
    { destruct (Z_le_gt_dec n2 0) as [Hn2|Hn2].
      - assert (Hk20 : 2 ^ k2 = 1) by (replace k2 with 0 by (unfold k2; lia); reflexivity).
        rewrite Hk20 in *.
        assert (2 ^ 52 <= q) by (apply Hnormal; unfold k2 in *; lia). lia.
      - assert (Hk2n : k2 = n2) by (unfold k2; lia).
        assert (Hq1pos : 0 < q1) by nia.
        pose proof (Zdigits2_bounds q1 Hq1pos) as Hdq.
        assert (Hdq1 : Zdigits2 q1 - 1 = 52 + k2).
        { rewrite Hk2n. unfold n2, fexp, emin in *. lia. }
        rewrite Hdq1, pow2_split in Hdq by lia. nia. }
    pose proof (pow2_pos (e2 - 972) ltac:(lia)) as HA.
    pose proof (pow2_pos (F - c) ltac:(lia)) as HR.
    pose proof (pow2_ge_2 (972 - F) ltac:(lia)) as HB.
    assert (Hp : 2 ^ (e2 - c) = 2 ^ (e2 - 972) * (2 ^ (972 - F) * 2 ^ (F - c))).
    { rewrite <- (pow2_split (972 - F) (F - c)) by lia.
      rewrite <- (pow2_split (e2 - 972)) by lia. f_equal. lia. }
    rewrite Hp in Hfinal.
    set (A := 2 ^ (e2 - 972)) in *. set (B := 2 ^ (972 - F)) in *.
    set (R := 2 ^ (F - c)) in *.
    assert (HY' : Zpos Y * R < 2 ^ 52 * (2 * R)).
    { change (2 ^ 53) with (2 ^ 52 * 2) in HY. clear - HY HR. nia. }
    assert (2 ^ 52 * (2 * R) <= Zpos m2' * (A * (B * R))); [|lia].
    apply scaled_above; lia. }
  replace (e2 <=? 1024 - 53) with true by (symmetry; apply Z.leb_le; lia).
  repeat split; [lia | exact Hfinal].
Qed.

Lemma binary_round_signed (s : bool) (m : positive) (e : Z) :
  binary_round 53 1024 s m e = S754_zero s
  \/ binary_round 53 1024 s m e = S754_infinity s
  \/ exists m' e', binary_round 53 1024 s m e = S754_finite s m' e'.
Proof.
  unfold binary_round. destruct (shl_align m e _) as [mz ez].
  apply round_aux_signed. lia.
Qed.

Lemma binary_normalize_not_nan (n e : Z) (szero : bool) :
  is_nan (binary_normalize 53 1024 n e szero) = false.
Proof.
  destruct n as [|n|n]; simpl binary_normalize; [reflexivity| |].
  - destruct (binary_round_signed false n e) as [->|[->|(m' & e' & ->)]];
      reflexivity.
  - destruct (binary_round_signed true n e) as [->|[->|(m' & e' & ->)]];
      reflexivity.
Qed.


(* ================================================================== *)
(** ** Numbers as rationals *)

Lemma pow2Q_pos (e : Z) : (0 < 2 ^ e)%Q.
Proof. apply Qpower_0_lt. reflexivity. Qed.

Lemma pow2Q_add (a b : Z) : (2 ^ (a + b) == 2 ^ a * 2 ^ b)%Q.
Proof. apply Qpower_plus. discriminate. Qed.

Lemma pow2Q_of_Z (k : Z) : 0 <= k -> (inject_Z (2 ^ k) == 2 ^ k)%Q.
Proof. intros Hk. exact (Zpower_Qpower 2 k Hk). Qed.

(** A dyadic value brought to a smaller exponent. *)
Lemma rescale (z e c : Z) :
  c <= e -> (inject_Z z * 2 ^ e == inject_Z (z * 2 ^ (e - c)) * 2 ^ c)%Q.
Proof.
  intros Hc. rewrite inject_Z_mult, pow2Q_of_Z by lia.
  replace e with ((e - c) + c) at 1 by lia. rewrite pow2Q_add. ring.
Qed.

Lemma scaled_Qle (z1 e1 z2 e2 c : Z) :
  c <= e1 -> c <= e2 ->
  (inject_Z z1 * 2 ^ e1 <= inject_Z z2 * 2 ^ e2)%Q
  <-> z1 * 2 ^ (e1 - c) <= z2 * 2 ^ (e2 - c).
Proof.
  intros H1 H2. rewrite (rescale z1 e1 c H1), (rescale z2 e2 c H2).
  rewrite Qmult_le_r by apply pow2Q_pos. now rewrite <- Zle_Qle.
Qed.

Lemma scaled_Qlt (z1 e1 z2 e2 c : Z) :
  c <= e1 -> c <= e2 ->
  (inject_Z z1 * 2 ^ e1 < inject_Z z2 * 2 ^ e2)%Q
  <-> z1 * 2 ^ (e1 - c) < z2 * 2 ^ (e2 - c).
Proof.
  intros H1 H2. rewrite (rescale z1 e1 c H1), (rescale z2 e2 c H2).
  rewrite Qmult_lt_r by apply pow2Q_pos. now rewrite <- Zlt_Qlt.
Qed.

Lemma scaled_Qcompare (z1 e1 z2 e2 c : Z) :
  c <= e1 -> c <= e2 ->
  (inject_Z z1 * 2 ^ e1 ?= inject_Z z2 * 2 ^ e2)%Q
  = (z1 * 2 ^ (e1 - c) ?= z2 * 2 ^ (e2 - c)).
Proof.
  intros H1 H2.
  destruct (Z.compare_spec (z1 * 2 ^ (e1 - c)) (z2 * 2 ^ (e2 - c))) as [H|H|H].
  - apply Qeq_alt. rewrite (rescale z1 e1 c H1), (rescale z2 e2 c H2), H.
    reflexivity.
  - apply Qlt_alt. now apply (scaled_Qlt z1 e1 z2 e2 c).
  - apply Qgt_alt. now apply (scaled_Qlt z2 e2 z1 e1 c).
Qed.

Lemma value_zero_form (e : Z) : (0 == inject_Z 0 * 2 ^ e)%Q.
Proof. ring. Qed.

(** On zeros and finite numbers, [compare] is the order of the values. *)
Lemma compare_finite (x y : number) :
  finite x = true -> finite y = true ->
  compare x y = Some (value x ?= value y)%Q.
Proof.
  destruct x as [sx| | |sx mx ex], y as [sy| | |sy my ey];
    try discriminate; intros _ _; simpl.
  - reflexivity.
  - rewrite (value_zero_form ey), (scaled_Qcompare 0 ey (signed sy my) ey ey) by lia.
    rewrite Z.sub_diag. destruct sy; reflexivity.
  - rewrite (value_zero_form ex), (scaled_Qcompare (signed sx mx) ex 0 ex ex) by lia.
    rewrite Z.sub_diag. destruct sx; reflexivity.
  - now rewrite (scaled_Qcompare (signed sx mx) ex (signed sy my) ey (Z.min ex ey)) by lia.
Qed.

Lemma leb_value (x y : number) :
  finite x = true -> finite y = true ->
  (leb x y = true <-> (value x <= value y)%Q).
Proof.
  intros Hx Hy. unfold leb. rewrite (compare_finite x y Hx Hy), Qle_alt.
  destruct (value x ?= value y)%Q; split; congruence.
Qed.

Lemma ltb_value (x y : number) :
  finite x = true -> finite y = true ->
  (ltb x y = true <-> (value x < value y)%Q).
Proof.
  intros Hx Hy. unfold ltb. rewrite (compare_finite x y Hx Hy), Qlt_alt.
  destruct (value x ?= value y)%Q; split; congruence.
Qed.

Lemma gtb_value (x y : number) :
  finite x = true -> finite y = true ->
  (gtb x y = true <-> (value y < value x)%Q).
Proof.
  intros Hx Hy. unfold gtb. rewrite (compare_finite x y Hx Hy).
  rewrite (Qgt_alt (value x) (value y)).
  destruct (value x ?= value y)%Q; split; congruence.
Qed.

Lemma nonneg_finite (x : number) : nonneg x = true -> finite x = true.
Proof. destruct x as [[]| | |[] m e]; simpl; congruence. Qed.

Lemma nonneg_value (x : number) : nonneg x = true -> (0 <= value x)%Q.
Proof.
  destruct x as [[]| | |[] m e]; simpl; try congruence; intros _; try lra.
  apply Qmult_le_0_compat; [|apply Qlt_le_weak, pow2Q_pos].
  change 0%Q with (inject_Z 0). rewrite <- Zle_Qle. unfold signed. simpl. lia.
Qed.

Lemma bound_nonneg (Y : positive) (F : Z) :
  (0 <= value (S754_finite false Y F))%Q.
Proof. now apply nonneg_value. Qed.

Lemma signed_true_value (m : positive) (e : Z) :
  (value (S754_finite true m e) <= 0)%Q.
Proof.
  cbn [value signed cond_Zopp].
  assert (H : (0 <= inject_Z (Zpos m) * 2 ^ e)%Q).
  { apply Qmult_le_0_compat; [|apply Qlt_le_weak, pow2Q_pos].
    change 0%Q with (inject_Z 0). rewrite <- Zle_Qle. lia. }
  change (Z.neg m) with (- Zpos m). rewrite inject_Z_opp. lra.
Qed.

(** Among canonical numbers the one with the smaller exponent is the
    smaller one. *)
Lemma canonical_exponent_order (m1 m2 : positive) (e1 e2 : Z) :
  canonical_mantissa 53 1024 m1 e1 = true ->
  canonical_mantissa 53 1024 m2 e2 = true ->
  e1 < e2 ->
  Zpos m1 * 2 ^ (e1 - Z.min e1 e2) < Zpos m2 * 2 ^ (e2 - Z.min e1 e2).
Proof.
  unfold canonical_mantissa, fexp, emin. rewrite !Z.eqb_eq.
  intros H1 H2 Hlt.
  pose proof (digits2_pos_bounds m1) as Hd1.
  pose proof (digits2_pos_bounds m2) as Hd2.
  replace (Z.min e1 e2) with e1 by lia. rewrite Z.sub_diag, Z.mul_1_r.
  assert (Hd2' : Zpos (digits2_pos m2) = 53) by lia.
  rewrite Hd2' in Hd2. change (2 ^ (53 - 1)) with (2 ^ 52) in Hd2.
  assert (Hm1 : Zpos m1 < 2 ^ 53).
  { eapply Z.lt_le_trans; [apply Hd1|]. apply Z.pow_le_mono_r; lia. }
  pose proof (pow2_ge_2 (e2 - e1) ltac:(lia)) as Hp.
  change (2 ^ 53) with (2 ^ 52 * 2) in Hm1.
  set (T := 2 ^ 52) in *. clearbody T. nia.
Qed.

(** On valid binary64 numbers [compare] is [SFcompare]. *)
Lemma compare_SFcompare (x y : number) :
  valid_binary 53 1024 x = true -> valid_binary 53 1024 y = true ->
  compare x y = SFcompare x y.
Proof.
  destruct x as [sx|sx| |sx mx ex], y as [sy|sy| |sy my ey];
    try reflexivity; try (destruct sx, sy; reflexivity).
  cbn [valid_binary]. unfold bounded. rewrite !andb_true_iff.
  intros [Hx _] [Hy _]. cbn [compare SFcompare]. f_equal.
  change (Pos.compare_cont Eq mx my) with (Pos.compare mx my).
  pose proof (pow2_pos (ex - Z.min ex ey) ltac:(lia)) as Hpx.
  pose proof (pow2_pos (ey - Z.min ex ey) ltac:(lia)) as Hpy.
  destruct sx, sy; cbn [signed cond_Zopp].
  - (* both negative *)
    destruct (Z.compare_spec ex ey) as [->|Hlt|Hgt].
    + rewrite Z.min_id, Z.sub_diag, !Z.mul_1_r.
      change (Z.neg mx) with (- Zpos mx). change (Z.neg my) with (- Zpos my).
      rewrite Z.compare_opp, Pos2Z.inj_compare, <- Z.compare_antisym.
      reflexivity.
    + pose proof (canonical_exponent_order mx my ex ey Hx Hy Hlt).
      apply Z.compare_gt_iff. lia.
    + pose proof (canonical_exponent_order my mx ey ex Hy Hx Hgt) as H.
      rewrite (Z.min_comm ey ex) in H. apply Z.compare_lt_iff. lia.
  - apply Z.compare_lt_iff. lia.
  - apply Z.compare_gt_iff. lia.
  - (* both positive *)
    destruct (Z.compare_spec ex ey) as [->|Hlt|Hgt].
    + rewrite Z.min_id, Z.sub_diag, !Z.mul_1_r. now rewrite Pos2Z.inj_compare.
    + pose proof (canonical_exponent_order mx my ex ey Hx Hy Hlt).
      apply Z.compare_lt_iff. lia.
    + pose proof (canonical_exponent_order my mx ey ex Hy Hx Hgt) as H.
      rewrite (Z.min_comm ey ex) in H. apply Z.compare_gt_iff. lia.
Qed.


(* ================================================================== *)
(** ** Upper bounds of rounded results *)

Lemma shift_xO (mx d : positive) :
  Zpos (Pos.iter xO mx d) = Zpos mx * 2 ^ Zpos d
  /\ Zpos (digits2_pos (Pos.iter xO mx d)) = Zpos (digits2_pos mx) + Zpos d.
Proof.
  apply (Pos.iter_ind positive xO mx
           (fun d r => Zpos r = Zpos mx * 2 ^ Zpos d
                       /\ Zpos (digits2_pos r) = Zpos (digits2_pos mx) + Zpos d)).
  - split; [lia | simpl digits2_pos; lia].
  - intros p r [Hr Hd]. rewrite Pos2Z.inj_succ, Z.pow_succ_r by lia.
    split; [lia | simpl digits2_pos; lia].
Qed.

(** Alignment to a smaller exponent keeps the value and the position of the
    leading digit. *)
Lemma shl_align_spec (mx : positive) (ex ex' : Z) :
  let '(m', e') := shl_align mx ex ex' in
  e' = Z.min ex ex'
  /\ Zpos m' = Zpos mx * 2 ^ (ex - e')
  /\ Zpos (digits2_pos m') + e' = Zpos (digits2_pos mx) + ex.
Proof.
  unfold shl_align. destruct (ex' - ex) as [|d|d] eqn:Hd.
  - replace (Z.min ex ex') with ex by lia. rewrite Z.sub_diag. lia.
  - replace (Z.min ex ex') with ex by lia. rewrite Z.sub_diag. lia.
  - destruct (shift_xO mx d) as [Hm Hdig].
    replace (Z.min ex ex') with ex' by lia.
    replace (ex - ex') with (Zpos d) by lia. lia.
Qed.

Lemma representable_spec (Y : positive) (F : Z) :
  representable Y F = true ->
  Zpos (digits2_pos Y) <= 53 /\ -1074 <= F <= 971.
Proof.
  unfold representable. rewrite !andb_true_iff, !Z.leb_le. lia.
Qed.

Lemma round_aux_below (s : bool) (m : positive) (e : Z) (Y : positive) (F : Z) :
  e <= fexp 53 1024 (Zpos (digits2_pos m) + e) ->
  representable Y F = true ->
  (inject_Z (Zpos m) * 2 ^ e <= inject_Z (Zpos Y) * 2 ^ F)%Q ->
  rounded_below s Y F (binary_round_aux 53 1024 s (Zpos m) e loc_Exact).
Proof.
  intros Hcanon Hrep Hle. apply representable_spec in Hrep as [HdY HF].
  apply (scaled_Qle _ _ _ _ (Z.min e F)) in Hle; try lia.
  destruct (round_aux_bound s m e Y F (Z.min e F) Hcanon HdY HF
              ltac:(lia) ltac:(lia) Hle) as [H0|(m' & e' & Hr & He & Hb)].
  - now left.
  - right. exists m', e'. split; [exact Hr|].
    apply (scaled_Qle _ _ _ _ (Z.min e F)); lia.
Qed.

Lemma binary_round_below (s : bool) (m : positive) (e : Z) (Y : positive) (F : Z) :
  representable Y F = true ->
  (inject_Z (Zpos m) * 2 ^ e <= inject_Z (Zpos Y) * 2 ^ F)%Q ->
  rounded_below s Y F (binary_round 53 1024 s m e).
Proof.
  intros Hrep Hle. unfold binary_round.
  pose proof (shl_align_spec m e (fexp 53 1024 (Zpos (digits2_pos m) + e))) as Hal.
  destruct (shl_align m e _) as [mz ez]. destruct Hal as (Hez & Hmz & Hdig).
  apply round_aux_below; [rewrite Hdig; lia | exact Hrep |].
  rewrite Hmz. rewrite <- (rescale (Zpos m) e ez) by lia. exact Hle.
Qed.

Lemma binary_normalize_below (n e : Z) (Y : positive) (F : Z) :
  0 <= n ->
  representable Y F = true ->
  (inject_Z n * 2 ^ e <= inject_Z (Zpos Y) * 2 ^ F)%Q ->
  below (binary_normalize 53 1024 n e false) (value (S754_finite false Y F)).
Proof.
  intros Hn Hrep Hle. destruct n as [|n|n]; [| |lia]; simpl binary_normalize.
  - split; [reflexivity|]. simpl.
    apply Qmult_le_0_compat; [|apply Qlt_le_weak, pow2Q_pos].
    change 0%Q with (inject_Z 0). rewrite <- Zle_Qle. lia.
  - destruct (binary_round_below false n e Y F Hrep Hle)
      as [->|(m' & e' & -> & Hb)].
    + split; [reflexivity|]. simpl.
      apply Qmult_le_0_compat; [|apply Qlt_le_weak, pow2Q_pos].
      change 0%Q with (inject_Z 0). rewrite <- Zle_Qle. lia.
    + split; [reflexivity | exact Hb].
Qed.

(** An integer below a representable bound. *)
Lemma of_Z_below (n : Z) (Y : positive) (F : Z) :
  0 <= n ->
  representable Y F = true ->
  (inject_Z n <= value (S754_finite false Y F))%Q ->
  below (of_Z n) (value (S754_finite false Y F)).
Proof.
  intros Hn Hrep Hle. unfold of_Z, Number.prec, Number.emax.
  apply binary_normalize_below; auto.
  change (2 ^ 0)%Q with 1%Q. rewrite Qmult_1_r. exact Hle.
Qed.

(** A product with a positive normal constant. *)
Lemma mul_below (x : number) (X : Q) (mc : positive) (ec : Z)
  (Y : positive) (F : Z) :
  below x X ->
  53 <= Zpos (digits2_pos mc) ->
  representable Y F = true ->
  (X * value (S754_finite false mc ec) <= value (S754_finite false Y F))%Q ->
  below (mul x (S754_finite false mc ec)) (value (S754_finite false Y F)).
Proof.
  intros [Hx HxX] Hmc Hrep Hle.
  destruct x as [[]| | |[] mx ex]; try discriminate.
  - split; [reflexivity | apply bound_nonneg].
  - unfold mul, SFmul, Number.prec, Number.emax. cbn [xorb].
    assert (Hc : (0 <= value (S754_finite false mc ec))%Q) by apply bound_nonneg.
    assert (Hexact : (inject_Z (Zpos (mx * mc)) * 2 ^ (ex + ec)
                      <= inject_Z (Zpos Y) * 2 ^ F)%Q).
    { eapply Qle_trans; [|exact Hle].
      eapply Qle_trans; [|apply Qmult_le_compat_r; [exact HxX | exact Hc]].
      cbn [value signed cond_Zopp]. rewrite Pos2Z.inj_mul, inject_Z_mult, pow2Q_add.
      apply Qle_lteq. right. ring. }
    assert (Hcanon : ex + ec <= fexp 53 1024 (Zpos (digits2_pos (mx * mc)) + (ex + ec))).
    { pose proof (digits2_pos_bounds mc) as Hdc.
      pose proof (digits2_pos_bounds (mx * mc)) as Hdp.
      assert (2 ^ 52 <= Zpos mc).
      { eapply Z.le_trans; [|apply Hdc]. apply Z.pow_le_mono_r; lia. }
      assert (2 ^ 52 < 2 ^ Zpos (digits2_pos (mx * mc))) by nia.
      assert (52 < Zpos (digits2_pos (mx * mc))).
      { apply (Z.pow_lt_mono_r_iff 2); lia. }
      unfold fexp. lia. }
    destruct (round_aux_below false (mx * mc) (ex + ec) Y F Hcanon Hrep Hexact)
      as [->|(m' & e' & -> & Hb)].
    + split; [reflexivity | apply bound_nonneg].
    + split; [reflexivity | exact Hb].
Qed.

(** A sum of two non-negative numbers. *)
Lemma add_below (x y : number) (X1 X2 : Q) (Y : positive) (F : Z) :
  below x X1 -> below y X2 ->
  representable Y F = true ->
  (X1 + X2 <= value (S754_finite false Y F))%Q ->
  below (add x y) (value (S754_finite false Y F)).
Proof.
  intros [Hx HxX] [Hy HyX] Hrep Hle.
  pose proof (nonneg_value x Hx) as Hx0.
  pose proof (nonneg_value y Hy) as Hy0.
  destruct x as [[]| | |[] mx ex]; try discriminate;
    destruct y as [[]| | |[] my ey]; try discriminate.
  - split; [reflexivity | apply bound_nonneg].
  - change (value (S754_zero false)) with 0%Q in *.
    unfold add, SFadd. split; [reflexivity | lra].
  - change (value (S754_zero false)) with 0%Q in *.
    unfold add, SFadd. split; [reflexivity | lra].
  - unfold add, SFadd, Number.prec, Number.emax. cbn [cond_Zopp].
    pose proof (shl_align_spec mx ex (Z.min ex ey)) as Hax.
    pose proof (shl_align_spec my ey (Z.min ex ey)) as Hay.
    destruct (shl_align mx ex (Z.min ex ey)) as [mx' ex'].
    destruct (shl_align my ey (Z.min ex ey)) as [my' ey'].
    destruct Hax as (Hex' & Hmx' & _). destruct Hay as (Hey' & Hmy' & _).
    cbn [fst].
    apply binary_normalize_below; [lia | exact Hrep |].
    eapply Qle_trans; [|exact Hle].
    eapply Qle_trans; [|apply Qplus_le_compat; [exact HxX | exact HyX]].
    cbn [value signed cond_Zopp].
    rewrite (rescale (Zpos mx) ex (Z.min ex ey)) by lia.
    rewrite (rescale (Zpos my) ey (Z.min ex ey)) by lia.
    rewrite inject_Z_plus, Hmx', Hmy'.
    replace (ex - ex') with (ex - Z.min ex ey) by lia.
    replace (ey - ey') with (ey - Z.min ex ey) by lia.
    apply Qle_lteq. right. ring.
Qed.

(** The complement [1 - p] of a non-negative number not above 1. *)
Lemma sub_one_below (p : number) :
  below p 1 -> below (sub (of_Z 1) p) 1.
Proof.
  intros [Hp Hp1].
  assert (H1 : (value (S754_finite false 4503599627370496 (-52)) == 1)%Q)
    by reflexivity.
  change (of_Z 1) with (S754_finite false 4503599627370496 (-52)).
  destruct p as [[]| | |[] mp ep]; try discriminate.
  - split; [reflexivity | rewrite H1; lra].
  - unfold sub, SFsub, Number.prec, Number.emax. cbn [cond_Zopp].
    pose proof (shl_align_spec 4503599627370496 (-52) (Z.min (-52) ep)) as Ha1.
    pose proof (shl_align_spec mp ep (Z.min (-52) ep)) as Hap.
    destruct (shl_align 4503599627370496 (-52) (Z.min (-52) ep)) as [m1' e1'].
    destruct (shl_align mp ep (Z.min (-52) ep)) as [mp' ep'].
    destruct Ha1 as (He1' & Hm1' & _). destruct Hap as (Hep' & Hmp' & _).
    cbn [fst].
    replace (- 52 - e1') with (-52 - Z.min (-52) ep) in Hm1' by lia.
    replace (ep - ep') with (ep - Z.min (-52) ep) in Hmp' by lia.
    assert (Hone : (1 == inject_Z (Zpos 4503599627370496) * 2 ^ (-52))%Q)
      by reflexivity.
    cbn [value signed cond_Zopp] in Hp1.
    assert (Hord : Zpos mp' <= Zpos m1').
    { rewrite Hmp', Hm1'.
      apply (scaled_Qle _ _ _ _ (Z.min (-52) ep)); [lia | lia |].
      now rewrite <- Hone. }
    assert (Hexact : (inject_Z (Zpos m1' - Zpos mp') * 2 ^ Z.min (-52) ep
                      <= inject_Z (Zpos 4503599627370496) * 2 ^ (-52))%Q).
    { rewrite (rescale (Zpos 4503599627370496) (-52) (Z.min (-52) ep)) by lia.
      rewrite <- Hm1'.
      apply Qmult_le_compat_r; [|apply Qlt_le_weak, pow2Q_pos].
      rewrite <- Zle_Qle. lia. }
    destruct (binary_normalize_below (Zpos m1' - Zpos mp') (Z.min (-52) ep)
                4503599627370496 (-52) ltac:(lia) eq_refl Hexact) as [Hnn Hv].
    split; [exact Hnn | now rewrite H1 in Hv].
Qed.


(* ================================================================== *)
(** ** Signs and infinities *)

Lemma of_Z_nonneg_or_inf (n : Z) : 0 <= n -> nonneg_or_inf (of_Z n) = true.
Proof.
  intros Hn. unfold of_Z, Number.prec, Number.emax.
  destruct n as [|n|n]; [reflexivity| |lia]. simpl binary_normalize.
  destruct (binary_round_signed false n 0) as [->|[->|(m' & e' & ->)]];
    reflexivity.
Qed.

Lemma mul_nonneg_or_inf (x : number) (mc : positive) (ec : Z) :
  nonneg_or_inf x = true ->
  nonneg_or_inf (mul x (S754_finite false mc ec)) = true.
Proof.
  destruct x as [[]|[]| |[] mx ex]; try discriminate; intros _;
    try reflexivity.
  unfold mul, SFmul, Number.prec, Number.emax. cbn [xorb].
  destruct (round_aux_signed false (Zpos (mx * mc)) (ex + ec) loc_Exact
              ltac:(lia)) as [->|[->|(m' & e' & ->)]]; reflexivity.
Qed.

Lemma div_nonneg_or_inf (x : number) (mc : positive) (ec : Z) :
  nonneg_or_inf x = true ->
  nonneg_or_inf (div x (S754_finite false mc ec)) = true.
Proof.
  destruct x as [[]|[]| |[] mx ex]; try discriminate; intros _;
    try reflexivity.
  unfold div, SFdiv, SFdiv_core_binary, Number.prec, Number.emax. cbn [xorb].
  set (s := ex - ec - _).
  set (m' := match s with Z0 => Zpos mx | Zpos _ => Z.shiftl (Zpos mx) s | Zneg _ => 0 end).
  assert (Hm' : 0 <= m').
  { unfold m'. destruct s; try lia. apply Z.shiftl_nonneg. lia. }
  pose proof (Z.div_pos m' (Zpos mc) Hm' ltac:(lia)) as Hq.
  unfold Z.div in Hq. destruct (Z.div_eucl m' (Zpos mc)) as [q r].
  destruct (round_aux_signed false q
              (Z.min (fexp 53 1024 (Zdigits2 (Zpos mx) + ex - (Zdigits2 (Zpos mc) + ec)))
                     (ex - ec))
              (new_location (Zpos mc) r) Hq) as [->|[->|(m2 & e2 & ->)]];
    reflexivity.
Qed.

Lemma mul_count (x c : number) :
  positive_finite c = true -> nonneg_or_inf x = true ->
  nonneg_or_inf (mul x c) = true.
Proof.
  destruct c as [| | |[] mc ec]; try discriminate. intros _.
  apply mul_nonneg_or_inf.
Qed.

Lemma div_count (x c : number) :
  positive_finite c = true -> nonneg_or_inf x = true ->
  nonneg_or_inf (div x c) = true.
Proof.
  destruct c as [| | |[] mc ec]; try discriminate. intros _.
  apply div_nonneg_or_inf.
Qed.

(** Taking a count term away from a capped number leaves it capped. *)
Lemma sub_capped (x y : number) (Y : positive) (F : Z) :
  capped x (value (S754_finite false Y F)) ->
  nonneg_or_inf y = true ->
  representable Y F = true ->
  capped (sub x y) (value (S754_finite false Y F)).
Proof.
  intros Hx Hy Hrep.
  pose proof (bound_nonneg Y F) as Hb.
  destruct Hx as [->|[Hfin Hle]].
  { left. destruct y as [[]|[]| |[] my ey]; try discriminate; reflexivity. }
  destruct y as [[]|[]| |[] my ey]; try discriminate.
  - (* y = +0 *)
    right. destruct x as [[]| | |sx mx ex]; try discriminate;
      (split; [reflexivity | exact Hle || exact Hb]).
  - (* y = +Infinity *)
    left. destruct x as [sx| | |sx mx ex]; try discriminate; reflexivity.
  - (* y finite *)
    destruct x as [sx| | |sx mx ex]; try discriminate.
    + right. split; [reflexivity|].
      change (sub (S754_zero sx) (S754_finite false my ey))
        with (S754_finite true my ey).
      pose proof (signed_true_value my ey). lra.
    + unfold sub, SFsub, Number.prec, Number.emax.
      pose proof (shl_align_spec mx ex (Z.min ex ey)) as Hax.
      pose proof (shl_align_spec my ey (Z.min ex ey)) as Hay.
      destruct (shl_align mx ex (Z.min ex ey)) as [mx' ex'].
      destruct (shl_align my ey (Z.min ex ey)) as [my' ey'].
      destruct Hax as (Hex' & Hmx' & _). destruct Hay as (Hey' & Hmy' & _).
      cbn [fst cond_Zopp].
      set (D := cond_Zopp sx (Zpos mx') - Zpos my').
      destruct (Z_lt_le_dec D 0) as [Hneg|Hpos].
      * destruct D as [|D'|D'] eqn:ED; try lia. simpl binary_normalize.
        destruct (binary_round_signed true D' (Z.min ex ey))
          as [->|[->|(m' & e' & ->)]].
        -- right. split; [reflexivity | exact Hb].
        -- now left.
        -- right. split; [reflexivity|].
           pose proof (signed_true_value m' e'). lra.
      * right.
        assert (Hexact : (inject_Z D * 2 ^ Z.min ex ey
                          <= inject_Z (Zpos Y) * 2 ^ F)%Q).
        { eapply Qle_trans; [|exact Hle].
          cbn [value signed].
          rewrite (rescale (cond_Zopp sx (Zpos mx)) ex (Z.min ex ey)) by lia.
          apply Qmult_le_compat_r; [|apply Qlt_le_weak, pow2Q_pos].
          rewrite <- Zle_Qle. unfold D.
          replace (ex - ex') with (ex - Z.min ex ey) in Hmx' by lia.
          destruct sx; cbn [cond_Zopp] in *; nia. }
        destruct (binary_normalize_below D (Z.min ex ey) Y F Hpos Hrep Hexact)
          as [Hnn Hv].
        split; [now apply nonneg_finite | exact Hv].
Qed.

Lemma sub_count (x y b : number) :
  representable_number b = true ->
  capped x (value b) -> nonneg_or_inf y = true ->
  capped (sub x y) (value b).
Proof.
  destruct b as [| | |[] Y F]; try discriminate. intros Hrep Hx Hy.
  now apply sub_capped.
Qed.

(** Adding a finite number to a capped one never gives [NaN]. *)
Lemma add_capped_not_nan (x y : number) (b : Q) :
  capped x b -> finite y = true -> is_nan (add x y) = false.
Proof.
  intros [->|[Hx _]] Hy.
  - destruct y as [sy| | |sy my ey]; try discriminate; reflexivity.
  - destruct x as [[]| | |sx mx ex]; try discriminate;
      destruct y as [[]| | |sy my ey]; try discriminate; try reflexivity.
    unfold add, SFadd, Number.prec, Number.emax.
    apply binary_normalize_not_nan.
Qed.



(* ================================================================== *)
(** ** The [Math] functions *)

Lemma half_form (k : Z) : (inject_Z k + (1 # 2) == inject_Z (2 * k + 1) * 2 ^ (-1))%Q.
Proof.
  rewrite inject_Z_plus, inject_Z_mult. change (2 ^ (-1))%Q with (1 # 2)%Q.
  change (inject_Z 2) with 2%Q. change (inject_Z 1) with 1%Q. field.
Qed.

Lemma int_form (k : Z) : (inject_Z k == inject_Z k * 2 ^ 0)%Q.
Proof. change (2 ^ 0)%Q with 1%Q. ring. Qed.

(** [floor (v + 1/2) <= k] as soon as [v < k + 1/2]. *)
Lemma round_half_up_le (s : bool) (m : positive) (e k : Z) :
  (value (S754_finite s m e) < inject_Z k + (1 # 2))%Q ->
  round_half_up s m e <= k.
Proof.
  cbn [value]. set (z := signed s m). intros Hlt.
  unfold round_half_up. fold z. destruct (0 <=? e) eqn:He.
  - apply Z.leb_le in He.
    assert (Hk : (inject_Z k + (1 # 2) <= inject_Z (k + 1))%Q).
    { rewrite inject_Z_plus. change (inject_Z 1) with 1%Q. lra. }
    assert (Hlt' : (inject_Z z * 2 ^ e < inject_Z (k + 1) * 2 ^ 0)%Q).
    { rewrite <- int_form. lra. }
    apply (scaled_Qlt _ _ _ _ 0) in Hlt'; try lia.
    rewrite Z.sub_0_r, Z.sub_diag, Z.mul_1_r in Hlt'. lia.
  - apply Z.leb_gt in He.
    rewrite half_form in Hlt.
    apply (scaled_Qlt _ _ _ _ e) in Hlt; try lia.
    rewrite Z.sub_diag, Z.mul_1_r in Hlt.
    pose proof (pow2_pos (-1 - e) ltac:(lia)) as HW.
    assert (H1 : 2 ^ (- e) = 2 * 2 ^ (-1 - e)).
    { replace (- e) with (1 + (-1 - e)) by lia. now rewrite pow2_split by lia. }
    assert (H2 : 2 ^ (1 - e) = 4 * 2 ^ (-1 - e)).
    { replace (1 - e) with (2 + (-1 - e)) by lia. now rewrite pow2_split by lia. }
    rewrite H1, H2. set (W := 2 ^ (-1 - e)) in *.
    apply Z.lt_succ_r. apply Z.div_lt_upper_bound; [lia|]. nia.
Qed.

(** [k <= floor (v + 1/2)] as soon as [k <= v]. *)
Lemma round_half_up_ge (s : bool) (m : positive) (e k : Z) :
  (inject_Z k <= value (S754_finite s m e))%Q ->
  k <= round_half_up s m e.
Proof.
  cbn [value]. set (z := signed s m). intros Hle.
  unfold round_half_up. fold z. rewrite (int_form k) in Hle.
  destruct (0 <=? e) eqn:He.
  - apply Z.leb_le in He.
    apply (scaled_Qle _ _ _ _ 0) in Hle; try lia.
    rewrite !Z.sub_0_r in Hle. change (2 ^ 0) with 1 in Hle. lia.
  - apply Z.leb_gt in He.
    apply (scaled_Qle _ _ _ _ e) in Hle; try lia.
    rewrite Z.sub_diag, Z.sub_0_l in Hle. change (2 ^ 0) with 1 in Hle.
    pose proof (pow2_pos (- e) ltac:(lia)) as HW.
    assert (H2 : 2 ^ (1 - e) = 2 * 2 ^ (- e)).
    { replace (1 - e) with (1 + (- e)) by lia. now rewrite pow2_split by lia. }
    rewrite H2. set (W := 2 ^ (- e)) in *.
    apply Z.div_le_lower_bound; [lia|]. nia.
Qed.

(** The rounding of a non-negative number below [k + 1/2] is an integer
    from 0 to [k]. *)
Lemma Math_round_below (x : number) (b : Q) (k : Z) :
  below x b -> (b < inject_Z k + (1 # 2))%Q ->
  exists j, 0 <= j <= k /\ Math_round x = of_Z j.
Proof.
  intros [Hx Hb] Hk. pose proof (nonneg_value x Hx) as H0.
  destruct x as [[]| | |[] m e]; try discriminate.
  - exists 0. split; [|reflexivity]. split; [lia|].
    change (value (S754_zero false)) with 0%Q in *.
    assert (Hlt : (inject_Z (-1) < inject_Z k)%Q).
    { change (inject_Z (-1)) with (-1)%Q. lra. }
    rewrite <- Zlt_Qlt in Hlt. lia.
  - exists (round_half_up false m e). split.
    + split; [now apply round_half_up_ge | apply round_half_up_le; lra].
    + unfold Math_round. destruct (round_half_up false m e =? 0) eqn:Hn;
        [|reflexivity].
      apply Z.eqb_eq in Hn. now rewrite Hn.
Qed.

(** The rounding of a finite number between two positive integers. *)
Lemma Math_round_between (x : number) (lo hi : Z) :
  finite x = true -> 0 < lo ->
  (inject_Z lo <= value x)%Q -> (value x <= inject_Z hi)%Q ->
  exists j, lo <= j <= hi /\ Math_round x = of_Z j.
Proof.
  intros Hx Hlo Hle Hhi.
  destruct x as [sx| | |sx m e]; try discriminate.
  - exfalso. change (value (S754_zero sx)) with (inject_Z 0) in Hle.
    rewrite <- Zle_Qle in Hle. lia.
  - exists (round_half_up sx m e).
    assert (Hj : lo <= round_half_up sx m e <= hi).
    { split; [now apply round_half_up_ge | apply round_half_up_le; lra]. }
    split; [exact Hj|].
    unfold Math_round. destruct (round_half_up sx m e =? 0) eqn:Hn;
      [|reflexivity].
    apply Z.eqb_eq in Hn. lia.
Qed.

Lemma Math_min_finite (a x : number) :
  positive_finite a = true -> finite x = true ->
  Math_min a x = match (value a ?= value x)%Q with Lt => a | _ => x end.
Proof.
  intros Ha Hx. unfold Math_min.
  rewrite (compare_finite a x); [|destruct a as [| | |[]]; easy | exact Hx].
  destruct (value a ?= value x)%Q; try reflexivity.
  destruct a as [| | |[]]; easy.
Qed.

Lemma Math_max_finite (a x : number) :
  positive_finite a = true -> finite x = true ->
  Math_max a x = match (value a ?= value x)%Q with Gt => a | _ => x end.
Proof.
  intros Ha Hx. unfold Math_max.
  rewrite (compare_finite a x); [|destruct a as [| | |[]]; easy | exact Hx].
  destruct (value a ?= value x)%Q; try reflexivity.
  destruct a as [| | |[]]; easy.
Qed.

(** [Math.min(d, 15)] of a count quotient is finite. *)
Lemma min_15_below (d : number) :
  nonneg_or_inf d = true -> below (Math_min d (of_Z 15)) 15.
Proof.
  assert (H15 : (value (of_Z 15) == 15)%Q) by reflexivity.
  destruct d as [[]|[]| |[] md ed]; try discriminate; intros _.
  - split; [reflexivity | vm_compute; discriminate].
  - split; [reflexivity | vm_compute; discriminate].
  - unfold Math_min.
    rewrite (compare_finite (S754_finite false md ed) (of_Z 15) eq_refl eq_refl).
    destruct (Qcompare_spec (value (S754_finite false md ed)) (value (of_Z 15)))
      as [H|H|H].
    + split; [reflexivity | vm_compute; discriminate].
    + split; [reflexivity | lra].
    + split; [reflexivity | vm_compute; discriminate].
Qed.

(** [Math.max(30, Math.min(85, x))] is the clamp of [x] to [[30,85]], for
    every number [x]. *)
Lemma clamp_code (x : number) :
  Math_max (of_Z 30) (Math_min (of_Z 85) x) = clamp x (of_Z 30) (of_Z 85).
Proof.
  assert (H30 : (value (of_Z 30) == 30)%Q) by reflexivity.
  assert (H85 : (value (of_Z 85) == 85)%Q) by reflexivity.
  destruct (finite x) eqn:Hx;
    [|destruct x as [|[]| |]; try discriminate; reflexivity].
  unfold clamp, ltb, gtb.
  rewrite (compare_finite x (of_Z 30) Hx eq_refl).
  rewrite (compare_finite x (of_Z 85) Hx eq_refl).
  rewrite (Math_min_finite (of_Z 85) x eq_refl Hx).
  destruct (Qcompare_spec (value (of_Z 85)) (value x)) as [Ha|Ha|Ha];
    destruct (Qcompare_spec (value x) (value (of_Z 30))) as [Hb|Hb|Hb];
    destruct (Qcompare_spec (value x) (value (of_Z 85))) as [Hc|Hc|Hc];
    try (exfalso; lra); try reflexivity;
    rewrite (Math_max_finite (of_Z 30) x eq_refl Hx);
    destruct (Qcompare_spec (value (of_Z 30)) (value x)) as [Hd|Hd|Hd];
    try (exfalso; lra); reflexivity.
Qed.

(** The rounded clamp of a number other than [NaN] is an integer of
    [[30,85]]. *)
Lemma clamp_round_integer (x : number) :
  is_nan x = false ->
  exists j, 30 <= j <= 85
    /\ Math_round (clamp x (of_Z 30) (of_Z 85)) = of_Z j.
Proof.
  intros Hnan.
  assert (H30 : (value (of_Z 30) == 30)%Q) by reflexivity.
  assert (H85 : (value (of_Z 85) == 85)%Q) by reflexivity.
  destruct (finite x) eqn:Hx.
  - unfold clamp. destruct (ltb x (of_Z 30)) eqn:Hlt.
    { exists 30. split; [lia | reflexivity]. }
    destruct (gtb x (of_Z 85)) eqn:Hgt.
    { exists 85. split; [lia | reflexivity]. }
    apply Math_round_between; [exact Hx | lia | |].
    + destruct (Qlt_le_dec (value x) 30) as [H|H].
      * rewrite <- H30 in H. apply ltb_value in H; [congruence|exact Hx|reflexivity].
      * exact H.
    + destruct (Qlt_le_dec 85 (value x)) as [H|H].
      * rewrite <- H85 in H. apply gtb_value in H; [congruence|exact Hx|reflexivity].
      * exact H.
  - destruct x as [|[]| |]; try discriminate.
    + exists 30. split; [lia | reflexivity].
    + exists 85. split; [lia | reflexivity].
Qed.


(* ================================================================== *)
(** ** Integers of [[0,100]] as numbers *)

Lemma same_eq (x y : number) : same x y = true -> x = y.
Proof.
  destruct x as [s1|s1| |s1 m1 e1], y as [s2|s2| |s2 m2 e2];
    simpl; try discriminate; try reflexivity.
  - intros H. apply Bool.eqb_prop in H. now subst.
  - intros H. apply Bool.eqb_prop in H. now subst.
  - rewrite !andb_true_iff. intros [[Hs Hm] He].
    apply Bool.eqb_prop in Hs. apply Pos.eqb_eq in Hm. apply Z.eqb_eq in He.
    now subst.
Qed.

(** A check of the integers [0 .. n-1] by enumeration. *)
Lemma forall_upto (P : Z -> bool) (n : nat) :
  forallb P (map Z.of_nat (seq 0 n)) = true ->
  forall j, 0 <= j < Z.of_nat n -> P j = true.
Proof.
  intros Hall j Hj. rewrite forallb_forall in Hall. apply Hall.
  apply in_map_iff. exists (Z.to_nat j). split; [lia|].
  apply in_seq. lia.
Qed.

Lemma integer_between (j : Z) : 0 <= j <= 100 -> between 0 100 (of_Z j).
Proof.
  intros Hj.
  pose proof (forall_upto
                (fun j => leb (of_Z 0) (of_Z j) && leb (of_Z j) (of_Z 100))
                101 ltac:(vm_compute; reflexivity) j ltac:(lia)) as H.
  apply andb_true_iff in H. exact H.
Qed.

Lemma confidence_between (j : Z) :
  0 <= j <= 100 -> between 0 95 (confidence_code (of_Z j)).
Proof.
  intros Hj.
  pose proof (forall_upto
                (fun j => leb (of_Z 0) (confidence_code (of_Z j))
                          && leb (confidence_code (of_Z j)) (of_Z 95))
                101 ltac:(vm_compute; reflexivity) j ltac:(lia)) as H.
  apply andb_true_iff in H. exact H.
Qed.

(** On an integer score of [[0,100]] the rounding inside the confidence
    changes nothing. *)
Lemma confidence_code_formula (j : Z) :
  0 <= j <= 100 -> confidence_code (of_Z j) = confidence_of (of_Z j).
Proof.
  intros Hj. apply same_eq.
  exact (forall_upto
           (fun j => same (confidence_code (of_Z j)) (confidence_of (of_Z j)))
           101 ltac:(vm_compute; reflexivity) j ltac:(lia)).
Qed.


(* ================================================================== *)
(** ** The literals *)

Example lit_0_3_nearest : lit_0_3 = div (of_Z 3) (of_Z 10).
Proof. reflexivity. Qed.

Example lit_0_2_nearest : lit_0_2 = div (of_Z 2) (of_Z 10).
Proof. reflexivity. Qed.

Example lit_0_5_nearest : lit_0_5 = div (of_Z 1) (of_Z 2).
Proof. reflexivity. Qed.

Example literals_valid :
  forallb (valid_binary 53 1024)
    [lit_0_3; lit_0_2; lit_0_5; of_Z 100; ub_100; ub_30; ub_20; ub_50; ub_80;
     ub_sum] = true.
Proof. reflexivity. Qed.

(** [Math.round] on ties and around zero. *)
Example Math_round_ties :
  Math_round (div (of_Z 149) (of_Z 2)) = of_Z 75
  /\ Math_round (div (of_Z (-5)) (of_Z 2)) = of_Z (-2)
  /\ Math_round (div (of_Z (-1)) (of_Z 2)) = S754_zero true
  /\ Math_round (div (of_Z 2) (of_Z 5)) = S754_zero false.
Proof. repeat split; reflexivity. Qed.


(* ================================================================== *)
(** ** Lower bounds of rounded results *)

(** The truncated quotient of a first shift is already at least every
    representable lower bound of the exact value. *)
Lemma truncated_above (m q rem Y e F c k : Z) :
  0 <= k -> c <= e -> c <= F ->
  m = q * 2 ^ k + rem -> 0 <= rem < 2 ^ k ->
  0 <= q ->
  0 < Y < 2 ^ 53 ->
  (F < e + k -> 2 ^ 52 <= q) ->
  Y * 2 ^ (F - c) <= m * 2 ^ (e - c) ->
  Y * 2 ^ (F - c) <= q * 2 ^ (e + k - c).
Proof.
  intros Hk Hce HcF Hm Hrem Hq HY Hnorm Hle.
  replace (e + k - c) with (k + (e - c)) by lia.
  rewrite pow2_split by lia.
  pose proof (pow2_pos k Hk) as HN.
  pose proof (pow2_pos (e - c) ltac:(lia)) as HP.
  pose proof (pow2_pos (F - c) ltac:(lia)) as HR.
  set (N := 2 ^ k) in *. set (P := 2 ^ (e - c)) in *.
  destruct (Z_lt_le_dec F (e + k)) as [Hlt|Hge].
  - specialize (Hnorm Hlt).
    assert (HNP : N * P = 2 ^ (e + k - F) * 2 ^ (F - c)).
    { unfold N, P. rewrite <- !pow2_split by lia. f_equal. lia. }
    pose proof (pow2_ge_2 (e + k - F) ltac:(lia)) as HH.
    rewrite HNP. set (H := 2 ^ (e + k - F)) in *. set (R := 2 ^ (F - c)) in *.
    change (2 ^ 53) with (2 ^ 52 * 2) in HY.
    clear - HY Hnorm HH HR Hq. set (T := 2 ^ 52) in *. clearbody T.
    assert (Y * R <= T * 2 * R) by nia.
    assert (T * 2 * R <= q * (H * R)); [|lia].
    assert (T * 2 <= q * H) by nia. nia.
  - assert (HR' : 2 ^ (F - c) = 2 ^ (F - (e + k)) * (N * P)).
    { unfold N, P. rewrite <- !pow2_split by lia. f_equal. lia. }
    pose proof (pow2_pos (F - (e + k)) ltac:(lia)) as HG.
    rewrite HR' in *. set (G := 2 ^ (F - (e + k))) in *.
    assert (Y * G * N <= m) by nia.
    assert (Y * G < q + 1) by nia.
    assert (Y * G <= q) by lia.
    nia.
Qed.

(** The rounding of an exact positive value is an infinity or a finite
    number at least every representable lower bound of the exact value. *)
Lemma round_aux_lower (s : bool) (m : positive) (e : Z) (Y : positive) (F c : Z) :
  e <= fexp 53 1024 (Zpos (digits2_pos m) + e) ->
  Zpos (digits2_pos Y) <= 53 -> -1074 <= F ->
  c <= e -> c <= F ->
  Zpos Y * 2 ^ (F - c) <= Zpos m * 2 ^ (e - c) ->
  binary_round_aux 53 1024 s (Zpos m) e loc_Exact = S754_infinity s
  \/ exists m' e',
       binary_round_aux 53 1024 s (Zpos m) e loc_Exact = S754_finite s m' e'
       /\ e <= e'
       /\ Zpos Y * 2 ^ (F - c) <= Zpos m' * 2 ^ (e' - c).
Proof.
  intros Hcanon HdY HF Hce HcF Hle.
  pose proof (digits2_pos_bounds m) as Hd.
  pose proof (digits2_pos_bounds Y) as HdY'.
  assert (HY : 0 < Zpos Y < 2 ^ 53).
  { split; [lia|]. eapply Z.lt_le_trans; [apply HdY'|].
    apply Z.pow_le_mono_r; lia. }
  unfold binary_round_aux, shr_fexp.
  cbn [shr_record_of_loc Zdigits2].
  set (d := Zpos (digits2_pos m)) in *.
  set (n := fexp 53 1024 (d + e) - e).
  destruct (shr_shifted (Zpos m) e n ltac:(lia)) as [[Hq (rem & Hm & Hrem & Hloc)] He1].
  destruct (shr {| shr_m := Zpos m; shr_r := false; shr_s := false |} e n)
    as [mrs1 e1]. cbn [fst snd] in *.
  assert (Hk : Z.max 0 n = n) by (unfold n; lia).
  rewrite Hk in *.
  assert (Hn : 0 <= n) by (unfold n; lia).
  set (q := shr_m mrs1) in *.
  pose proof (round_nearest_even_bounds q (loc_of_shr_record mrs1)) as [Hq1 Hq1e].
  set (q1 := round_nearest_even q (loc_of_shr_record mrs1)) in *.
  assert (Hnormal : -1074 < e + n -> 2 ^ 52 <= q).
  { apply (shifted_normal (Zpos m) q rem d e n); try lia; unfold n; lia. }
  assert (Hmain : Zpos Y * 2 ^ (F - c) <= q * 2 ^ (e + n - c)).
  { apply (truncated_above (Zpos m) q rem (Zpos Y) e F c n); auto; try lia. }
  assert (Hq53 : q < 2 ^ 53).
  { assert (Hdn : d <= 53 + n) by (unfold n, fexp; lia).
    assert (Zpos m < 2 ^ 53 * 2 ^ n).
    { rewrite <- pow2_split by lia. eapply Z.lt_le_trans; [apply Hd|].
      apply Z.pow_le_mono_r; lia. }
    pose proof (pow2_pos n Hn). nia. }
  set (n2 := fexp 53 1024 (Zdigits2 q1 + e1) - e1).
  destruct (shr_shifted q1 e1 n2 ltac:(lia)) as [[Hm2 (rem2 & Hq1m & Hrem2 & _)] He2].
  destruct (shr {| shr_m := q1; shr_r := false; shr_s := false |} e1 n2)
    as [mrs2 e2]. cbn [fst snd] in *.
  remember (shr_m mrs2) as m2 eqn:Em2'. set (k2 := Z.max 0 n2) in *.
  assert (Hk2 : 0 <= k2) by (unfold k2; lia).
  assert (Hkeep : q * 2 ^ (e + n - c) <= m2 * 2 ^ (e2 - c)).
  { rewrite He2, He1. replace (e + n + k2 - c) with (k2 + (e + n - c)) by lia.
    rewrite pow2_split by lia.
    pose proof (pow2_pos (e + n - c) ltac:(lia)) as HT.
    destruct (Z_le_gt_dec n2 0) as [Hn2|Hn2].
    - assert (Hk20 : 2 ^ k2 = 1) by (replace k2 with 0 by (unfold k2; lia); reflexivity).
      rewrite Hk20 in *. nia.
    - assert (Hq1pos : 0 < q1).
      { destruct (Z.eq_dec q1 0) as [H0|H0]; [|lia].
        exfalso. assert (Hd0 : Zdigits2 q1 = 0) by (rewrite H0; reflexivity).
        unfold n2, n, fexp, emin in *. lia. }
      pose proof (Zdigits2_bounds q1 Hq1pos) as Hdq.
      assert (Hd54 : 54 <= Zdigits2 q1) by (unfold n2, n, fexp, emin in *; lia).
      assert (Hq1big : 2 ^ 53 <= q1).
      { eapply Z.le_trans; [|apply Hdq]. apply Z.pow_le_mono_r; lia. }
      assert (Hq1eq : q1 = 2 ^ 53) by lia.
      assert (Hd54' : Zdigits2 q1 = 54).
      { assert (Zdigits2 q1 - 1 < 54); [|lia].
        apply (Z.pow_lt_mono_r_iff 2); lia. }
      assert (Hk21 : k2 = 1) by (unfold k2, n2, n, fexp, emin in *; lia).
      rewrite Hk21 in *. change (2 ^ 1) with 2 in *.
      assert (q <= m2 * 2) by lia. nia. }
  assert (Hfinal : Zpos Y * 2 ^ (F - c) <= m2 * 2 ^ (e2 - c)) by lia.
  pose proof (pow2_pos (F - c) ltac:(lia)) as HR.
  pose proof (pow2_pos (e2 - c) ltac:(lia)) as HT2.
  destruct m2 as [|m2'|m2']; [nia| |lia].
  destruct (e2 <=? 1024 - 53); [|now left].
  right. exists m2', e2. repeat split; [lia | exact Hfinal].
Qed.

Lemma round_aux_far (s : bool) (m : positive) (e : Z) (Y : positive) (F : Z) :
  e <= fexp 53 1024 (Zpos (digits2_pos m) + e) ->
  representable Y F = true ->
  (inject_Z (Zpos Y) * 2 ^ F <= inject_Z (Zpos m) * 2 ^ e)%Q ->
  far s (binary_round_aux 53 1024 s (Zpos m) e loc_Exact)
      (inject_Z (Zpos Y) * 2 ^ F).
Proof.
  intros Hcanon Hrep Hle. apply representable_spec in Hrep as [HdY HF].
  apply (scaled_Qle _ _ _ _ (Z.min e F)) in Hle; try lia.
  destruct (round_aux_lower s m e Y F (Z.min e F) Hcanon HdY ltac:(lia)
              ltac:(lia) ltac:(lia) Hle) as [H0|(m' & e' & Hr & He & Hb)].
  - now left.
  - right. exists m', e'. split; [exact Hr|].
    apply (scaled_Qle _ _ _ _ (Z.min e F)); lia.
Qed.

Lemma binary_round_far (s : bool) (m : positive) (e : Z) (Y : positive) (F : Z) :
  representable Y F = true ->
  (inject_Z (Zpos Y) * 2 ^ F <= inject_Z (Zpos m) * 2 ^ e)%Q ->
  far s (binary_round 53 1024 s m e) (inject_Z (Zpos Y) * 2 ^ F).
Proof.
  intros Hrep Hle. unfold binary_round.
  pose proof (shl_align_spec m e (fexp 53 1024 (Zpos (digits2_pos m) + e))) as Hal.
  destruct (shl_align m e _) as [mz ez]. destruct Hal as (Hez & Hmz & Hdig).
  apply round_aux_far; [rewrite Hdig; lia | exact Hrep |].
  rewrite Hmz. rewrite <- (rescale (Zpos m) e ez) by lia. exact Hle.
Qed.

(** A bound given as a number. *)
Lemma representable_number_spec (b : number) :
  representable_number b = true ->
  exists Y F, b = S754_finite false Y F /\ representable Y F = true.
Proof.
  destruct b as [| | |[] Y F]; try discriminate. intros H. now exists Y, F.
Qed.

Lemma far_weaken (s : bool) (x : number) (b b' : Q) :
  far s x b -> (b' <= b)%Q -> far s x b'.
Proof.
  intros [->|(m & e & -> & Hb)] Hle; [now left|].
  right. exists m, e. split; [reflexivity | lra].
Qed.

(** An integer far from zero is a number far from zero, on its side. *)
Lemma of_Z_far (n : Z) (b : number) :
  representable_number b = true ->
  (value b <= inject_Z (Z.abs n))%Q ->
  far (n <? 0) (of_Z n) (value b).
Proof.
  intros Hrep Hle.
  destruct (representable_number_spec b Hrep) as (Y & F & -> & HYF).
  assert (Hpos : (0 < value (S754_finite false Y F))%Q).
  { cbn [value signed cond_Zopp]. apply Qmult_lt_0_compat; [|apply pow2Q_pos].
    change 0%Q with (inject_Z 0). rewrite <- Zlt_Qlt. lia. }
  cbn [value signed cond_Zopp] in *.
  unfold of_Z, Number.prec, Number.emax.
  destruct n as [|n|n]; cbn [Z.abs] in Hle.
  - exfalso. change (inject_Z 0) with 0%Q in Hle. lra.
  - change (Zpos n <? 0) with false. simpl binary_normalize.
    apply binary_round_far; [exact HYF|].
    change (2 ^ 0)%Q with 1%Q. rewrite Qmult_1_r. exact Hle.
  - change (Zneg n <? 0) with true. simpl binary_normalize.
    apply binary_round_far; [exact HYF|].
    change (2 ^ 0)%Q with 1%Q. rewrite Qmult_1_r. exact Hle.
Qed.

Lemma Math_abs_far (s : bool) (x : number) (b : Q) :
  far s x b -> far false (Math_abs x) b.
Proof.
  intros [->|(m & e & -> & Hb)]; [now left|].
  right. now exists m, e.
Qed.

(** Taking 50 away from a positive number of at least [b1]. *)
Lemma sub_50_far_positive (x : number) (b1 : Q) (b2 : number) :
  far false x b1 ->
  representable_number b2 = true ->
  (50 + value b2 <= b1)%Q ->
  far false (sub x (of_Z 50)) (value b2).
Proof.
  intros Hx Hrep Hle.
  destruct (representable_number_spec b2 Hrep) as (Y & F & -> & HYF).
  assert (Hpos : (0 < value (S754_finite false Y F))%Q).
  { cbn [value signed cond_Zopp]. apply Qmult_lt_0_compat; [|apply pow2Q_pos].
    change 0%Q with (inject_Z 0). rewrite <- Zlt_Qlt. lia. }
  change (of_Z 50) with (S754_finite false 7036874417766400 (-47)).
  assert (H50 : (inject_Z (Zpos 7036874417766400) * 2 ^ (-47) == 50)%Q)
    by reflexivity.
  destruct Hx as [->|(mx & ex & -> & Hb)]; [now left|].
  unfold sub, SFsub, Number.prec, Number.emax.
  pose proof (shl_align_spec mx ex (Z.min ex (-47))) as Hax.
  pose proof (shl_align_spec 7036874417766400 (-47) (Z.min ex (-47))) as Hay.
  destruct (shl_align mx ex (Z.min ex (-47))) as [mx' ex'].
  destruct (shl_align 7036874417766400 (-47) (Z.min ex (-47))) as [my' ey'].
  destruct Hax as (Hex' & Hmx' & _). destruct Hay as (Hey' & Hmy' & _).
  cbn [fst cond_Zopp].
  replace (ex - ex') with (ex - Z.min ex (-47)) in Hmx' by lia.
  replace (-47 - ey') with (-47 - Z.min ex (-47)) in Hmy' by lia.
  set (c := Z.min ex (-47)) in *.
  assert (Hexact : (inject_Z (Zpos mx' - Zpos my') * 2 ^ c
                    == inject_Z (Zpos mx) * 2 ^ ex - 50)%Q).
  { rewrite <- H50.
    rewrite (rescale (Zpos mx) ex c), (rescale (Zpos 7036874417766400) (-47) c)
      by (unfold c; lia).
    rewrite <- Hmx', <- Hmy'. unfold Z.sub at 1.
    rewrite inject_Z_plus, inject_Z_opp. ring. }
  assert (HD : 0 < Zpos mx' - Zpos my').
  { assert (Hq : (0 < inject_Z (Zpos mx' - Zpos my') * 2 ^ c)%Q)
      by (rewrite Hexact; cbn [value signed cond_Zopp] in *; lra).
    pose proof (pow2Q_pos c) as Hc.
    destruct (Z_lt_le_dec 0 (Zpos mx' - Zpos my')) as [|Hn]; [assumption|].
    exfalso. rewrite Zle_Qle in Hn. change (inject_Z 0) with 0%Q in Hn.
    assert ((inject_Z (Zpos mx' - Zpos my') * 2 ^ c <= 0 * 2 ^ c)%Q)
      by (apply Qmult_le_compat_r; lra).
    lra. }
  destruct (Zpos mx' - Zpos my') as [|D|D] eqn:ED; try lia.
  simpl binary_normalize.
  apply binary_round_far; [exact HYF|].
  rewrite Hexact. cbn [value signed cond_Zopp] in *. lra.
Qed.

(** Taking 50 away from a negative number of magnitude at least [b1]. *)
Lemma sub_50_far_negative (x : number) (b1 : Q) (b2 : number) :
  far true x b1 ->
  representable_number b2 = true ->
  (value b2 <= b1 + 50)%Q ->
  far true (sub x (of_Z 50)) (value b2).
Proof.
  intros Hx Hrep Hle.
  destruct (representable_number_spec b2 Hrep) as (Y & F & -> & HYF).
  change (of_Z 50) with (S754_finite false 7036874417766400 (-47)).
  assert (H50 : (inject_Z (Zpos 7036874417766400) * 2 ^ (-47) == 50)%Q)
    by reflexivity.
  destruct Hx as [->|(mx & ex & -> & Hb)]; [now left|].
  unfold sub, SFsub, Number.prec, Number.emax.
  pose proof (shl_align_spec mx ex (Z.min ex (-47))) as Hax.
  pose proof (shl_align_spec 7036874417766400 (-47) (Z.min ex (-47))) as Hay.
  destruct (shl_align mx ex (Z.min ex (-47))) as [mx' ex'].
  destruct (shl_align 7036874417766400 (-47) (Z.min ex (-47))) as [my' ey'].
  destruct Hax as (Hex' & Hmx' & _). destruct Hay as (Hey' & Hmy' & _).
  cbn [fst cond_Zopp].
  replace (ex - ex') with (ex - Z.min ex (-47)) in Hmx' by lia.
  replace (-47 - ey') with (-47 - Z.min ex (-47)) in Hmy' by lia.
  set (c := Z.min ex (-47)) in *.
  change (- Zpos mx' - Zpos my') with (Zneg (mx' + my')).
  simpl binary_normalize.
  apply binary_round_far; [exact HYF|].
  eapply Qle_trans; [exact Hle|].
  rewrite <- H50.
  rewrite (rescale (Zpos mx) ex c) in Hb by (unfold c; lia).
  rewrite (rescale (Zpos 7036874417766400) (-47) c) by (unfold c; lia).
  rewrite <- Hmx' in Hb. rewrite <- Hmy'.
  rewrite Pos2Z.inj_add, inject_Z_plus. lra.
Qed.

(** Doubling. *)
Lemma mul_2_far (x : number) (b1 : Q) (b2 : number) :
  far false x b1 ->
  representable_number b2 = true ->
  (value b2 <= 2 * b1)%Q ->
  far false (mul x (of_Z 2)) (value b2).
Proof.
  intros Hx Hrep Hle.
  destruct (representable_number_spec b2 Hrep) as (Y & F & -> & HYF).
  change (of_Z 2) with (S754_finite false 4503599627370496 (-51)).
  assert (H2 : (inject_Z (Zpos 4503599627370496) * 2 ^ (-51) == 2)%Q)
    by reflexivity.
  destruct Hx as [->|(mx & ex & -> & Hb)]; [now left|].
  unfold mul, SFmul, Number.prec, Number.emax. cbn [xorb].
  apply round_aux_far; [| exact HYF |].
  - pose proof (digits2_pos_bounds (mx * 4503599627370496)) as Hdp.
    assert (2 ^ 52 < 2 ^ Zpos (digits2_pos (mx * 4503599627370496))).
    { change (2 ^ 52) with (Zpos 4503599627370496). nia. }
    assert (52 < Zpos (digits2_pos (mx * 4503599627370496))).
    { apply (Z.pow_lt_mono_r_iff 2); lia. }
    unfold fexp. lia.
  - eapply Qle_trans; [exact Hle|].
    rewrite Pos2Z.inj_mul, inject_Z_mult, pow2Q_add.
    assert (Heq : (inject_Z (Zpos mx) * inject_Z (Zpos 4503599627370496)
                   * (2 ^ ex * 2 ^ (-51))
                   == (inject_Z (Zpos mx) * 2 ^ ex)
                      * (inject_Z (Zpos 4503599627370496) * 2 ^ (-51)))%Q)
      by ring.
    rewrite Heq, H2. lra.
Qed.

(** Rounding a positive number far from zero to an integer. *)
Lemma Math_round_far (x : number) (b1 : Q) (k : Z) (b2 : number) :
  far false x b1 ->
  representable_number b2 = true ->
  0 < k -> (inject_Z k <= b1)%Q -> (value b2 <= inject_Z k)%Q ->
  far false (Math_round x) (value b2).
Proof.
  intros Hx Hrep Hk Hle1 Hle2.
  destruct Hx as [->|(m & e & -> & Hb)]; [now left|].
  assert (Hn : k <= round_half_up false m e).
  { apply round_half_up_ge. cbn [value signed cond_Zopp]. lra. }
  unfold Math_round.
  destruct (round_half_up false m e =? 0) eqn:H0;
    [apply Z.eqb_eq in H0; lia|].
  assert (Hs : (round_half_up false m e <? 0) = false) by (apply Z.ltb_ge; lia).
  rewrite <- Hs at 1.
  apply of_Z_far; [exact Hrep|].
  eapply Qle_trans; [exact Hle2|]. rewrite <- Zle_Qle. lia.
Qed.

(** A positive number above 95 is cut to 95. *)
Lemma Math_min_far (x : number) (b : Q) :
  far false x b -> (95 < b)%Q -> Math_min x (of_Z 95) = of_Z 95.
Proof.
  intros [->|(m & e & -> & Hb)] Hlt; [reflexivity|].
  rewrite (Math_min_finite (S754_finite false m e) (of_Z 95) eq_refl eq_refl).
  assert (H95 : (value (of_Z 95) == 95)%Q) by reflexivity.
  destruct (Qcompare_spec (value (S754_finite false m e)) (value (of_Z 95)))
    as [H|H|H]; try reflexivity.
  cbn [value signed cond_Zopp] in H. exfalso. lra.
Qed.

(* ================================================================== *)
(** ** The confidence of a rounded score *)

(** Far from the midpoint the confidence is 95, with or without the
    rounding of the code. *)
Lemma confidence_far (s : bool) (c : number) (b : Q) :
  far s c b ->
  (if s then 1 <= b else 101 <= b)%Q ->
  confidence_code c = of_Z 95 /\ confidence_of c = of_Z 95.
Proof.
  intros Hc Hb.
  assert (H51 : (value (of_Z 51) == 51)%Q) by reflexivity.
  assert (H102 : (value (of_Z 102) == 102)%Q) by reflexivity.
  assert (Hd : far false (Math_abs (sub c (of_Z 50))) (value (of_Z 51))).
  { destruct s.
    - apply (Math_abs_far true).
      apply (sub_50_far_negative c b); [exact Hc | reflexivity | lra].
    - apply (Math_abs_far false).
      apply (sub_50_far_positive c b); [exact Hc | reflexivity | lra]. }
  assert (Hw : far false (mul (Math_abs (sub c (of_Z 50))) (of_Z 2))
                 (value (of_Z 102))).
  { apply (mul_2_far _ (value (of_Z 51))); [exact Hd | reflexivity | lra]. }
  unfold confidence_code, confidence_of. split.
  - apply (Math_min_far _ (value (of_Z 102))); [|lra].
    apply (Math_round_far _ (value (of_Z 102)) 102);
      [exact Hw | reflexivity | lia | |];
      rewrite H102; change (inject_Z 102) with 102%Q; lra.
  - apply (Math_min_far _ (value (of_Z 102))); [exact Hw | lra].
Qed.

(** On every rounded number the rounding inside the confidence changes
    nothing. *)
Lemma confidence_code_rounded (x : number) :
  confidence_code (Math_round x) = confidence_of (Math_round x).
Proof.
  destruct x as [[]|[]| |s m e]; try reflexivity.
  unfold Math_round. set (n := round_half_up s m e).
  destruct (n =? 0) eqn:H0; [destruct s; reflexivity|].
  apply Z.eqb_neq in H0.
  destruct (Z_lt_le_dec n 0) as [Hneg|Hpos].
  - pose proof (of_Z_far n (of_Z 1) eq_refl) as Hfar.
    replace (n <? 0) with true in Hfar by (symmetry; apply Z.ltb_lt; lia).
    assert (H1 : (value (of_Z 1) == 1)%Q) by reflexivity.
    destruct (confidence_far true (of_Z n) (value (of_Z 1))) as [Ha Hb].
    + apply Hfar. rewrite H1. change 1%Q with (inject_Z 1).
      rewrite <- Zle_Qle. lia.
    + lra.
    + now rewrite Ha, Hb.
  - destruct (Z_le_gt_dec n 100) as [Hsmall|Hbig].
    + apply confidence_code_formula. lia.
    + pose proof (of_Z_far n (of_Z 101) eq_refl) as Hfar.
      replace (n <? 0) with false in Hfar by (symmetry; apply Z.ltb_ge; lia).
      assert (H101 : (value (of_Z 101) == 101)%Q) by reflexivity.
      destruct (confidence_far false (of_Z n) (value (of_Z 101))) as [Ha Hb].
      * apply Hfar. rewrite H101. change 101%Q with (inject_Z 101).
        rewrite <- Zle_Qle. lia.
      * lra.
      * now rewrite Ha, Hb.
Qed.

End Binary64.

Import Binary64.

(* ================================================================== *)
(** * Facts on the analysis service *)

(* ================================================================== *)
(** ** Counting *)

(** The global matches of a one-character class are the code units of the
    class. *)
Lemma match_count_class (p : N -> bool) (t : text) :
  match_count (Cls p) t = Z.of_nat (List.length (filter p t)).
Proof.
  unfold match_count. f_equal.
  induction t as [|c t IH]; [reflexivity|].
  cbn [match_count_from exec_at run filter].
  destruct (p c).
  - cbn [List.length]. rewrite Nat.sub_succ_l, Nat.sub_diag by lia.
    cbn. now rewrite IH.
  - exact IH.
Qed.

Lemma filter_is_char (a : N) (t : text) :
  List.length (filter (is_char a) t) = count_occ N.eq_dec t a.
Proof.
  induction t as [|c t IH]; [reflexivity|].
  cbn [filter count_occ]. unfold is_char at 1.
  destruct (N.eq_dec c a) as [->|Hne].
  - rewrite N.eqb_refl. cbn [List.length]. now rewrite IH.
  - apply N.eqb_neq in Hne. rewrite Hne. exact IH.
Qed.

Lemma match_count_char (a : N) (t : text) :
  match_count (Cls (is_char a)) t = occurrences a t.
Proof.
  unfold occurrences. now rewrite match_count_class, filter_is_char.
Qed.

(** [text.split(sep)] has one piece more than the text has separators. *)
Lemma split_length (sep : N) (t : text) :
  List.length (split sep t) = S (count_occ N.eq_dec t sep).
Proof.
  induction t as [|c t IH]; [reflexivity|].
  cbn [split count_occ].
  destruct (N.eq_dec c sep) as [->|Hne].
  - rewrite N.eqb_refl. cbn [List.length]. now rewrite IH.
  - apply N.eqb_neq in Hne. rewrite Hne.
    destruct (split sep t) as [|piece pieces]; [discriminate|exact IH].
Qed.

Lemma split_word_count (t : text) :
  Z.of_nat (List.length (split (code " "%char) t)) = word_count t.
Proof.
  unfold word_count, occurrences. rewrite split_length. lia.
Qed.

Lemma match_count_nonneg (r : regex) (t : text) : 0 <= match_count r t.
Proof. unfold match_count. lia. Qed.


(* ================================================================== *)
(** ** The range of the scores *)

Lemma clamp_0_100_range (score : Z) : 0 <= clamp_0_100 score <= 100.
Proof. unfold clamp_0_100. lia. Qed.

Lemma analyzeLanguagePatterns_range (t : text) :
  0 <= analyzeLanguagePatterns t <= 100.
Proof. apply clamp_0_100_range. Qed.

Lemma analyzeFactualConsistency_range (t : text) :
  0 <= analyzeFactualConsistency t <= 100.
Proof. apply clamp_0_100_range. Qed.

Lemma analyzeSourceReliability_range (t : text) :
  0 <= analyzeSourceReliability t <= 100.
Proof. apply clamp_0_100_range. Qed.

(** A truthy probability of [[0,1]] is a positive finite number. *)
Lemma probability_below (p : number) :
  between 0 1 p -> truthy p = true -> below p 1.
Proof.
  intros [H0 H1] Ht.
  destruct p as [sp| [] | |[] mp ep]; try discriminate.
  split; [reflexivity|].
  apply leb_value in H1; [|reflexivity|reflexivity].
  assert (Hone : (value (of_Z 1) == 1)%Q) by reflexivity.
  now rewrite Hone in H1.
Qed.

Lemma sentimentScore_below (sentimentResult : list SentimentEntry) :
  probability_answer sentimentResult ->
  below (sentimentScore_of sentimentResult) 1.
Proof.
  destruct sentimentResult as [|first others]; simpl.
  - intros _. split; [reflexivity|]. vm_compute. discriminate.
  - intros Hp. destruct (truthy (score first)) eqn:Ht.
    + now apply probability_below.
    + split; [reflexivity|]. vm_compute. discriminate.
Qed.

(** The sentiment term, [(1 - s) * 100] or [s * 100], is at most 100. *)
Lemma adjusted_below (negative : bool) (s : number) :
  below s 1 ->
  below (if negative then mul (sub (of_Z 1) s) (of_Z 100) else mul s (of_Z 100))
        (value ub_100).
Proof.
  intros Hs. change (of_Z 100) with (S754_finite false 7036874417766400 (-46)).
  destruct negative.
  - apply (mul_below _ 1); [now apply sub_one_below | vm_compute; discriminate
                            | reflexivity | closed_Qle].
  - apply (mul_below _ 1); [exact Hs | vm_compute; discriminate
                            | reflexivity | closed_Qle].
Qed.

Lemma score_below (n : Z) : 0 <= n <= 100 -> below (of_Z n) (value ub_100).
Proof.
  intros Hn. apply of_Z_below; [lia | reflexivity |].
  assert (H100 : (value ub_100 == inject_Z 100)%Q) by reflexivity.
  rewrite H100, <- Zle_Qle. lia.
Qed.

(** The weighted sum of three scores of [[0,100]] and a sentiment term of
    [[0,100]] stays below [100 + 2^-45]. *)
Lemma weighted_sum_below (l f s : Z) (adjusted : number) :
  0 <= l <= 100 -> 0 <= f <= 100 -> 0 <= s <= 100 ->
  below adjusted (value ub_100) ->
  below (weighted_sum (of_Z l) adjusted (of_Z f) (of_Z s)) (value ub_sum).
Proof.
  intros Hl Hf Hs Ha. unfold weighted_sum, lit_0_3, lit_0_2.
  assert (H3 : forall n, 0 <= n <= 100 ->
             below (mul (of_Z n) (S754_finite false 5404319552844595 (-54)))
                   (value ub_30)).
  { intros n Hn. apply (mul_below _ (value ub_100));
      [now apply score_below | vm_compute; discriminate | reflexivity
       | closed_Qle]. }
  assert (H2 : forall x, below x (value ub_100) ->
             below (mul x (S754_finite false 7205759403792794 (-55)))
                   (value ub_20)).
  { intros x Hx. apply (mul_below _ (value ub_100));
      [exact Hx | vm_compute; discriminate | reflexivity | closed_Qle]. }
  apply (add_below _ _ (value ub_80) (value ub_20));
    [| apply H2; now apply score_below | reflexivity | closed_Qle].
  apply (add_below _ _ (value ub_50) (value ub_30));
    [| now apply H3 | reflexivity | closed_Qle].
  apply (add_below _ _ (value ub_30) (value ub_20));
    [now apply H3 | now apply H2 | reflexivity | closed_Qle].
Qed.

Lemma analyzeWith_credibilityScore (sentimentResult : list SentimentEntry) (t : text) :
  credibilityScore (analyzeWith sentimentResult t)
  = Math_round
      (weighted_sum (of_Z (analyzeLanguagePatterns t))
         (if isNegative_of sentimentResult
          then mul (sub (of_Z 1) (sentimentScore_of sentimentResult)) (of_Z 100)
          else mul (sentimentScore_of sentimentResult) (of_Z 100))
         (of_Z (analyzeFactualConsistency t))
         (of_Z (analyzeSourceReliability t))).
Proof. reflexivity. Qed.

Lemma analyzeWith_confidenceLevel (sentimentResult : list SentimentEntry) (t : text) :
  confidenceLevel (analyzeWith sentimentResult t)
  = confidence_code (credibilityScore (analyzeWith sentimentResult t)).
Proof.
  unfold analyzeWith, confidence_code. cbv zeta.
  cbn [confidenceLevel credibilityScore]. reflexivity.
Qed.

(** On the normal path the credibility score is an integer of [[0,100]]. *)
Lemma normal_credibility_integer (sentimentResult : list SentimentEntry) (t : text) :
  probability_answer sentimentResult ->
  exists j, 0 <= j <= 100
    /\ credibilityScore (analyzeWith sentimentResult t) = of_Z j.
Proof.
  intros Hp. rewrite analyzeWith_credibilityScore.
  apply (Math_round_below _ (value ub_sum)).
  - apply weighted_sum_below;
      [apply analyzeLanguagePatterns_range
      | apply analyzeFactualConsistency_range
      | apply analyzeSourceReliability_range |].
    apply adjusted_below. now apply sentimentScore_below.
  - vm_compute. reflexivity.
Qed.

(** So is the displayed sentiment factor. *)
Lemma normal_sentiment_integer (sentimentResult : list SentimentEntry) (t : text) :
  probability_answer sentimentResult ->
  exists j, 0 <= j <= 100
    /\ sentimentAnalysis (factors (analyzeWith sentimentResult t)) = of_Z j.
Proof.
  intros Hp.
  change (sentimentAnalysis (factors (analyzeWith sentimentResult t)))
    with (Math_round (mul (sentimentScore_of sentimentResult) (of_Z 100))).
  apply (Math_round_below _ (value ub_100)).
  - apply (adjusted_below false). now apply sentimentScore_below.
  - vm_compute. reflexivity.
Qed.


(* ================================================================== *)
(** ** The fallback score *)

(** The argument of the clamp is never [NaN]. *)
Lemma fallback_raw_not_nan (wordCount questionMarks exclamations : Z) :
  0 <= wordCount -> 0 <= questionMarks -> 0 <= exclamations ->
  is_nan (fallback_raw wordCount questionMarks exclamations) = false.
Proof.
  intros Hw Hq He. unfold fallback_raw.
  apply (add_capped_not_nan _ _ (value (of_Z 70))).
  - apply sub_count; [reflexivity | |].
    + apply sub_count; [reflexivity | |].
      * right. split; [reflexivity | apply Qle_refl].
      * apply mul_count; [reflexivity | now apply of_Z_nonneg_or_inf].
    + apply mul_count; [reflexivity | now apply of_Z_nonneg_or_inf].
  - apply nonneg_finite.
    apply (min_15_below (div (of_Z wordCount) (of_Z 10))).
    apply div_count; [reflexivity | now apply of_Z_nonneg_or_inf].
Qed.

Lemma getFallbackAnalysis_credibilityScore (t : text) :
  credibilityScore (getFallbackAnalysis t)
  = Math_round
      (clamp
         (fallback_raw (Z.of_nat (List.length (split (code " "%char) t)))
            (match_count (Cls (is_char (code "?"%char))) t)
            (match_count (Cls (is_char (code "!"%char))) t))
         (of_Z 30) (of_Z 85)).
Proof.
  rewrite <- clamp_code. reflexivity.
Qed.

(** The fallback score is an integer of [[30,85]]. *)
Lemma fallback_credibility_integer (t : text) :
  exists j, 30 <= j <= 85 /\ credibilityScore (getFallbackAnalysis t) = of_Z j.
Proof.
  rewrite getFallbackAnalysis_credibilityScore.
  apply clamp_round_integer. apply fallback_raw_not_nan;
    [lia | apply match_count_nonneg | apply match_count_nonneg].
Qed.


(* ================================================================== *)
(** * The claims of the specification *)

(* ================================================================== *)
(** ** The paths of [analyzeText] *)

Lemma analyzeText_answer pipeline (st : Models) (t : text) :
  snd (analyzeText pipeline st t)
  = match answer_of pipeline st t with
    | Returns sentimentResult => analyzeWith sentimentResult t
    | Throws => getFallbackAnalysis t
    end.
Proof. reflexivity. Qed.

Lemma analyzeText_models pipeline (st : Models) (t : text) :
  fst (analyzeText pipeline st t) = initializeModels pipeline st.
Proof. reflexivity. Qed.

(** A failed load of the sentiment pipeline leaves both handles as they
    were. *)
Lemma initializeModels_load_fails pipeline (st : Models) :
  sentimentAnalyzer st = None ->
  pipeline "sentiment-analysis" model_name = Throws ->
  initializeModels pipeline st = st.
Proof.
  intros Hnull Hthrows. unfold initializeModels.
  now rewrite Hnull, Hthrows.
Qed.

(** A handle that is set is kept and reused. *)
Lemma initializeModels_keeps_handle pipeline (st : Models) (p : Pipeline) :
  sentimentAnalyzer st = Some p ->
  sentimentAnalyzer (initializeModels pipeline st) = Some p.
Proof.
  intros Hset. unfold initializeModels. rewrite Hset.
  destruct (textClassifier st); [exact Hset|].
  destruct (pipeline "text-classification" model_name);
    [exact Hset | reflexivity].
Qed.

(** With a stub loader and no handle yet, the answer is the stub's. *)
Lemma answer_of_stub (answer : Outcome (list SentimentEntry)) (t : text) :
  answer_of (stub answer) no_models t = answer.
Proof. reflexivity. Qed.

(* ================================================================== *)
(** ** The sentiment factor and the weighted sum *)

(** C1, as stated, fails: for NEGATIVE with probability 0.75 the displayed
    factor is 75, where the claim has [round((1 - 0.75) * 100)], 25. *)
Lemma sentiment_factor_ignores_label :
  let p := div (of_Z 3) (of_Z 4) in
  let r := snd (analyzeText (stub (Returns [entry "NEGATIVE" p])) no_models
                  (js "ok")) in
  between 0 1 p
  /\ sentimentAnalysis (factors r) = of_Z 75
  /\ Math_round (mul (sub (of_Z 1) p) (of_Z 100)) = of_Z 25
  /\ sentimentAnalysis (factors r)
       <> Math_round (mul (sub (of_Z 1) p) (of_Z 100)).
Proof.
  vm_compute. repeat split; try reflexivity. discriminate.
Qed.

(** C1, amended.  For every text and every classifier answer whose first
    entry carries a nonzero probability [p], the displayed sentimentAnalysis
    factor is [round(p * 100)], whatever the label. *)
Theorem sentiment_factor_displayed pipeline (st : Models) (t : text)
  (first : SentimentEntry) (others : list SentimentEntry) :
  answer_of pipeline st t = Returns (first :: others) ->
  truthy (score first) = true ->
  sentimentAnalysis (factors (snd (analyzeText pipeline st t)))
    = Math_round (mul (score first) (of_Z 100)).
Proof.
  intros Hans Hp. rewrite analyzeText_answer, Hans.
  unfold analyzeWith. cbn [factors sentimentAnalysis]. now rewrite Hp.
Qed.

Lemma sentiment_factor_displayed_witness :
  let p := div (of_Z 3) (of_Z 4) in
  let answer := [entry "NEGATIVE" p] in
  answer_of (stub (Returns answer)) no_models (js "ok") = Returns answer
  /\ truthy p = true
  /\ sentimentAnalysis
       (factors (snd (analyzeText (stub (Returns answer)) no_models (js "ok"))))
     = Math_round (mul p (of_Z 100)).
Proof.
  split; [reflexivity|]. split; [reflexivity|].
  exact (sentiment_factor_displayed
           (stub (Returns [entry "NEGATIVE" (div (of_Z 3) (of_Z 4))]))
           no_models (js "ok")
           (entry "NEGATIVE" (div (of_Z 3) (of_Z 4))) []
           eq_refl eq_refl).
Defined.

(** C5, as stated, fails at probability 0: the code takes 0.5 in its place,
    so for POSITIVE with probability 0 the score of the text "ok" is 65
    where the weighted sum of the claim rounds to 55. *)
Lemma credibility_zero_probability :
  let r := snd (analyzeText (stub (Returns [entry "POSITIVE" (of_Z 0)]))
                  no_models (js "ok")) in
  let claimed :=
    Math_round
      (weighted_sum (languagePattern (factors r))
         (sentimentAdjusted "POSITIVE" (of_Z 0))
         (factualConsistency (factors r))
         (sourceReliability (factors r))) in
  between 0 1 (of_Z 0)
  /\ credibilityScore r = of_Z 65
  /\ claimed = of_Z 55
  /\ credibilityScore r <> claimed.
Proof.
  vm_compute. repeat split; try reflexivity. discriminate.
Qed.

(** C5, amended.  On the normal path, for a classifier answer whose first
    entry carries a nonzero probability [p], the credibility score is
    [round(language*0.3 + adjusted*0.2 + factual*0.3 + source*0.2)] with
    [adjusted = (1 - p) * 100] for NEGATIVE and [p * 100] otherwise. *)
Theorem credibility_weighted_sum pipeline (st : Models) (t : text)
  (first : SentimentEntry) (others : list SentimentEntry) :
  answer_of pipeline st t = Returns (first :: others) ->
  truthy (score first) = true ->
  let r := snd (analyzeText pipeline st t) in
  credibilityScore r
    = Math_round
        (weighted_sum (languagePattern (factors r))
           (sentimentAdjusted (label first) (score first))
           (factualConsistency (factors r))
           (sourceReliability (factors r)))
  /\ languagePattern (factors r) = of_Z (analyzeLanguagePatterns t)
  /\ factualConsistency (factors r) = of_Z (analyzeFactualConsistency t)
  /\ sourceReliability (factors r) = of_Z (analyzeSourceReliability t).
Proof.
  intros Hans Hp r. subst r. rewrite analyzeText_answer, Hans.
  split; [|repeat split].
  rewrite analyzeWith_credibilityScore.
  unfold sentimentAdjusted, sentimentScore_of, isNegative_of.
  rewrite Hp. reflexivity.
Qed.

Lemma credibility_weighted_sum_witness :
  let p := div (of_Z 9) (of_Z 10) in
  let answer := [entry "NEGATIVE" p] in
  let r := snd (analyzeText (stub (Returns answer)) no_models shocking) in
  answer_of (stub (Returns answer)) no_models shocking = Returns answer
  /\ truthy p = true
  /\ credibilityScore r
     = Math_round
         (weighted_sum (languagePattern (factors r))
            (sentimentAdjusted "NEGATIVE" p)
            (factualConsistency (factors r))
            (sourceReliability (factors r))).
Proof.
  split; [reflexivity|]. split; [reflexivity|].
  exact (proj1 (credibility_weighted_sum
           (stub (Returns [entry "NEGATIVE" (div (of_Z 9) (of_Z 10))]))
           no_models shocking
           (entry "NEGATIVE" (div (of_Z 9) (of_Z 10))) []
           eq_refl eq_refl)).
Defined.

(* ================================================================== *)
(** ** The fallback analysis *)






(* ================================================================== *)
(** ** Ranges *)

(** C3. Provided the classifier, when it answers, gives a probability in
    [[0,1]], the four factors and the credibility score of the result lie
    in [[0,100]] and the confidence level in [[0,95]], on the normal path
    and on the fallback path. *)
Theorem scores_in_range pipeline (st : Models) (t : text) :
  (forall sentimentResult,
      answer_of pipeline st t = Returns sentimentResult ->
      probability_answer sentimentResult) ->
  let r := snd (analyzeText pipeline st t) in
  between 0 100 (languagePattern (factors r))
  /\ between 0 100 (sentimentAnalysis (factors r))
  /\ between 0 100 (factualConsistency (factors r))
  /\ between 0 100 (sourceReliability (factors r))
  /\ between 0 100 (credibilityScore r)
  /\ between 0 95 (confidenceLevel r).
Proof.
  intros Hp r. subst r. rewrite analyzeText_answer.
  pose proof (integer_between _ (analyzeLanguagePatterns_range t)) as Hl.
  pose proof (integer_between _ (analyzeFactualConsistency_range t)) as Hf.
  pose proof (integer_between _ (analyzeSourceReliability_range t)) as Hs.
  destruct (answer_of pipeline st t) as [|sentimentResult].
  - destruct (fallback_credibility_integer t) as (j & Hj & Hc).
    repeat (split; [assumption || (split; reflexivity) |]).
    split; [|split; reflexivity].
    rewrite Hc. apply integer_between. lia.
  - specialize (Hp sentimentResult eq_refl).
    destruct (normal_credibility_integer sentimentResult t Hp) as (j & Hj & Hc).
    destruct (normal_sentiment_integer sentimentResult t Hp) as (k & Hk & Hsent).
    split; [exact Hl|]. split; [rewrite Hsent; now apply integer_between|].
    split; [exact Hf|]. split; [exact Hs|].
    split; [rewrite Hc; now apply integer_between|].
    rewrite analyzeWith_confidenceLevel, Hc. now apply confidence_between.
Qed.

Lemma scores_in_range_witness :
  let answer := [entry "NEGATIVE" (div (of_Z 9) (of_Z 10))] in
  let r := snd (analyzeText (stub (Returns answer)) no_models shocking) in
  (forall sentimentResult,
      answer_of (stub (Returns answer)) no_models shocking
        = Returns sentimentResult ->
      probability_answer sentimentResult)
  /\ between 0 100 (credibilityScore r)
  /\ between 0 100 (sentimentAnalysis (factors r))
  /\ between 0 95 (confidenceLevel r).
Proof.
  assert (Hp : forall sentimentResult,
             answer_of (stub (Returns [entry "NEGATIVE" (div (of_Z 9) (of_Z 10))]))
               no_models shocking = Returns sentimentResult ->
             probability_answer sentimentResult).
  { intros sentimentResult Hans. rewrite answer_of_stub in Hans.
    injection Hans as <-. split; reflexivity. }
  split; [exact Hp|].
  destruct (scores_in_range
              (stub (Returns [entry "NEGATIVE" (div (of_Z 9) (of_Z 10))]))
              no_models shocking Hp) as (_ & Hs & _ & _ & Hc & Hconf).
  split; [exact Hc|]. split; [exact Hs | exact Hconf].
Defined.

(* ================================================================== *)
(** ** Classification *)

(** On the normal path the classification is that of the returned score. *)
Lemma classification_normal (sentimentResult : list SentimentEntry) (t : text) :
  classification (analyzeWith sentimentResult t)
    = classify (credibilityScore (analyzeWith sentimentResult t)).
Proof. reflexivity. Qed.

(** C4, the failing inputs.  The fallback path classifies the score before
    rounding it.  For 45 words without punctuation the score is 74.5, which
    is classified 'uncertain', and the result carries the rounded 75, a
    score that is 'trustworthy'.  For four words with six question marks
    the score is 40.4, classified 'uncertain', and the result carries 40, a
    score that is 'misleading'. *)
Theorem fallback_classifies_unrounded_score :
  let r := snd (analyzeText (stub Throws) no_models (words 45)) in
  let r' := snd (analyzeText (stub Throws) no_models (js "a? b? c? d???")) in
  (fallback_raw 45 0 0 = div (of_Z 149) (of_Z 2)
   /\ credibilityScore r = of_Z 75
   /\ classification r = uncertain
   /\ classify (credibilityScore r) = trustworthy)
  /\ (fallback_raw 4 6 0 = div (of_Z 202) (of_Z 5)
      /\ credibilityScore r' = of_Z 40
      /\ classification r' = uncertain
      /\ classify (credibilityScore r') = misleading).
Proof.
  vm_compute. repeat split; reflexivity.
Qed.

(* ================================================================== *)
(** ** Confidence *)

(** C6, as stated, fails on the fallback path, where the confidence is the
    constant 75: for the text "a" the score is 70, and
    [min(|70 - 50| * 2, 95)] is 40. *)
Lemma fallback_confidence_fixed :
  let r := snd (analyzeText (stub Throws) no_models (js "a")) in
  credibilityScore r = of_Z 70
  /\ confidenceLevel r = of_Z 75
  /\ confidence_of (credibilityScore r) = of_Z 40
  /\ confidenceLevel r <> confidence_of (credibilityScore r).
Proof.
  vm_compute. repeat split; try reflexivity. discriminate.
Qed.

(** C6, amended.  On the normal path the confidence level is
    [min(|credibilityScore - 50| * 2, 95)]; on the fallback path it is the
    constant 75. *)
Theorem confidence_from_score pipeline (st : Models) (t : text) :
  let r := snd (analyzeText pipeline st t) in
  (forall sentimentResult,
      answer_of pipeline st t = Returns sentimentResult ->
      confidenceLevel r = confidence_of (credibilityScore r))
  /\ (answer_of pipeline st t = Throws -> confidenceLevel r = of_Z 75).
Proof.
  intros r. subst r. rewrite analyzeText_answer. split.
  - intros sentimentResult ->.
    rewrite analyzeWith_confidenceLevel, analyzeWith_credibilityScore.
    apply confidence_code_rounded.
  - intros ->. reflexivity.
Qed.

Lemma confidence_from_score_witness :
  let answer := [entry "NEGATIVE" (div (of_Z 9) (of_Z 10))] in
  let r := snd (analyzeText (stub (Returns answer)) no_models shocking) in
  answer_of (stub (Returns answer)) no_models shocking = Returns answer
  /\ confidenceLevel r = confidence_of (credibilityScore r)
  /\ confidenceLevel r = of_Z 22
  /\ (answer_of (stub Throws) no_models shocking = Throws
      /\ confidenceLevel (snd (analyzeText (stub Throws) no_models shocking))
         = of_Z 75).
Proof.
  split; [reflexivity|].
  pose proof (proj1 (confidence_from_score
                       (stub (Returns [entry "NEGATIVE" (div (of_Z 9) (of_Z 10))]))
                       no_models shocking) _ eq_refl) as Hc.
  split; [exact Hc|]. split; [vm_compute; reflexivity|].
  split; [reflexivity|].
  exact (proj2 (confidence_from_score (stub Throws) no_models shocking)
           eq_refl).
Defined.

(* ================================================================== *)
(** ** The classifier handle *)

(** A failed load of the sentiment pipeline leaves the handle null. *)
Lemma initializeModels_unavailable pipeline (st : Models) :
  sentimentAnalyzer st = None ->
  pipeline "sentiment-analysis" model_name = Throws ->
  sentimentAnalyzer (initializeModels pipeline st) = None.
Proof.
  intros Hnull Hthrows.
  now rewrite (initializeModels_load_fails pipeline st Hnull Hthrows).
Qed.

(** C7. When the sentiment handle is null at the time of the call (as it
    is after a failed load), [analyzeText] takes the normal scoring path on
    the neutral answer of probability 0.5: the sentiment term of the
    weighted sum is [0.5 * 100 * 0.2], that is 10, the displayed factor is
    50, and the fallback analysis is not used. *)
Theorem neutral_default_when_unavailable
  (pipeline : string -> string -> Outcome Pipeline) (st : Models) (t : text) :
  sentimentAnalyzer (initializeModels pipeline st) = None ->
  let r := snd (analyzeText pipeline st t) in
  answer_of pipeline st t = Returns neutral
  /\ r = analyzeWith neutral t
  /\ credibilityScore r
       = Math_round
           (add
              (add
                 (add (mul (of_Z (analyzeLanguagePatterns t)) lit_0_3)
                      (mul (mul lit_0_5 (of_Z 100)) lit_0_2))
                 (mul (of_Z (analyzeFactualConsistency t)) lit_0_3))
              (mul (of_Z (analyzeSourceReliability t)) lit_0_2))
  /\ mul (mul lit_0_5 (of_Z 100)) lit_0_2 = of_Z 10
  /\ sentimentAnalysis (factors r) = of_Z 50
  /\ riskFactors r
       = identifyRiskFactors t (analyzeLanguagePatterns t)
           (analyzeFactualConsistency t).
Proof.
  intros Hnull r. subst r. rewrite analyzeText_answer.
  unfold answer_of. rewrite Hnull. repeat split.
Qed.

Lemma neutral_default_when_unavailable_witness :
  sentimentAnalyzer (initializeModels unavailable no_models) = None
  /\ let r := snd (analyzeText unavailable no_models shocking) in
     r = analyzeWith neutral shocking
     /\ sentimentAnalysis (factors r) = of_Z 50
     /\ credibilityScore r = of_Z 47
     /\ classification r = uncertain.
Proof.
  split; [exact (initializeModels_unavailable unavailable no_models
                   eq_refl eq_refl)|].
  pose proof (neutral_default_when_unavailable unavailable no_models shocking
                (initializeModels_unavailable unavailable no_models
                   eq_refl eq_refl)) as (_ & Hr & _ & _ & Hs & _).
  split; [exact Hr|]. split; [exact Hs|].
  rewrite Hr. vm_compute. split; reflexivity.
Defined.

(* ================================================================== *)
(** ** Risk factors *)

Lemma risk_checks_labels t l f : map snd (risk_checks t l f) = risk_labels.
Proof. reflexivity. Qed.

Lemma risk_labels_NoDup : NoDup risk_labels.
Proof.
  unfold risk_labels.
  repeat (constructor; [simpl; intuition discriminate|]).
  constructor.
Qed.

Lemma selected_In (checks : list (bool * string)) (s : string) :
  In s (selected checks) <-> In (true, s) checks.
Proof.
  unfold selected. rewrite in_map_iff. split.
  - intros [[b s'] [Hs Hin]]. apply filter_In in Hin as [Hin Hb].
    simpl in *. subst. exact Hin.
  - intros Hin. exists (true, s). split; [reflexivity|].
    apply filter_In. split; [exact Hin | reflexivity].
Qed.

Lemma selected_incl (checks : list (bool * string)) (s : string) :
  In s (selected checks) -> In s (map snd checks).
Proof.
  rewrite selected_In. intros Hin. apply in_map_iff. now exists (true, s).
Qed.

Lemma selected_NoDup (checks : list (bool * string)) :
  NoDup (map snd checks) -> NoDup (selected checks).
Proof.
  induction checks as [|[b s] checks IH]; simpl; intros Hnd.
  - constructor.
  - inversion Hnd as [|? ? Hnotin Hnd']; subst.
    unfold selected in *. simpl. destruct b; simpl; [|now apply IH].
    constructor; [|now apply IH].
    intros Hin. apply Hnotin. now apply selected_incl.
Qed.

(** The chain of [push]es is the selection of the checks that hold. *)
Lemma identifyRiskFactors_selected t l f :
  identifyRiskFactors t l f = selected (risk_checks t l f).
Proof.
  unfold identifyRiskFactors, risk_checks, selected, push.
  destruct (l <? 50), (f <? 50), (test clickbait_risk_re t),
    (test conspiracy_risk_re t), (gtb (capsRatio t) lit_0_3),
    (test punctuation_run_re t),
    (negb (test attribution_re t) && (100 <? length_of t))%bool;
    reflexivity.
Qed.

Lemma analyzeWith_riskFactors (sentimentResult : list SentimentEntry) (t : text) :
  riskFactors (analyzeWith sentimentResult t)
  = identifyRiskFactors t (analyzeLanguagePatterns t)
      (analyzeFactualConsistency t).
Proof. reflexivity. Qed.

(** The risk factors of every result come from [identifyRiskFactors]. *)
Lemma riskFactors_identified pipeline (st : Models) (t : text) :
  exists languageScore factualScore,
    riskFactors (snd (analyzeText pipeline st t))
    = identifyRiskFactors t languageScore factualScore.
Proof.
  rewrite analyzeText_answer.
  destruct (answer_of pipeline st t) as [|sentimentResult].
  - now exists 60, 60.
  - exists (analyzeLanguagePatterns t), (analyzeFactualConsistency t).
    apply analyzeWith_riskFactors.
Qed.

(* ================================================================== *)
(** ** The example texts *)

(** C9, as stated, fails on the example text: 9 of its 79 code units are
    capitals, the ratio does not exceed 0.3 and 'Excessive capitalization'
    is not reported, with a stub answering NEGATIVE 0.99 as with the
    neutral default, under which the text is 'uncertain'. *)
Lemma shocking_caps_ratio_low :
  let negative := stub (Returns [entry "NEGATIVE" (div (of_Z 99) (of_Z 100))]) in
  match_count (Cls upper) shocking = 9
  /\ length_of shocking = 79
  /\ gtb (capsRatio shocking) lit_0_3 = false
  /\ ~ In "Excessive capitalization"
         (riskFactors (snd (analyzeText negative no_models shocking)))
  /\ ~ In "Excessive capitalization"
         (riskFactors (snd (analyzeText unavailable no_models shocking)))
  /\ classification (snd (analyzeText unavailable no_models shocking))
       = uncertain.
Proof.
  vm_compute. repeat split; try reflexivity; intuition discriminate.
Qed.

(** C9, amended.  On the example text three clickbait patterns and one
    conspiracy pattern match, the caps ratio (9/79) does not exceed 0.3, the
    risk factors are, whatever the classifier does, without 'Excessive
    capitalization'; with a stubbed classifier answering NEGATIVE with
    probability 0.99 they are 'Suspicious language patterns detected',
    'Clickbait-style language', 'Conspiracy-style rhetoric' and 'Excessive
    punctuation', the score is 37 and the classification is 'misleading'. *)
Theorem shocking_example :
  let negative := stub (Returns [entry "NEGATIVE" (div (of_Z 99) (of_Z 100))]) in
  let r := snd (analyzeText negative no_models shocking) in
  count_filter clickbaitPatterns shocking = 3
  /\ 2 <= count_filter clickbaitPatterns shocking
  /\ 1 <= count_filter conspiracyPatterns shocking
  /\ gtb (capsRatio shocking) lit_0_3 = false
  /\ (forall pipeline st,
        ~ In "Excessive capitalization"
            (riskFactors (snd (analyzeText pipeline st shocking))))
  /\ languagePattern (factors r) = of_Z 35
  /\ riskFactors r
       = [ "Suspicious language patterns detected";
           "Clickbait-style language";
           "Conspiracy-style rhetoric";
           "Excessive punctuation" ]
  /\ credibilityScore r = of_Z 37
  /\ classification r = misleading.
Proof.
  cbv zeta.
  split; [vm_compute; reflexivity|].
  split; [vm_compute; discriminate|].
  split; [vm_compute; discriminate|].
  split; [vm_compute; reflexivity|].
  split; [|vm_compute; repeat split; reflexivity].
  intros pipeline st. rewrite analyzeText_answer.
  destruct (answer_of pipeline st shocking) as [|sentimentResult].
  - vm_compute. intuition discriminate.
  - rewrite analyzeWith_riskFactors. vm_compute. intuition discriminate.
Qed.

(** The second example of the specification: with a classifier answering
    POSITIVE 0.99 the attributed text is 'trustworthy', and no risk factor
    is reported. *)
Example attributed_example :
  let positive := stub (Returns [entry "POSITIVE" (div (of_Z 99) (of_Z 100))]) in
  let r := snd (analyzeText positive no_models attributed) in
  sourceReliability (factors r) = of_Z 100
  /\ factualConsistency (factors r) = of_Z 75
  /\ riskFactors r = []
  /\ credibilityScore r = of_Z 86
  /\ classification r = trustworthy.
Proof.
  vm_compute. repeat split; reflexivity.
Qed.

(** C10. The fallback result never lists 'Suspicious language patterns
    detected' nor 'Lack of factual substantiation': its risk factors are
    computed with both scores fixed at 60, also for a text whose displayed
    languagePattern and factualConsistency factors are below 50. *)
Theorem fallback_risk_factors_skip_scores :
  (forall t : text,
      riskFactors (getFallbackAnalysis t) = identifyRiskFactors t 60 60
      /\ ~ In "Suspicious language patterns detected"
             (riskFactors (getFallbackAnalysis t))
      /\ ~ In "Lack of factual substantiation"
             (riskFactors (getFallbackAnalysis t)))
  /\ (let t := js "SHOCKING!! You won't believe this amazing viral scandal: the hidden truth they don't want you to know, a cover-up!!!" in
      let r := getFallbackAnalysis t in
      languagePattern (factors r) = of_Z 17
      /\ ltb (languagePattern (factors r)) (of_Z 50) = true
      /\ factualConsistency (factors r) = of_Z 30
      /\ ltb (factualConsistency (factors r)) (of_Z 50) = true
      /\ riskFactors r
           = [ "Clickbait-style language"; "Conspiracy-style rhetoric";
               "Excessive punctuation"; "No attribution to sources" ]).
Proof.
  split.
  - intros t. split; [reflexivity|].
    change (riskFactors (getFallbackAnalysis t)) with (identifyRiskFactors t 60 60).
    rewrite identifyRiskFactors_selected.
    split; rewrite selected_In; unfold risk_checks, In;
      change (60 <? 50) with false; intuition discriminate.
  - vm_compute. repeat split; reflexivity.
Qed.

(* ================================================================== *)
(** * Further properties of the code *)

(* ================================================================== *)
(** ** The classifier handle across calls *)

Lemma initializeModels_keeps_classifier pipeline (st : Models) (p : Pipeline) :
  textClassifier st = Some p ->
  textClassifier (initializeModels pipeline st) = Some p.
Proof.
  intros Hp. unfold initializeModels.
  destruct (sentimentAnalyzer st).
  - rewrite Hp. exact Hp.
  - destruct (pipeline "sentiment-analysis" model_name); [exact Hp|].
    cbn [textClassifier]. rewrite Hp. reflexivity.
Qed.

Lemma after_calls_keeps_handle calls : forall (st : Models) (a : Pipeline),
  sentimentAnalyzer st = Some a ->
  sentimentAnalyzer (after_calls st calls) = Some a.
Proof.
  induction calls as [|call calls IH]; intros st a Ha; [exact Ha|].
  apply IH. rewrite analyzeText_models.
  now apply initializeModels_keeps_handle.
Qed.

(** The sentiment handle after [initializeModels]: the one that was set,
    or else the one the loader returns, whatever becomes of the second
    load. *)
Lemma initializeModels_sentiment pipeline (st : Models) :
  sentimentAnalyzer (initializeModels pipeline st)
  = match sentimentAnalyzer st with
    | Some a => Some a
    | None =>
        match pipeline "sentiment-analysis" model_name with
        | Returns a => Some a
        | Throws => None
        end
    end.
Proof.
  unfold initializeModels.
  destruct (sentimentAnalyzer st) as [a|] eqn:Ha.
  - destruct (textClassifier st); [exact Ha|].
    destruct (pipeline "text-classification" model_name);
      cbn [sentimentAnalyzer]; congruence.
  - destruct (pipeline "sentiment-analysis" model_name) as [|a]; [exact Ha|].
    cbn [textClassifier].
    destruct (textClassifier st); [reflexivity|].
    destruct (pipeline "text-classification" model_name); reflexivity.
Qed.

(** X1. A sentiment handle that is set is never loaded again: after any
    sequence of calls of [analyzeText], whatever the loader does at each of
    them, the handle is the one that was set, and the next call asks this
    very handle for its answer. *)
Theorem sentiment_handle_loaded_once
  (calls : list ((string -> string -> Outcome Pipeline) * text))
  (pipeline : string -> string -> Outcome Pipeline)
  (st : Models) (a : Pipeline) (t : text) :
  sentimentAnalyzer st = Some a ->
  sentimentAnalyzer (after_calls st calls) = Some a
  /\ answer_of pipeline (after_calls st calls) t = a t
  /\ snd (analyzeText pipeline (after_calls st calls) t)
     = match a t with
       | Returns sentimentResult => analyzeWith sentimentResult t
       | Throws => getFallbackAnalysis t
       end.
Proof.
  intros Ha.
  pose proof (after_calls_keeps_handle calls st a Ha) as Hkept.
  assert (Hanswer : answer_of pipeline (after_calls st calls) t = a t).
  { unfold answer_of.
    now rewrite (initializeModels_keeps_handle pipeline _ a Hkept). }
  split; [exact Hkept|]. split; [exact Hanswer|].
  now rewrite analyzeText_answer, Hanswer.
Qed.

Lemma sentiment_handle_loaded_once_witness :
  let a : Pipeline := fun _ => Returns [entry "POSITIVE" (of_Z 1)] in
  let st := {| sentimentAnalyzer := Some a; textClassifier := None |} in
  let calls := [(unavailable, js "first"); (stub Throws, js "second")] in
  sentimentAnalyzer st = Some a
  /\ answer_of unavailable (after_calls st calls) (js "third")
     = Returns [entry "POSITIVE" (of_Z 1)].
Proof.
  intros a st calls. split; [reflexivity|].
  exact (proj1 (proj2 (sentiment_handle_loaded_once calls unavailable st a
                         (js "third") eq_refl))).
Defined.

(** X2. A failed load is not remembered.  When the load of the sentiment
    pipeline throws, [analyzeText] leaves the static fields as they were
    and returns the result of the neutral answer; a later call whose load
    succeeds sets the handle and asks it. *)
Theorem failed_load_is_retried
  (failing pipeline : string -> string -> Outcome Pipeline)
  (st : Models) (a : Pipeline) (t1 t2 : text) :
  sentimentAnalyzer st = None ->
  failing "sentiment-analysis" model_name = Throws ->
  pipeline "sentiment-analysis" model_name = Returns a ->
  let st1 := fst (analyzeText failing st t1) in
  let st2 := fst (analyzeText pipeline st1 t2) in
  st1 = st
  /\ snd (analyzeText failing st t1) = analyzeWith neutral t1
  /\ sentimentAnalyzer st2 = Some a
  /\ answer_of pipeline st1 t2 = a t2.
Proof.
  intros Hnull Hfails Hloads st1 st2.
  assert (H1 : st1 = st).
  { unfold st1. rewrite analyzeText_models.
    now apply initializeModels_load_fails. }
  assert (H2 : sentimentAnalyzer (initializeModels pipeline st) = Some a).
  { now rewrite initializeModels_sentiment, Hnull, Hloads. }
  split; [exact H1|]. split.
  - rewrite analyzeText_answer. unfold answer_of.
    now rewrite (initializeModels_load_fails failing st Hnull Hfails), Hnull.
  - unfold st2. rewrite analyzeText_models, H1. split; [exact H2|].
    unfold answer_of. now rewrite H2.
Qed.

Lemma failed_load_is_retried_witness :
  let a : Pipeline := fun _ => Returns [entry "POSITIVE" (of_Z 1)] in
  let loader : string -> string -> Outcome Pipeline :=
    fun task _ => if String.eqb task "sentiment-analysis" then Returns a else Throws in
  let st1 := fst (analyzeText unavailable no_models (js "first")) in
  sentimentAnalyzer no_models = None
  /\ st1 = no_models
  /\ sentimentAnalyzer (fst (analyzeText loader st1 (js "second"))) = Some a.
Proof.
  intros a loader st1. split; [reflexivity|].
  pose proof (failed_load_is_retried unavailable loader no_models a
                (js "first") (js "second") eq_refl eq_refl eq_refl)
    as (H1 & _ & H2 & _).
  split; [exact H1 | exact H2].
Defined.

(** X3. The text classifier is loaded and never asked.  The result of
    [analyzeText], and the sentiment handle it leaves behind, depend on the
    sentiment handle and on the load of the sentiment pipeline only: neither
    the [textClassifier] field nor the outcome of the load of the
    text-classification pipeline changes them. *)
Theorem text_classifier_is_never_consulted
  (pipeline pipeline' : string -> string -> Outcome Pipeline)
  (st st' : Models) (t : text) :
  sentimentAnalyzer st = sentimentAnalyzer st' ->
  pipeline "sentiment-analysis" model_name
    = pipeline' "sentiment-analysis" model_name ->
  sentimentAnalyzer (fst (analyzeText pipeline st t))
    = sentimentAnalyzer (fst (analyzeText pipeline' st' t))
  /\ snd (analyzeText pipeline st t) = snd (analyzeText pipeline' st' t).
Proof.
  intros Hst Hload.
  assert (H : sentimentAnalyzer (initializeModels pipeline st)
              = sentimentAnalyzer (initializeModels pipeline' st')).
  { now rewrite !initializeModels_sentiment, Hst, Hload. }
  split.
  - now rewrite !analyzeText_models.
  - rewrite !analyzeText_answer. unfold answer_of. now rewrite H.
Qed.

Lemma text_classifier_is_never_consulted_witness :
  let a : Pipeline := fun _ => Returns [entry "NEGATIVE" (of_Z 1)] in
  let b : Pipeline := fun _ => Returns [entry "POSITIVE" (of_Z 1)] in
  let loader : string -> string -> Outcome Pipeline :=
    fun task _ => if String.eqb task "sentiment-analysis" then Returns a else Throws in
  let loader' : string -> string -> Outcome Pipeline :=
    fun task _ => if String.eqb task "sentiment-analysis" then Returns a else Returns b in
  let st' := {| sentimentAnalyzer := None; textClassifier := Some b |} in
  snd (analyzeText loader no_models shocking)
  = snd (analyzeText loader' st' shocking).
Proof.
  intros a b loader loader' st'.
  exact (proj2 (text_classifier_is_never_consulted loader loader' no_models st'
                  shocking eq_refl eq_refl)).
Defined.

(** X20. A second call on the same text repeats the result: the static
    fields a first call leaves behind change nothing for a second call made
    while the loader and the classifier behave as before, and the second
    call leaves the fields as it found them. *)
Theorem second_call_repeats_the_result
  (pipeline : string -> string -> Outcome Pipeline) (st : Models) (t : text) :
  let first := analyzeText pipeline st t in
  let second := analyzeText pipeline (fst first) t in
  snd second = snd first
  /\ fst second = fst first.
Proof.
  cbv zeta. rewrite !analyzeText_answer, !analyzeText_models.
  assert (Hidem : initializeModels pipeline (initializeModels pipeline st)
                  = initializeModels pipeline st).
  { unfold initializeModels. destruct st as [[a|] [c|]];
      cbn [sentimentAnalyzer textClassifier];
      destruct (pipeline "sentiment-analysis" model_name) eqn:Hs;
      destruct (pipeline "text-classification" model_name) eqn:Hl;
      cbn [sentimentAnalyzer textClassifier]; rewrite ?Hs, ?Hl; reflexivity. }
  split; [|exact Hidem].
  unfold answer_of. now rewrite Hidem.
Qed.

(* ================================================================== *)
(** ** Matching *)

Lemma test_alt (a b : regex) (t : text) :
  test (Alt a b) t = test a t || test b t.
Proof.
  induction t as [|c t IH]; cbn [test]; unfold exec_at; cbn [run].
  - destruct (run a [] Some), (run b [] Some); reflexivity.
  - fold (exec_at (Alt a b)) in IH.
    destruct (run a (c :: t) Some), (run b (c :: t) Some); cbn [orb];
      try reflexivity.
    + now rewrite orb_true_r.
    + exact IH.
Qed.

Lemma match_count_test (r : regex) (t : text) :
  (0 <? match_count r t) = test r t.
Proof.
  unfold match_count.
  induction t as [|c t IH]; cbn [match_count_from test].
  - destruct (exec_at r []); reflexivity.
  - destruct (exec_at r (c :: t)); [|exact IH].
    apply Z.ltb_lt. lia.
Qed.

Lemma count_filter_nonneg (ps : list regex) (t : text) : 0 <= count_filter ps t.
Proof. unfold count_filter. lia. Qed.

Lemma count_filter_le (ps : list regex) (t : text) :
  count_filter ps t <= Z.of_nat (List.length ps).
Proof.
  unfold count_filter. apply Nat2Z.inj_le. apply filter_length_le.
Qed.

Lemma count_filter_In (ps : list regex) (r : regex) (t : text) :
  In r ps -> test r t = true -> 1 <= count_filter ps t.
Proof.
  intros Hin Ht. unfold count_filter.
  assert (H : In r (filter (fun pattern => test pattern t) ps)).
  { apply filter_In. now split. }
  destruct (filter (fun pattern => test pattern t) ps); [destruct H|].
  cbn [List.length]. lia.
Qed.

Lemma analyzeLanguagePatterns_le (t : text) :
  analyzeLanguagePatterns t
  <= 80 - (if gtb (capsRatio t) lit_0_3 then 20 else 0)
        - (if test punctuation_run_re t then 15 else 0)
        - 10 * (if test clickbait_risk_re t then 1 else 0).
Proof.
  unfold analyzeLanguagePatterns, punctuationRatio.
  rewrite match_count_test.
  pose proof (count_filter_nonneg clickbaitPatterns t) as Hc.
  pose proof (count_filter_nonneg emotionalWords t) as He.
  assert (Hrisk : test clickbait_risk_re t = true ->
                  1 <= count_filter clickbaitPatterns t).
  { unfold clickbait_risk_re. rewrite !test_alt, !orb_true_iff.
    intros [[H|H]|H];
      (eapply count_filter_In; [|exact H]); cbn; tauto. }
  destruct (test clickbait_risk_re t); [specialize (Hrisk eq_refl)|];
    destruct (gtb (capsRatio t) lit_0_3), (test punctuation_run_re t);
    unfold clamp_0_100; lia.
Qed.

Lemma analyzeFactualConsistency_le (t : text) :
  analyzeFactualConsistency t
  <= 75 - 15 * (if test conspiracy_risk_re t then 1 else 0).
Proof.
  unfold analyzeFactualConsistency.
  pose proof (count_filter_nonneg absolutePatterns t) as Ha.
  pose proof (count_filter_nonneg conspiracyPatterns t) as Hc.
  assert (Hrisk : test conspiracy_risk_re t = true ->
                  1 <= count_filter conspiracyPatterns t).
  { unfold conspiracy_risk_re. rewrite !test_alt, !orb_true_iff.
    intros [[H|H]|H];
      (eapply count_filter_In; [|exact H]); cbn; tauto. }
  destruct (test conspiracy_risk_re t); [specialize (Hrisk eq_refl)|];
    destruct (test numbers_re t && negb (test sources_re t));
    unfold clamp_0_100; lia.
Qed.

(* ================================================================== *)
(** ** Scores in integers *)

(** With a language score of at most 80 and a factual score of at most 75,
    the weighted sum stays below [86.5 + 2^-45]. *)
Lemma weighted_sum_below_87 (l f s : Z) (adjusted : number) :
  0 <= l <= 80 -> 0 <= f <= 75 -> 0 <= s <= 100 ->
  below adjusted (value ub_100) ->
  below (weighted_sum (of_Z l) adjusted (of_Z f) (of_Z s)) (value ub_86_5).
Proof.
  intros Hl Hf Hs Ha. unfold weighted_sum, lit_0_3, lit_0_2.
  assert (Hl' : below (of_Z l) (value (S754_finite false 5 4))).
  { apply of_Z_below; [lia | reflexivity |].
    assert (H80 : (value (S754_finite false 5 4) == inject_Z 80)%Q) by reflexivity.
    rewrite H80, <- Zle_Qle. lia. }
  assert (Hf' : below (of_Z f) (value (S754_finite false 75 0))).
  { apply of_Z_below; [lia | reflexivity |].
    assert (H75 : (value (S754_finite false 75 0) == inject_Z 75)%Q) by reflexivity.
    rewrite H75, <- Zle_Qle. lia. }
  assert (H2 : forall x, below x (value ub_100) ->
             below (mul x (S754_finite false 7205759403792794 (-55)))
                   (value ub_20)).
  { intros x Hx. apply (mul_below _ (value ub_100));
      [exact Hx | vm_compute; discriminate | reflexivity | closed_Qle]. }
  apply (add_below _ _ (value ub_66_5) (value ub_20));
    [| apply H2; now apply score_below | reflexivity | closed_Qle].
  apply (add_below _ _ (value ub_44) (value ub_22_5));
    [| | reflexivity | closed_Qle].
  - apply (add_below _ _ (value ub_24) (value ub_20));
      [| now apply H2 | reflexivity | closed_Qle].
    apply (mul_below _ (value (S754_finite false 5 4)));
      [exact Hl' | vm_compute; discriminate | reflexivity | closed_Qle].
  - apply (mul_below _ (value (S754_finite false 75 0)));
      [exact Hf' | vm_compute; discriminate | reflexivity | closed_Qle].
Qed.

Lemma normal_credibility_at_most_87 (sentimentResult : list SentimentEntry) (t : text) :
  probability_answer sentimentResult ->
  exists j, 0 <= j <= 87
    /\ credibilityScore (analyzeWith sentimentResult t) = of_Z j.
Proof.
  intros Hp. rewrite analyzeWith_credibilityScore.
  apply (Math_round_below _ (value ub_86_5)).
  - apply weighted_sum_below_87.
    + pose proof (analyzeLanguagePatterns_range t).
      pose proof (analyzeLanguagePatterns_le t).
      destruct (gtb (capsRatio t) lit_0_3), (test punctuation_run_re t),
        (test clickbait_risk_re t); lia.
    + pose proof (analyzeFactualConsistency_range t).
      pose proof (analyzeFactualConsistency_le t).
      destruct (test conspiracy_risk_re t); lia.
    + apply analyzeSourceReliability_range.
    + apply adjusted_below. now apply sentimentScore_below.
  - vm_compute. reflexivity.
Qed.

(** The confidence of an integer score, in integers. *)
Lemma confidence_code_integer (j : Z) :
  0 <= j <= 100 ->
  confidence_code (of_Z j) = of_Z (Z.min (Z.abs (j - 50) * 2) 95).
Proof.
  intros Hj. apply same_eq.
  exact (forall_upto
           (fun j => same (confidence_code (of_Z j))
                          (of_Z (Z.min (Z.abs (j - 50) * 2) 95)))
           101 ltac:(vm_compute; reflexivity) j ltac:(lia)).
Qed.

(** The numbers that are integers of [[0,100]] are told apart by [of_Z]. *)
Lemma of_Z_small_inj (i j : Z) :
  0 <= i <= 100 -> 0 <= j <= 100 -> of_Z i = of_Z j -> i = j.
Proof.
  intros Hi Hj Heq.
  assert (Hall : forall i, 0 <= i < 101 ->
            forallb (fun j => implb (same (of_Z i) (of_Z j)) (i =? j))
                    (map Z.of_nat (seq 0 101)) = true).
  { intros i0 Hi0.
    exact (forall_upto
             (fun i => forallb (fun j => implb (same (of_Z i) (of_Z j)) (i =? j))
                         (map Z.of_nat (seq 0 101)))
             101 ltac:(vm_compute; reflexivity) i0 Hi0). }
  specialize (Hall i ltac:(lia)). rewrite forallb_forall in Hall.
  specialize (Hall j). rewrite <- Heq in Hall.
  assert (Hsame : same (of_Z i) (of_Z i) = true).
  { destruct (of_Z i) as [[]|[]| |s m e]; try reflexivity.
    simpl. now rewrite Bool.eqb_reflx, Pos.eqb_refl, Z.eqb_refl. }
  rewrite Hsame in Hall. apply Z.eqb_eq. apply Hall.
  apply in_map_iff. exists (Z.to_nat j). split; [lia|]. apply in_seq. lia.
Qed.

(** The classification of an integer score, in integers. *)
Lemma classify_integer (j : Z) :
  0 <= j <= 100 ->
  classify (of_Z j)
  = if 75 <=? j then trustworthy else if j <=? 40 then misleading else uncertain.
Proof.
  intros Hj.
  pose proof (forall_upto
                (fun j => Classification_eqb (classify (of_Z j))
                            (if 75 <=? j then trustworthy
                             else if j <=? 40 then misleading else uncertain))
                101 ltac:(vm_compute; reflexivity) j ltac:(lia)) as H.
  cbv beta in H.
  destruct (classify (of_Z j)),
    (if 75 <=? j then trustworthy else if j <=? 40 then misleading else uncertain);
    (reflexivity || discriminate H).
Qed.

(** X6. The language score never exceeds 80 and the factual score never
    exceeds 75.  Hence, with a probability in [[0,1]], no credibility score
    exceeds 87 (the fallback score lies in [[30,85]]), and a 'trustworthy'
    result never comes with a confidence above 75. *)
Theorem credibility_at_most_87 pipeline (st : Models) (t : text) :
  (forall sentimentResult,
      answer_of pipeline st t = Returns sentimentResult ->
      probability_answer sentimentResult) ->
  let r := snd (analyzeText pipeline st t) in
  analyzeLanguagePatterns t <= 80
  /\ analyzeFactualConsistency t <= 75
  /\ exists score,
       credibilityScore r = of_Z score /\ 0 <= score <= 87
       /\ (answer_of pipeline st t = Throws -> 30 <= score <= 85)
       /\ (classification r = trustworthy ->
           exists confidence,
             confidenceLevel r = of_Z confidence /\ confidence <= 75).
Proof.
  intros Hp r. subst r. rewrite analyzeText_answer.
  split.
  { pose proof (analyzeLanguagePatterns_le t).
    destruct (gtb (capsRatio t) lit_0_3), (test punctuation_run_re t),
      (test clickbait_risk_re t); lia. }
  split.
  { pose proof (analyzeFactualConsistency_le t).
    destruct (test conspiracy_risk_re t); lia. }
  destruct (answer_of pipeline st t) as [|sentimentResult].
  - destruct (fallback_credibility_integer t) as (j & Hj & Hc).
    exists j. split; [exact Hc|]. split; [lia|]. split; [intros _; exact Hj|].
    intros _. exists 75. split; [reflexivity | lia].
  - specialize (Hp sentimentResult eq_refl).
    destruct (normal_credibility_at_most_87 sentimentResult t Hp)
      as (j & Hj & Hc).
    exists j. split; [exact Hc|]. split; [exact Hj|].
    split; [discriminate|]. intros Htrust.
    rewrite classification_normal, Hc, classify_integer in Htrust by lia.
    exists (Z.min (Z.abs (j - 50) * 2) 95).
    split.
    + rewrite analyzeWith_confidenceLevel, Hc.
      apply confidence_code_integer. lia.
    + destruct (75 <=? j) eqn:H75; [apply Z.leb_le in H75; lia|].
      destruct (j <=? 40); discriminate.
Qed.

Lemma credibility_at_most_87_witness :
  let answer := [entry "POSITIVE" (of_Z 1)] in
  let r := snd (analyzeText (stub (Returns answer)) no_models attributed) in
  (forall sentimentResult,
      answer_of (stub (Returns answer)) no_models attributed
        = Returns sentimentResult ->
      probability_answer sentimentResult)
  /\ credibilityScore r = of_Z 87
  /\ analyzeLanguagePatterns attributed <= 80
  /\ analyzeFactualConsistency attributed <= 75.
Proof.
  assert (Hp : forall sentimentResult,
             answer_of (stub (Returns [entry "POSITIVE" (of_Z 1)]))
               no_models attributed = Returns sentimentResult ->
             probability_answer sentimentResult).
  { intros sentimentResult Hans. rewrite answer_of_stub in Hans.
    injection Hans as <-. split; reflexivity. }
  split; [exact Hp|]. split; [vm_compute; reflexivity|].
  destruct (credibility_at_most_87
              (stub (Returns [entry "POSITIVE" (of_Z 1)]))
              no_models attributed Hp) as (Hl & Hf & _).
  split; [exact Hl | exact Hf].
Defined.
(** X5. With a probability in [[0,1]] the credibility score, the displayed
    sentiment factor and the confidence level of a result are integers.  On
    the normal path the confidence is [min(2 * |score - 50|, 95)] computed
    in integers, and the classification is that of the thresholds 75 and 40
    on the integer score. *)
Theorem result_numbers_are_integers pipeline (st : Models) (t : text) :
  (forall sentimentResult,
      answer_of pipeline st t = Returns sentimentResult ->
      probability_answer sentimentResult) ->
  let r := snd (analyzeText pipeline st t) in
  exists score sentiment confidence,
    credibilityScore r = of_Z score /\ 0 <= score <= 100
    /\ sentimentAnalysis (factors r) = of_Z sentiment /\ 0 <= sentiment <= 100
    /\ confidenceLevel r = of_Z confidence /\ 0 <= confidence <= 95
    /\ (answer_of pipeline st t <> Throws ->
        confidence = Z.min (Z.abs (score - 50) * 2) 95
        /\ classification r
           = if 75 <=? score then trustworthy
             else if score <=? 40 then misleading else uncertain).
Proof.
  intros Hp r. subst r. rewrite analyzeText_answer.
  destruct (answer_of pipeline st t) as [|sentimentResult].
  - destruct (fallback_credibility_integer t) as (j & Hj & Hc).
    exists j, 60, 75. repeat (split; [first [exact Hc | reflexivity | lia]|]).
    intros H. now contradiction H.
  - specialize (Hp sentimentResult eq_refl).
    destruct (normal_credibility_integer sentimentResult t Hp) as (j & Hj & Hc).
    destruct (normal_sentiment_integer sentimentResult t Hp) as (k & Hk & Hsent).
    exists j, k, (Z.min (Z.abs (j - 50) * 2) 95).
    split; [exact Hc|]. split; [exact Hj|].
    split; [exact Hsent|]. split; [exact Hk|].
    split; [rewrite analyzeWith_confidenceLevel, Hc;
            now apply confidence_code_integer|].
    split; [lia|]. intros _. split; [reflexivity|].
    rewrite classification_normal, Hc. now apply classify_integer.
Qed.

Lemma result_numbers_are_integers_witness :
  let answer := [entry "NEGATIVE" (div (of_Z 9) (of_Z 10))] in
  let r := snd (analyzeText (stub (Returns answer)) no_models shocking) in
  (forall sentimentResult,
      answer_of (stub (Returns answer)) no_models shocking
        = Returns sentimentResult ->
      probability_answer sentimentResult)
  /\ exists score sentiment confidence,
       credibilityScore r = of_Z score
       /\ sentimentAnalysis (factors r) = of_Z sentiment
       /\ confidenceLevel r = of_Z confidence.
Proof.
  assert (Hp : forall sentimentResult,
             answer_of (stub (Returns [entry "NEGATIVE" (div (of_Z 9) (of_Z 10))]))
               no_models shocking = Returns sentimentResult ->
             probability_answer sentimentResult).
  { intros sentimentResult Hans. rewrite answer_of_stub in Hans.
    injection Hans as <-. split; reflexivity. }
  split; [exact Hp|].
  destruct (result_numbers_are_integers
              (stub (Returns [entry "NEGATIVE" (div (of_Z 9) (of_Z 10))]))
              no_models shocking Hp)
    as (score & sentiment & confidence & Hc & _ & Hs & _ & Hconf & _).
  exists score, sentiment, confidence. repeat split; assumption.
Defined.

(** The text factors of a result are the three sub-scores, on both paths. *)
Lemma analyzeText_factors pipeline (st : Models) (t : text) :
  let r := snd (analyzeText pipeline st t) in
  languagePattern (factors r) = of_Z (analyzeLanguagePatterns t)
  /\ factualConsistency (factors r) = of_Z (analyzeFactualConsistency t)
  /\ sourceReliability (factors r) = of_Z (analyzeSourceReliability t).
Proof.
  cbv zeta. rewrite analyzeText_answer.
  destruct (answer_of pipeline st t); repeat split.
Qed.

(** The checks a reported risk factor stands for. *)
Lemma riskFactors_checks (t : text) (l f : Z) :
  (In "Clickbait-style language" (identifyRiskFactors t l f)
     <-> test clickbait_risk_re t = true)
  /\ (In "Conspiracy-style rhetoric" (identifyRiskFactors t l f)
     <-> test conspiracy_risk_re t = true)
  /\ (In "Excessive capitalization" (identifyRiskFactors t l f)
     <-> gtb (capsRatio t) lit_0_3 = true)
  /\ (In "Excessive punctuation" (identifyRiskFactors t l f)
     <-> test punctuation_run_re t = true)
  /\ (In "No attribution to sources" (identifyRiskFactors t l f)
     <-> test attribution_re t = false /\ 100 < length_of t).
Proof.
  rewrite identifyRiskFactors_selected.
  assert (Hattr : negb (test attribution_re t) && (100 <? length_of t) = true
                  <-> test attribution_re t = false /\ 100 < length_of t).
  { rewrite andb_true_iff, negb_true_iff, Z.ltb_lt. tauto. }
  rewrite <- Hattr.
  repeat split; intros H.
  all: try (apply selected_In in H; unfold risk_checks, In in H;
            repeat (destruct H as [H|H];
                    [try discriminate H; injection H as H; exact H|]);
            contradiction).
  all: apply selected_In; unfold risk_checks, In; rewrite H; tauto.
Qed.
Lemma In_upto (j : Z) (n : nat) :
  0 <= j < Z.of_nat n -> In j (map Z.of_nat (seq 0 n)).
Proof.
  intros Hj. apply in_map_iff. exists (Z.to_nat j). split; [lia|].
  apply in_seq. lia.
Qed.

Lemma neutral_checked (language factual source : Z) :
  0 <= language <= 80 -> 0 <= factual <= 15 -> 0 <= source <= 20 ->
  neutral_check language factual source = true.
Proof.
  intros Hl Hf Hs.
  pose proof (forall_upto
                (fun l => forallb
                            (fun f => forallb (neutral_check l f)
                                        (map Z.of_nat (seq 0 21)))
                            (map Z.of_nat (seq 0 16)))
                81 ltac:(vm_compute; reflexivity) language ltac:(lia)) as H.
  cbv beta in H. rewrite forallb_forall in H.
  specialize (H factual (In_upto factual 16 ltac:(lia))).
  rewrite forallb_forall in H.
  exact (H source (In_upto source 21 ltac:(lia))).
Qed.

Lemma analyzeFactualConsistency_fives (t : text) :
  exists k, 0 <= k <= 15 /\ analyzeFactualConsistency t = 5 * k.
Proof.
  unfold analyzeFactualConsistency.
  pose proof (count_filter_nonneg absolutePatterns t) as Ha.
  pose proof (count_filter_nonneg conspiracyPatterns t) as Hc.
  set (a := count_filter absolutePatterns t) in *.
  set (c := count_filter conspiracyPatterns t) in *.
  destruct (test numbers_re t && negb (test sources_re t)).
  - exists (Z.max 0 (Z.min 20 (10 - 2 * a - 3 * c))).
    unfold clamp_0_100. lia.
  - exists (Z.max 0 (Z.min 20 (15 - 2 * a - 3 * c))).
    unfold clamp_0_100. lia.
Qed.

Lemma analyzeSourceReliability_fives (t : text) :
  exists k, 0 <= k <= 20 /\ analyzeSourceReliability t = 5 * k.
Proof.
  unfold analyzeSourceReliability.
  set (c := count_filter crediblePatterns t).
  set (u := count_filter unreliablePatterns t).
  destruct (negb (test attribution_re t)).
  - exists (Z.max 0 (Z.min 20 (8 + 3 * c - 2 * u))).
    unfold clamp_0_100. lia.
  - exists (Z.max 0 (Z.min 20 (12 + 3 * c - 2 * u))).
    unfold clamp_0_100. lia.
Qed.

Lemma neutral_credibility (t : text) :
  credibilityScore (analyzeWith neutral t)
  = of_Z (neutral_score (analyzeLanguagePatterns t)
            (analyzeFactualConsistency t) (analyzeSourceReliability t)).
Proof.
  rewrite analyzeWith_credibilityScore.
  change (isNegative_of neutral) with false.
  change (sentimentScore_of neutral) with lit_0_5. cbv iota.
  destruct (analyzeFactualConsistency_fives t) as (f & Hf & ->).
  destruct (analyzeSourceReliability_fives t) as (s & Hs & ->).
  apply same_eq. apply neutral_checked; [|exact Hf|exact Hs].
  pose proof (analyzeLanguagePatterns_range t).
  pose proof (analyzeLanguagePatterns_le t).
  destruct (gtb (capsRatio t) lit_0_3), (test punctuation_run_re t),
    (test clickbait_risk_re t); lia.
Qed.

(** X7. When the sentiment handle is null the binary64 computation of the
    weighted sum agrees with exact arithmetic: the credibility score is
    [floor((3*language + 100 + 3*factual + 2*source + 5) / 10)], an integer
    of [[10,77]], and the classification and the confidence follow from it
    in integers. *)
Theorem neutral_score_in_integers pipeline (st : Models) (t : text) :
  sentimentAnalyzer (initializeModels pipeline st) = None ->
  let r := snd (analyzeText pipeline st t) in
  let score :=
    neutral_score (analyzeLanguagePatterns t) (analyzeFactualConsistency t)
      (analyzeSourceReliability t) in
  credibilityScore r = of_Z score
  /\ 10 <= score <= 77
  /\ classification r
     = (if 75 <=? score then trustworthy
        else if score <=? 40 then misleading else uncertain)
  /\ confidenceLevel r = of_Z (Z.min (Z.abs (score - 50) * 2) 95).
Proof.
  intros Hnull r score.
  assert (Hr : r = analyzeWith neutral t).
  { unfold r. rewrite analyzeText_answer. unfold answer_of. now rewrite Hnull. }
  assert (Hscore : 10 <= score <= 77).
  { unfold score, neutral_score.
    destruct (analyzeFactualConsistency_fives t) as (f & Hf & ->).
    destruct (analyzeSourceReliability_fives t) as (s & Hs & ->).
    pose proof (analyzeLanguagePatterns_range t).
    pose proof (analyzeLanguagePatterns_le t).
    assert (analyzeLanguagePatterns t <= 80)
      by (destruct (gtb (capsRatio t) lit_0_3), (test punctuation_run_re t),
            (test clickbait_risk_re t); lia).
    split; [apply Z.div_le_lower_bound; lia|].
    assert (H78 : (3 * analyzeLanguagePatterns t + 100 + 3 * (5 * f)
                   + 2 * (5 * s) + 5) / 10 < 78)
      by (apply Z.div_lt_upper_bound; lia).
    lia. }
  rewrite Hr. split; [apply neutral_credibility|]. split; [exact Hscore|].
  split.
  - rewrite classification_normal, neutral_credibility.
    apply classify_integer. lia.
  - rewrite analyzeWith_confidenceLevel, neutral_credibility.
    apply confidence_code_integer. lia.
Qed.

Lemma neutral_score_in_integers_witness :
  sentimentAnalyzer (initializeModels unavailable no_models) = None
  /\ analyzeLanguagePatterns shocking = 35
  /\ analyzeFactualConsistency shocking = 60
  /\ analyzeSourceReliability shocking = 40
  /\ neutral_score 35 60 40 = 47
  /\ credibilityScore (snd (analyzeText unavailable no_models shocking)) = of_Z 47.
Proof.
  split; [reflexivity|]. do 4 (split; [vm_compute; reflexivity|]).
  exact (proj1 (neutral_score_in_integers unavailable no_models shocking eq_refl)).
Defined.

(* ================================================================== *)
(** ** Risk factors and the sub-scores *)

(** X8. The risk factors of a result bound the factors displayed with it,
    on the normal path and on the fallback path: with 'Clickbait-style
    language' the language factor is at most 70, with 'Excessive
    capitalization' at most 60, with 'Excessive punctuation' at most 65,
    with the three of them at most 35; with 'Conspiracy-style rhetoric' the
    factual factor is at most 60. *)
Theorem risk_factors_bound_scores pipeline (st : Models) (t : text) :
  let r := snd (analyzeText pipeline st t) in
  exists language factual,
    languagePattern (factors r) = of_Z language
    /\ factualConsistency (factors r) = of_Z factual
    /\ 0 <= language <= 80 /\ 0 <= factual <= 75
    /\ (In "Clickbait-style language" (riskFactors r) -> language <= 70)
    /\ (In "Excessive capitalization" (riskFactors r) -> language <= 60)
    /\ (In "Excessive punctuation" (riskFactors r) -> language <= 65)
    /\ (In "Clickbait-style language" (riskFactors r) ->
        In "Excessive capitalization" (riskFactors r) ->
        In "Excessive punctuation" (riskFactors r) -> language <= 35)
    /\ (In "Conspiracy-style rhetoric" (riskFactors r) -> factual <= 60).
Proof.
  intros r.
  destruct (analyzeText_factors pipeline st t) as (Hl & Hf & _).
  destruct (riskFactors_identified pipeline st t) as (l & f & Hr).
  fold r in Hl, Hf, Hr.
  exists (analyzeLanguagePatterns t), (analyzeFactualConsistency t).
  split; [exact Hl|]. split; [exact Hf|]. rewrite Hr.
  destruct (riskFactors_checks t l f) as (Hclick & Hconsp & Hcaps & Hpunct & _).
  rewrite Hclick, Hconsp, Hcaps, Hpunct.
  pose proof (analyzeLanguagePatterns_range t) as Hlr.
  pose proof (analyzeFactualConsistency_range t) as Hfr.
  pose proof (analyzeLanguagePatterns_le t) as Hle.
  pose proof (analyzeFactualConsistency_le t) as Hfe.
  destruct (gtb (capsRatio t) lit_0_3), (test punctuation_run_re t),
    (test clickbait_risk_re t), (test conspiracy_risk_re t);
    repeat split; intros; try discriminate; lia.
Qed.

(** X9. The patterns of the risk factors are among those of the sub-scores.
    'Clickbait-style language' is reported exactly when one of the first
    three clickbait patterns matches, 'Conspiracy-style rhetoric' exactly
    when one of the first three conspiracy patterns matches, and 'Excessive
    punctuation' exactly when the punctuation penalty of the language score
    applies.  The other patterns cost points without a risk factor: a text
    with 'viral' and 'wake up' loses points for both and reports none. *)
Theorem risk_patterns_among_score_patterns (t : text) (languageScore factualScore : Z) :
  let risks := identifyRiskFactors t languageScore factualScore in
  (In "Clickbait-style language" risks
     <-> exists pattern,
           In pattern (firstn 3 clickbaitPatterns) /\ test pattern t = true)
  /\ (In "Conspiracy-style rhetoric" risks
     <-> exists pattern,
           In pattern (firstn 3 conspiracyPatterns) /\ test pattern t = true)
  /\ (In "Excessive punctuation" risks <-> 0 < punctuationRatio t)
  /\ (let viral := js "Viral: wake up" in
      count_filter clickbaitPatterns viral = 1
      /\ count_filter conspiracyPatterns viral = 1
      /\ identifyRiskFactors viral (analyzeLanguagePatterns viral)
           (analyzeFactualConsistency viral) = []).
Proof.
  intros risks. subst risks.
  destruct (riskFactors_checks t languageScore factualScore)
    as (Hclick & Hconsp & _ & Hpunct & _).
  rewrite Hclick, Hconsp, Hpunct.
  split; [|split; [|split]].
  - unfold clickbait_risk_re. rewrite !test_alt, !orb_true_iff.
    cbn [firstn clickbaitPatterns In]. split.
    + intros [[H|H]|H]; eexists; (split; [|exact H]); tauto.
    + intros (p & [<-|[<-|[<-|[]]]] & H); tauto.
  - unfold conspiracy_risk_re. rewrite !test_alt, !orb_true_iff.
    cbn [firstn conspiracyPatterns In]. split.
    + intros [[H|H]|H]; eexists; (split; [|exact H]); tauto.
    + intros (p & [<-|[<-|[<-|[]]]] & H); tauto.
  - unfold punctuationRatio. rewrite <- match_count_test. apply Z.ltb_lt.
  - vm_compute. repeat split.
Qed.

(** X19. The fallback result and the normal result of a text carry the same
    language, factual and source factors, and the same risk factors but for
    the two that depend on the scores: the fallback list is the normal list
    without 'Suspicious language patterns detected' and 'Lack of factual
    substantiation'. *)
Theorem fallback_keeps_text_risk_factors (t : text)
  (sentimentResult : list SentimentEntry) :
  let normal := analyzeWith sentimentResult t in
  let fallback := getFallbackAnalysis t in
  riskFactors fallback
  = filter
      (fun s =>
         negb (String.eqb s "Suspicious language patterns detected"
               || String.eqb s "Lack of factual substantiation"))
      (riskFactors normal)
  /\ languagePattern (factors fallback) = languagePattern (factors normal)
  /\ factualConsistency (factors fallback) = factualConsistency (factors normal)
  /\ sourceReliability (factors fallback) = sourceReliability (factors normal).
Proof.
  cbv zeta. split; [|repeat split].
  rewrite analyzeWith_riskFactors.
  change (riskFactors (getFallbackAnalysis t)) with (identifyRiskFactors t 60 60).
  rewrite !identifyRiskFactors_selected. unfold risk_checks, selected.
  change (60 <? 50) with false.
  destruct (analyzeLanguagePatterns t <? 50),
    (analyzeFactualConsistency t <? 50),
    (test clickbait_risk_re t), (test conspiracy_risk_re t),
    (gtb (capsRatio t) lit_0_3), (test punctuation_run_re t),
    (negb (test attribution_re t) && (100 <? length_of t)); reflexivity.
Qed.

(** X4. An answer without a first entry, or whose first score is falsy
    ([0], [-0] or [NaN]), is scored exactly as the neutral default, whatever
    its label and whatever follows the first entry. *)
Theorem falsy_score_is_neutral pipeline (st : Models) (t : text)
  (sentimentResult : list SentimentEntry) :
  answer_of pipeline st t = Returns sentimentResult ->
  match sentimentResult with
  | first :: _ => truthy (score first) = false
  | [] => True
  end ->
  snd (analyzeText pipeline st t) = analyzeWith neutral t.
Proof.
  intros Hans Hfalsy. rewrite analyzeText_answer, Hans.
  destruct sentimentResult as [|[l p] others]; [reflexivity|].
  cbn [score] in Hfalsy. unfold analyzeWith. cbn [score label].
  rewrite Hfalsy. cbv zeta.
  destruct (String.eqb l "NEGATIVE").
  - change (mul (sub (of_Z 1) lit_0_5) (of_Z 100)) with (mul lit_0_5 (of_Z 100)).
    reflexivity.
  - reflexivity.
Qed.

Lemma falsy_score_is_neutral_witness :
  let answer := [entry "NEGATIVE" (of_Z 0); entry "POSITIVE" (of_Z 1)] in
  answer_of (stub (Returns answer)) no_models shocking = Returns answer
  /\ truthy (of_Z 0) = false
  /\ snd (analyzeText (stub (Returns answer)) no_models shocking)
     = analyzeWith neutral shocking.
Proof.
  split; [reflexivity|]. split; [reflexivity|].
  exact (falsy_score_is_neutral
           (stub (Returns [entry "NEGATIVE" (of_Z 0); entry "POSITIVE" (of_Z 1)]))
           no_models shocking _ eq_refl eq_refl).
Defined.

(* ================================================================== *)
(** ** Letter case *)

(* ---------------------------------------------------------------- *)

Lemma test_exists (r : regex) (t : text) :
  test r t = true
  <-> exists before rest, t = (before ++ rest)%list /\ exec_at r rest <> None.
Proof.
  induction t as [|c t IH]; cbn [test].
  - destruct (exec_at r []) eqn:E.
    + split; [|reflexivity]. intros _. exists [], []. split; [reflexivity|].
      rewrite E. discriminate.
    + split; [discriminate|]. intros (before & rest & Ht & Hne).
      symmetry in Ht. apply app_eq_nil in Ht. destruct Ht as [_ ->].
      now contradiction Hne.
  - destruct (exec_at r (c :: t)) eqn:E.
    + split; [|reflexivity]. intros _. exists [], (c :: t).
      split; [reflexivity|]. rewrite E. discriminate.
    + rewrite IH. split.
      * intros (before & rest & -> & Hne). exists (c :: before), rest.
        split; [reflexivity | exact Hne].
      * intros (before & rest & Ht & Hne).
        destruct before as [|b before].
        -- cbn [app] in Ht. subst rest. now contradiction Hne.
        -- injection Ht as _ ->. now exists before, rest.
Qed.

Lemma run_lit_i (s : string) : forall (t : text) (k : text -> option text) (x : text),
  run (lit_i s) t k = Some x
  <-> exists w rest,
        t = (w ++ rest)%list /\ same_letters w (js s) /\ k rest = Some x.
Proof.
  unfold same_letters.
  induction s as [|a s IH]; intros t k x; cbn [lit_i run].
  - split.
    + intros H. now exists [], t.
    + intros (w & rest & -> & Hw & Hk).
      destruct w; [exact Hk | discriminate Hw].
  - destruct t as [|c t].
    + split; [discriminate|]. intros (w & rest & Ht & Hw & _).
      destruct w; [discriminate Hw | discriminate Ht].
    + unfold is_char_i at 1. destruct (canonicalize c =? canonicalize (code a))%N eqn:Hc.
      * apply N.eqb_eq in Hc. rewrite IH. split.
        -- intros (w & rest & -> & Hw & Hk). exists (c :: w), rest.
           split; [reflexivity|]. split; [|exact Hk].
           change (js (String a s)) with (code a :: js s).
           cbn [map]. now rewrite Hc, Hw.
        -- intros (w & rest & Ht & Hw & Hk).
           change (js (String a s)) with (code a :: js s) in Hw.
           destruct w as [|c' w]; [discriminate Hw|].
           injection Ht as <- ->. injection Hw as _ Hw.
           now exists w, rest.
      * apply N.eqb_neq in Hc. split; [discriminate|].
        intros (w & rest & Ht & Hw & _).
        change (js (String a s)) with (code a :: js s) in Hw.
        destruct w as [|c' w]; [discriminate Hw|].
        injection Ht as <- _. injection Hw as Hw _. now contradiction Hc.
Qed.

(** X10. A phrase pattern [/phrase/i] tests true exactly on the texts that
    contain the phrase, up to the case of ASCII letters; the clickbait
    patterns, the emotional words and the unreliable-source patterns are
    phrase patterns, of the phrases listed. *)
Theorem phrase_pattern_matches (s : string) (t : text) :
  (test (lit_i s) t = true <-> occurs_i s t)
  /\ clickbaitPatterns
     = map lit_i ["you won't believe"; "shocking"; "amazing"; "incredible";
                  "unbelievable"; "must see"; "viral"]
  /\ emotionalWords
     = map lit_i ["devastating"; "outrageous"; "scandal"; "explosive";
                  "bombshell"]
  /\ unreliablePatterns
     = map lit_i ["blog"; "facebook post"; "twitter"; "anonymous source";
                  "leaked"; "exclusive"].
Proof.
  split; [|repeat split].
  rewrite test_exists. unfold occurs_i, exec_at. split.
  - intros (before & rest & -> & Hne).
    destruct (run (lit_i s) rest Some) as [x|] eqn:E; [|now contradiction Hne].
    apply run_lit_i in E. destruct E as (w & after & -> & Hw & _).
    now exists before, w, after.
  - intros (before & w & after & -> & Hw).
    exists before, (w ++ after)%list. split; [reflexivity|].
    assert (E : run (lit_i s) (w ++ after)%list Some = Some after).
    { apply run_lit_i. now exists w, after. }
    rewrite E. discriminate.
Qed.
Lemma canonicalize_cases (c : N) :
  ((97 <= c <= 122)%N /\ canonicalize c = (c - 32)%N)
  \/ (~ (97 <= c <= 122)%N /\ canonicalize c = c).
Proof.
  unfold canonicalize.
  destruct ((97 <=? c) && (c <=? 122))%N eqn:E.
  - left. apply andb_true_iff in E. destruct E as [H1 H2].
    apply N.leb_le in H1, H2. now split.
  - right. split; [|reflexivity]. intros [H1 H2].
    apply N.leb_le in H1, H2. rewrite H1, H2 in E. discriminate.
Qed.

Lemma case_blind_class_spec (p : N -> bool) :
  case_blind_class p = true -> forall c, p (canonicalize c) = p c.
Proof.
  intros Hp c. destruct (canonicalize_cases c) as [[Hc ->]|[_ ->]];
    [|reflexivity].
  unfold case_blind_class in Hp. rewrite forallb_forall in Hp.
  symmetry. apply Bool.eqb_prop. apply Hp.
  apply in_map_iff. exists (N.to_nat c). split; [lia|].
  apply in_seq. lia.
Qed.

Lemma class_same (p : N -> bool) (c c' : N) :
  case_blind_class p = true -> canonicalize c = canonicalize c' -> p c = p c'.
Proof.
  intros Hp Hc.
  rewrite <- (case_blind_class_spec p Hp c), <- (case_blind_class_spec p Hp c').
  now rewrite Hc.
Qed.

Lemma same_letters_cons (c c' : N) (s s' : text) :
  same_letters (c :: s) (c' :: s')
  <-> canonicalize c = canonicalize c' /\ same_letters s s'.
Proof.
  unfold same_letters. cbn [map]. split.
  - intros H. now injection H.
  - intros [-> ->]. reflexivity.
Qed.

Lemma same_letters_length (s s' : text) :
  same_letters s s' -> List.length s = List.length s'.
Proof.
  unfold same_letters. intros H.
  now rewrite <- (length_map canonicalize s), H, length_map.
Qed.

Lemma same_rest_refl_like (k k' : text -> option text) (s s' : text) :
  (forall u u', same_letters u u' -> same_rest (k u) (k' u')) ->
  same_letters s s' -> same_rest (k s) (k' s').
Proof. intros Hk Hs. now apply Hk. Qed.

Lemma star_same (p : N -> bool) (k k' : text -> option text) :
  case_blind_class p = true ->
  (forall u u', same_letters u u' -> same_rest (k u) (k' u')) ->
  forall s s', same_letters s s' -> same_rest (star p k s) (star p k' s').
Proof.
  intros Hp Hk. induction s as [|c s IH]; intros s' Hs.
  - destruct s' as [|c' s']; [|discriminate Hs]. cbn [star]. now apply Hk.
  - destruct s' as [|c' s']; [discriminate Hs|].
    pose proof Hs as Hs0.
    apply same_letters_cons in Hs. destruct Hs as [Hc Hs].
    cbn [star]. rewrite (class_same p c c' Hp Hc).
    destruct (p c'); [|now apply Hk].
    specialize (IH s' Hs).
    destruct (star p k s), (star p k' s'); cbn [same_rest] in IH |- *;
      try contradiction; try exact IH.
    now apply Hk.
Qed.

Lemma run_same (r : regex) :
  case_blind r = true ->
  forall (k k' : text -> option text),
    (forall u u', same_letters u u' -> same_rest (k u) (k' u')) ->
    forall s s', same_letters s s' -> same_rest (run r s k) (run r s' k').
Proof.
  induction r as [|p|a IHa b IHb|a IHa b IHb|p]; cbn [case_blind run];
    intros Hr k k' Hk s s' Hs.
  - now apply Hk.
  - destruct s as [|c s], s' as [|c' s']; try discriminate Hs; [exact I|].
    apply same_letters_cons in Hs. destruct Hs as [Hc Hs].
    rewrite (class_same p c c' Hr Hc).
    destruct (p c'); [now apply Hk | exact I].
  - apply andb_true_iff in Hr. destruct Hr as [Ha Hb].
    apply (IHa Ha); [|exact Hs]. intros u u' Hu. now apply (IHb Hb).
  - apply andb_true_iff in Hr. destruct Hr as [Ha Hb].
    pose proof (IHa Ha k k' Hk s s' Hs) as H1.
    pose proof (IHb Hb k k' Hk s s' Hs) as H2.
    destruct (run a s k), (run a s' k'); cbn [same_rest] in H1 |- *;
      try contradiction; [exact H1 | exact H2].
  - now apply star_same.
Qed.

Lemma exec_at_same (r : regex) (s s' : text) :
  case_blind r = true -> same_letters s s' ->
  same_rest (exec_at r s) (exec_at r s').
Proof.
  intros Hr Hs. unfold exec_at. apply run_same; [exact Hr | | exact Hs].
  intros u u' Hu. exact Hu.
Qed.

Lemma test_same (r : regex) :
  case_blind r = true ->
  forall s s', same_letters s s' -> test r s = test r s'.
Proof.
  intros Hr. induction s as [|c s IH]; intros s' Hs.
  - destruct s' as [|c' s']; [reflexivity | discriminate Hs].
  - destruct s' as [|c' s']; [discriminate Hs|].
    pose proof (exec_at_same r _ _ Hr Hs) as He.
    apply same_letters_cons in Hs. destruct Hs as [_ Hs].
    cbn [test].
    destruct (exec_at r (c :: s)), (exec_at r (c' :: s'));
      cbn [same_rest] in He; try contradiction; [reflexivity|].
    now apply IH.
Qed.

Lemma match_count_from_same (r : regex) :
  case_blind r = true ->
  forall s s' skip, same_letters s s' ->
    match_count_from r skip s = match_count_from r skip s'.
Proof.
  intros Hr. induction s as [|c s IH]; intros s' skip Hs.
  - destruct s' as [|c' s']; [reflexivity | discriminate Hs].
  - destruct s' as [|c' s']; [discriminate Hs|].
    pose proof (exec_at_same r _ _ Hr Hs) as He.
    pose proof (same_letters_length _ _ Hs) as Hlen.
    apply same_letters_cons in Hs. destruct Hs as [_ Hs].
    cbn [match_count_from].
    destruct skip as [|n]; [|now apply IH].
    destruct (exec_at r (c :: s)) as [rest|], (exec_at r (c' :: s')) as [rest'|];
      cbn [same_rest] in He; try contradiction; [|now apply IH].
    apply same_letters_length in He. rewrite Hlen, He.
    f_equal. now apply IH.
Qed.

Lemma count_filter_same (ps : list regex) (s s' : text) :
  forallb case_blind ps = true -> same_letters s s' ->
  count_filter ps s = count_filter ps s'.
Proof.
  intros Hps Hs. unfold count_filter. f_equal. f_equal.
  induction ps as [|r ps IH]; [reflexivity|].
  cbn [forallb] in Hps. apply andb_true_iff in Hps. destruct Hps as [Hr Hps].
  cbn [filter]. rewrite (test_same r Hr s s' Hs), (IH Hps). reflexivity.
Qed.
Lemma count_filter_app (ps qs : list regex) (t : text) :
  count_filter (ps ++ qs) t = count_filter ps t + count_filter qs t.
Proof.
  unfold count_filter. rewrite filter_app, length_app. lia.
Qed.

Lemma occurrences_same (a : N) (t t' : text) :
  case_blind_class (is_char a) = true -> same_letters t t' ->
  occurrences a t = occurrences a t'.
Proof.
  intros Ha Hs. rewrite <- !match_count_char. unfold match_count. f_equal.
  now apply match_count_from_same.
Qed.

Lemma analyzeFactualConsistency_same (t t' : text) :
  same_letters t t' ->
  analyzeFactualConsistency t = analyzeFactualConsistency t'.
Proof.
  intros Hs. unfold analyzeFactualConsistency.
  rewrite (test_same numbers_re ltac:(vm_compute; reflexivity) t t' Hs).
  rewrite (test_same sources_re ltac:(vm_compute; reflexivity) t t' Hs).
  rewrite (count_filter_same absolutePatterns t t'
             ltac:(vm_compute; reflexivity) Hs).
  rewrite (count_filter_same conspiracyPatterns t t'
             ltac:(vm_compute; reflexivity) Hs).
  reflexivity.
Qed.

Lemma analyzeLanguagePatterns_same (t t' : text) :
  same_letters t t' ->
  gtb (capsRatio t) lit_0_3 = gtb (capsRatio t') lit_0_3 ->
  analyzeLanguagePatterns t = analyzeLanguagePatterns t'.
Proof.
  intros Hs Hcaps. unfold analyzeLanguagePatterns, punctuationRatio, match_count.
  rewrite Hcaps.
  rewrite (match_count_from_same punctuation_run_re
             ltac:(vm_compute; reflexivity) t t' 0%nat Hs).
  rewrite (count_filter_same clickbaitPatterns t t'
             ltac:(vm_compute; reflexivity) Hs).
  rewrite (count_filter_same emotionalWords t t'
             ltac:(vm_compute; reflexivity) Hs).
  reflexivity.
Qed.

Lemma analyzeSourceReliability_same (t t' : text) :
  same_letters t t' ->
  test (lit ".edu") t = test (lit ".edu") t' ->
  test (lit ".gov") t = test (lit ".gov") t' ->
  analyzeSourceReliability t = analyzeSourceReliability t'.
Proof.
  intros Hs Hedu Hgov.
  assert (Hdomains : count_filter [lit ".edu"; lit ".gov"] t
                     = count_filter [lit ".edu"; lit ".gov"] t').
  { unfold count_filter. cbn [filter]. now rewrite Hedu, Hgov. }
  unfold analyzeSourceReliability.
  change crediblePatterns
    with ([lit ".edu"; lit ".gov"] ++ skipn 2 crediblePatterns)%list.
  rewrite !count_filter_app.
  rewrite (count_filter_same (skipn 2 crediblePatterns) t t'
             ltac:(vm_compute; reflexivity) Hs).
  rewrite (count_filter_same unreliablePatterns t t'
             ltac:(vm_compute; reflexivity) Hs).
  rewrite (test_same attribution_re ltac:(vm_compute; reflexivity) t t' Hs).
  rewrite Hdomains. reflexivity.
Qed.

Lemma identifyRiskFactors_same (t t' : text) (l f : Z) :
  same_letters t t' ->
  gtb (capsRatio t) lit_0_3 = gtb (capsRatio t') lit_0_3 ->
  identifyRiskFactors t l f = identifyRiskFactors t' l f.
Proof.
  intros Hs Hcaps. unfold identifyRiskFactors, length_of.
  rewrite Hcaps, (same_letters_length t t' Hs).
  rewrite (test_same clickbait_risk_re ltac:(vm_compute; reflexivity) t t' Hs).
  rewrite (test_same conspiracy_risk_re ltac:(vm_compute; reflexivity) t t' Hs).
  rewrite (test_same punctuation_run_re ltac:(vm_compute; reflexivity) t t' Hs).
  rewrite (test_same attribution_re ltac:(vm_compute; reflexivity) t t' Hs).
  reflexivity.
Qed.

(** X11. The case of ASCII letters reaches the result through the
    capitalization check and the two case-sensitive patterns [/\.edu/] and
    [/\.gov/] only.  For two texts that differ in letter case only, the
    factual score and the fallback score are the same; and when the
    capitalization check and the two domain patterns agree on them, and the
    classifier answers both alike, the whole results are the same. *)
Theorem letter_case_counts_for_capitals_and_domains_only (t t' : text) :
  same_letters t t' ->
  analyzeFactualConsistency t = analyzeFactualConsistency t'
  /\ credibilityScore (getFallbackAnalysis t)
     = credibilityScore (getFallbackAnalysis t')
  /\ (gtb (capsRatio t) lit_0_3 = gtb (capsRatio t') lit_0_3 ->
      test (lit ".edu") t = test (lit ".edu") t' ->
      test (lit ".gov") t = test (lit ".gov") t' ->
      forall pipeline st,
        answer_of pipeline st t = answer_of pipeline st t' ->
        snd (analyzeText pipeline st t) = snd (analyzeText pipeline st t')).
Proof.
  intros Hs.
  pose proof (analyzeFactualConsistency_same t t' Hs) as Hf.
  assert (Hcounts :
    Z.of_nat (List.length (split (code " "%char) t))
      = Z.of_nat (List.length (split (code " "%char) t'))
    /\ match_count (Cls (is_char (code "?"%char))) t
       = match_count (Cls (is_char (code "?"%char))) t'
    /\ match_count (Cls (is_char (code "!"%char))) t
       = match_count (Cls (is_char (code "!"%char))) t').
  { rewrite !split_word_count, !match_count_char. unfold word_count.
    rewrite (occurrences_same (code " "%char) t t' ltac:(vm_compute; reflexivity) Hs).
    rewrite (occurrences_same (code "?"%char) t t' ltac:(vm_compute; reflexivity) Hs).
    rewrite (occurrences_same (code "!"%char) t t' ltac:(vm_compute; reflexivity) Hs).
    repeat split. }
  destruct Hcounts as (Hw & Hq & He).
  split; [exact Hf|]. split.
  { rewrite !getFallbackAnalysis_credibilityScore. now rewrite Hw, Hq, He. }
  intros Hcaps Hedu Hgov pipeline st Hans.
  pose proof (analyzeLanguagePatterns_same t t' Hs Hcaps) as Hl.
  pose proof (analyzeSourceReliability_same t t' Hs Hedu Hgov) as Hsrc.
  rewrite !analyzeText_answer, <- Hans.
  destruct (answer_of pipeline st t) as [|sentimentResult].
  - unfold getFallbackAnalysis.
    rewrite Hw, Hq, He, Hl, Hf, Hsrc.
    rewrite (identifyRiskFactors_same t t' 60 60 Hs Hcaps). reflexivity.
  - unfold analyzeWith.
    rewrite Hl, Hf, Hsrc.
    rewrite (identifyRiskFactors_same t t' _ _ Hs Hcaps). reflexivity.
Qed.

Lemma letter_case_counts_for_capitals_and_domains_only_witness :
  let t := js "SHOCKING news from example.edu: Nobody said it!!" in
  let t' := js "Shocking News from Example.edu: nobody SAID it!!" in
  let negative := stub (Returns [entry "NEGATIVE" (div (of_Z 9) (of_Z 10))]) in
  same_letters t t'
  /\ analyzeFactualConsistency t = analyzeFactualConsistency t'
  /\ snd (analyzeText negative no_models t) = snd (analyzeText negative no_models t')
  /\ (same_letters (js "WOW.EDU") (js "wow.edu")
      /\ analyzeLanguagePatterns (js "WOW.EDU") = 60
      /\ analyzeLanguagePatterns (js "wow.edu") = 80
      /\ analyzeSourceReliability (js "WOW.EDU") = 40
      /\ analyzeSourceReliability (js "wow.edu") = 55).
Proof.
  intros t t' negative.
  assert (Hs : same_letters t t') by reflexivity.
  split; [exact Hs|].
  destruct (letter_case_counts_for_capitals_and_domains_only t t' Hs)
    as (Hf & _ & Hall).
  split; [exact Hf|]. split.
  - apply Hall; reflexivity.
  - vm_compute. repeat split.
Defined.

(* ================================================================== *)
(** ** The pattern of numeric claims *)

Lemma suffix_refl (s : text) : suffix s s.
Proof. now exists []. Qed.

Lemma suffix_cons (c : N) (s' s : text) : suffix s' s -> suffix s' (c :: s).
Proof. intros [before ->]. now exists (c :: before). Qed.

Lemma suffix_trans (a b c : text) : suffix a b -> suffix b c -> suffix a c.
Proof.
  intros [x ->] [y ->]. exists (y ++ x)%list. now rewrite app_assoc.
Qed.

Lemma star_suffix (p : N -> bool) (k : text -> option text) :
  forall (s x : text),
    star p k s = Some x -> exists s', suffix s' s /\ k s' = Some x.
Proof.
  induction s as [|c s IH]; intros x H; cbn [star] in H.
  - exists []. split; [apply suffix_refl | exact H].
  - destruct (p c).
    + destruct (star p k s) as [y|] eqn:E.
      * injection H as <-. destruct (IH y eq_refl) as (s' & Hs' & Hk).
        exists s'. split; [now apply suffix_cons | exact Hk].
      * exists (c :: s). split; [apply suffix_refl | exact H].
    + exists (c :: s). split; [apply suffix_refl | exact H].
Qed.

Lemma run_suffix (r : regex) :
  forall (s : text) (k : text -> option text) (x : text),
    run r s k = Some x -> exists s', suffix s' s /\ k s' = Some x.
Proof.
  induction r as [|p|a IHa b IHb|a IHa b IHb|p]; intros s k x H; cbn [run] in H.
  - exists s. split; [apply suffix_refl | exact H].
  - destruct s as [|c s]; [discriminate|].
    destruct (p c); [|discriminate].
    exists s. split; [apply suffix_cons, suffix_refl | exact H].
  - destruct (IHa _ _ _ H) as (s1 & Hs1 & H1).
    destruct (IHb _ _ _ H1) as (s2 & Hs2 & H2).
    exists s2. split; [now apply (suffix_trans _ s1) | exact H2].
  - destruct (run a s k) as [y|] eqn:E.
    + injection H as <-. now apply IHa.
    + now apply IHb.
  - exact (star_suffix p k s x H).
Qed.

Lemma test_suffix (r : regex) (s' s : text) :
  suffix s' s -> exec_at r s' <> None -> test r s = true.
Proof.
  intros [before ->] Hne. apply test_exists. now exists before, s'.
Qed.

(** [/\d+\.\d+%/] matches nothing that [/\d+%/] does not match. *)
Lemma decimal_percent_is_percent (t : text) :
  test (plus digit ++ lit "." ++ plus digit ++ lit "%")%re t = true ->
  test (plus digit ++ lit "%")%re t = true.
Proof.
  intros H. apply test_exists in H. destruct H as (before & rest & -> & Hne).
  destruct (exec_at (plus digit ++ lit "." ++ plus digit ++ lit "%")%re rest)
    as [x|] eqn:E; [clear Hne | now contradiction Hne].
  unfold exec_at in E. cbn [run] in E.
  change (run (plus digit) rest
            (fun s1 => run (lit ".") s1
               (fun s2 => run (plus digit ++ lit "%")%re s2 Some)) = Some x) in E.
  destruct (run_suffix _ _ _ _ E) as (s1 & Hs1 & H1).
  destruct (run_suffix _ _ _ _ H1) as (s2 & Hs2 & H2).
  apply (test_suffix _ s2).
  - apply (suffix_trans _ s1); [exact Hs2|].
    apply (suffix_trans _ rest); [exact Hs1 | now exists before].
  - unfold exec_at. rewrite H2. discriminate.
Qed.

(** X18. The alternative [\d+\.\d+%] of the pattern of numeric claims never
    decides: a text it matches is matched by the alternative [\d+%] already
    (at the digits after the point), so that the pattern tests as the
    pattern without it does. *)
Theorem decimal_percent_alternative_is_dead (t : text) :
  test numbers_re t
  = test ((plus digit ++ lit "%")
          || (lit "$" ++ plus digit)
          || (plus digit ++ lit " "
               ++ (lit_i "million" || lit_i "billion" || lit_i "thousand")))%re t
  /\ (test (plus digit ++ lit "." ++ plus digit ++ lit "%")%re t = true ->
      test (plus digit ++ lit "%")%re t = true)
  /\ (let hasNumbers (r : regex) := test r (js "up 12.5% since May") in
      hasNumbers (plus digit ++ lit "." ++ plus digit ++ lit "%")%re = true
      /\ hasNumbers (plus digit ++ lit "%")%re = true).
Proof.
  split; [|split; [apply decimal_percent_is_percent | split; reflexivity]].
  unfold numbers_re. rewrite !test_alt.
  pose proof (decimal_percent_is_percent t) as H.
  destruct (test (plus digit ++ lit "%")%re t),
    (test (plus digit ++ lit "." ++ plus digit ++ lit "%")%re t);
    try reflexivity.
  discriminate (H eq_refl).
Qed.

(* ================================================================== *)
(** ** Patterns and their languages *)

(** The greedy star, with its backtracking, finds a continuation whenever
    one exists after some run of the class. *)
Lemma star_matches (p : N -> bool) (k : text -> option text) (s : text) :
  star p k s <> None
  <-> exists w rest, s = (w ++ rest)%list /\ forallb p w = true /\ k rest <> None.
Proof.
  induction s as [|c s IH]; cbn [star].
  - split.
    + intros H. now exists [], [].
    + intros (w & rest & Hs & _ & Hk). symmetry in Hs.
      apply app_eq_nil in Hs. destruct Hs as [_ ->]. exact Hk.
  - destruct (p c) eqn:Hc.
    + split.
      * intros H. destruct (star p k s) as [r|] eqn:E.
        -- destruct (proj1 IH ltac:(discriminate)) as (w & rest & -> & Hw & Hk).
           exists (c :: w), rest. cbn [forallb]. rewrite Hc, Hw. now repeat split.
        -- now exists [], (c :: s).
      * intros (w & rest & Hs & Hw & Hk).
        destruct (star p k s) as [r|] eqn:E; [discriminate|].
        destruct w as [|c' w].
        -- cbn [app] in Hs. now rewrite Hs.
        -- exfalso. injection Hs as <- ->. cbn [forallb] in Hw.
           apply andb_true_iff in Hw. destruct Hw as [_ Hw].
           apply (proj2 IH); [|reflexivity]. now exists w, rest.
    + split.
      * intros H. now exists [], (c :: s).
      * intros (w & rest & Hs & Hw & Hk). destruct w as [|c' w].
        -- cbn [app] in Hs. now rewrite Hs.
        -- exfalso. injection Hs as <- ->. cbn [forallb] in Hw.
           rewrite Hc in Hw. discriminate.
Qed.

(** The matcher succeeds exactly when a word of the pattern is at the head
    of the input and the continuation accepts what follows it. *)
Lemma run_matches (r : regex) :
  forall (s : text) (k : text -> option text),
    run r s k <> None
    <-> exists w rest, s = (w ++ rest)%list /\ matches r w /\ k rest <> None.
Proof.
  induction r as [|p|a IHa b IHb|a IHa b IHb|p]; intros s k; cbn [run matches].
  - split.
    + intros H. now exists [], s.
    + intros (w & rest & -> & -> & Hk). exact Hk.
  - destruct s as [|c s].
    + split; [intros H; now contradiction H|].
      intros (w & rest & Hs & (c & -> & _) & _). discriminate.
    + destruct (p c) eqn:Hc.
      * split.
        -- intros H. exists [c], s. split; [reflexivity|]. split; [|exact H].
           now exists c.
        -- intros (w & rest & Hs & (c' & -> & _) & Hk).
           injection Hs as _ ->. exact Hk.
      * split; [intros H; now contradiction H|].
        intros (w & rest & Hs & (c' & -> & Hc') & _).
        injection Hs as -> _. rewrite Hc in Hc'. discriminate.
  - rewrite IHa. split.
    + intros (w1 & rest1 & -> & H1 & H).
      apply IHb in H. destruct H as (w2 & rest & -> & H2 & Hk).
      exists (w1 ++ w2)%list, rest. rewrite <- app_assoc.
      split; [reflexivity|]. split; [|exact Hk]. now exists w1, w2.
    + intros (w & rest & -> & (w1 & w2 & -> & H1 & H2) & Hk).
      exists w1, (w2 ++ rest)%list. rewrite <- app_assoc.
      split; [reflexivity|]. split; [exact H1|].
      apply IHb. now exists w2, rest.
  - split.
    + intros H. destruct (run a s k) as [x|] eqn:E.
      * destruct (proj1 (IHa s k)) as (w & rest & Hs & Hw & Hk);
          [rewrite E; discriminate|].
        exists w, rest. tauto.
      * destruct (proj1 (IHb s k) H) as (w & rest & Hs & Hw & Hk).
        exists w, rest. tauto.
    + intros (w & rest & Hs & [Hw|Hw] & Hk).
      * assert (Ha : run a s k <> None) by (apply IHa; now exists w, rest).
        destruct (run a s k); [discriminate | now contradiction Ha].
      * destruct (run a s k); [discriminate|].
        apply IHb. now exists w, rest.
  - apply star_matches.
Qed.

(** [r.test(t)] holds exactly when [t] contains a word of [r]. *)
Lemma test_matches (r : regex) (t : text) :
  test r t = true
  <-> exists before w after, t = (before ++ w ++ after)%list /\ matches r w.
Proof.
  rewrite test_exists. unfold exec_at. split.
  - intros (before & rest & -> & Hne).
    apply run_matches in Hne. destruct Hne as (w & after & -> & Hw & _).
    now exists before, w, after.
  - intros (before & w & after & -> & Hw).
    exists before, (w ++ after)%list. split; [reflexivity|].
    apply run_matches. exists w, after. repeat split; [exact Hw | discriminate].
Qed.

Lemma matches_lit_i (s : string) :
  forall w, matches (lit_i s) w <-> same_letters w (js s).
Proof.
  unfold same_letters.
  induction s as [|a s IH]; intros w; cbn [lit_i matches].
  - change (js "") with (@nil N). cbn [map]. split.
    + now intros ->.
    + intros H. now destruct w.
  - change (js (String a s)) with (code a :: js s). cbn [map]. split.
    + intros (w1 & w2 & -> & (c & -> & Hc) & H2).
      apply IH in H2. cbn [app map]. rewrite H2. f_equal.
      unfold is_char_i in Hc. now apply N.eqb_eq in Hc.
    + intros H. destruct w as [|c w]; [discriminate|].
      cbn [map] in H. injection H as Hc Hw.
      exists [c], w. split; [reflexivity|]. split.
      * exists c. split; [reflexivity|]. unfold is_char_i. now apply N.eqb_eq.
      * now apply IH.
Qed.

(** A phrase, a run of [.] of bounded length, and a phrase. *)
Lemma test_apart (first last : string) (gap : regex) (least most : nat) (t : text) :
  (forall w, matches gap w
             <-> (least <= List.length w <= most)%nat /\ forallb dot w = true) ->
  test (lit_i first ++ gap ++ lit_i last)%re t = true
  <-> occurs_apart first last least most t.
Proof.
  intros Hgap. rewrite test_matches. unfold occurs_apart. cbn [matches]. split.
  - intros (before & w & after & -> & w1 & w23 & -> & H1 & w2 & w3 & -> & H2 & H3).
    apply matches_lit_i in H1, H3. apply Hgap in H2. destruct H2 as [Hlen Hdot].
    exists before, w1, w2, w3, after. rewrite <- !app_assoc. now repeat split.
  - intros (before & w1 & mid & w2 & after & -> & H1 & Hlen & Hdot & H2).
    exists before, (w1 ++ mid ++ w2)%list, after. rewrite <- !app_assoc.
    split; [reflexivity|].
    exists w1, (mid ++ w2)%list. split; [reflexivity|].
    split; [now apply matches_lit_i|].
    exists mid, w2. split; [reflexivity|].
    split; [now apply Hgap | now apply matches_lit_i].
Qed.

Lemma matches_opt_dot (w : text) :
  matches (opt dot) w <-> (0 <= List.length w <= 1)%nat /\ forallb dot w = true.
Proof.
  unfold opt. cbn [matches]. split.
  - intros [(c & -> & Hc)| ->]; cbn [List.length forallb]; [rewrite Hc|];
      split; try reflexivity; lia.
  - intros [Hlen Hdot]. destruct w as [|c [|c' w]]; cbn [List.length] in Hlen.
    + now right.
    + left. exists c. split; [reflexivity|]. cbn [forallb] in Hdot.
      now rewrite andb_true_r in Hdot.
    + lia.
Qed.

(** X25. The three patterns with a wildcard.  [/all .* are/i] tests true
    exactly on the texts that hold 'all ' and, later on the same line,
    ' are': any number of code units may stand between them, none of them a
    line terminator.  [/cover.?up/i] and [/peer.?reviewed/i] allow at most
    one such code unit between their two halves.  The line terminators are
    the code units 10, 13, 8232 and 8233. *)
Theorem wildcard_patterns (t : text) :
  (test (nth 4 absolutePatterns Eps) t = true
   <-> occurs_apart "all " " are" 0 (List.length t) t)
  /\ (test (nth 2 conspiracyPatterns Eps) t = true
      <-> occurs_apart "cover" "up" 0 1 t)
  /\ (test (nth 5 crediblePatterns Eps) t = true
      <-> occurs_apart "peer" "reviewed" 0 1 t)
  /\ (forall c, dot c = false <-> (c = 10 \/ c = 13 \/ c = 8232 \/ c = 8233)%N).
Proof.
  split; [|split; [|split]].
  - cbn [nth absolutePatterns]. rewrite test_matches. unfold occurs_apart.
    cbn [matches]. split.
    + intros (before & w & after & -> & w1 & w23 & -> & H1 & w2 & w3 & -> & H2 & H3).
      apply matches_lit_i in H1, H3.
      exists before, w1, w2, w3, after.
      rewrite <- !app_assoc. repeat split; try assumption; [lia|].
      rewrite !length_app. lia.
    + intros (before & w1 & mid & w2 & after & -> & H1 & _ & Hdot & H2).
      exists before, (w1 ++ mid ++ w2)%list, after. rewrite <- !app_assoc.
      split; [reflexivity|].
      exists w1, (mid ++ w2)%list. split; [reflexivity|].
      split; [now apply matches_lit_i|].
      exists mid, w2. split; [reflexivity|].
      split; [exact Hdot | now apply matches_lit_i].
  - cbn [nth conspiracyPatterns]. apply test_apart. exact matches_opt_dot.
  - cbn [nth crediblePatterns]. apply test_apart. exact matches_opt_dot.
  - intros c. unfold dot. rewrite negb_false_iff, !orb_true_iff, !N.eqb_eq. tauto.
Qed.

Lemma matches_lit (s : string) : forall w, matches (lit s) w <-> w = js s.
Proof.
  induction s as [|a s IH]; intros w; cbn [lit matches].
  - reflexivity.
  - change (js (String a s)) with (code a :: js s). split.
    + intros (w1 & w2 & -> & (c & -> & Hc) & H2).
      apply IH in H2. subst w2. unfold is_char in Hc.
      apply N.eqb_eq in Hc. now subst c.
    + intros ->. exists [code a], (js s). split; [reflexivity|]. split.
      * exists (code a). split; [reflexivity|]. unfold is_char. apply N.eqb_refl.
      * now apply IH.
Qed.

(** A word of [c+] ends with a code unit of the class. *)
Lemma matches_plus (p : N -> bool) (w : text) :
  matches (plus p) w -> exists init d, w = (init ++ [d])%list /\ p d = true.
Proof.
  unfold plus. cbn [matches].
  intros (w1 & w2 & -> & (c & -> & Hc) & Hw2).
  destruct (@exists_last N ([c] ++ w2)%list ltac:(discriminate)) as (init & d & E).
  exists init, d. split; [exact E|].
  assert (Hall : forallb p ([c] ++ w2)%list = true)
    by (cbn [app forallb]; now rewrite Hc, Hw2).
  rewrite E, forallb_app in Hall. cbn [forallb] in Hall.
  apply andb_true_iff in Hall. destruct Hall as [_ Hd].
  now rewrite andb_true_r in Hd.
Qed.

Lemma matches_plus_one (p : N -> bool) (d : N) :
  p d = true -> matches (plus p) [d].
Proof.
  intros Hd. unfold plus. cbn [matches]. exists [d], [].
  split; [reflexivity|]. split; [now exists d | reflexivity].
Qed.

(** X26. The two patterns with a repetition read as neighbours.
    [/[!?]{2,}/] tests true exactly on the texts with two adjacent code
    units out of [!] and [?].  The pattern of numeric claims tests true
    exactly on the texts with a digit followed by [%], a [$] followed by a
    digit, or a digit followed by a space and 'million', 'billion' or
    'thousand' in any letter case: of a run of digits only the one next to
    the sign counts. *)
Theorem repetitions_read_as_neighbours (t : text) :
  (test punctuation_run_re t = true
   <-> exists before c1 c2 after,
         t = (before ++ [c1; c2] ++ after)%list
         /\ bang_or_query c1 = true /\ bang_or_query c2 = true)
  /\ (test numbers_re t = true
      <-> exists before d after,
            digit d = true
            /\ (t = (before ++ [d; code "%"%char] ++ after)%list
                \/ t = (before ++ [code "$"%char; d] ++ after)%list
                \/ exists w unit,
                     t = (before ++ [d; code " "%char] ++ w ++ after)%list
                     /\ In unit ["million"; "billion"; "thousand"]
                     /\ same_letters w (js unit))).
Proof.
  split.
  - rewrite test_matches. unfold punctuation_run_re, at_least_2. cbn [matches].
    split.
    + intros (before & w & after & -> & w1 & w23 & -> & (c1 & -> & H1)
              & w2 & w3 & -> & (c2 & -> & H2) & H3).
      exists before, c1, c2, (w3 ++ after)%list.
      split; [|now split]. cbn [app]. rewrite <- ?app_assoc. reflexivity.
    + intros (before & c1 & c2 & after & -> & H1 & H2).
      exists before, [c1; c2], after. split; [reflexivity|].
      exists [c1], [c2]. split; [reflexivity|]. split; [now exists c1|].
      exists [c2], []. split; [reflexivity|]. split; [now exists c2 | reflexivity].
  - rewrite test_matches. unfold numbers_re. split.
    + intros (before & w & after & -> & Hw). cbn [matches] in Hw.
      destruct Hw as [[[Hw|Hw]|Hw]|Hw].
      * destruct Hw as (w1 & w2 & -> & H1 & H2).
        apply matches_plus in H1. destruct H1 as (init & d & -> & Hd).
        apply (matches_lit "%") in H2. subst w2.
        exists (before ++ init)%list, d, after. split; [exact Hd|]. left.
        rewrite <- ?app_assoc; cbn [app]; rewrite <- ?app_assoc. reflexivity.
      * destruct Hw as (w1 & w2 & -> & _ & w3 & w4 & -> & _ & w5 & w6 & -> & H1 & H2).
        apply matches_plus in H1. destruct H1 as (init & d & -> & Hd).
        apply (matches_lit "%") in H2. subst w6.
        exists (before ++ w1 ++ w3 ++ init)%list, d, after.
        split; [exact Hd|]. left. rewrite <- ?app_assoc; cbn [app]; rewrite <- ?app_assoc. reflexivity.
      * destruct Hw as (w1 & w2 & -> & H1 & H2).
        apply (matches_lit "$") in H1. subst w1.
        unfold plus in H2. cbn [matches] in H2.
        destruct H2 as (w3 & w4 & -> & (d & -> & Hd) & _).
        exists before, d, (w4 ++ after)%list. split; [exact Hd|]. right. left.
        rewrite <- ?app_assoc; cbn [app]; rewrite <- ?app_assoc. reflexivity.
      * destruct Hw as (w1 & w2 & -> & H1 & w3 & w4 & -> & H3 & H4).
        apply matches_plus in H1. destruct H1 as (init & d & -> & Hd).
        apply (matches_lit " ") in H3. subst w3.
        exists (before ++ init)%list, d, after. split; [exact Hd|]. right. right.
        destruct H4 as [[H4|H4]|H4]; apply matches_lit_i in H4.
        -- exists w4, "million". rewrite <- ?app_assoc; cbn [app]; rewrite <- ?app_assoc.
           split; [reflexivity|]. split; [now left | exact H4].
        -- exists w4, "billion". rewrite <- ?app_assoc; cbn [app]; rewrite <- ?app_assoc.
           split; [reflexivity|]. split; [right; now left | exact H4].
        -- exists w4, "thousand". rewrite <- ?app_assoc; cbn [app]; rewrite <- ?app_assoc.
           split; [reflexivity|]. split; [right; right; now left | exact H4].
    + intros (before & d & after & Hd & [->|[->|(w & unit & -> & Hunit & Hw)]]).
      * exists before, [d; code "%"%char], after. split; [reflexivity|].
        cbn [matches]. left. left. left.
        exists [d], [code "%"%char]. split; [reflexivity|].
        split; [now apply matches_plus_one | now apply (matches_lit "%")].
      * exists before, [code "$"%char; d], after. split; [reflexivity|].
        cbn [matches]. left. right.
        exists [code "$"%char], [d]. split; [reflexivity|].
        split; [now apply (matches_lit "$") | now apply matches_plus_one].
      * exists before, ([d; code " "%char] ++ w)%list, after.
        rewrite <- ?app_assoc. split; [reflexivity|].
        cbn [matches]. right.
        exists [d], ([code " "%char] ++ w)%list. split; [reflexivity|].
        split; [now apply matches_plus_one|].
        exists [code " "%char], w. split; [reflexivity|].
        split; [now apply (matches_lit " ")|].
        apply matches_lit_i in Hw.
        destruct Hunit as [<-|[<-|[<-|[]]]]; [left; now left | left; now right | now right].
Qed.
(* ================================================================== *)
(** ** Rounding a quotient to binary64 *)

Module Nearest.

Lemma loc_of_cases (rem W : Z) :
  (rem = 0 /\ loc_of rem W = loc_Exact)
  \/ (rem <> 0 /\ 2 * rem < W /\ loc_of rem W = loc_Inexact Lt)
  \/ (rem <> 0 /\ 2 * rem = W /\ loc_of rem W = loc_Inexact Eq)
  \/ (rem <> 0 /\ 2 * rem > W /\ loc_of rem W = loc_Inexact Gt).
Proof.
  unfold loc_of. destruct (Z.eqb_spec rem 0) as [H0|H0]; [now left|right].
  destruct (Z.compare_spec (2 * rem) W); [right; left | left | right; right];
    repeat split; auto; lia.
Qed.

Lemma located_step (N W : Z) (mrs : shr_record) :
  0 < W -> located N W mrs -> located N (2 * W) (shr_1 mrs).
Proof.
  intros HW (Hm & Hrem & Hloc). destruct mrs as [m r s]. cbn [shr_m] in *.
  set (rem := N - m * W) in *.
  assert (Hrs : (rem = 0 -> r = false /\ s = false)
                /\ (rem <> 0 -> (r || s)%bool = true)).
  { destruct (loc_of_cases rem W) as [[H0 H]|[(H0 & _ & H)|[(H0 & _ & H)|(H0 & _ & H)]]];
      rewrite H in Hloc; destruct r, s; try discriminate Hloc;
      split; intros; try reflexivity; try contradiction; auto. }
  destruct Hrs as [Hex Hin].
  destruct m as [|[p|p|]|p]; try lia; unfold located, shr_1;
    cbn [shr_m loc_of_shr_record].
  all: split; [lia|]; split; [unfold rem in *; lia|].
  all: match goal with
       | |- _ = loc_of ?x ?y =>
           destruct (loc_of_cases x y) as [[H0 ->]|[(H0 & Hc & ->)|[(H0 & Hc & ->)|(H0 & Hc & ->)]]]
       end.
  all: unfold rem in *.
  all: try (destruct (Z.eq_dec (N - 0 * W) 0) as [Hz|Hz];
            [destruct (Hex Hz) as [-> ->] | rewrite (Hin Hz)]; try reflexivity; lia).
  all: try (destruct (Z.eq_dec (N - Z.pos p~1 * W) 0) as [Hz|Hz];
            [destruct (Hex Hz) as [-> ->] | rewrite (Hin Hz)]; try reflexivity; lia).
  all: try (destruct (Z.eq_dec (N - Z.pos p~0 * W) 0) as [Hz|Hz];
            [destruct (Hex Hz) as [-> ->] | rewrite (Hin Hz)]; try reflexivity; lia).
  all: try (destruct (Z.eq_dec (N - 1 * W) 0) as [Hz|Hz];
            [destruct (Hex Hz) as [-> ->] | rewrite (Hin Hz)]; try reflexivity; lia).
Qed.
Lemma located_shr (N W : Z) (mrs : shr_record) (e n : Z) :
  0 < W -> located N W mrs ->
  located N (W * 2 ^ Z.max 0 n) (fst (shr mrs e n))
  /\ snd (shr mrs e n) = e + Z.max 0 n.
Proof.
  intros HW Hloc.
  assert (H0 : located N (W * 2 ^ 0) mrs) by (now rewrite Z.mul_1_r).
  destruct n as [|n|n]; cbn [shr fst snd Z.max]; try (split; [exact H0|lia]).
  change (Z.max 0 (Z.pos n)) with (Z.pos n).
  split; [|reflexivity].
  change (Z.pos n) with (0 + Z.pos n) at 1.
  apply (iter_pos_invariant shr_1 (fun k x => located N (W * 2 ^ k) x));
    [|lia|exact H0].
  intros k x Hk Hx. rewrite Z.pow_add_r by lia. change (2 ^ 1) with 2.
  replace (W * (2 ^ k * 2)) with (2 * (W * 2 ^ k)) by ring.
  apply located_step; [|exact Hx]. pose proof (pow2_pos k Hk). nia.
Qed.

Lemma loc_of_shr_record_of_loc (m : Z) (l : location) :
  loc_of_shr_record (shr_record_of_loc m l) = l.
Proof. destruct l as [|[| |]]; reflexivity. Qed.

Lemma located_start (N D : Z) :
  0 < D -> 0 <= N ->
  located N D (shr_record_of_loc (N / D) (loc_of (N mod D) D)).
Proof.
  intros HD HN. unfold located.
  rewrite shr_record_of_loc_m, loc_of_shr_record_of_loc.
  pose proof (Z.div_mod N D ltac:(lia)) as Hdm.
  pose proof (Z.mod_pos_bound N D HD) as Hmod.
  assert (Hq : 0 <= N / D) by (apply Z.div_pos; lia).
  replace (N - N / D * D) with (N mod D) by lia.
  repeat split; lia.
Qed.

Lemma new_location_loc (D r : Z) :
  0 < D -> 0 <= r < D -> new_location D r = loc_of r D.
Proof.
  intros HD Hr. unfold new_location, new_location_even, new_location_odd, loc_of.
  destruct (Z.even D) eqn:Heven; [reflexivity|].
  destruct (r =? 0); [reflexivity|]. f_equal.
  assert (Hodd : Z.odd D = true) by (rewrite <- Z.negb_even, Heven; reflexivity).
  apply Z.odd_spec in Hodd. destruct Hodd as [h Hh].
  destruct (Z.compare_spec (2 * r + 1) D), (Z.compare_spec (2 * r) D);
    try reflexivity; lia.
Qed.

(** Rounding the located quotient gives an integer nearest to [N / W]. *)
Lemma located_nearest (N W : Z) (mrs : shr_record) :
  0 < W -> located N W mrs ->
  let q1 := round_nearest_even (shr_m mrs) (loc_of_shr_record mrs) in
  shr_m mrs <= q1 <= shr_m mrs + 1
  /\ 2 * q1 * W - W <= 2 * N <= 2 * q1 * W + W
  /\ (2 * N = 2 * q1 * W - W \/ 2 * N = 2 * q1 * W + W -> Z.even q1 = true).
Proof.
  intros HW (Hm & Hrem & Hloc). cbv zeta. rewrite Hloc.
  set (q := shr_m mrs) in *.
  destruct (loc_of_cases (N - q * W) W)
    as [[H0 ->]|[(H0 & Hc & ->)|[(H0 & Hc & ->)|(H0 & Hc & ->)]]];
    cbn [round_nearest_even].
  - split; [lia|]. split; [nia|]. intros Htie. exfalso. nia.
  - split; [lia|]. split; [nia|]. intros Htie. exfalso. nia.
  - destruct (Z.even q) eqn:Heven; (split; [lia|]); (split; [nia|]); intros _.
    + exact Heven.
    + rewrite Z.add_1_r, Z.even_succ, <- Z.negb_even, Heven. reflexivity.
  - split; [lia|]. split; [nia|]. intros Htie. exfalso. nia.
Qed.

Lemma shr_no_shift (mrs : shr_record) (e n : Z) :
  n <= 0 -> shr mrs e n = (mrs, e).
Proof. intros Hn. destruct n; try reflexivity; lia. Qed.

Lemma pow2_le (a b : Z) : 0 <= a <= b -> 2 ^ a <= 2 ^ b.
Proof. intros H. apply Z.pow_le_mono_r; lia. Qed.

Lemma round_aux_shape (s : bool) (N D ex : Z) :
  0 < D -> 0 <= N ->
  ex <= fexp 53 1024 (Zdigits2 (N / D) + ex) ->
  exists q1 k,
    0 <= k /\ -1074 <= ex + k
    /\ (2 ^ 52 * (D * 2 ^ k) <= N \/ ex + k = -1074)
    /\ N < 2 ^ 53 * (D * 2 ^ k)
    /\ 2 * q1 * (D * 2 ^ k) - D * 2 ^ k <= 2 * N
         <= 2 * q1 * (D * 2 ^ k) + D * 2 ^ k
    /\ 0 <= q1
    /\ (2 * N = 2 * q1 * (D * 2 ^ k) - D * 2 ^ k
        \/ 2 * N = 2 * q1 * (D * 2 ^ k) + D * 2 ^ k -> Z.even q1 = true)
    /\ outcome s q1 (ex + k)
         (binary_round_aux 53 1024 s (N / D) ex (loc_of (N mod D) D)).
Proof.
  intros HD HN Hcanon.
  unfold binary_round_aux, shr_fexp.
  set (mx := N / D) in *. set (d := Zdigits2 mx) in *.
  set (n := fexp 53 1024 (d + ex) - ex).
  assert (Hn : 0 <= n) by (unfold n; lia).
  destruct (located_shr N D (shr_record_of_loc mx (loc_of (N mod D) D)) ex n HD
              (located_start N D HD HN)) as [Hloc He1].
  destruct (shr (shr_record_of_loc mx (loc_of (N mod D) D)) ex n) as [mrs1 e1].
  cbn [fst snd] in Hloc, He1.
  replace (Z.max 0 n) with n in * by lia.
  pose proof (pow2_pos n Hn) as HPn.
  set (W := D * 2 ^ n) in *.
  assert (HW : 0 < W) by (unfold W; nia).
  destruct (located_nearest N W mrs1 HW Hloc) as (Hq1 & Hnear & Htie).
  destruct Hloc as (Hq & Hrem & _).
  set (q := shr_m mrs1) in *.
  set (q1 := round_nearest_even q (loc_of_shr_record mrs1)) in *.
  (* the quotient by [D] and its digits *)
  assert (Hmx : mx * D <= N < (mx + 1) * D).
  { pose proof (Z.div_mod N D ltac:(lia)). pose proof (Z.mod_pos_bound N D HD).
    unfold mx. nia. }
  assert (Hmx0 : 0 <= mx) by (apply Z.div_pos; lia).
  assert (Hnorm : (2 ^ 52 * W <= N \/ ex + n = -1074) /\ N < 2 ^ 53 * W).
  { destruct (Z.eq_dec mx 0) as [H0|H0].
    - assert (Hd0 : d = 0) by (unfold d; rewrite H0; reflexivity).
      unfold n, fexp, emin in *. rewrite Hd0 in *. split; [right; lia|].
      unfold W. nia.
    - pose proof (Zdigits2_bounds mx ltac:(lia)) as Hd. fold d in Hd.
      assert (Hdpos : 0 < d).
      { destruct (Z_lt_le_dec 0 d); [assumption|].
        assert (2 ^ d <= 2 ^ 0) by (apply Z.pow_le_mono_r; lia).
        pose proof (Zdigits2_nonneg mx). fold d in H0. simpl in *. lia. }
      assert (Hle : 2 ^ d <= 2 ^ 53 * 2 ^ n).
      { rewrite <- pow2_split by lia. apply pow2_le.
        unfold n, fexp, emin. lia. }
      split.
      + destruct (Z.eq_dec (ex + n) (-1074)) as [|Hne]; [now right|left].
        assert (Hdn : d - 1 = 52 + n) by (unfold n, fexp, emin in *; lia).
        rewrite Hdn, pow2_split in Hd by lia.
        unfold W. nia.
      + unfold W. nia. }
  destruct Hnorm as [Hlow Hup].
  assert (Hq53 : q < 2 ^ 53) by nia.
  exists q1, n.
  split; [exact Hn|]. split; [unfold n, fexp, emin; lia|].
  split; [exact Hlow|]. split; [exact Hup|]. split; [lia|]. split; [lia|].
  split; [exact Htie|].
  (* the second normalization *)
  set (n2 := fexp 53 1024 (Zdigits2 q1 + e1) - e1).
  assert (He1' : -1074 <= e1) by (rewrite He1; unfold n, fexp, emin; lia).
  destruct (Z.eq_dec q1 0) as [Hz|Hnz].
  - assert (En2 : n2 <= 0).
    { unfold n2. rewrite Hz. cbn [Zdigits2]. unfold fexp, emin. lia. }
    rewrite (shr_no_shift _ _ _ En2), Hz.
    cbn [shr_record_of_loc shr_m]. left. now split.
  - destruct (Z.eq_dec q1 (2 ^ 53)) as [Htop|Hlt].
    + assert (En2 : n2 = 1).
      { unfold n2. subst q1. rewrite Htop.
        change (Zdigits2 (2 ^ 53)) with 54. unfold fexp, emin. lia. }
      rewrite En2, Htop. cbn [shr_record_of_loc shr fst snd].
      change (SpecFloat.iter_pos shr_1 1 {| shr_m := 2 ^ 53; shr_r := false; shr_s := false |})
        with {| shr_m := 2 ^ 52; shr_r := false; shr_s := false |}.
      cbn [shr_m]. change (2 ^ 52) with (Zpos 4503599627370496).
      cbv iota beta.
      destruct (Z.leb_spec (e1 + 1) (1024 - 53)) as [Hfin|Hinf].
      * right. right. exists 4503599627370496%positive, (e1 + 1).
        split; [reflexivity|]. split; [lia|].
        replace (e1 + 1 - (ex + n)) with 1 by lia. split; reflexivity.
      * right. left. split; [lia|]. split; [reflexivity|].
        split; [lia|]. rewrite <- He1.
        replace e1 with (971 + (e1 - 971)) by lia.
        rewrite pow2_split by lia.
        pose proof (pow2_pos (e1 - 971) ltac:(lia)).
        change (2 ^ 1024) with (2 ^ 53 * 2 ^ 971).
        assert (0 < 2 ^ 53 * 2 ^ 971) by reflexivity. nia.
    + assert (Hq1pos : 0 < q1) by lia.
      pose proof (Zdigits2_bounds q1 Hq1pos) as Hd1.
      assert (Hd1' : Zdigits2 q1 <= 53).
      { destruct (Z_le_gt_dec (Zdigits2 q1) 53); [assumption|exfalso].
        assert (2 ^ 53 <= 2 ^ (Zdigits2 q1 - 1)) by (apply pow2_le; lia).
        lia. }
      rewrite shr_no_shift by (unfold n2, fexp, emin; lia).
      cbn [shr_record_of_loc shr_m].
      destruct q1 as [|p1|p1] eqn:Eq1; try lia.
      destruct (Z.leb_spec e1 (1024 - 53)) as [Hfin|Hinf].
      * right. right. exists p1, e1. split; [reflexivity|]. split; [lia|].
        replace (e1 - (ex + n)) with 0 by lia. split; lia.
      * right. left. split; [lia|]. split; [reflexivity|]. split; [lia|].
        rewrite <- He1.
        assert (H52 : 2 ^ 52 <= Zpos p1).
        { destruct Hlow as [Hlow|Hlow]; [|lia]. nia. }
        replace e1 with (972 + (e1 - 972)) by lia.
        rewrite pow2_split by lia.
        pose proof (pow2_pos (e1 - 972) ltac:(lia)).
        change (2 ^ 1024) with (2 ^ 52 * 2 ^ 972).
        assert (0 < 2 ^ 972) by reflexivity. nia.
Qed.
Lemma pow2Q_sub (a b : Z) : (2 ^ (a - b) * 2 ^ b == 2 ^ a)%Q.
Proof. rewrite <- pow2Q_add. now replace (a - b + b) with a by lia. Qed.

Lemma round_aux_shape_Q (s : bool) (N D ex : Z) :
  0 < D -> 0 <= N ->
  ex <= fexp 53 1024 (Zdigits2 (N / D) + ex) ->
  exists q1 e1,
    -1074 <= e1 /\ 0 <= q1
    /\ ((2 ^ 52 * (inject_Z D * 2 ^ e1) <= inject_Z N * 2 ^ ex)%Q \/ e1 = -1074)
    /\ (inject_Z N * 2 ^ ex < 2 ^ 53 * (inject_Z D * 2 ^ e1))%Q
    /\ ((2 * inject_Z q1 - 1) * (inject_Z D * 2 ^ e1) <= 2 * (inject_Z N * 2 ^ ex))%Q
    /\ (2 * (inject_Z N * 2 ^ ex) <= (2 * inject_Z q1 + 1) * (inject_Z D * 2 ^ e1))%Q
    /\ ((2 * (inject_Z N * 2 ^ ex)
         == (2 * inject_Z q1 - 1) * (inject_Z D * 2 ^ e1))%Q
        \/ (2 * (inject_Z N * 2 ^ ex)
            == (2 * inject_Z q1 + 1) * (inject_Z D * 2 ^ e1))%Q
        -> Z.even q1 = true)
    /\ outcomeQ s (inject_Z q1 * 2 ^ e1)
         (binary_round_aux 53 1024 s (N / D) ex (loc_of (N mod D) D)).
Proof.
  intros HD HN Hcanon.
  destruct (round_aux_shape s N D ex HD HN Hcanon)
    as (q1 & k & Hk & He1 & Hlow & Hup & [Hn1 Hn2] & Hq1 & Htie & Hout).
  exists q1, (ex + k). split; [exact He1|]. split; [exact Hq1|].
  pose proof (pow2Q_pos ex) as Hpex.
  assert (HW : (inject_Z D * 2 ^ (ex + k) == inject_Z (D * 2 ^ k) * 2 ^ ex)%Q).
  { rewrite inject_Z_mult, pow2Q_of_Z, pow2Q_add by lia. ring. }
  rewrite !HW.
  assert (Hscale : forall a b : Z, a <= b ->
            (inject_Z a * 2 ^ ex <= inject_Z b * 2 ^ ex)%Q).
  { intros a b Hab. apply Qmult_le_compat_r; [|now apply Qlt_le_weak].
    now rewrite <- Zle_Qle. }
  split.
  { destruct Hlow as [Hlow|Hlow]; [left|now right].
    apply Hscale in Hlow. rewrite inject_Z_mult in Hlow.
    change (inject_Z (2 ^ 52)) with (2 ^ 52)%Q in Hlow.
    now rewrite Qmult_assoc. }
  split.
  { assert (H : (inject_Z N * 2 ^ ex < inject_Z (2 ^ 53 * (D * 2 ^ k)) * 2 ^ ex)%Q).
    { apply Qmult_lt_compat_r; [exact Hpex|]. now rewrite <- Zlt_Qlt. }
    rewrite inject_Z_mult in H.
    change (inject_Z (2 ^ 53)) with (2 ^ 53)%Q in H.
    now rewrite Qmult_assoc. }
  split.
  { apply Hscale in Hn1.
    unfold Z.sub in Hn1. rewrite inject_Z_plus, inject_Z_opp, !inject_Z_mult in Hn1.
    rewrite inject_Z_mult.
    change (inject_Z 2) with 2%Q in *.
    eapply Qle_trans; [|eapply Qle_trans; [exact Hn1|]]; apply Qle_lteq; right; ring. }
  split.
  { apply Hscale in Hn2.
    rewrite inject_Z_plus, !inject_Z_mult in Hn2.
    rewrite inject_Z_mult.
    change (inject_Z 2) with 2%Q in *.
    eapply Qle_trans; [|eapply Qle_trans; [exact Hn2|]]; apply Qle_lteq; right; ring. }
  split.
  { intros Hmid. apply Htie.
    assert (Hcancel : forall a b : Z,
              (inject_Z a * 2 ^ ex == inject_Z b * 2 ^ ex)%Q -> a = b).
    { intros a b Hab. apply inject_Z_injective.
      apply (Qmult_inj_r _ _ (2 ^ ex)%Q); [|exact Hab].
      intros H0. rewrite H0 in Hpex. now apply Qlt_irrefl in Hpex. }
    set (W := D * 2 ^ k) in *.
    destruct Hmid as [Hmid|Hmid]; [left|right]; apply Hcancel;
      unfold Z.sub; rewrite ?inject_Z_plus, ?inject_Z_opp, !inject_Z_mult;
      change (inject_Z 2) with 2%Q;
      (eapply Qeq_trans; [|eapply Qeq_trans; [exact Hmid|]]); ring. }
  destruct Hout as [[Hz Hr]|[(Hpos & Hr & He & Hbig)|(m & e & Hr & He & Hm & Hm53)]].
  - left. split; [exact Hr|]. rewrite Hz. ring.
  - right. left. split; [exact Hr|].
    rewrite <- (pow2Q_of_Z (ex + k)) by lia. rewrite <- inject_Z_mult.
    change (2 ^ 1024)%Q with (inject_Z (2 ^ 1024)). now rewrite <- Zle_Qle.
  - right. right. exists m, e.
    assert (Hv : (inject_Z (Z.pos m) * 2 ^ e == inject_Z q1 * 2 ^ (ex + k))%Q).
    { rewrite <- Hm, inject_Z_mult, pow2Q_of_Z by lia.
      rewrite <- Qmult_assoc, pow2Q_sub. reflexivity. }
    split; [exact Hr|]. split; [exact Hv|]. rewrite <- Hv.
    apply Qlt_le_trans with (2 ^ 53 * 2 ^ e)%Q.
    + apply Qmult_lt_compat_r; [apply pow2Q_pos|].
      change (2 ^ 53)%Q with (inject_Z (2 ^ 53)). now rewrite <- Zlt_Qlt.
    + change (2 ^ 1024)%Q with (2 ^ 53 * 2 ^ 971)%Q.
      apply Qmult_le_l; [reflexivity|].
      apply Qpower_le_compat_l; [lia | discriminate].
Qed.
(** The same with [u], the exact value counted in units of [2^e1]: [u] is
    normal, and [q1] is an integer nearest to it. *)
Lemma round_aux_shape_u (s : bool) (N D ex : Z) :
  0 < D -> 0 <= N ->
  ex <= fexp 53 1024 (Zdigits2 (N / D) + ex) ->
  exists (q1 e1 : Z) (u : Q),
    -1074 <= e1 /\ 0 <= q1
    /\ (u * (inject_Z D * 2 ^ e1) == inject_Z N * 2 ^ ex)%Q
    /\ ((2 ^ 52 <= u)%Q \/ e1 = -1074)
    /\ (u < 2 ^ 53)%Q
    /\ (inject_Z q1 - (1 # 2) <= u <= inject_Z q1 + (1 # 2))%Q
    /\ ((u == inject_Z q1 - (1 # 2))%Q \/ (u == inject_Z q1 + (1 # 2))%Q
        -> Z.even q1 = true)
    /\ outcomeQ s (inject_Z q1 * 2 ^ e1)
         (binary_round_aux 53 1024 s (N / D) ex (loc_of (N mod D) D)).
Proof.
  intros HD HN Hcanon.
  destruct (round_aux_shape_Q s N D ex HD HN Hcanon)
    as (q1 & e1 & He1 & Hq1 & Hlow & Hup & Hn1 & Hn2 & Htie & Hout).
  set (w := (inject_Z D * 2 ^ e1)%Q) in *.
  set (x := (inject_Z N * 2 ^ ex)%Q) in *.
  assert (Hw : (0 < w)%Q).
  { unfold w. apply Qmult_lt_0_compat; [|apply pow2Q_pos].
    change 0%Q with (inject_Z 0). rewrite <- Zlt_Qlt. lia. }
  assert (Hu : (x / w * w == x)%Q).
  { field. intros H0. rewrite H0 in Hw. now apply Qlt_irrefl in Hw. }
  exists q1, e1, (x / w)%Q.
  split; [exact He1|]. split; [exact Hq1|]. split; [exact Hu|].
  split.
  { destruct Hlow as [Hlow|Hlow]; [left|now right].
    apply Qle_shift_div_l; [exact Hw | exact Hlow]. }
  split.
  { apply Qlt_shift_div_r; [exact Hw | exact Hup]. }
  split; [|split; [|exact Hout]].
  - split.
    + apply Qle_shift_div_l; [exact Hw|].
      apply (Qmult_le_r _ _ 2); [reflexivity|].
      eapply Qle_trans; [|eapply Qle_trans; [exact Hn1|]]; apply Qle_lteq; right; ring.
    + apply Qle_shift_div_r; [exact Hw|].
      apply (Qmult_le_r _ _ 2); [reflexivity|].
      eapply Qle_trans; [|eapply Qle_trans; [exact Hn2|]]; apply Qle_lteq; right; ring.
  - intros Hmid. apply Htie.
    destruct Hmid as [Hmid|Hmid]; [left|right]; rewrite <- Hu, Hmid; ring.
Qed.

Lemma pow2Q_int (a : Z) : 0 <= a -> (2 ^ a == inject_Z (2 ^ a))%Q.
Proof. intros Ha. now rewrite pow2Q_of_Z. Qed.

Lemma pow2Q_half (a : Z) : a < 0 -> (2 ^ a <= 1 # 2)%Q.
Proof.
  intros Ha. change (1 # 2)%Q with (2 ^ (-1))%Q.
  apply Qpower_le_compat_l; [lia | discriminate].
Qed.

Lemma Z_le_half (a b : Z) : (inject_Z a <= inject_Z b + (1 # 2))%Q -> a <= b.
Proof.
  intros H. destruct (Z_le_gt_dec a b) as [|Hgt]; [assumption|exfalso].
  assert (H1 : (inject_Z (b + 1) <= inject_Z a)%Q) by (rewrite <- Zle_Qle; lia).
  rewrite inject_Z_plus in H1. change (inject_Z 1) with 1%Q in H1. lra.
Qed.

Lemma Z_lt_one (a b : Z) : (inject_Z a < inject_Z b + 1)%Q -> a <= b.
Proof.
  intros H. destruct (Z_le_gt_dec a b) as [|Hgt]; [assumption|exfalso].
  assert (H1 : (inject_Z (b + 1) <= inject_Z a)%Q) by (rewrite <- Zle_Qle; lia).
  rewrite inject_Z_plus in H1. change (inject_Z 1) with 1%Q in H1. lra.
Qed.

Lemma representable_bound (Y : positive) (F : Z) :
  representable Y F = true ->
  (0 < inject_Z (Zpos Y) < 2 ^ 53)%Q /\ -1074 <= F <= 971.
Proof.
  intros Hrep. apply representable_spec in Hrep as [HdY HF].
  pose proof (digits2_pos_bounds Y) as Hd.
  assert (Zpos Y < 2 ^ 53).
  { eapply Z.lt_le_trans; [apply Hd|]. apply pow2_le. lia. }
  split; [|exact HF]. split.
  - change 0%Q with (inject_Z 0). rewrite <- Zlt_Qlt. lia.
  - change (2 ^ 53)%Q with (inject_Z (2 ^ 53)). now rewrite <- Zlt_Qlt.
Qed.
Section Units.

Variables (u x c d : Q) (e1 F : Z).
Hypothesis Hd : (0 < d)%Q.
Hypothesis Hu : (u * (d * 2 ^ e1) == x)%Q.

Lemma units_scale : (c * 2 ^ (F - e1) * (d * 2 ^ e1) == c * 2 ^ F * d)%Q.
Proof. rewrite <- (pow2Q_sub F e1). ring. Qed.

Lemma units_pos : (0 < d * 2 ^ e1)%Q.
Proof. apply Qmult_lt_0_compat; [exact Hd | apply pow2Q_pos]. Qed.

Lemma units_le : (x <= c * 2 ^ F * d)%Q -> (u <= c * 2 ^ (F - e1))%Q.
Proof.
  intros H. apply (Qmult_le_r _ _ (d * 2 ^ e1)); [apply units_pos|].
  now rewrite Hu, units_scale.
Qed.

Lemma units_ge : (c * 2 ^ F * d <= x)%Q -> (c * 2 ^ (F - e1) <= u)%Q.
Proof.
  intros H. apply (Qmult_le_r _ _ (d * 2 ^ e1)); [apply units_pos|].
  now rewrite Hu, units_scale.
Qed.

Lemma units_lt : (x < c * 2 ^ F * d)%Q -> (u < c * 2 ^ (F - e1))%Q.
Proof.
  intros H. apply (Qmult_lt_r _ _ (d * 2 ^ e1)); [apply units_pos|].
  now rewrite Hu, units_scale.
Qed.

End Units.

(** From a bound on the mantissa at exponent [e1] to the result. *)
Lemma outcome_below (s : bool) (q1 e1 : Z) (Y : positive) (F : Z) (r : number) :
  representable Y F = true ->
  outcomeQ s (inject_Z q1 * 2 ^ e1) r ->
  (inject_Z q1 <= inject_Z (Zpos Y) * 2 ^ (F - e1))%Q ->
  rounded_below s Y F r.
Proof.
  intros Hrep Hout Hle.
  destruct (representable_bound Y F Hrep) as [[HY0 HY] HF].
  assert (Hv : (inject_Z q1 * 2 ^ e1 <= inject_Z (Zpos Y) * 2 ^ F)%Q).
  { rewrite <- (pow2Q_sub F e1), Qmult_assoc.
    apply Qmult_le_compat_r; [exact Hle | apply Qlt_le_weak, pow2Q_pos]. }
  destruct Hout as [[-> _]|[[_ Hbig]|(m & e & -> & Hm & _)]].
  - now left.
  - exfalso.
    assert (H971 : (2 ^ F <= 2 ^ 971)%Q)
      by (apply Qpower_le_compat_l; [lia | discriminate]).
    assert (Hlt : (inject_Z (Zpos Y) * 2 ^ F < 2 ^ 53 * 2 ^ 971)%Q).
    { apply Qlt_le_trans with (2 ^ 53 * 2 ^ F)%Q.
      - apply Qmult_lt_compat_r; [apply pow2Q_pos | exact HY].
      - apply Qmult_le_l; [reflexivity | exact H971]. }
    change (2 ^ 53 * 2 ^ 971)%Q with (2 ^ 1024)%Q in Hlt. lra.
  - right. exists m, e. split; [reflexivity|]. now rewrite Hm.
Qed.

Lemma outcome_far (s : bool) (q1 e1 : Z) (Y : positive) (F : Z) (r : number) :
  outcomeQ s (inject_Z q1 * 2 ^ e1) r ->
  (inject_Z (Zpos Y) * 2 ^ (F - e1) <= inject_Z q1)%Q ->
  far s r (inject_Z (Zpos Y) * 2 ^ F).
Proof.
  intros Hout Hle.
  assert (Hv : (inject_Z (Zpos Y) * 2 ^ F <= inject_Z q1 * 2 ^ e1)%Q).
  { rewrite <- (pow2Q_sub F e1), Qmult_assoc.
    apply Qmult_le_compat_r; [exact Hle | apply Qlt_le_weak, pow2Q_pos]. }
  assert (Hpos : (0 < inject_Z (Zpos Y) * 2 ^ F)%Q).
  { apply Qmult_lt_0_compat; [reflexivity | apply pow2Q_pos]. }
  destruct Hout as [[_ Hz]|[[-> _]|(m & e & -> & Hm & _)]].
  - exfalso. rewrite Hz in Hv. lra.
  - now left.
  - right. exists m, e. split; [reflexivity|]. now rewrite Hm.
Qed.

Section Located.

Variables (s : bool) (N D ex : Z) (Y : positive) (F : Z).
Hypothesis HD : 0 < D.
Hypothesis HN : 0 <= N.
Hypothesis Hcanon : ex <= fexp 53 1024 (Zdigits2 (N / D) + ex).
Hypothesis Hrep : representable Y F = true.

Let r := binary_round_aux 53 1024 s (N / D) ex (loc_of (N mod D) D).

Lemma round_located_below :
  (inject_Z N * 2 ^ ex <= inject_Z (Zpos Y) * 2 ^ F * inject_Z D)%Q ->
  rounded_below s Y F r.
Proof.
  intros Hle.
  destruct (round_aux_shape_u s N D ex HD HN Hcanon)
    as (q1 & e1 & u & He1 & Hq1 & Hu & Hnorm & Hu53 & [Hn1 Hn2] & _ & Hout).
  destruct (representable_bound Y F Hrep) as [[HY0 HY] HF].
  assert (Hd : (0 < inject_Z D)%Q)
    by (change 0%Q with (inject_Z 0); rewrite <- Zlt_Qlt; lia).
  apply (units_le u _ (inject_Z (Zpos Y)) _ e1 F Hd Hu) in Hle.
  apply (outcome_below s q1 e1 Y F r Hrep Hout).
  destruct (Z_le_gt_dec e1 F) as [Hcase|Hcase].
  - rewrite pow2Q_int, <- inject_Z_mult in Hle |- * by lia.
    rewrite <- Zle_Qle. apply Z_le_half. lra.
  - exfalso. destruct Hnorm as [Hnorm|Hnorm]; [|lia].
    pose proof (pow2Q_half (F - e1) ltac:(lia)) as Hhalf.
    assert (Hprod : (inject_Z (Zpos Y) * 2 ^ (F - e1)
                     <= inject_Z (Zpos Y) * (1 # 2))%Q).
    { apply Qmult_le_l; [exact HY0 | exact Hhalf]. }
    lra.
Qed.

Lemma round_located_far :
  (inject_Z (Zpos Y) * 2 ^ F * inject_Z D <= inject_Z N * 2 ^ ex)%Q ->
  far s r (inject_Z (Zpos Y) * 2 ^ F).
Proof.
  intros Hle.
  destruct (round_aux_shape_u s N D ex HD HN Hcanon)
    as (q1 & e1 & u & He1 & Hq1 & Hu & Hnorm & Hu53 & [Hn1 Hn2] & _ & Hout).
  destruct (representable_bound Y F Hrep) as [[HY0 HY] HF].
  assert (Hd : (0 < inject_Z D)%Q)
    by (change 0%Q with (inject_Z 0); rewrite <- Zlt_Qlt; lia).
  apply (units_ge u _ (inject_Z (Zpos Y)) _ e1 F Hd Hu) in Hle.
  apply (outcome_far s q1 e1 Y F r Hout).
  destruct (Z_le_gt_dec e1 F) as [Hcase|Hcase].
  - rewrite pow2Q_int, <- inject_Z_mult in Hle |- * by lia.
    rewrite <- Zle_Qle. apply Z_le_half. lra.
  - destruct Hnorm as [Hnorm|Hnorm]; [|lia].
    pose proof (pow2Q_half (F - e1) ltac:(lia)) as Hhalf.
    assert (Hprod : (inject_Z (Zpos Y) * 2 ^ (F - e1)
                     <= inject_Z (Zpos Y) * (1 # 2))%Q).
    { apply Qmult_le_l; [exact HY0 | exact Hhalf]. }
    assert (H52 : 2 ^ 52 <= q1).
    { apply Z_le_half. change (inject_Z (2 ^ 52)) with (2 ^ 52)%Q. lra. }
    rewrite Zle_Qle in H52. change (inject_Z (2 ^ 52)) with (2 ^ 52)%Q in H52.
    lra.
Qed.

Lemma round_located_below_mid :
  2 ^ 52 <= Zpos Y ->
  (2 * (inject_Z N * 2 ^ ex)
   < (2 * inject_Z (Zpos Y) + 1) * 2 ^ F * inject_Z D)%Q ->
  rounded_below s Y F r.
Proof.
  intros HY52 Hlt.
  destruct (round_aux_shape_u s N D ex HD HN Hcanon)
    as (q1 & e1 & u & He1 & Hq1 & Hu & Hnorm & Hu53 & [Hn1 Hn2] & _ & Hout).
  destruct (representable_bound Y F Hrep) as [[HY0 HY] HF].
  assert (Hd : (0 < inject_Z D)%Q)
    by (change 0%Q with (inject_Z 0); rewrite <- Zlt_Qlt; lia).
  assert (Hu2 : (2 * u * (inject_Z D * 2 ^ e1) == 2 * (inject_Z N * 2 ^ ex))%Q).
  { rewrite <- Hu. ring. }
  apply (units_lt (2 * u) _ (2 * inject_Z (Zpos Y) + 1) _ e1 F Hd Hu2) in Hlt.
  rewrite Zle_Qle in HY52. change (inject_Z (2 ^ 52)) with (2 ^ 52)%Q in HY52.
  apply (outcome_below s q1 e1 Y F r Hrep Hout).
  destruct (Z_lt_le_dec e1 F) as [Hcase|Hcase].
  - assert (Hq53 : q1 <= 2 ^ 53).
    { apply Z_le_half. change (inject_Z (2 ^ 53)) with (2 ^ 53)%Q. lra. }
    rewrite Zle_Qle in Hq53. change (inject_Z (2 ^ 53)) with (2 ^ 53)%Q in Hq53.
    assert (H2 : (2 <= 2 ^ (F - e1))%Q).
    { change 2%Q with (2 ^ 1)%Q at 1.
      apply Qpower_le_compat_l; [lia | discriminate]. }
    assert (Hprod : (inject_Z (Zpos Y) * 2 <= inject_Z (Zpos Y) * 2 ^ (F - e1))%Q).
    { apply Qmult_le_l; [exact HY0 | exact H2]. }
    lra.
  - destruct (Z.eq_dec e1 F) as [->|Hne].
    + rewrite Z.sub_diag in *. change (2 ^ 0)%Q with 1%Q in *.
      rewrite Qmult_1_r in Hlt |- *. rewrite <- Zle_Qle. apply Z_lt_one. lra.
    + exfalso. destruct Hnorm as [Hnorm|Hnorm]; [|lia].
      pose proof (pow2Q_half (F - e1) ltac:(lia)) as Hhalf.
      assert (HYint : (inject_Z (Zpos Y) <= 2 ^ 53 - 1)%Q).
      { change (2 ^ 53 - 1)%Q with (inject_Z (2 ^ 53 - 1)).
        rewrite <- Zle_Qle.
        change (2 ^ 53)%Q with (inject_Z (2 ^ 53)) in HY.
        rewrite <- Zlt_Qlt in HY. lia. }
      assert (Hprod : ((2 * inject_Z (Zpos Y) + 1) * 2 ^ (F - e1)
                       <= (2 * inject_Z (Zpos Y) + 1) * (1 # 2))%Q).
      { apply Qmult_le_l; [lra | exact Hhalf]. }
      lra.
Qed.

End Located.
(** The division of two mantissas: the quotient, with the location of the
    remainder, of a numerator shifted far enough for the quotient to be
    normal. *)
Lemma div_core (mx my : positive) (ex ey : Z) :
  exists N e',
    0 <= N
    /\ SFdiv_core_binary 53 1024 (Zpos mx) ex (Zpos my) ey
       = (N / Zpos my, e', loc_of (N mod Zpos my) (Zpos my))
    /\ (inject_Z N * 2 ^ e' == inject_Z (Zpos mx) * 2 ^ (ex - ey))%Q
    /\ e' <= fexp 53 1024 (Zdigits2 (N / Zpos my) + e').
Proof.
  unfold SFdiv_core_binary.
  set (d1 := Zdigits2 (Zpos mx)). set (d2 := Zdigits2 (Zpos my)).
  set (e' := Z.min (fexp 53 1024 (d1 + ex - (d2 + ey))) (ex - ey)).
  set (sh := ex - ey - e').
  assert (Hsh : 0 <= sh) by (unfold sh, e'; lia).
  set (m' := match sh with
             | 0 => Z.pos mx
             | Z.pos _ => Z.shiftl (Z.pos mx) sh
             | Z.neg _ => 0
             end).
  assert (Hm' : m' = Zpos mx * 2 ^ sh).
  { unfold m'. destruct sh as [|p|p] eqn:E; [simpl; lia | | lia].
    rewrite Z.shiftl_mul_pow2 by lia. reflexivity. }
  pose proof (pow2_pos sh Hsh) as Hpsh.
  exists m', e'. split; [nia|]. split.
  { pose proof (Z.mod_pos_bound m' (Zpos my) ltac:(lia)) as Hmod.
    unfold Z.modulo, Z.div in *.
    destruct (Z.div_eucl m' (Zpos my)) as [q r]. cbn [fst snd] in *.
    now rewrite new_location_loc by lia. }
  split.
  { rewrite Hm', inject_Z_mult, pow2Q_of_Z by lia.
    rewrite <- Qmult_assoc, <- pow2Q_add.
    now replace (sh + e') with (ex - ey) by (unfold sh; lia). }
  destruct (Z_le_gt_dec e' (-1074)) as [Hsub|Hnorm].
  { unfold fexp, emin. lia. }
  assert (Hsh' : 53 - d1 + d2 <= sh).
  { unfold sh, e', fexp, emin in *. lia. }
  pose proof (Zdigits2_bounds (Zpos mx) ltac:(lia)) as H1. fold d1 in H1.
  pose proof (Zdigits2_bounds (Zpos my) ltac:(lia)) as H2. fold d2 in H2.
  assert (Hd1 : 0 < d1) by (unfold d1; simpl; lia).
  assert (Hd2 : 0 < d2) by (unfold d2; simpl; lia).
  assert (Hq : 2 ^ 52 <= m' / Zpos my).
  { apply Z.div_le_lower_bound; [lia|].
    assert (Hbig : 2 ^ 52 * 2 ^ d2 <= 2 ^ (d1 - 1) * 2 ^ sh).
    { rewrite <- !pow2_split by lia. apply pow2_le. lia. }
    rewrite Hm'.
    assert (0 < 2 ^ (d1 - 1)) by (apply pow2_pos; lia).
    assert (0 < 2 ^ d2) by (apply pow2_pos; lia).
    nia. }
  pose proof (Zdigits2_bounds (m' / Zpos my) ltac:(lia)) as Hdq.
  assert (52 < Zdigits2 (m' / Zpos my)).
  { apply (Z.pow_lt_mono_r_iff 2); [lia | apply Zdigits2_nonneg | lia]. }
  unfold fexp, emin. lia.
Qed.

Section Division.

Variables (mx my : positive) (ex ey : Z) (Y : positive) (F : Z).
Hypothesis Hrep : representable Y F = true.

Let x := S754_finite false mx ex.
Let y := S754_finite false my ey.

Lemma div_scaled (N e' : Z) :
  (inject_Z N * 2 ^ e' == inject_Z (Zpos mx) * 2 ^ (ex - ey))%Q ->
  (inject_Z N * 2 ^ e' * 2 ^ ey == value x)%Q.
Proof.
  intros H. rewrite H. unfold x. cbn [value signed cond_Zopp].
  rewrite <- Qmult_assoc, pow2Q_sub. reflexivity.
Qed.

Lemma div_below :
  (value x <= inject_Z (Zpos Y) * 2 ^ F * value y)%Q ->
  below (div x y) (value (S754_finite false Y F)).
Proof.
  intros Hle. unfold div, SFdiv, x, y, Number.prec, Number.emax.
  destruct (div_core mx my ex ey) as (N & e' & HN & -> & Hval & Hcanon).
  cbn [xorb].
  assert (H : rounded_below false Y F
                (binary_round_aux 53 1024 false (N / Zpos my) e'
                   (loc_of (N mod Zpos my) (Zpos my)))).
  { apply round_located_below; try assumption; [lia|].
    apply (Qmult_le_r _ _ (2 ^ ey)); [apply pow2Q_pos|].
    rewrite (div_scaled N e' Hval).
    eapply Qle_trans; [exact Hle|]. unfold y. cbn [value signed cond_Zopp].
    apply Qle_lteq. right. ring. }
  destruct H as [->|(m' & e2 & -> & Hb)].
  - split; [reflexivity | apply bound_nonneg].
  - split; [reflexivity | exact Hb].
Qed.

Lemma div_far :
  (inject_Z (Zpos Y) * 2 ^ F * value y <= value x)%Q ->
  far false (div x y) (value (S754_finite false Y F)).
Proof.
  intros Hle. unfold div, SFdiv, x, y, Number.prec, Number.emax.
  destruct (div_core mx my ex ey) as (N & e' & HN & -> & Hval & Hcanon).
  cbn [xorb]. cbn [value signed cond_Zopp].
  apply round_located_far; try assumption; [lia|].
  apply (Qmult_le_r _ _ (2 ^ ey)); [apply pow2Q_pos|].
  rewrite (div_scaled N e' Hval).
  eapply Qle_trans; [|exact Hle]. unfold y. cbn [value signed cond_Zopp].
  apply Qle_lteq. right. ring.
Qed.

Lemma div_below_mid :
  2 ^ 52 <= Zpos Y ->
  (2 * value x < (2 * inject_Z (Zpos Y) + 1) * 2 ^ F * value y)%Q ->
  below (div x y) (value (S754_finite false Y F)).
Proof.
  intros HY Hlt. unfold div, SFdiv, x, y, Number.prec, Number.emax.
  destruct (div_core mx my ex ey) as (N & e' & HN & -> & Hval & Hcanon).
  cbn [xorb].
  assert (H : rounded_below false Y F
                (binary_round_aux 53 1024 false (N / Zpos my) e'
                   (loc_of (N mod Zpos my) (Zpos my)))).
  { apply round_located_below_mid; try assumption; [lia|].
    apply (Qmult_lt_r _ _ (2 ^ ey)); [apply pow2Q_pos|].
    rewrite <- Qmult_assoc, (div_scaled N e' Hval).
    eapply Qlt_le_trans; [exact Hlt|]. unfold y. cbn [value signed cond_Zopp].
    apply Qle_lteq. right. ring. }
  destruct H as [->|(m' & e2 & -> & Hb)].
  - split; [reflexivity | apply bound_nonneg].
  - split; [reflexivity | exact Hb].
Qed.

End Division.
(** A positive integer below [2^53] is a Number exactly. *)
Lemma of_Z_exact (n : Z) :
  0 < n < 2 ^ 53 ->
  exists m e,
    of_Z n = S754_finite false m e
    /\ (inject_Z (Zpos m) * 2 ^ e == inject_Z n)%Q.
Proof.
  intros Hn. destruct n as [|p|p]; try lia.
  assert (Hrep : representable p 0 = true).
  { unfold representable. rewrite !andb_true_iff, !Z.leb_le.
    repeat split; try lia.
    pose proof (digits2_pos_bounds p) as Hd.
    destruct (Z_le_gt_dec (Zpos (digits2_pos p)) 53); [assumption|exfalso].
    assert (2 ^ 53 <= 2 ^ (Zpos (digits2_pos p) - 1)) by (apply pow2_le; lia).
    lia. }
  assert (Hv : (value (S754_finite false p 0) == inject_Z (Zpos p))%Q).
  { cbn [value signed cond_Zopp]. change (2 ^ 0)%Q with 1%Q. ring. }
  destruct (of_Z_below (Zpos p) p 0 ltac:(lia) Hrep) as [Hnn Hle].
  { rewrite Hv. apply Qle_refl. }
  assert (Hfar : far false (of_Z (Zpos p)) (value (S754_finite false p 0))).
  { apply (of_Z_far (Zpos p) (S754_finite false p 0) Hrep).
    rewrite Hv. apply Qle_refl. }
  destruct Hfar as [Hinf|(m & e & Hr & Hge)].
  - rewrite Hinf in Hnn. discriminate.
  - exists m, e. split; [exact Hr|].
    rewrite Hr in Hle. cbn [value signed cond_Zopp] in Hle.
    rewrite Hv in Hle, Hge.
    apply Qle_antisym; assumption.
Qed.

End Nearest.

Import Nearest.

(* ================================================================== *)
(** ** The capitalization ratio *)

Section IntegerQuotient.

Variables (a b : Z) (Y : positive) (F : Z).
Hypothesis Ha : 0 < a < 2 ^ 53.
Hypothesis Hb : 0 < b < 2 ^ 53.
Hypothesis Hrep : representable Y F = true.

Lemma div_integers_below :
  (inject_Z a <= inject_Z (Zpos Y) * 2 ^ F * inject_Z b)%Q ->
  below (div (of_Z a) (of_Z b)) (value (S754_finite false Y F)).
Proof.
  intros Hle.
  destruct (of_Z_exact a Ha) as (ma & ea & -> & Hva).
  destruct (of_Z_exact b Hb) as (mb & eb & -> & Hvb).
  apply div_below; [exact Hrep|]. cbn [value signed cond_Zopp].
  now rewrite Hva, Hvb.
Qed.

Lemma div_integers_far :
  (inject_Z (Zpos Y) * 2 ^ F * inject_Z b <= inject_Z a)%Q ->
  far false (div (of_Z a) (of_Z b)) (value (S754_finite false Y F)).
Proof.
  intros Hle.
  destruct (of_Z_exact a Ha) as (ma & ea & -> & Hva).
  destruct (of_Z_exact b Hb) as (mb & eb & -> & Hvb).
  apply div_far; [exact Hrep|]. cbn [value signed cond_Zopp].
  now rewrite Hva, Hvb.
Qed.

Lemma div_integers_below_mid :
  2 ^ 52 <= Zpos Y ->
  (2 * inject_Z a < (2 * inject_Z (Zpos Y) + 1) * 2 ^ F * inject_Z b)%Q ->
  below (div (of_Z a) (of_Z b)) (value (S754_finite false Y F)).
Proof.
  intros HY Hlt.
  destruct (of_Z_exact a Ha) as (ma & ea & -> & Hva).
  destruct (of_Z_exact b Hb) as (mb & eb & -> & Hvb).
  apply div_below_mid; [exact Hrep | exact HY |]. cbn [value signed cond_Zopp].
  now rewrite Hva, Hvb.
Qed.

End IntegerQuotient.

(** Comparing with a positive finite number. *)
Lemma gtb_far (r b c : number) :
  positive_finite c = true ->
  far false r (value b) -> (value c < value b)%Q -> gtb r c = true.
Proof.
  intros Hc [->|(m & e & -> & Hge)] Hlt.
  - destruct c as [| | |[] mc ec]; try discriminate. reflexivity.
  - apply gtb_value; [reflexivity | |].
    + destruct c as [| | |[] mc ec]; try discriminate. reflexivity.
    + cbn [value signed cond_Zopp]. lra.
Qed.

Lemma gtb_below (r c : number) (b : Q) :
  finite c = true -> below r b -> (b <= value c)%Q -> gtb r c = false.
Proof.
  intros Hc [Hnn Hle] Hbc.
  destruct (gtb r c) eqn:E; [|reflexivity].
  apply gtb_value in E; [lra | now apply nonneg_finite | exact Hc].
Qed.

Lemma caps_le_length (t : text) : 0 <= match_count (Cls upper) t <= length_of t.
Proof.
  rewrite match_count_class. unfold length_of.
  pose proof (filter_length_le upper t). lia.
Qed.

Lemma capsRatio_threshold (t : text) :
  length_of t <= 2 ^ 51 ->
  gtb (capsRatio t) lit_0_3
  = (3 * length_of t <? 10 * match_count (Cls upper) t).
Proof.
  intros Hlen. pose proof (caps_le_length t) as Hc. unfold capsRatio.
  set (c := match_count (Cls upper) t) in *. set (l := length_of t) in *.
  destruct (Z.eq_dec c 0) as [Hc0|Hc0].
  { rewrite Hc0. replace (3 * l <? 10 * 0) with false
      by (symmetry; apply Z.ltb_ge; lia).
    change (of_Z 0) with (S754_zero false).
    destruct (Z.eq_dec l 0) as [->|Hl0]; [reflexivity|].
    destruct (of_Z_exact l ltac:(lia)) as (ml & el & -> & _). reflexivity. }
  assert (Hcb : 0 < c < 2 ^ 53) by lia.
  assert (Hlb : 0 < l < 2 ^ 53) by lia.
  destruct (Z.ltb_spec (3 * l) (10 * c)) as [Hgt|Hle].
  - apply (gtb_far _ (S754_finite false 5404319552844596 (-54)));
      [reflexivity | | vm_compute; reflexivity].
    apply div_integers_far; [exact Hcb | exact Hlb | reflexivity |].
    assert (H : (inject_Z (5404319552844596 * l) * 2 ^ (-54)
                 <= inject_Z c * 2 ^ 0)%Q).
    { apply (scaled_Qle _ _ _ _ (-54)); [lia | lia |].
      change (2 ^ (-54 - -54)) with 1. change (2 ^ (0 - -54)) with (2 ^ 54).
      lia. }
    rewrite inject_Z_mult in H. change (2 ^ 0)%Q with 1%Q in H.
    rewrite Qmult_1_r in H.
    eapply Qle_trans; [|exact H]. apply Qle_lteq. right. ring.
  - apply (gtb_below _ _ (value lit_0_3)); [reflexivity | | apply Qle_refl].
    apply div_integers_below_mid;
      [exact Hcb | exact Hlb | reflexivity | lia |].
    assert (H : (inject_Z (2 * c) * 2 ^ 0
                 < inject_Z (10808639105689191 * l) * 2 ^ (-54))%Q).
    { apply (scaled_Qlt _ _ _ _ (-54)); [lia | lia |].
      change (2 ^ (-54 - -54)) with 1. change (2 ^ (0 - -54)) with (2 ^ 54).
      lia. }
    rewrite !inject_Z_mult in H. change (2 ^ 0)%Q with 1%Q in H.
    rewrite Qmult_1_r in H.
    change (inject_Z 2) with 2%Q in H.
    eapply Qlt_le_trans; [exact H|]. apply Qle_lteq. right.
    change (inject_Z 10808639105689191)
      with (2 * inject_Z 5404319552844595 + 1)%Q. ring.
Qed.

(** X12. The capitalization check is exact.  For a text of at most [2^51]
    code units, [capsRatio > 0.3] holds exactly when more than three tenths
    of the code units are capitals of [[A-Z]], although neither the
    quotient nor the literal 0.3 is computed exactly; 'Excessive
    capitalization' is reported on these texts and no others.  On the empty
    text the ratio is [NaN], and the check fails. *)
Theorem capitals_check_is_exact (t : text) :
  length_of t <= 2 ^ 51 ->
  let capitals := Z.of_nat (List.length (filter upper t)) in
  (gtb (capsRatio t) lit_0_3 = true <-> 3 * length_of t < 10 * capitals)
  /\ (forall languageScore factualScore,
        In "Excessive capitalization"
          (identifyRiskFactors t languageScore factualScore)
        <-> 3 * length_of t < 10 * capitals)
  /\ (t = [] -> capsRatio t = S754_nan /\ gtb (capsRatio t) lit_0_3 = false).
Proof.
  intros Hlen capitals.
  assert (Hiff : gtb (capsRatio t) lit_0_3 = true
                 <-> 3 * length_of t < 10 * capitals).
  { rewrite (capsRatio_threshold t Hlen), match_count_class. apply Z.ltb_lt. }
  split; [exact Hiff|]. split.
  - intros languageScore factualScore.
    destruct (riskFactors_checks t languageScore factualScore)
      as (_ & _ & Hcaps & _).
    now rewrite Hcaps.
  - intros ->. split; reflexivity.
Qed.

Lemma capitals_check_is_exact_witness :
  let t := js "BREAKING: It is TRUE" in
  length_of t <= 2 ^ 51
  /\ length_of t = 20
  /\ Z.of_nat (List.length (filter upper t)) = 13
  /\ gtb (capsRatio t) lit_0_3 = true.
Proof.
  intros t.
  assert (Hlen : length_of t <= 2 ^ 51) by (apply Z.leb_le; reflexivity).
  split; [exact Hlen|]. split; [reflexivity|]. split; [reflexivity|].
  apply (proj1 (capitals_check_is_exact t Hlen)). reflexivity.
Defined.

(* ================================================================== *)
(** ** The conditions of the risk factors *)

Lemma test_phrase (s : string) (t : text) :
  test (lit_i s) t = true <-> occurs_i s t.
Proof.
  rewrite test_matches. unfold occurs_i. split.
  - intros (before & w & after & Ht & Hw). apply matches_lit_i in Hw.
    now exists before, w, after.
  - intros (before & w & after & Ht & Hw). apply matches_lit_i in Hw.
    now exists before, w, after.
Qed.

Lemma phrase_match_nil (t : text) : phrase_match [] t <-> False.
Proof. split; [intros (s & [] & _) | contradiction]. Qed.

Lemma phrase_match_cons (s : string) (phrases : list string) (t : text) :
  phrase_match (s :: phrases) t <-> occurs_i s t \/ phrase_match phrases t.
Proof.
  unfold phrase_match. split.
  - intros (s' & [<-|Hin] & Hocc); [now left | right; now exists s'].
  - intros [Hocc|(s' & Hin & Hocc)];
      [exists s; split; [now left | exact Hocc]
      | exists s'; split; [now right | exact Hocc]].
Qed.

Lemma bang_or_query_spec (c : N) :
  bang_or_query c = true <-> In c [code "!"%char; code "?"%char].
Proof.
  unfold bang_or_query. rewrite orb_true_iff, !N.eqb_eq. cbn [In].
  change (code "!"%char) with 33%N. change (code "?"%char) with 63%N.
  intuition congruence.
Qed.

Lemma test_punctuation_run (t : text) :
  test punctuation_run_re t = true <-> punctuation_run t.
Proof.
  rewrite test_matches. unfold punctuation_run_re, at_least_2, punctuation_run.
  cbn [matches]. split.
  - intros (before & w & after & -> & w1 & w23 & -> & (c1 & -> & H1)
            & w2 & w3 & -> & (c2 & -> & H2) & H3).
    exists before, c1, c2, (w3 ++ after)%list.
    split; [cbn [app]; rewrite <- ?app_assoc; reflexivity|].
    split; now apply bang_or_query_spec.
  - intros (before & c1 & c2 & after & -> & H1 & H2).
    apply bang_or_query_spec in H1, H2.
    exists before, [c1; c2], after. split; [reflexivity|].
    exists [c1], [c2]. split; [reflexivity|]. split; [now exists c1|].
    exists [c2], []. split; [reflexivity|]. split; [now exists c2 | reflexivity].
Qed.

(** Checks that decide the conditions select the labels of the conditions
    that hold. *)
Lemma selects_selected (checks : list (bool * string))
  (conditions : list (Prop * string)) :
  Forall2 (fun check condition =>
             (fst check = true <-> fst condition) /\ snd check = snd condition)
          checks conditions ->
  selects conditions (selected checks).
Proof.
  unfold selected.
  induction 1 as [|[b s] [P s'] checks conditions [Hiff Hs] _ IH];
    cbn [filter map fst snd] in *.
  - constructor.
  - subst s'. destruct b; cbn [map snd].
    + apply selects_take; [now apply Hiff | exact IH].
    + apply selects_skip; [|exact IH]. intros HP. apply Hiff in HP. discriminate.
Qed.

(** Each check of [identifyRiskFactors] decides its condition. *)
Lemma risk_checks_decide (t : text) (languageScore factualScore : Z) :
  length_of t <= 2 ^ 51 ->
  Forall2 (fun check condition =>
             (fst check = true <-> fst condition) /\ snd check = snd condition)
          (risk_checks t languageScore factualScore)
          (risk_conditions t languageScore factualScore).
Proof.
  intros Hlen. unfold risk_checks, risk_conditions.
  repeat (apply Forall2_cons; [split; [cbn [fst]|reflexivity]|]);
    [ | | | | | | | apply Forall2_nil].
  - apply Z.ltb_lt.
  - apply Z.ltb_lt.
  - unfold clickbait_risk_re.
    rewrite !test_alt, !orb_true_iff, !test_phrase, !phrase_match_cons,
      phrase_match_nil. tauto.
  - unfold conspiracy_risk_re.
    rewrite !test_alt, !orb_true_iff, !test_phrase, !phrase_match_cons,
      phrase_match_nil.
    rewrite (test_apart "cover" "up" (opt dot) 0 1 t matches_opt_dot). tauto.
  - rewrite (capsRatio_threshold t Hlen), match_count_class. apply Z.ltb_lt.
  - apply test_punctuation_run.
  - unfold attribution_re.
    rewrite andb_true_iff, negb_true_iff, Z.ltb_lt.
    rewrite !test_alt, !phrase_match_cons, phrase_match_nil.
    rewrite <- !test_phrase.
    destruct (test (lit_i "said") t), (test (lit_i "according") t),
      (test (lit_i "reported") t), (test (lit_i "stated") t); cbn [orb];
      intuition congruence.
Qed.

(** C8, as stated, fails with the phrase lists of the specification: a
    text with the clickbait phrases 'unbelievable' and 'viral' and the
    conspiracy phrases 'wake up' and 'mainstream media' carries neither
    'Clickbait-style language' nor 'Conspiracy-style rhetoric', whatever
    the two scores. *)
Lemma listed_phrases_without_label :
  let t := js "Unbelievable viral story: wake up, mainstream media!" in
  phrase_match clickbait_phrases t
  /\ phrase_match conspiracy_phrases t
  /\ forall languageScore factualScore,
       ~ In "Clickbait-style language"
           (identifyRiskFactors t languageScore factualScore)
       /\ ~ In "Conspiracy-style rhetoric"
             (identifyRiskFactors t languageScore factualScore).
Proof.
  intros t. split; [|split].
  - exists "viral". split; [cbn [clickbait_phrases In]; tauto|].
    apply test_phrase. vm_compute. reflexivity.
  - exists "wake up". split; [cbn [conspiracy_phrases In]; tauto|].
    apply test_phrase. vm_compute. reflexivity.
  - intros l f. destruct (riskFactors_checks t l f) as (Hclick & Hconsp & _).
    rewrite Hclick, Hconsp. split; vm_compute; discriminate.
Qed.

(** C8, amended.  For a text of at most [2^51] code units,
    [identifyRiskFactors] returns, in check order and once each, the
    labels of the conditions that hold among: language score < 50; factual
    score < 50; one of the phrases 'you won't believe', 'shocking' and
    'amazing'; one of 'they don't want you to know' and 'hidden truth', or
    'cover' and 'up' at most one code unit apart; more than three tenths
    of the code units in [[A-Z]]; two adjacent [!] or [?]; none of 'said',
    'according', 'reported' and 'stated' in a text of more than 100 code
    units.  The seven labels are distinct, so no list has a duplicate, on
    the normal path and on the fallback path alike. *)
Theorem risk_factors_ordered_nodup (t : text) (languageScore factualScore : Z) :
  length_of t <= 2 ^ 51 ->
  selects (risk_conditions t languageScore factualScore)
          (identifyRiskFactors t languageScore factualScore)
  /\ map snd (risk_conditions t languageScore factualScore) = risk_labels
  /\ NoDup risk_labels
  /\ NoDup (identifyRiskFactors t languageScore factualScore)
  /\ (forall pipeline st,
        let r := snd (analyzeText pipeline st t) in
        NoDup (riskFactors r)
        /\ exists language factual,
             selects (risk_conditions t language factual) (riskFactors r)).
Proof.
  intros Hlen.
  assert (Hsel : forall l f,
            selects (risk_conditions t l f) (identifyRiskFactors t l f)).
  { intros l f. rewrite identifyRiskFactors_selected.
    apply selects_selected. now apply risk_checks_decide. }
  assert (Hnodup : forall l f, NoDup (identifyRiskFactors t l f)).
  { intros l f. rewrite identifyRiskFactors_selected.
    apply selected_NoDup. rewrite risk_checks_labels. apply risk_labels_NoDup. }
  split; [apply Hsel|]. split; [reflexivity|].
  split; [apply risk_labels_NoDup|]. split; [apply Hnodup|].
  intros pipeline st r. subst r.
  destruct (riskFactors_identified pipeline st t) as (l & f & ->).
  split; [apply Hnodup|]. exists l, f. apply Hsel.
Qed.

Lemma risk_factors_ordered_nodup_witness :
  length_of shocking <= 2 ^ 51
  /\ selects (risk_conditions shocking 35 60) (identifyRiskFactors shocking 35 60)
  /\ identifyRiskFactors shocking 35 60
     = [ "Suspicious language patterns detected"; "Clickbait-style language";
         "Conspiracy-style rhetoric"; "Excessive punctuation" ].
Proof.
  assert (Hlen : length_of shocking <= 2 ^ 51) by (apply Z.leb_le; reflexivity).
  split; [exact Hlen|].
  split; [exact (proj1 (risk_factors_ordered_nodup shocking 35 60 Hlen))|].
  vm_compute. reflexivity.
Defined.

(* ================================================================== *)
(** ** The fallback score in integers *)

(** A product with a positive normal constant, from below. *)
Lemma mul_far (x : number) (b1 : Q) (mc : positive) (ec : Z) (b2 : number) :
  far false x b1 ->
  2 ^ 52 <= Zpos mc ->
  representable_number b2 = true ->
  (value b2 <= b1 * value (S754_finite false mc ec))%Q ->
  far false (mul x (S754_finite false mc ec)) (value b2).
Proof.
  intros Hx Hmc Hrep Hle.
  destruct (representable_number_spec b2 Hrep) as (Y & F & -> & HYF).
  destruct Hx as [->|(mx & ex & -> & Hb)]; [now left|].
  unfold mul, SFmul, Number.prec, Number.emax. cbn [xorb].
  apply round_aux_far; [| exact HYF |].
  - pose proof (digits2_pos_bounds (mx * mc)) as Hdp.
    assert (2 ^ 52 < 2 ^ Zpos (digits2_pos (mx * mc))) by nia.
    assert (52 < Zpos (digits2_pos (mx * mc))).
    { apply (Z.pow_lt_mono_r_iff 2); lia. }
    unfold fexp. lia.
  - eapply Qle_trans; [exact Hle|].
    cbn [value signed cond_Zopp].
    rewrite Pos2Z.inj_mul, inject_Z_mult, pow2Q_add.
    assert (Hc : (0 <= inject_Z (Zpos mc) * 2 ^ ec)%Q).
    { apply Qmult_le_0_compat; [|apply Qlt_le_weak, pow2Q_pos].
      change 0%Q with (inject_Z 0). rewrite <- Zle_Qle. lia. }
    eapply Qle_trans; [apply Qmult_le_compat_r; [exact Hb | exact Hc]|].
    apply Qle_lteq. right. ring.
Qed.

(** Taking a number of at least [b1] away from a positive one of at most
    [a]. *)
Lemma sub_below_far (x y : number) (a b1 : Q) (b2 : number) :
  positive_finite x = true -> (value x <= a)%Q ->
  far false y b1 ->
  representable_number b2 = true ->
  (a - b1 <= value b2)%Q ->
  capped (sub x y) (value b2).
Proof.
  intros Hx Ha Hy Hrep Hle.
  destruct (representable_number_spec b2 Hrep) as (Y & F & -> & HYF).
  pose proof (bound_nonneg Y F) as Hb.
  destruct x as [| | |[] mx ex]; try discriminate.
  destruct Hy as [->|(my & ey & -> & Hyb)]; [now left|].
  unfold sub, SFsub, Number.prec, Number.emax.
  pose proof (shl_align_spec mx ex (Z.min ex ey)) as Hax.
  pose proof (shl_align_spec my ey (Z.min ex ey)) as Hay.
  destruct (shl_align mx ex (Z.min ex ey)) as [mx' ex'].
  destruct (shl_align my ey (Z.min ex ey)) as [my' ey'].
  destruct Hax as (Hex' & Hmx' & _). destruct Hay as (Hey' & Hmy' & _).
  cbn [fst cond_Zopp].
  replace (ex - ex') with (ex - Z.min ex ey) in Hmx' by lia.
  replace (ey - ey') with (ey - Z.min ex ey) in Hmy' by lia.
  set (c := Z.min ex ey) in *.
  set (D := Zpos mx' - Zpos my').
  destruct (Z_lt_le_dec D 0) as [Hneg|Hpos].
  - destruct D as [|D'|D'] eqn:ED; try lia. simpl binary_normalize.
    destruct (binary_round_signed true D' c) as [->|[->|(m' & e' & ->)]].
    + right. split; [reflexivity | exact Hb].
    + now left.
    + right. split; [reflexivity|].
      pose proof (signed_true_value m' e'). lra.
  - right.
    assert (Hexact : (inject_Z D * 2 ^ c <= inject_Z (Zpos Y) * 2 ^ F)%Q).
    { cbn [value signed cond_Zopp] in *.
      rewrite (rescale (Zpos mx) ex c) in Ha by (unfold c; lia).
      rewrite (rescale (Zpos my) ey c) in Hyb by (unfold c; lia).
      rewrite <- Hmx' in Ha. rewrite <- Hmy' in Hyb.
      unfold D, Z.sub. rewrite inject_Z_plus, inject_Z_opp. lra. }
    destruct (binary_normalize_below D c Y F Hpos HYF Hexact) as [Hnn Hv].
    split; [now apply nonneg_finite | exact Hv].
Qed.

(** Adding a non-negative number of at most [b] to a capped one. *)
Lemma add_capped (x y : number) (a b : Q) (b2 : number) :
  capped x a -> below y b ->
  representable_number b2 = true ->
  (a + b <= value b2)%Q ->
  capped (add x y) (value b2).
Proof.
  intros Hx [Hy Hyb] Hrep Hle.
  destruct (representable_number_spec b2 Hrep) as (Y & F & -> & HYF).
  pose proof (bound_nonneg Y F) as Hb.
  pose proof (nonneg_value y Hy) as Hy0.
  destruct Hx as [->|[Hfin Hxa]].
  { left. destruct y as [[]| | |[] my ey]; try discriminate; reflexivity. }
  destruct y as [[]| | |[] my ey]; try discriminate.
  - (* y = +0 *)
    right. change (value (S754_zero false)) with 0%Q in *.
    destruct x as [[]| | |sx mx ex]; try discriminate;
      (split; [reflexivity|]); cbn [add SFadd value] in *; lra.
  - destruct x as [sx| | |sx mx ex]; try discriminate.
    + right. split; [reflexivity|].
      change (value (S754_zero sx)) with 0%Q in Hxa.
      change (add (S754_zero sx) (S754_finite false my ey))
        with (S754_finite false my ey). lra.
    + unfold add, SFadd, Number.prec, Number.emax.
      pose proof (shl_align_spec mx ex (Z.min ex ey)) as Hax.
      pose proof (shl_align_spec my ey (Z.min ex ey)) as Hay.
      destruct (shl_align mx ex (Z.min ex ey)) as [mx' ex'].
      destruct (shl_align my ey (Z.min ex ey)) as [my' ey'].
      destruct Hax as (Hex' & Hmx' & _). destruct Hay as (Hey' & Hmy' & _).
      cbn [fst].
      replace (ex - ex') with (ex - Z.min ex ey) in Hmx' by lia.
      replace (ey - ey') with (ey - Z.min ex ey) in Hmy' by lia.
      set (c := Z.min ex ey) in *.
      set (D := cond_Zopp sx (Zpos mx') + cond_Zopp false (Zpos my')).
      destruct (Z_lt_le_dec D 0) as [Hneg|Hpos].
      * destruct D as [|D'|D'] eqn:ED; try lia. simpl binary_normalize.
        destruct (binary_round_signed true D' c) as [->|[->|(m' & e' & ->)]].
        -- right. split; [reflexivity | exact Hb].
        -- now left.
        -- right. split; [reflexivity|].
           pose proof (signed_true_value m' e'). lra.
      * right.
        assert (Hexact : (inject_Z D * 2 ^ c <= inject_Z (Zpos Y) * 2 ^ F)%Q).
        { cbn [value signed] in *.
          rewrite (rescale (cond_Zopp sx (Zpos mx)) ex c) in Hxa by (unfold c; lia).
          rewrite (rescale (Zpos my) ey c) in Hyb by (unfold c; lia).
          rewrite <- Hmy' in Hyb.
          assert (Hsx : cond_Zopp sx (Zpos mx) * 2 ^ (ex - c)
                        = cond_Zopp sx (Zpos mx')).
          { destruct sx; cbn [cond_Zopp]; lia. }
          rewrite Hsx in Hxa.
          unfold D, signed in *. cbn [cond_Zopp] in *. rewrite inject_Z_plus.
          lra. }
        destruct (binary_normalize_below D c Y F Hpos HYF Hexact) as [Hnn Hv].
        split; [now apply nonneg_finite | exact Hv].
Qed.
Lemma Classification_eqb_eq (a b : Classification) :
  Classification_eqb a b = true -> a = b.
Proof. destruct a, b; (reflexivity || discriminate). Qed.

Lemma fallback_checked (base wordCount : Z) :
  15 <= base <= 70 -> 1 <= wordCount <= 150 ->
  fallback_check base wordCount = true.
Proof.
  intros Hb Hw.
  pose proof (forall_upto
                (fun i => forallb (fallback_check (15 + i))
                            (map Z.of_nat (seq 1 150)))
                56 ltac:(vm_compute; reflexivity) (base - 15) ltac:(lia)) as H.
  cbv beta in H. replace (15 + (base - 15)) with base in H by lia.
  rewrite forallb_forall in H. apply H.
  apply in_map_iff. exists (Z.to_nat wordCount). split; [lia|].
  apply in_seq. lia.
Qed.

Lemma punctuation_term_exact (questionMarks exclamations : Z) :
  0 <= questionMarks <= 11 -> 0 <= exclamations <= 18 ->
  punctuation_term questionMarks exclamations
  = of_Z (70 - 5 * questionMarks - 3 * exclamations).
Proof.
  intros Hq He. apply same_eq.
  pose proof (forall_upto
                (fun q => forallb
                            (fun e => same (punctuation_term q e)
                                        (of_Z (70 - 5 * q - 3 * e)))
                            (map Z.of_nat (seq 0 19)))
                12 ltac:(vm_compute; reflexivity) questionMarks ltac:(lia)) as H.
  cbv beta in H. rewrite forallb_forall in H. apply H.
  apply in_map_iff. exists (Z.to_nat exclamations). split; [lia|].
  apply in_seq. lia.
Qed.

Lemma Math_min_15_far (x : number) :
  far false x 15 -> Math_min x (of_Z 15) = of_Z 15.
Proof.
  intros [->|(m & e & -> & Hb)]; [reflexivity|].
  rewrite (Math_min_finite (S754_finite false m e) (of_Z 15) eq_refl eq_refl).
  assert (H15 : (value (of_Z 15) == 15)%Q) by reflexivity.
  destruct (Qcompare_spec (value (S754_finite false m e)) (value (of_Z 15)))
    as [H|H|H]; try reflexivity.
  cbn [value signed cond_Zopp] in H. exfalso. lra.
Qed.

Lemma word_term_large (wordCount : Z) :
  150 <= wordCount -> word_term wordCount = of_Z 15.
Proof.
  intros Hw. unfold word_term. apply Math_min_15_far.
  assert (Hfar : far false (of_Z wordCount) (value (of_Z 150))).
  { replace false with (wordCount <? 0) by (apply Z.ltb_ge; lia).
    apply of_Z_far; [reflexivity|].
    assert (H150 : (value (of_Z 150) == inject_Z 150)%Q) by reflexivity.
    rewrite H150, <- Zle_Qle. lia. }
  assert (H15 : (value (S754_finite false 15 0) == 15)%Q) by reflexivity.
  destruct Hfar as [->|(m & e & -> & Hb)]; [now left|].
  apply (far_weaken _ _ (value (S754_finite false 15 0))); [|rewrite H15; lra].
  change (of_Z 10) with (S754_finite false 5629499534213120 (-49)).
  apply div_far; [reflexivity|].
  assert (H150 : (value (of_Z 150) == 150)%Q) by reflexivity.
  assert (H10 : (value (S754_finite false 5629499534213120 (-49)) == 10)%Q)
    by reflexivity.
  rewrite H150 in Hb. rewrite H10.
  assert (H15' : (inject_Z 15 * 2 ^ 0 == 15)%Q) by reflexivity.
  rewrite H15'. cbn [value signed cond_Zopp]. lra.
Qed.

Lemma word_term_below (wordCount : Z) :
  0 <= wordCount -> below (word_term wordCount) 15.
Proof.
  intros Hw. apply min_15_below.
  apply div_count; [reflexivity | now apply of_Z_nonneg_or_inf].
Qed.

Lemma word_term_min (wordCount : Z) :
  1 <= wordCount -> word_term wordCount = word_term (Z.min wordCount 150).
Proof.
  intros Hw. destruct (Z_le_gt_dec 150 wordCount) as [Hbig|Hsmall].
  - rewrite (word_term_large wordCount Hbig).
    replace (Z.min wordCount 150) with 150 by lia. reflexivity.
  - now replace (Z.min wordCount 150) with wordCount by lia.
Qed.

(** An integer of at most 14 as a Number. *)
Lemma of_Z_capped_14 (n : Z) :
  n <= 14 -> capped (of_Z n) (value (of_Z 14)).
Proof.
  intros Hn.
  assert (H14 : (value (of_Z 14) == inject_Z 14)%Q) by reflexivity.
  destruct n as [|p|p].
  - right. split; [reflexivity|]. rewrite H14. discriminate.
  - destruct (of_Z_exact (Zpos p) ltac:(lia)) as (m & e & -> & Hv).
    right. split; [reflexivity|]. cbn [value signed cond_Zopp].
    rewrite Hv, H14, <- Zle_Qle. lia.
  - unfold of_Z, Number.prec, Number.emax. simpl binary_normalize.
    destruct (binary_round_signed true p 0) as [->|[->|(m' & e' & ->)]].
    + right. split; [reflexivity|]. rewrite H14. discriminate.
    + now left.
    + right. split; [reflexivity|].
      pose proof (signed_true_value m' e'). rewrite H14.
      assert (0 <= inject_Z 14)%Q by discriminate. lra.
Qed.

Lemma punctuation_term_capped (questionMarks exclamations : Z) :
  0 <= questionMarks -> 0 <= exclamations ->
  14 >= 70 - 5 * questionMarks - 3 * exclamations ->
  capped (punctuation_term questionMarks exclamations) (value (of_Z 14)).
Proof.
  intros Hq He Hsmall. unfold punctuation_term.
  assert (H5 : of_Z 5 = S754_finite false 5629499534213120 (-50)) by reflexivity.
  assert (H3 : of_Z 3 = S754_finite false 6755399441055744 (-51)) by reflexivity.
  destruct (Z_le_gt_dec 12 questionMarks) as [Hq12|Hq11].
  - (* at least 12 question marks: 70 - 5q is at most 10 *)
    apply sub_count; [reflexivity | |
                      apply mul_count; [reflexivity | now apply of_Z_nonneg_or_inf]].
    apply (sub_below_far _ _ 70 (value (of_Z 60))); [reflexivity | | | reflexivity |].
    + assert (H70 : (value (of_Z 70) == 70)%Q) by reflexivity.
      rewrite H70. apply Qle_refl.
    + rewrite H5. apply (mul_far _ (value (of_Z 12))); [| lia | reflexivity |].
      * replace false with (questionMarks <? 0) by (apply Z.ltb_ge; lia).
        apply of_Z_far; [reflexivity|].
        assert (H12 : (value (of_Z 12) == inject_Z 12)%Q) by reflexivity.
        rewrite H12, <- Zle_Qle. lia.
      * vm_compute. discriminate.
    + vm_compute. discriminate.
  - destruct (Z_le_gt_dec 19 exclamations) as [He19|He18].
    + (* at most 11 question marks, at least 19 exclamation marks *)
      assert (Hexact : sub (of_Z 70) (mul (of_Z questionMarks) (of_Z 5))
                       = of_Z (70 - 5 * questionMarks)).
      { pose proof (punctuation_term_exact questionMarks 0 ltac:(lia) ltac:(lia))
          as H.
        unfold punctuation_term in H.
        change (mul (of_Z 0) (of_Z 3)) with (S754_zero false) in H.
        replace (70 - 5 * questionMarks - 3 * 0)
          with (70 - 5 * questionMarks) in H by lia.
        rewrite <- H.
        destruct (sub (of_Z 70) (mul (of_Z questionMarks) (of_Z 5)))
          as [[]|[]| |[] m e]; reflexivity. }
      rewrite Hexact.
      destruct (of_Z_exact (70 - 5 * questionMarks) ltac:(lia))
        as (m & e & -> & Hv).
      apply (sub_below_far _ _ 70 (value (of_Z 57)));
        [reflexivity | | | reflexivity |].
      * cbn [value signed cond_Zopp]. rewrite Hv.
        change 70%Q with (inject_Z 70). rewrite <- Zle_Qle. lia.
      * rewrite H3. apply (mul_far _ (value (of_Z 19))); [| lia | reflexivity |].
        -- replace false with (exclamations <? 0) by (apply Z.ltb_ge; lia).
           apply of_Z_far; [reflexivity|].
           assert (H19 : (value (of_Z 19) == inject_Z 19)%Q) by reflexivity.
           rewrite H19, <- Zle_Qle. lia.
        -- vm_compute. discriminate.
      * vm_compute. discriminate.
    + fold (punctuation_term questionMarks exclamations).
      rewrite punctuation_term_exact by lia.
      apply of_Z_capped_14. lia.
Qed.

Lemma clamp_low (x y : number) :
  capped x (value (of_Z 14)) -> below y 15 ->
  clamp (add x y) (of_Z 30) (of_Z 85) = of_Z 30.
Proof.
  intros Hx Hy.
  assert (H : capped (add x y) (value (of_Z 29))).
  { apply (add_capped x y (value (of_Z 14)) 15); try assumption;
      [reflexivity | vm_compute; discriminate]. }
  unfold clamp.
  assert (Hlt : ltb (add x y) (of_Z 30) = true).
  { destruct H as [->|[Hfin Hle]]; [reflexivity|].
    apply ltb_value; [exact Hfin | reflexivity |].
    eapply Qle_lt_trans; [exact Hle|]. vm_compute. reflexivity. }
  now rewrite Hlt.
Qed.
Lemma fallback_raw_terms (wordCount questionMarks exclamations : Z) :
  fallback_raw wordCount questionMarks exclamations
  = add (punctuation_term questionMarks exclamations) (word_term wordCount).
Proof. reflexivity. Qed.

(** The clamped score of the fallback, in integers. *)
Lemma fallback_clamped (wordCount questionMarks exclamations : Z) :
  1 <= wordCount -> 0 <= questionMarks -> 0 <= exclamations ->
  let clamped :=
    clamp (fallback_raw wordCount questionMarks exclamations)
      (of_Z 30) (of_Z 85) in
  Math_round clamped
    = of_Z (fallback_score wordCount questionMarks exclamations)
  /\ classify clamped
     = fallback_classification wordCount questionMarks exclamations.
Proof.
  intros Hw Hq He. cbv zeta. rewrite fallback_raw_terms.
  unfold fallback_score, fallback_classification, fallback_tenths.
  set (base := 70 - 5 * questionMarks - 3 * exclamations).
  destruct (Z_le_gt_dec base 14) as [Hlow|Hhigh].
  - rewrite clamp_low;
      [| apply punctuation_term_capped; unfold base in *; lia
       | apply word_term_below; lia].
    replace (Z.max 300 (Z.min 850 (10 * base + Z.min wordCount 150)))
      with 300 by lia.
    replace (750 <=? 10 * base + Z.min wordCount 150) with false
      by (symmetry; apply Z.leb_gt; lia).
    replace (10 * base + Z.min wordCount 150 <=? 400) with true
      by (symmetry; apply Z.leb_le; lia).
    split; reflexivity.
  - rewrite punctuation_term_exact by (unfold base in *; lia).
    fold base. rewrite (word_term_min wordCount Hw).
    pose proof (fallback_checked base (Z.min wordCount 150)
                  ltac:(unfold base in *; lia) ltac:(lia)) as H.
    unfold fallback_check in H. cbv zeta in H.
    apply andb_true_iff in H. destruct H as [H1 H2].
    split; [now apply same_eq | now apply Classification_eqb_eq].
Qed.

Lemma getFallbackAnalysis_classification (t : text) :
  classification (getFallbackAnalysis t)
  = classify
      (clamp
         (fallback_raw (Z.of_nat (List.length (split (code " "%char) t)))
            (match_count (Cls (is_char (code "?"%char))) t)
            (match_count (Cls (is_char (code "!"%char))) t))
         (of_Z 30) (of_Z 85)).
Proof.
  rewrite <- clamp_code. reflexivity.
Qed.

Lemma getFallbackAnalysis_integers (t : text) :
  credibilityScore (getFallbackAnalysis t)
    = of_Z (fallback_score (word_count t) (occurrences (code "?"%char) t)
              (occurrences (code "!"%char) t))
  /\ classification (getFallbackAnalysis t)
     = fallback_classification (word_count t) (occurrences (code "?"%char) t)
         (occurrences (code "!"%char) t).
Proof.
  rewrite getFallbackAnalysis_credibilityScore,
    getFallbackAnalysis_classification.
  rewrite split_word_count, !match_count_char.
  apply fallback_clamped; unfold word_count, occurrences; lia.
Qed.

Lemma fallback_score_range (w q e : Z) : 30 <= fallback_score w q e <= 85.
Proof.
  unfold fallback_score.
  set (x := Z.max 300 (Z.min 850 _)).
  assert (300 <= x <= 850) by (unfold x; lia).
  split; [apply Z.div_le_lower_bound; lia|].
  assert ((x + 5) / 10 < 86) by (apply Z.div_lt_upper_bound; lia). lia.
Qed.

(** X13. The fallback analysis in integers, for every text.  With
    [tenths = 10 * (70 - 5*questionMarks - 3*exclamations)
              + min(wordCount, 150)],
    the returned score is [floor((clamp(tenths, 300, 850) + 5) / 10)] and
    the classification is 'trustworthy' from 750 tenths, 'misleading' up to
    400 tenths and 'uncertain' in between: the binary64 computation agrees
    with exact arithmetic. *)
Theorem fallback_in_integers (t : text) :
  let wordCount := word_count t in
  let questionMarks := occurrences (code "?"%char) t in
  let exclamations := occurrences (code "!"%char) t in
  credibilityScore (getFallbackAnalysis t)
    = of_Z (fallback_score wordCount questionMarks exclamations)
  /\ classification (getFallbackAnalysis t)
     = fallback_classification wordCount questionMarks exclamations
  /\ 30 <= fallback_score wordCount questionMarks exclamations <= 85.
Proof.
  cbv zeta. destruct (getFallbackAnalysis_integers t) as [H1 H2].
  split; [exact H1|]. split; [exact H2 | apply fallback_score_range].
Qed.

(** X14. The fallback classification differs from the classification of
    the returned score exactly when the unrounded score lies in
    [[40.1, 40.4]] (returned 40, 'uncertain') or in [[74.5, 74.9]]
    (returned 75, 'uncertain'). *)
Theorem fallback_classification_mismatch (t : text) :
  let tenths :=
    fallback_tenths (word_count t) (occurrences (code "?"%char) t)
      (occurrences (code "!"%char) t) in
  classification (getFallbackAnalysis t)
    <> classify (credibilityScore (getFallbackAnalysis t))
  <-> (401 <= tenths <= 404 \/ 745 <= tenths <= 749).
Proof.
  cbv zeta. destruct (getFallbackAnalysis_integers t) as [-> ->].
  set (w := word_count t). set (q := occurrences (code "?"%char) t).
  set (e := occurrences (code "!"%char) t).
  pose proof (fallback_score_range w q e) as Hrange.
  rewrite classify_integer by lia.
  unfold fallback_classification, fallback_score in *.
  set (tenths := fallback_tenths w q e) in *.
  set (c := Z.max 300 (Z.min 850 tenths)) in *.
  pose proof (Z.div_mod (c + 5) 10 ltac:(lia)) as Hdm.
  pose proof (Z.mod_pos_bound (c + 5) 10 ltac:(lia)) as Hmod.
  set (s := (c + 5) / 10) in *.
  destruct (Z.leb_spec 750 tenths), (Z.leb_spec tenths 400),
    (Z.leb_spec 75 s), (Z.leb_spec s 40);
    split; intros Hne; try (unfold c in *; lia); try discriminate;
    try (exfalso; apply Hne; reflexivity).
Qed.

(** A small integer as a Number, by value. *)
Lemma of_Z_leb (i j : Z) :
  0 < i < 2 ^ 53 -> 0 < j < 2 ^ 53 -> i <= j -> leb (of_Z i) (of_Z j) = true.
Proof.
  intros Hi Hj Hij.
  destruct (of_Z_exact i Hi) as (mi & ei & -> & Hvi).
  destruct (of_Z_exact j Hj) as (mj & ej & -> & Hvj).
  apply leb_value; [reflexivity | reflexivity |].
  cbn [value signed cond_Zopp]. rewrite Hvi, Hvj, <- Zle_Qle. exact Hij.
Qed.

(** X17. The fallback score is monotone in the counts the source takes.
    With [wordCount] as the source has it, [text.split(' ').length], which
    is one more than the number of spaces, a text whose [wordCount] is at
    least that of another and which has no more question marks and no more
    exclamation marks scores at least as much; if the other is
    'trustworthy' so is it, and if it is 'misleading' so is the other. *)
Theorem fallback_score_is_monotone (t t' : text) :
  let wordCount u := Z.of_nat (List.length (split (code " "%char) u)) in
  wordCount t <= wordCount t' ->
  occurrences (code "?"%char) t' <= occurrences (code "?"%char) t ->
  occurrences (code "!"%char) t' <= occurrences (code "!"%char) t ->
  leb (credibilityScore (getFallbackAnalysis t))
      (credibilityScore (getFallbackAnalysis t')) = true
  /\ (classification (getFallbackAnalysis t) = trustworthy ->
      classification (getFallbackAnalysis t') = trustworthy)
  /\ (classification (getFallbackAnalysis t') = misleading ->
      classification (getFallbackAnalysis t) = misleading)
  /\ (forall u, wordCount u = 1 + occurrences (code " "%char) u).
Proof.
  intros wordCount Hw Hq He.
  assert (Hcount : forall u, wordCount u = 1 + occurrences (code " "%char) u)
    by (intros u; apply split_word_count).
  rewrite !Hcount in Hw. fold (word_count t) (word_count t') in Hw.
  cut (leb (credibilityScore (getFallbackAnalysis t))
           (credibilityScore (getFallbackAnalysis t')) = true
       /\ (classification (getFallbackAnalysis t) = trustworthy ->
           classification (getFallbackAnalysis t') = trustworthy)
       /\ (classification (getFallbackAnalysis t') = misleading ->
           classification (getFallbackAnalysis t) = misleading)); [tauto|].
  clear wordCount Hcount.
  destruct (getFallbackAnalysis_integers t) as [-> ->].
  destruct (getFallbackAnalysis_integers t') as [-> ->].
  set (w := word_count t) in *. set (w' := word_count t') in *.
  set (q := occurrences (code "?"%char) t) in *.
  set (q' := occurrences (code "?"%char) t') in *.
  set (e := occurrences (code "!"%char) t) in *.
  set (e' := occurrences (code "!"%char) t') in *.
  pose proof (fallback_score_range w q e) as Hr.
  pose proof (fallback_score_range w' q' e') as Hr'.
  assert (Htenths : fallback_tenths w q e <= fallback_tenths w' q' e')
    by (unfold fallback_tenths; lia).
  split; [|split].
  - apply of_Z_leb; try lia.
    unfold fallback_score. apply Z.div_le_mono; lia.
  - unfold fallback_classification.
    destruct (Z.leb_spec 750 (fallback_tenths w q e)),
      (Z.leb_spec 750 (fallback_tenths w' q' e'));
      try reflexivity; try lia.
    destruct (fallback_tenths w q e <=? 400); discriminate.
  - unfold fallback_classification.
    destruct (Z.leb_spec 750 (fallback_tenths w q e)),
      (Z.leb_spec 750 (fallback_tenths w' q' e'));
      try discriminate; try lia;
      destruct (Z.leb_spec (fallback_tenths w q e) 400),
        (Z.leb_spec (fallback_tenths w' q' e') 400);
      try reflexivity; try discriminate; lia.
Qed.

Lemma fallback_score_is_monotone_witness :
  let t := js "Is it true?! No" in
  let t' := js "It is true, they said so" in
  Z.of_nat (List.length (split (code " "%char) t))
    <= Z.of_nat (List.length (split (code " "%char) t'))
  /\ occurrences (code "?"%char) t' <= occurrences (code "?"%char) t
  /\ occurrences (code "!"%char) t' <= occurrences (code "!"%char) t
  /\ credibilityScore (getFallbackAnalysis t) = of_Z 62
  /\ credibilityScore (getFallbackAnalysis t') = of_Z 71
  /\ leb (credibilityScore (getFallbackAnalysis t))
         (credibilityScore (getFallbackAnalysis t')) = true.
Proof.
  intros t t'.
  assert (Hw : Z.of_nat (List.length (split (code " "%char) t))
               <= Z.of_nat (List.length (split (code " "%char) t')))
    by (apply Z.leb_le; reflexivity).
  assert (Hq : occurrences (code "?"%char) t' <= occurrences (code "?"%char) t)
    by (apply Z.leb_le; reflexivity).
  assert (He : occurrences (code "!"%char) t' <= occurrences (code "!"%char) t)
    by (apply Z.leb_le; reflexivity).
  split; [exact Hw|]. split; [exact Hq|]. split; [exact He|].
  split; [vm_compute; reflexivity|]. split; [vm_compute; reflexivity|].
  exact (proj1 (fallback_score_is_monotone t t' Hw Hq He)).
Defined.

(* ================================================================== *)
(** ** Rounding keeps the order *)

(** Of two values counted in units of their canonical exponents, the
    smaller has the smaller nearest-even rounding. *)
Lemma nearest_monotone (q1 e1 q2 e2 : Z) (u1 u2 : Q) :
  -1074 <= e1 -> -1074 <= e2 ->
  ((2 ^ 52 <= u1)%Q \/ e1 = -1074) -> (u1 < 2 ^ 53)%Q ->
  (inject_Z q1 - (1 # 2) <= u1 <= inject_Z q1 + (1 # 2))%Q ->
  ((u1 == inject_Z q1 - (1 # 2))%Q \/ (u1 == inject_Z q1 + (1 # 2))%Q
   -> Z.even q1 = true) ->
  ((2 ^ 52 <= u2)%Q \/ e2 = -1074) -> (u2 < 2 ^ 53)%Q ->
  (inject_Z q2 - (1 # 2) <= u2 <= inject_Z q2 + (1 # 2))%Q ->
  ((u2 == inject_Z q2 - (1 # 2))%Q \/ (u2 == inject_Z q2 + (1 # 2))%Q
   -> Z.even q2 = true) ->
  (u1 * 2 ^ e1 <= u2 * 2 ^ e2)%Q ->
  (inject_Z q1 * 2 ^ e1 <= inject_Z q2 * 2 ^ e2)%Q.
Proof.
  intros He1 He2 Hn1 Hu1 [Hl1 Hh1] Ht1 Hn2 Hu2 [Hl2 Hh2] Ht2 Hle.
  pose proof (pow2Q_pos e1) as Hp1. pose proof (pow2Q_pos e2) as Hp2.
  destruct (Z.lt_trichotomy e1 e2) as [Hlt|[Heq|Hgt]].
  - destruct Hn2 as [Hn2|Hn2]; [|lia].
    assert (Hq2 : (2 ^ 52 <= inject_Z q2)%Q).
    { change (2 ^ 52)%Q with (inject_Z (2 ^ 52)). rewrite <- Zle_Qle.
      apply Z_le_half. change (inject_Z (2 ^ 52)) with (2 ^ 52)%Q. lra. }
    assert (Hq1 : (inject_Z q1 <= 2 ^ 53)%Q).
    { change (2 ^ 53)%Q with (inject_Z (2 ^ 53)). rewrite <- Zle_Qle.
      apply Z_le_half. change (inject_Z (2 ^ 53)) with (2 ^ 53)%Q. lra. }
    assert (Hstep : (2 ^ 1 * 2 ^ e1 <= 2 ^ e2)%Q).
    { rewrite <- pow2Q_add. apply Qpower_le_compat_l; [lia | discriminate]. }
    change (2 ^ 1)%Q with 2%Q in Hstep.
    apply Qle_trans with (2 ^ 53 * 2 ^ e1)%Q.
    + apply Qmult_le_compat_r; [exact Hq1 | lra].
    + apply Qle_trans with (2 ^ 52 * 2 ^ e2)%Q; [lra|].
      apply Qmult_le_compat_r; [exact Hq2 | lra].
  - subst e2.
    assert (Hu : (u1 <= u2)%Q) by (apply (Qmult_le_r _ _ (2 ^ e1)); assumption).
    apply Qmult_le_compat_r; [|lra]. rewrite <- Zle_Qle.
    destruct (Z_le_gt_dec q1 q2) as [|Hgt]; [assumption|exfalso].
    assert (H1 : (inject_Z (q2 + 1) <= inject_Z q1)%Q) by (rewrite <- Zle_Qle; lia).
    rewrite inject_Z_plus in H1. change (inject_Z 1) with 1%Q in H1.
    assert (E1 : (u1 == inject_Z q1 - (1 # 2))%Q) by lra.
    assert (E2 : (u2 == inject_Z q2 + (1 # 2))%Q) by lra.
    assert (Eq : (inject_Z q1 == inject_Z (q2 + 1))%Q).
    { rewrite inject_Z_plus. change (inject_Z 1) with 1%Q. lra. }
    apply (proj1 (inject_Z_injective _ _)) in Eq.
    specialize (Ht1 (or_introl E1)). specialize (Ht2 (or_intror E2)).
    rewrite Eq, Z.add_1_r, Z.even_succ, <- Z.negb_even, Ht2 in Ht1.
    discriminate.
  - exfalso. destruct Hn1 as [Hn1|Hn1]; [|lia].
    assert (Hstep : (2 ^ 1 * 2 ^ e2 <= 2 ^ e1)%Q).
    { rewrite <- pow2Q_add. apply Qpower_le_compat_l; [lia | discriminate]. }
    change (2 ^ 1)%Q with 2%Q in Hstep.
    assert (H1 : (2 ^ 52 * 2 ^ e1 <= u1 * 2 ^ e1)%Q)
      by (apply Qmult_le_compat_r; [exact Hn1 | lra]).
    assert (H2 : (u2 * 2 ^ e2 < 2 ^ 53 * 2 ^ e2)%Q)
      by (apply Qmult_lt_compat_r; assumption).
    lra.
Qed.

Lemma outcome_ordered (v1 v2 : Q) (r1 r2 : number) :
  outcomeQ false v1 r1 -> outcomeQ false v2 r2 -> (v1 <= v2)%Q ->
  nonneg r2 = true -> nonneg r1 = true /\ (value r1 <= value r2)%Q.
Proof.
  intros H1 H2 Hle Hr2.
  pose proof (nonneg_value r2 Hr2) as H0.
  assert (Hv2 : (v2 < 2 ^ 1024)%Q /\ (value r2 == v2)%Q).
  { destruct H2 as [[-> Hz]|[[-> _]|(m & e & -> & Hm & Hb)]]; try discriminate.
    - split; [rewrite Hz; reflexivity | now rewrite Hz].
    - split; [exact Hb | exact Hm]. }
  destruct Hv2 as [Hb2 Hval2].
  destruct H1 as [[-> Hz]|[[-> Hbig]|(m & e & -> & Hm & Hb)]].
  - split; [reflexivity | exact H0].
  - exfalso. lra.
  - split; [reflexivity|]. cbn [value signed cond_Zopp].
    rewrite Hm, Hval2. exact Hle.
Qed.

Section Ordered.

Variables (N1 D1 ex1 N2 D2 ex2 : Z).
Hypothesis HD1 : 0 < D1.
Hypothesis HN1 : 0 <= N1.
Hypothesis Hcanon1 : ex1 <= fexp 53 1024 (Zdigits2 (N1 / D1) + ex1).
Hypothesis HD2 : 0 < D2.
Hypothesis HN2 : 0 <= N2.
Hypothesis Hcanon2 : ex2 <= fexp 53 1024 (Zdigits2 (N2 / D2) + ex2).

(** Rounding two located quotients keeps their order. *)
Lemma round_located_monotone :
  (inject_Z N1 * 2 ^ ex1 * inject_Z D2 <= inject_Z N2 * 2 ^ ex2 * inject_Z D1)%Q ->
  let r1 := binary_round_aux 53 1024 false (N1 / D1) ex1 (loc_of (N1 mod D1) D1) in
  let r2 := binary_round_aux 53 1024 false (N2 / D2) ex2 (loc_of (N2 mod D2) D2) in
  nonneg r2 = true -> nonneg r1 = true /\ (value r1 <= value r2)%Q.
Proof.
  intros Hle r1 r2.
  destruct (round_aux_shape_u false N1 D1 ex1 HD1 HN1 Hcanon1)
    as (q1 & e1 & u1 & He1 & Hq1 & Hu1 & Hn1 & Hb1 & Hnear1 & Htie1 & Hout1).
  destruct (round_aux_shape_u false N2 D2 ex2 HD2 HN2 Hcanon2)
    as (q2 & e2 & u2 & He2 & Hq2 & Hu2 & Hn2 & Hb2 & Hnear2 & Htie2 & Hout2).
  apply (outcome_ordered _ _ r1 r2 Hout1 Hout2).
  apply (nearest_monotone q1 e1 q2 e2 u1 u2); try assumption.
  assert (Hd1 : (0 < inject_Z D1)%Q)
    by (change 0%Q with (inject_Z 0); rewrite <- Zlt_Qlt; lia).
  assert (Hd2 : (0 < inject_Z D2)%Q)
    by (change 0%Q with (inject_Z 0); rewrite <- Zlt_Qlt; lia).
  apply (Qmult_le_r _ _ (inject_Z D1 * inject_Z D2));
    [now apply Qmult_lt_0_compat|].
  assert (E1 : (u1 * 2 ^ e1 * (inject_Z D1 * inject_Z D2)
                == inject_Z N1 * 2 ^ ex1 * inject_Z D2)%Q).
  { rewrite <- Hu1. ring. }
  assert (E2 : (u2 * 2 ^ e2 * (inject_Z D1 * inject_Z D2)
                == inject_Z N2 * 2 ^ ex2 * inject_Z D1)%Q).
  { rewrite <- Hu2. ring. }
  rewrite E1, E2. exact Hle.
Qed.

End Ordered.

Lemma round_exact_monotone (m1 m2 : positive) (e1 e2 : Z) :
  e1 <= fexp 53 1024 (Zpos (digits2_pos m1) + e1) ->
  e2 <= fexp 53 1024 (Zpos (digits2_pos m2) + e2) ->
  (inject_Z (Zpos m1) * 2 ^ e1 <= inject_Z (Zpos m2) * 2 ^ e2)%Q ->
  nonneg (binary_round_aux 53 1024 false (Zpos m2) e2 loc_Exact) = true ->
  nonneg (binary_round_aux 53 1024 false (Zpos m1) e1 loc_Exact) = true
  /\ (value (binary_round_aux 53 1024 false (Zpos m1) e1 loc_Exact)
      <= value (binary_round_aux 53 1024 false (Zpos m2) e2 loc_Exact))%Q.
Proof.
  intros H1 H2 Hle.
  pose proof (round_located_monotone (Zpos m1) 1 e1 (Zpos m2) 1 e2) as H.
  rewrite !Z.div_1_r, !Z.mod_1_r in H. change (loc_of 0 1) with loc_Exact in H.
  cbv zeta in H. apply H; try lia; try assumption.
  change (inject_Z 1) with 1%Q. rewrite !Qmult_1_r. exact Hle.
Qed.

Lemma binary_round_monotone (m1 m2 : positive) (e1 e2 : Z) :
  (inject_Z (Zpos m1) * 2 ^ e1 <= inject_Z (Zpos m2) * 2 ^ e2)%Q ->
  nonneg (binary_round 53 1024 false m2 e2) = true ->
  nonneg (binary_round 53 1024 false m1 e1) = true
  /\ (value (binary_round 53 1024 false m1 e1)
      <= value (binary_round 53 1024 false m2 e2))%Q.
Proof.
  intros Hle. unfold binary_round.
  pose proof (shl_align_spec m1 e1 (fexp 53 1024 (Zpos (digits2_pos m1) + e1))) as Ha1.
  pose proof (shl_align_spec m2 e2 (fexp 53 1024 (Zpos (digits2_pos m2) + e2))) as Ha2.
  destruct (shl_align m1 e1 _) as [mz1 ez1].
  destruct (shl_align m2 e2 _) as [mz2 ez2].
  destruct Ha1 as (Hez1 & Hmz1 & Hdig1). destruct Ha2 as (Hez2 & Hmz2 & Hdig2).
  apply round_exact_monotone; [rewrite Hdig1; lia | rewrite Hdig2; lia |].
  rewrite Hmz1, Hmz2.
  rewrite <- (rescale (Zpos m1) e1 ez1), <- (rescale (Zpos m2) e2 ez2) by lia.
  exact Hle.
Qed.

Lemma binary_normalize_monotone (n1 n2 e1 e2 : Z) :
  0 <= n1 ->
  (inject_Z n1 * 2 ^ e1 <= inject_Z n2 * 2 ^ e2)%Q ->
  nonneg (binary_normalize 53 1024 n2 e2 false) = true ->
  nonneg (binary_normalize 53 1024 n1 e1 false) = true
  /\ (value (binary_normalize 53 1024 n1 e1 false)
      <= value (binary_normalize 53 1024 n2 e2 false))%Q.
Proof.
  intros Hn1 Hle Hr2.
  destruct n1 as [|n1|n1]; [| |lia].
  - split; [reflexivity | exact (nonneg_value _ Hr2)].
  - assert (Hpos : 0 < n2).
    { rewrite (scaled_Qle _ _ _ _ (Z.min e1 e2)) in Hle by lia.
      pose proof (pow2_pos (e1 - Z.min e1 e2) ltac:(lia)).
      pose proof (pow2_pos (e2 - Z.min e1 e2) ltac:(lia)). nia. }
    destruct n2 as [|n2|n2]; try lia.
    simpl binary_normalize in *. now apply binary_round_monotone.
Qed.

(** *** The operations *)

Lemma positive_value (m : positive) (e : Z) : (0 < inject_Z (Zpos m) * 2 ^ e)%Q.
Proof. apply Qmult_lt_0_compat; [reflexivity | apply pow2Q_pos]. Qed.

(** A product with a positive normal constant grows with the other
    factor. *)
Lemma mul_monotone (x1 x2 : number) (mc : positive) (ec : Z) :
  nonneg x1 = true -> nonneg x2 = true -> (value x1 <= value x2)%Q ->
  53 <= Zpos (digits2_pos mc) ->
  nonneg (mul x2 (S754_finite false mc ec)) = true ->
  nonneg (mul x1 (S754_finite false mc ec)) = true
  /\ (value (mul x1 (S754_finite false mc ec))
      <= value (mul x2 (S754_finite false mc ec)))%Q.
Proof.
  intros H1 H2 Hle Hmc Hr2.
  assert (Hcanon : forall mx ex,
            ex + ec <= fexp 53 1024 (Zpos (digits2_pos (mx * mc)) + (ex + ec))).
  { intros mx ex.
    pose proof (digits2_pos_bounds mc) as Hdc.
    pose proof (digits2_pos_bounds (mx * mc)) as Hdp.
    assert (2 ^ 52 <= Zpos mc).
    { eapply Z.le_trans; [|apply Hdc]. apply Z.pow_le_mono_r; lia. }
    assert (2 ^ 52 < 2 ^ Zpos (digits2_pos (mx * mc))) by nia.
    assert (52 < Zpos (digits2_pos (mx * mc))).
    { apply (Z.pow_lt_mono_r_iff 2); lia. }
    unfold fexp. lia. }
  destruct x1 as [[]| | |[] m1 e1]; try discriminate.
  - split; [reflexivity | exact (nonneg_value _ Hr2)].
  - destruct x2 as [[]| | |[] m2 e2]; try discriminate.
    + exfalso. pose proof (positive_value m1 e1) as Hp.
      cbn [value signed cond_Zopp] in Hle. lra.
    + unfold mul, SFmul, Number.prec, Number.emax in *. cbn [xorb] in *.
      apply round_exact_monotone; [apply Hcanon | apply Hcanon | | exact Hr2].
      cbn [value signed cond_Zopp] in Hle.
      rewrite !Pos2Z.inj_mul, !inject_Z_mult, !pow2Q_add.
      pose proof (positive_value mc ec) as Hc.
      assert (H : (inject_Z (Zpos m1) * 2 ^ e1 * (inject_Z (Zpos mc) * 2 ^ ec)
                   <= inject_Z (Zpos m2) * 2 ^ e2 * (inject_Z (Zpos mc) * 2 ^ ec))%Q).
      { apply Qmult_le_compat_r; [exact Hle | lra]. }
      eapply Qle_trans; [|eapply Qle_trans; [exact H|]];
        apply Qle_lteq; right; ring.
Qed.

(** Binary64 addition commutes. *)
Lemma add_comm (x y : number) : add x y = add y x.
Proof.
  unfold add.
  destruct x as [[]|[]| |sx mx ex], y as [[]|[]| |sy my ey]; simpl;
    try reflexivity.
  now rewrite Z.min_comm, Z.add_comm.
Qed.

(** A sum with a fixed non-negative binary64 value grows with the other
    operand. *)
Lemma add_monotone_l (x1 x2 y : number) :
  nonneg x1 = true -> nonneg x2 = true -> (value x1 <= value x2)%Q ->
  nonneg_binary64 y = true ->
  nonneg (add x2 y) = true ->
  nonneg (add x1 y) = true /\ (value (add x1 y) <= value (add x2 y))%Q.
Proof.
  intros H1 H2 Hle Hy Hr2.
  destruct y as [[]| | |[] my ey]; try discriminate.
  { (* y = +0 *)
    destruct x1 as [[]| | |[] m1 e1]; try discriminate;
      destruct x2 as [[]| | |[] m2 e2]; try discriminate;
      (split; [reflexivity | exact Hle]). }
  cbn [nonneg_binary64] in Hy.
  destruct x1 as [[]| | |[] m1 e1]; try discriminate;
    destruct x2 as [[]| | |[] m2 e2]; try discriminate.
  - split; [reflexivity | apply Qle_refl].
  - split; [reflexivity|].
    change (add (S754_zero false) (S754_finite false my ey))
      with (S754_finite false my ey).
    revert Hr2. unfold add, SFadd, Number.prec, Number.emax. cbn [cond_Zopp].
    pose proof (shl_align_spec m2 e2 (Z.min e2 ey)) as Hax.
    pose proof (shl_align_spec my ey (Z.min e2 ey)) as Hay.
    destruct (shl_align m2 e2 (Z.min e2 ey)) as [mx' ex'].
    destruct (shl_align my ey (Z.min e2 ey)) as [my' ey'].
    destruct Hax as (Hex' & Hmx' & _). destruct Hay as (Hey' & Hmy' & _).
    cbn [fst]. intros Hr2.
    assert (Hfar : far false (binary_round 53 1024 false (mx' + my') (Z.min e2 ey))
                     (inject_Z (Zpos my) * 2 ^ ey)).
    { apply binary_round_far; [exact Hy|].
      rewrite (rescale (Zpos my) ey (Z.min e2 ey)) by lia.
      apply Qmult_le_compat_r; [|apply Qlt_le_weak, pow2Q_pos].
      rewrite <- Zle_Qle, Pos2Z.inj_add, Hmy'.
      replace (ey - ey') with (ey - Z.min e2 ey) by lia. lia. }
    change (Zpos mx' + Zpos my') with (Zpos (mx' + my')) in *.
    simpl binary_normalize in *.
    destruct Hfar as [Hinf|(m & e & Hr & Hge)].
    + rewrite Hinf in Hr2. discriminate.
    + rewrite Hr. cbn [value signed cond_Zopp]. exact Hge.
  - exfalso. pose proof (positive_value m1 e1) as Hp.
    cbn [value signed cond_Zopp] in Hle. lra.
  - revert Hr2. unfold add, SFadd, Number.prec, Number.emax. cbn [cond_Zopp].
    pose proof (shl_align_spec m1 e1 (Z.min e1 ey)) as Ha1.
    pose proof (shl_align_spec my ey (Z.min e1 ey)) as Hb1.
    pose proof (shl_align_spec m2 e2 (Z.min e2 ey)) as Ha2.
    pose proof (shl_align_spec my ey (Z.min e2 ey)) as Hb2.
    destruct (shl_align m1 e1 (Z.min e1 ey)) as [m1' e1'].
    destruct (shl_align my ey (Z.min e1 ey)) as [y1' ey1'].
    destruct (shl_align m2 e2 (Z.min e2 ey)) as [m2' e2'].
    destruct (shl_align my ey (Z.min e2 ey)) as [y2' ey2'].
    destruct Ha1 as (He1' & Hm1' & _). destruct Hb1 as (Hey1' & Hy1' & _).
    destruct Ha2 as (He2' & Hm2' & _). destruct Hb2 as (Hey2' & Hy2' & _).
    cbn [fst]. apply binary_normalize_monotone; [lia|].
    cbn [value signed cond_Zopp] in Hle.
    rewrite !inject_Z_plus, Hm1', Hy1', Hm2', Hy2'.
    replace (e1 - e1') with (e1 - Z.min e1 ey) by lia.
    replace (ey - ey1') with (ey - Z.min e1 ey) by lia.
    replace (e2 - e2') with (e2 - Z.min e2 ey) by lia.
    replace (ey - ey2') with (ey - Z.min e2 ey) by lia.
    rewrite !Qmult_plus_distr_l.
    rewrite <- !rescale by lia.
    lra.
Qed.

Lemma add_monotone_r (y x1 x2 : number) :
  nonneg x1 = true -> nonneg x2 = true -> (value x1 <= value x2)%Q ->
  nonneg_binary64 y = true ->
  nonneg (add y x2) = true ->
  nonneg (add y x1) = true /\ (value (add y x1) <= value (add y x2))%Q.
Proof.
  rewrite (add_comm y x1), (add_comm y x2). apply add_monotone_l.
Qed.

(** The complement [1 - p] falls as [p] grows. *)
Lemma sub_one_antitone (p1 p2 : number) :
  positive_finite p1 = true -> positive_finite p2 = true ->
  (value p1 <= value p2)%Q -> (value p2 <= 1)%Q ->
  nonneg (sub (of_Z 1) p1) = true
  /\ nonneg (sub (of_Z 1) p2) = true
  /\ (value (sub (of_Z 1) p2) <= value (sub (of_Z 1) p1))%Q.
Proof.
  intros H1 H2 Hle Hone.
  assert (Hb1 : below p1 1).
  { split; [destruct p1 as [| | |[] m e]; try discriminate; reflexivity | lra]. }
  destruct (sub_one_below p1 Hb1) as [Hnn1 _].
  split; [exact Hnn1|].
  cut (nonneg (sub (of_Z 1) p2) = true
       /\ (value (sub (of_Z 1) p2) <= value (sub (of_Z 1) p1))%Q); [tauto|].
  revert Hnn1.
  change (of_Z 1) with (S754_finite false 4503599627370496 (-52)).
  destruct p1 as [| | |[] m1 e1]; try discriminate.
  destruct p2 as [| | |[] m2 e2]; try discriminate.
  unfold sub, SFsub, Number.prec, Number.emax. cbn [cond_Zopp].
  pose proof (shl_align_spec 4503599627370496 (-52) (Z.min (-52) e1)) as Ha1.
  pose proof (shl_align_spec m1 e1 (Z.min (-52) e1)) as Hb1'.
  pose proof (shl_align_spec 4503599627370496 (-52) (Z.min (-52) e2)) as Ha2.
  pose proof (shl_align_spec m2 e2 (Z.min (-52) e2)) as Hb2'.
  destruct (shl_align 4503599627370496 (-52) (Z.min (-52) e1)) as [o1 z1].
  destruct (shl_align m1 e1 (Z.min (-52) e1)) as [m1' e1'].
  destruct (shl_align 4503599627370496 (-52) (Z.min (-52) e2)) as [o2 z2].
  destruct (shl_align m2 e2 (Z.min (-52) e2)) as [m2' e2'].
  destruct Ha1 as (Hz1 & Ho1 & _). destruct Hb1' as (He1' & Hm1' & _).
  destruct Ha2 as (Hz2 & Ho2 & _). destruct Hb2' as (He2' & Hm2' & _).
  cbn [fst].
  replace (- 52 - z1) with (-52 - Z.min (-52) e1) in Ho1 by lia.
  replace (e1 - e1') with (e1 - Z.min (-52) e1) in Hm1' by lia.
  replace (- 52 - z2) with (-52 - Z.min (-52) e2) in Ho2 by lia.
  replace (e2 - e2') with (e2 - Z.min (-52) e2) in Hm2' by lia.
  cbn [value signed cond_Zopp] in Hle, Hone.
  assert (Hunit : (1 == inject_Z (Zpos 4503599627370496) * 2 ^ (-52))%Q)
    by reflexivity.
  assert (Hord : Zpos m2' <= Zpos o2).
  { rewrite Hm2', Ho2.
    apply (scaled_Qle _ _ _ _ (Z.min (-52) e2)); [lia | lia |].
    now rewrite <- Hunit. }
  intros Hnn1. apply binary_normalize_monotone; [lia | | exact Hnn1].
  assert (Hdiff : forall a b c : Z,
            (inject_Z (a - b) * 2 ^ c
             == inject_Z a * 2 ^ c - inject_Z b * 2 ^ c)%Q).
  { intros a b c. unfold Z.sub. rewrite inject_Z_plus, inject_Z_opp. ring. }
  rewrite !Hdiff, Ho1, Hm1', Ho2, Hm2'.
  rewrite <- !rescale by lia.
  rewrite <- Hunit. lra.
Qed.

(** *** [Math.round] *)

(** [k <= floor (v + 1/2)] as soon as [k - 1/2 <= v]. *)
Lemma round_half_up_ge_half (s : bool) (m : positive) (e k : Z) :
  (inject_Z k - (1 # 2) <= value (S754_finite s m e))%Q ->
  k <= round_half_up s m e.
Proof.
  intros Hle.
  destruct (Z_le_gt_dec k (round_half_up s m e)) as [|Hgt]; [assumption|exfalso].
  assert (Hlt : (value (S754_finite s m e) < inject_Z (k - 1) + (1 # 2))%Q ->
                round_half_up s m e <= k - 1)
    by apply round_half_up_le.
  revert Hle Hgt Hlt. cbn [value]. set (z := signed s m).
  unfold round_half_up. fold z. destruct (0 <=? e) eqn:He.
  - apply Z.leb_le in He. intros Hle Hgt _.
    rewrite <- pow2Q_of_Z, <- inject_Z_mult in Hle by lia.
    assert (k <= z * 2 ^ e); [|lia].
    apply Z_le_half. lra.
  - apply Z.leb_gt in He. intros Hle Hgt _.
    assert (Hform : (inject_Z k - (1 # 2) == inject_Z (2 * k - 1) * 2 ^ (-1))%Q).
    { unfold Z.sub. rewrite inject_Z_plus, inject_Z_mult.
      change (2 ^ (-1))%Q with (1 # 2)%Q.
      change (inject_Z 2) with 2%Q. change (inject_Z (- (1))) with (-1)%Q. field. }
    rewrite Hform in Hle.
    apply (scaled_Qle _ _ _ _ e) in Hle; try lia.
    rewrite Z.sub_diag, Z.mul_1_r in Hle.
    pose proof (pow2_pos (-1 - e) ltac:(lia)) as HW.
    assert (H1 : 2 ^ (- e) = 2 * 2 ^ (-1 - e)).
    { replace (- e) with (1 + (-1 - e)) by lia. now rewrite pow2_split by lia. }
    assert (H2 : 2 ^ (1 - e) = 4 * 2 ^ (-1 - e)).
    { replace (1 - e) with (2 + (-1 - e)) by lia. now rewrite pow2_split by lia. }
    rewrite H1, H2 in Hgt. set (W := 2 ^ (-1 - e)) in *.
    assert (k <= (2 * z + 2 * W) / (4 * W)); [|lia].
    apply Z.div_le_lower_bound; [lia|]. nia.
Qed.

Lemma round_half_up_monotone (s1 s2 : bool) (m1 m2 : positive) (e1 e2 : Z) :
  (value (S754_finite s1 m1 e1) <= value (S754_finite s2 m2 e2))%Q ->
  round_half_up s1 m1 e1 <= round_half_up s2 m2 e2.
Proof.
  intros Hle. apply round_half_up_ge_half.
  set (k := round_half_up s1 m1 e1).
  destruct (Qlt_le_dec (value (S754_finite s1 m1 e1)) (inject_Z (k - 1) + (1 # 2)))
    as [Hlt|Hge].
  - apply round_half_up_le in Hlt. fold k in Hlt. lia.
  - unfold Z.sub in Hge. rewrite inject_Z_plus in Hge.
    change (inject_Z (- (1))) with (-1)%Q in Hge. lra.
Qed.

(** [Math.round] keeps the order of non-negative numbers. *)
Lemma Math_round_monotone (x1 x2 : number) (k : Z) :
  nonneg x1 = true -> nonneg x2 = true -> (value x1 <= value x2)%Q ->
  (value x2 < inject_Z k + (1 # 2))%Q ->
  exists j1 j2,
    Math_round x1 = of_Z j1 /\ Math_round x2 = of_Z j2
    /\ 0 <= j1 <= j2 /\ j2 <= k.
Proof.
  intros H1 H2 Hle Hk.
  assert (Hround : forall m e,
            Math_round (S754_finite false m e) = of_Z (round_half_up false m e)
            /\ 0 <= round_half_up false m e).
  { intros m e. split.
    - unfold Math_round. destruct (round_half_up false m e =? 0) eqn:Hn;
        [|reflexivity].
      apply Z.eqb_eq in Hn. now rewrite Hn.
    - apply round_half_up_ge. change (inject_Z 0) with 0%Q.
      apply Qlt_le_weak, positive_value. }
  destruct x1 as [[]| | |[] m1 e1]; try discriminate;
    destruct x2 as [[]| | |[] m2 e2]; try discriminate.
  - exists 0, 0. repeat split; try lia.
    change (value (S754_zero false)) with 0%Q in Hk.
    assert (Hlt : (inject_Z (-1) < inject_Z k)%Q).
    { change (inject_Z (-1)) with (-1)%Q. lra. }
    rewrite <- Zlt_Qlt in Hlt. lia.
  - destruct (Hround m2 e2) as [Hr Hp].
    exists 0, (round_half_up false m2 e2).
    repeat split; [exact Hr | lia | exact Hp | now apply round_half_up_le].
  - exfalso. pose proof (positive_value m1 e1) as Hp.
    cbn [value signed cond_Zopp] in Hle. lra.
  - destruct (Hround m1 e1) as [Hr1 Hp1]. destruct (Hround m2 e2) as [Hr2 Hp2].
    exists (round_half_up false m1 e1), (round_half_up false m2 e2).
    repeat split; [exact Hr1 | exact Hr2 | exact Hp1 | | now apply round_half_up_le].
    now apply round_half_up_monotone.
Qed.

Lemma of_Z_leb_nonneg (i j : Z) :
  0 <= i -> i <= j -> j < 2 ^ 53 -> leb (of_Z i) (of_Z j) = true.
Proof.
  intros Hi Hij Hj.
  destruct (Z.eq_dec i 0) as [->|Hi0]; [|apply of_Z_leb; lia].
  destruct (Z.eq_dec j 0) as [->|Hj0]; [reflexivity|].
  destruct (of_Z_exact j ltac:(lia)) as (mj & ej & -> & _). reflexivity.
Qed.

(* ================================================================== *)
(** ** The classifier and the score *)

(** The products of the sub-scores with their weights are binary64
    values. *)
Lemma product_binary64 (n : Z) :
  0 <= n <= 100 ->
  nonneg_binary64 (mul (of_Z n) lit_0_3) = true
  /\ nonneg_binary64 (mul (of_Z n) lit_0_2) = true.
Proof.
  intros Hn.
  pose proof (forall_upto
                (fun n => nonneg_binary64 (mul (of_Z n) lit_0_3)
                          && nonneg_binary64 (mul (of_Z n) lit_0_2))
                101 ltac:(vm_compute; reflexivity) n ltac:(lia)) as H.
  now apply andb_true_iff in H.
Qed.

(** The weighted sum grows with the sentiment term. *)
Lemma weighted_sum_monotone (l f s : Z) (a1 a2 : number) :
  0 <= l <= 100 -> 0 <= f <= 100 -> 0 <= s <= 100 ->
  nonneg a1 = true -> below a2 (value ub_100) -> (value a1 <= value a2)%Q ->
  nonneg (weighted_sum (of_Z l) a1 (of_Z f) (of_Z s)) = true
  /\ below (weighted_sum (of_Z l) a2 (of_Z f) (of_Z s)) (value ub_sum)
  /\ (value (weighted_sum (of_Z l) a1 (of_Z f) (of_Z s))
      <= value (weighted_sum (of_Z l) a2 (of_Z f) (of_Z s)))%Q.
Proof.
  intros Hl Hf Hs Ha1 Ha2 Hle.
  destruct (product_binary64 l Hl) as [HL _].
  destruct (product_binary64 f Hf) as [HF _].
  destruct (product_binary64 s Hs) as [_ HS].
  pose proof (weighted_sum_below l f s a2 Hl Hf Hs Ha2) as Hsum.
  revert HL HF HS Hsum. unfold weighted_sum, lit_0_3, lit_0_2.
  set (c3 := S754_finite false 5404319552844595 (-54)).
  set (c2 := S754_finite false 7205759403792794 (-55)).
  intros HL HF HS Hsum.
  assert (H3 : forall n, 0 <= n <= 100 -> below (mul (of_Z n) c3) (value ub_30)).
  { intros n Hn. apply (mul_below _ (value ub_100));
      [now apply score_below | vm_compute; discriminate | reflexivity
       | closed_Qle]. }
  assert (H2 : forall x, below x (value ub_100) -> below (mul x c2) (value ub_20)).
  { intros x Hx. apply (mul_below _ (value ub_100));
      [exact Hx | vm_compute; discriminate | reflexivity | closed_Qle]. }
  assert (HT2 : below (mul a2 c2) (value ub_20)) by now apply H2.
  assert (H12 : below (add (mul (of_Z l) c3) (mul a2 c2)) (value ub_50)).
  { apply (add_below _ _ (value ub_30) (value ub_20));
      [now apply H3 | exact HT2 | reflexivity | closed_Qle]. }
  assert (H22 : below (add (add (mul (of_Z l) c3) (mul a2 c2)) (mul (of_Z f) c3))
                  (value ub_80)).
  { apply (add_below _ _ (value ub_50) (value ub_30));
      [exact H12 | now apply H3 | reflexivity | closed_Qle]. }
  destruct (mul_monotone a1 a2 7205759403792794 (-55) Ha1 (proj1 Ha2) Hle
              ltac:(vm_compute; discriminate) (proj1 HT2)) as [HT1 HleT].
  fold c2 in HT1, HleT.
  destruct (add_monotone_r (mul (of_Z l) c3) _ _ HT1 (proj1 HT2) HleT HL
              (proj1 H12)) as [H11 Hle1].
  destruct (add_monotone_l _ _ (mul (of_Z f) c3) H11 (proj1 H12) Hle1 HF
              (proj1 H22)) as [H21 Hle2].
  destruct (add_monotone_l _ _ (mul (of_Z s) c2) H21 (proj1 H22) Hle2 HS
              (proj1 Hsum)) as [H31 Hle3].
  split; [exact H31|]. split; [exact Hsum | exact Hle3].
Qed.

(** The rounded weighted sums of two ordered sentiment terms. *)
Lemma rounded_sum_monotone (l f s : Z) (a1 a2 : number) :
  0 <= l <= 100 -> 0 <= f <= 100 -> 0 <= s <= 100 ->
  nonneg a1 = true -> below a2 (value ub_100) -> (value a1 <= value a2)%Q ->
  exists j1 j2,
    Math_round (weighted_sum (of_Z l) a1 (of_Z f) (of_Z s)) = of_Z j1
    /\ Math_round (weighted_sum (of_Z l) a2 (of_Z f) (of_Z s)) = of_Z j2
    /\ 0 <= j1 <= j2 /\ j2 <= 100.
Proof.
  intros Hl Hf Hs Ha1 Ha2 Hle.
  destruct (weighted_sum_monotone l f s a1 a2 Hl Hf Hs Ha1 Ha2 Hle)
    as (H1 & [H2 Hb] & Hsum).
  apply Math_round_monotone; [exact H1 | exact H2 | exact Hsum |].
  eapply Qle_lt_trans; [exact Hb|]. vm_compute. reflexivity.
Qed.

(** A truthy probability of [[0,1]]. *)
Lemma probability_positive (p : number) :
  between 0 1 p -> truthy p = true ->
  positive_finite p = true /\ (value p <= 1)%Q.
Proof.
  intros Hp Ht. destruct (probability_below p Hp Ht) as [Hnn Hle].
  split; [|exact Hle].
  destruct p as [[]| | |[] m e]; try discriminate; reflexivity.
Qed.

Lemma positive_finite_nonneg (x : number) :
  positive_finite x = true -> nonneg x = true.
Proof. destruct x as [| | |[] m e]; try discriminate; reflexivity. Qed.

(** X21. The score follows the classifier's probability.  Of two truthy
    probabilities [p1 <= p2] of [[0,1]] under the same label, [p2] gives a
    credibility score at least as high as [p1], and at most as high when
    the label is 'NEGATIVE', although every step of the weighted sum is
    rounded to binary64; the displayed sentiment factor grows with the
    probability under every label.  A probability of exactly 0 is outside
    this order: it is scored as 0.5. *)
Theorem score_follows_the_probability (t : text) (l : string) (p1 p2 : number) :
  between 0 1 p1 -> between 0 1 p2 -> truthy p1 = true -> leb p1 p2 = true ->
  let credibility p := credibilityScore (analyzeWith [entry l p] t) in
  let shown p := sentimentAnalysis (factors (analyzeWith [entry l p] t)) in
  (if String.eqb l "NEGATIVE"
   then leb (credibility p2) (credibility p1) = true
   else leb (credibility p1) (credibility p2) = true)
  /\ leb (shown p1) (shown p2) = true
  /\ credibility (S754_zero false) = credibility lit_0_5.
Proof.
  intros Hp1 Hp2 Ht1 Hle credibility shown.
  split; [|split; [|reflexivity]]; cycle 1.
  { destruct (probability_positive p1 Hp1 Ht1) as [Hpos1 Hone1].
    assert (Ht2 : truthy p2 = true).
    { destruct p1 as [| | |[] m1 e1]; try discriminate.
      destruct p2 as [[]|[]| |[] m2 e2]; try reflexivity; discriminate. }
    destruct (probability_positive p2 Hp2 Ht2) as [Hpos2 Hone2].
    assert (Hv : (value p1 <= value p2)%Q).
    { apply leb_value; [| |exact Hle];
        now apply nonneg_finite, positive_finite_nonneg. }
    assert (Hs : forall p, truthy p = true ->
              shown p = Math_round (mul p (of_Z 100))).
    { intros p Hp. unfold shown, analyzeWith. cbv zeta.
      cbn [factors sentimentAnalysis entry score]. now rewrite Hp. }
    rewrite (Hs p1 Ht1), (Hs p2 Ht2).
    assert (Hb2 : below p2 1)
      by (split; [now apply positive_finite_nonneg | exact Hone2]).
    pose proof (adjusted_below false p2 Hb2) as Ha2. cbv iota in Ha2.
    revert Ha2. change (of_Z 100) with (S754_finite false 7036874417766400 (-46)).
    intros Ha2.
    destruct (mul_monotone _ _ 7036874417766400 (-46)
                (positive_finite_nonneg p1 Hpos1) (positive_finite_nonneg p2 Hpos2)
                Hv ltac:(vm_compute; discriminate) (proj1 Ha2)) as [Hm Hmle].
    destruct (Math_round_monotone _ _ 100 Hm (proj1 Ha2) Hmle)
      as (j1 & j2 & -> & -> & Hj & Hj2).
    { eapply Qle_lt_trans; [exact (proj2 Ha2)|]. vm_compute. reflexivity. }
    apply of_Z_leb_nonneg; lia. }
  destruct (probability_positive p1 Hp1 Ht1) as [Hpos1 Hone1].
  assert (Ht2 : truthy p2 = true).
  { destruct p1 as [| | |[] m1 e1]; try discriminate.
    destruct p2 as [[]|[]| |[] m2 e2]; try reflexivity; discriminate. }
  destruct (probability_positive p2 Hp2 Ht2) as [Hpos2 Hone2].
  assert (Hv : (value p1 <= value p2)%Q).
  { apply leb_value; [| |exact Hle];
      now apply nonneg_finite, positive_finite_nonneg. }
  pose proof (analyzeLanguagePatterns_range t) as Hl.
  pose proof (analyzeFactualConsistency_range t) as Hf.
  pose proof (analyzeSourceReliability_range t) as Hs.
  assert (Hc : forall p, truthy p = true ->
            credibility p
            = Math_round
                (weighted_sum (of_Z (analyzeLanguagePatterns t))
                   (if String.eqb l "NEGATIVE"
                    then mul (sub (of_Z 1) p) (of_Z 100)
                    else mul p (of_Z 100))
                   (of_Z (analyzeFactualConsistency t))
                   (of_Z (analyzeSourceReliability t)))).
  { intros p Hp. unfold credibility. rewrite analyzeWith_credibilityScore.
    cbn [isNegative_of sentimentScore_of entry label score]. now rewrite Hp. }
  rewrite (Hc p1 Ht1), (Hc p2 Ht2).
  assert (Hleb : forall a1 a2,
            nonneg a1 = true -> below a2 (value ub_100) ->
            (value a1 <= value a2)%Q ->
            leb (Math_round
                   (weighted_sum (of_Z (analyzeLanguagePatterns t)) a1
                      (of_Z (analyzeFactualConsistency t))
                      (of_Z (analyzeSourceReliability t))))
                (Math_round
                   (weighted_sum (of_Z (analyzeLanguagePatterns t)) a2
                      (of_Z (analyzeFactualConsistency t))
                      (of_Z (analyzeSourceReliability t)))) = true).
  { intros a1 a2 Ha1 Ha2 Ha.
    destruct (rounded_sum_monotone _ _ _ a1 a2 Hl Hf Hs Ha1 Ha2 Ha)
      as (j1 & j2 & -> & -> & Hj & Hj2).
    apply of_Z_leb_nonneg; lia. }
  assert (Hb1 : below p1 1) by (split; [now apply positive_finite_nonneg | exact Hone1]).
  assert (Hb2 : below p2 1) by (split; [now apply positive_finite_nonneg | exact Hone2]).
  destruct (String.eqb l "NEGATIVE").
  - destruct (sub_one_antitone p1 p2 Hpos1 Hpos2 Hv Hone2) as (Hn1 & Hn2 & Hsub).
    pose proof (adjusted_below true p1 Hb1) as Ha1. cbv iota in Ha1.
    revert Ha1. change (of_Z 100) with (S754_finite false 7036874417766400 (-46)).
    intros Ha1.
    destruct (mul_monotone _ _ 7036874417766400 (-46) Hn2 Hn1 Hsub
                ltac:(vm_compute; discriminate) (proj1 Ha1)) as [Hm Hmle].
    now apply Hleb.
  - pose proof (adjusted_below false p2 Hb2) as Ha2. cbv iota in Ha2.
    revert Ha2. change (of_Z 100) with (S754_finite false 7036874417766400 (-46)).
    intros Ha2.
    destruct (mul_monotone _ _ 7036874417766400 (-46)
                (positive_finite_nonneg p1 Hpos1) (positive_finite_nonneg p2 Hpos2)
                Hv ltac:(vm_compute; discriminate) (proj1 Ha2)) as [Hm Hmle].
    now apply Hleb.
Qed.

Lemma score_follows_the_probability_witness :
  between 0 1 lit_0_5 /\ between 0 1 (of_Z 1)
  /\ leb lit_0_5 (of_Z 1) = true
  /\ credibilityScore (analyzeWith [entry "POSITIVE" lit_0_5] shocking) = of_Z 47
  /\ credibilityScore (analyzeWith [entry "POSITIVE" (of_Z 1)] shocking) = of_Z 57
  /\ leb (credibilityScore (analyzeWith [entry "POSITIVE" lit_0_5] shocking))
         (credibilityScore (analyzeWith [entry "POSITIVE" (of_Z 1)] shocking))
     = true.
Proof.
  assert (H1 : between 0 1 lit_0_5) by (split; reflexivity).
  assert (H2 : between 0 1 (of_Z 1)) by (split; reflexivity).
  split; [exact H1|]. split; [exact H2|]. split; [reflexivity|].
  split; [vm_compute; reflexivity|]. split; [vm_compute; reflexivity|].
  exact (proj1 (score_follows_the_probability shocking "POSITIVE" lit_0_5 (of_Z 1)
                  H1 H2 eq_refl eq_refl)).
Defined.

Lemma language_at_most_80 (t : text) : 0 <= analyzeLanguagePatterns t <= 80.
Proof.
  pose proof (analyzeLanguagePatterns_range t).
  pose proof (analyzeLanguagePatterns_le t).
  destruct (gtb (capsRatio t) lit_0_3), (test punctuation_run_re t),
    (test clickbait_risk_re t); lia.
Qed.

Lemma ends_checked (language factual source : Z) :
  0 <= language <= 80 -> 0 <= factual <= 15 -> 0 <= source <= 20 ->
  low_check language factual source = true
  /\ high_check language factual source = true.
Proof.
  intros Hl Hf Hs.
  pose proof (forall_upto
                (fun l => forallb
                            (fun f => forallb
                                        (fun s => low_check l f s && high_check l f s)
                                        (map Z.of_nat (seq 0 21)))
                            (map Z.of_nat (seq 0 16)))
                81 ltac:(vm_compute; reflexivity) language ltac:(lia)) as H.
  cbv beta in H. rewrite forallb_forall in H.
  specialize (H factual (In_upto factual 16 ltac:(lia))).
  rewrite forallb_forall in H.
  specialize (H source (In_upto source 21 ltac:(lia))).
  now apply andb_true_iff in H.
Qed.

(** The score at the two ends of the sentiment term. *)
Lemma ends_credibility (t : text) :
  let base :=
    neutral_score (analyzeLanguagePatterns t) (analyzeFactualConsistency t)
      (analyzeSourceReliability t) in
  Math_round
    (weighted_sum (of_Z (analyzeLanguagePatterns t)) (S754_zero false)
       (of_Z (analyzeFactualConsistency t)) (of_Z (analyzeSourceReliability t)))
  = of_Z (base - 10)
  /\ Math_round
       (weighted_sum (of_Z (analyzeLanguagePatterns t)) (of_Z 100)
          (of_Z (analyzeFactualConsistency t)) (of_Z (analyzeSourceReliability t)))
     = of_Z (base + 10)
  /\ 10 <= base <= 77.
Proof.
  cbv zeta. pose proof (language_at_most_80 t) as Hl.
  destruct (analyzeFactualConsistency_fives t) as (f & Hf & ->).
  destruct (analyzeSourceReliability_fives t) as (s & Hs & ->).
  destruct (ends_checked (analyzeLanguagePatterns t) f s Hl Hf Hs) as [Hlo Hhi].
  split; [apply same_eq; exact Hlo|]. split; [apply same_eq; exact Hhi|].
  unfold neutral_score. split; [apply Z.div_le_lower_bound; lia|].
  assert (H78 : (3 * analyzeLanguagePatterns t + 100 + 3 * (5 * f)
                 + 2 * (5 * s) + 5) / 10 < 78)
    by (apply Z.div_lt_upper_bound; lia).
  lia.
Qed.

(** The range of the score around the neutral score of the text. *)
Lemma credibility_range
  (sentimentResult : list SentimentEntry) (t : text) :
  probability_answer sentimentResult ->
  let base :=
    neutral_score (analyzeLanguagePatterns t) (analyzeFactualConsistency t)
      (analyzeSourceReliability t) in
  (exists j,
      credibilityScore (analyzeWith sentimentResult t) = of_Z j
      /\ base - 10 <= j <= base + 10)
  /\ credibilityScore (analyzeWith [entry "POSITIVE" (of_Z 1)] t) = of_Z (base + 10)
  /\ credibilityScore (analyzeWith [entry "NEGATIVE" (of_Z 1)] t) = of_Z (base - 10).
Proof.
  intros Hp base.
  destruct (ends_credibility t) as (Hlo & Hhi & Hbase). fold base in Hlo, Hhi, Hbase.
  pose proof (analyzeLanguagePatterns_range t) as Hl.
  pose proof (analyzeFactualConsistency_range t) as Hf.
  pose proof (analyzeSourceReliability_range t) as Hs.
  split; [|split].
  - rewrite analyzeWith_credibilityScore.
    set (a := if isNegative_of sentimentResult
              then mul (sub (of_Z 1) (sentimentScore_of sentimentResult)) (of_Z 100)
              else mul (sentimentScore_of sentimentResult) (of_Z 100)).
    assert (Ha : below a (value ub_100)).
    { apply adjusted_below. now apply sentimentScore_below. }
    destruct (rounded_sum_monotone _ _ _ (S754_zero false) a Hl Hf Hs eq_refl Ha
                (nonneg_value a (proj1 Ha)))
      as (j1 & j2 & E1 & E2 & Hj12 & Hj2).
    destruct (rounded_sum_monotone _ _ _ a (of_Z 100) Hl Hf Hs (proj1 Ha)
                (score_below 100 ltac:(lia)) (proj2 Ha))
      as (j2' & j3 & E2' & E3 & Hj23 & Hj3).
    rewrite E2. exists j2. split; [reflexivity|].
    rewrite E1 in Hlo. rewrite E3 in Hhi. rewrite E2 in E2'.
    apply of_Z_small_inj in Hlo; [|lia|lia].
    apply of_Z_small_inj in Hhi; [|lia|lia].
    apply of_Z_small_inj in E2'; [|lia|lia].
    lia.
  - rewrite analyzeWith_credibilityScore. exact Hhi.
  - rewrite analyzeWith_credibilityScore. exact Hlo.
Qed.

(** X22. The classifier moves the score by at most ten points.  With
    [base] the neutral score of the text,
    [floor((3*language + 100 + 3*factual + 2*source + 5) / 10)], every
    answer with a probability in [[0,1]] gives a credibility score from
    [base - 10] to [base + 10]; 'POSITIVE' with probability 1 gives
    [base + 10], 'NEGATIVE' with probability 1 gives [base - 10]. *)
Theorem classifier_moves_score_by_at_most_10
  (sentimentResult : list SentimentEntry) (t : text) :
  probability_answer sentimentResult ->
  let base :=
    neutral_score (analyzeLanguagePatterns t) (analyzeFactualConsistency t)
      (analyzeSourceReliability t) in
  (exists j,
      credibilityScore (analyzeWith sentimentResult t) = of_Z j
      /\ base - 10 <= j <= base + 10)
  /\ credibilityScore (analyzeWith [entry "POSITIVE" (of_Z 1)] t) = of_Z (base + 10)
  /\ credibilityScore (analyzeWith [entry "NEGATIVE" (of_Z 1)] t) = of_Z (base - 10).
Proof. exact (credibility_range sentimentResult t). Qed.

Lemma classifier_moves_score_by_at_most_10_witness :
  probability_answer [entry "NEGATIVE" lit_0_5]
  /\ neutral_score (analyzeLanguagePatterns shocking)
       (analyzeFactualConsistency shocking) (analyzeSourceReliability shocking) = 47
  /\ credibilityScore (analyzeWith [entry "POSITIVE" (of_Z 1)] shocking) = of_Z 57
  /\ credibilityScore (analyzeWith [entry "NEGATIVE" (of_Z 1)] shocking) = of_Z 37.
Proof.
  assert (Hp : probability_answer [entry "NEGATIVE" lit_0_5]) by (split; reflexivity).
  split; [exact Hp|]. split; [vm_compute; reflexivity|].
  exact (proj2 (classifier_moves_score_by_at_most_10
                  [entry "NEGATIVE" lit_0_5] shocking Hp)).
Defined.

(** The classification of a result whose score lies in the range. *)
Lemma classification_in_range (sentimentResult : list SentimentEntry) (t : text) :
  probability_answer sentimentResult ->
  let base :=
    neutral_score (analyzeLanguagePatterns t) (analyzeFactualConsistency t)
      (analyzeSourceReliability t) in
  exists j,
    base - 10 <= j <= base + 10 /\ 0 <= j <= 100
    /\ classification (analyzeWith sentimentResult t)
       = (if 75 <=? j then trustworthy
          else if j <=? 40 then misleading else uncertain).
Proof.
  intros Hp base.
  destruct (credibility_range sentimentResult t Hp) as ((j & Hj & Hrange) & _).
  fold base in Hrange.
  destruct (ends_credibility t) as (_ & _ & Hbase). fold base in Hbase.
  exists j. split; [exact Hrange|]. split; [lia|].
  rewrite classification_normal, Hj. apply classify_integer. lia.
Qed.

Lemma one_is_a_probability (l : string) : probability_answer [entry l (of_Z 1)].
Proof. split; reflexivity. Qed.

(** X23. When the classification does not depend on the classifier.  All
    answers with a probability in [[0,1]] lead to the same classification
    exactly when the neutral score of the text is at most 30, and the text
    is then 'misleading', or from 51 to 64, and the text is then
    'uncertain'.  No text is 'trustworthy' by itself: a 'NEGATIVE' answer
    of probability 1 never gives 'trustworthy'. *)
Theorem classification_needs_the_classifier (t : text) :
  let base :=
    neutral_score (analyzeLanguagePatterns t) (analyzeFactualConsistency t)
      (analyzeSourceReliability t) in
  ((forall answer answer',
       probability_answer answer -> probability_answer answer' ->
       classification (analyzeWith answer t)
       = classification (analyzeWith answer' t))
   <-> base <= 30 \/ 51 <= base <= 64)
  /\ (base <= 30 ->
      forall answer, probability_answer answer ->
        classification (analyzeWith answer t) = misleading)
  /\ (51 <= base <= 64 ->
      forall answer, probability_answer answer ->
        classification (analyzeWith answer t) = uncertain)
  /\ classification (analyzeWith [entry "NEGATIVE" (of_Z 1)] t) <> trustworthy.
Proof.
  intros base.
  destruct (ends_credibility t) as (_ & _ & Hbase). fold base in Hbase.
  assert (Hend : forall l,
            classification (analyzeWith [entry l (of_Z 1)] t)
            = classify (credibilityScore (analyzeWith [entry l (of_Z 1)] t)))
    by (intros l; apply classification_normal).
  destruct (credibility_range [] t I) as (_ & Hhi & Hlo).
  fold base in Hhi, Hlo.
  pose proof (Hend "POSITIVE") as Hpos. rewrite Hhi, classify_integer in Hpos by lia.
  pose proof (Hend "NEGATIVE") as Hneg. rewrite Hlo, classify_integer in Hneg by lia.
  assert (Hlow : base <= 30 ->
            forall answer, probability_answer answer ->
              classification (analyzeWith answer t) = misleading).
  { intros Hb answer Hp.
    destruct (classification_in_range answer t Hp) as (j & Hj & _ & ->).
    fold base in Hj.
    destruct (Z.leb_spec 75 j); [lia|]. destruct (Z.leb_spec j 40); [reflexivity|lia]. }
  assert (Hmid : 51 <= base <= 64 ->
            forall answer, probability_answer answer ->
              classification (analyzeWith answer t) = uncertain).
  { intros Hb answer Hp.
    destruct (classification_in_range answer t Hp) as (j & Hj & _ & ->).
    fold base in Hj.
    destruct (Z.leb_spec 75 j); [lia|]. destruct (Z.leb_spec j 40); [lia|reflexivity]. }
  split; [|split; [exact Hlow|split; [exact Hmid|]]].
  - split.
    + intros Hsame.
      specialize (Hsame _ _ (one_is_a_probability "POSITIVE")
                    (one_is_a_probability "NEGATIVE")).
      rewrite Hpos, Hneg in Hsame.
      destruct (Z.leb_spec 75 (base + 10)), (Z.leb_spec (base + 10) 40),
        (Z.leb_spec 75 (base - 10)), (Z.leb_spec (base - 10) 40);
        try discriminate Hsame; lia.
    + intros [Hb|Hb] answer answer' Hp Hp'.
      * now rewrite (Hlow Hb answer Hp), (Hlow Hb answer' Hp').
      * now rewrite (Hmid Hb answer Hp), (Hmid Hb answer' Hp').
  - rewrite Hneg.
    destruct (Z.leb_spec 75 (base - 10)); [lia|].
    destruct (Z.leb_spec (base - 10) 40); discriminate.
Qed.

(** X24. Flagged texts are not 'trustworthy'.  With a probability in
    [[0,1]], a result that carries both 'Suspicious language patterns
    detected' and 'Lack of factual substantiation', or the three of
    'Clickbait-style language', 'Excessive capitalization' and 'Excessive
    punctuation', is never classified 'trustworthy', whatever the
    classifier answers. *)
Theorem flagged_texts_are_never_trustworthy
  (sentimentResult : list SentimentEntry) (t : text) :
  probability_answer sentimentResult ->
  let r := analyzeWith sentimentResult t in
  (In "Suspicious language patterns detected" (riskFactors r) ->
   In "Lack of factual substantiation" (riskFactors r) ->
   classification r <> trustworthy)
  /\ (In "Clickbait-style language" (riskFactors r) ->
      In "Excessive capitalization" (riskFactors r) ->
      In "Excessive punctuation" (riskFactors r) ->
      classification r <> trustworthy).
Proof.
  intros Hp r. unfold r. clear r.
  destruct (classification_in_range sentimentResult t Hp) as (j & Hj & _ & ->).
  rewrite analyzeWith_riskFactors, identifyRiskFactors_selected, !selected_In.
  pose proof (analyzeLanguagePatterns_range t) as Hlr.
  pose proof (analyzeLanguagePatterns_le t) as Hle.
  pose proof (analyzeFactualConsistency_range t) as Hfr.
  pose proof (analyzeSourceReliability_range t) as Hsr.
  unfold neutral_score in Hj.
  set (l := analyzeLanguagePatterns t) in *.
  set (f := analyzeFactualConsistency t) in *.
  set (s := analyzeSourceReliability t) in *.
  assert (Hnot : j < 75 ->
            (if 75 <=? j then trustworthy
             else if j <=? 40 then misleading else uncertain) <> trustworthy).
  { intros Hlt. destruct (Z.leb_spec 75 j); [lia|].
    destruct (j <=? 40); discriminate. }
  split.
  - intros Hl Hf. apply Hnot.
    assert (Hl50 : l < 50).
    { unfold risk_checks, In in Hl.
      repeat (destruct Hl as [Hl|Hl]; [try discriminate Hl|]); try contradiction.
      injection Hl as Hl. now apply Z.ltb_lt. }
    assert (Hf50 : f < 50).
    { unfold risk_checks, In in Hf.
      repeat (destruct Hf as [Hf|Hf]; [try discriminate Hf|]); try contradiction.
      injection Hf as Hf. now apply Z.ltb_lt. }
    assert ((3 * l + 100 + 3 * f + 2 * s + 5) / 10 < 65)
      by (apply Z.div_lt_upper_bound; lia).
    lia.
  - intros Hclick Hcaps Hpunct. apply Hnot.
    assert (Hl35 : l <= 35).
    { unfold risk_checks, In in Hclick, Hcaps, Hpunct.
      repeat (destruct Hclick as [Hclick|Hclick]; [try discriminate Hclick|]);
        try contradiction.
      repeat (destruct Hcaps as [Hcaps|Hcaps]; [try discriminate Hcaps|]);
        try contradiction.
      repeat (destruct Hpunct as [Hpunct|Hpunct]; [try discriminate Hpunct|]);
        try contradiction.
      injection Hclick as Hclick. injection Hcaps as Hcaps.
      injection Hpunct as Hpunct.
      rewrite Hclick, Hcaps, Hpunct in Hle. lia. }
    pose proof (analyzeFactualConsistency_le t) as Hfe. fold f in Hfe.
    assert (f <= 75) by (destruct (test conspiracy_risk_re t); lia).
    assert ((3 * l + 100 + 3 * f + 2 * s + 5) / 10 < 65)
      by (apply Z.div_lt_upper_bound; lia).
    lia.
Qed.

Lemma flagged_texts_are_never_trustworthy_witness :
  let t := js "SHOCKING!! AMAZING!! You won't believe it: they always never tell everyone the hidden truth" in
  let r := analyzeWith [entry "POSITIVE" (of_Z 1)] t in
  probability_answer [entry "POSITIVE" (of_Z 1)]
  /\ In "Suspicious language patterns detected" (riskFactors r)
  /\ In "Lack of factual substantiation" (riskFactors r)
  /\ classification r <> trustworthy.
Proof.
  intros t r.
  assert (Hp : probability_answer [entry "POSITIVE" (of_Z 1)])
    by (split; reflexivity).
  assert (H1 : In "Suspicious language patterns detected" (riskFactors r))
    by (vm_compute; tauto).
  assert (H2 : In "Lack of factual substantiation" (riskFactors r))
    by (vm_compute; tauto).
  split; [exact Hp|]. split; [exact H1|]. split; [exact H2|].
  exact (proj1 (flagged_texts_are_never_trustworthy
                  [entry "POSITIVE" (of_Z 1)] t Hp) H1 H2).
Defined.
(* ================================================================== *)
(** ** The detector component *)

Import FakeNewsDetector.

Lemma trimStart_nil (t : text) :
  trimStart t = [] <-> forallb white_space t = true.
Proof.
  induction t as [|c t IH]; cbn [trimStart forallb]; [tauto|].
  destruct (white_space c); cbn [andb]; [exact IH|].
  split; discriminate.
Qed.

Lemma trimStart_blank (t : text) :
  forallb white_space (trimStart t) = true -> trimStart t = [].
Proof.
  induction t as [|c t IH]; cbn [trimStart]; [reflexivity|].
  destruct (white_space c) eqn:Hc; [exact IH|].
  cbn [forallb]. rewrite Hc. discriminate.
Qed.

Lemma forallb_rev {A : Type} (p : A -> bool) (l : list A) :
  forallb p (rev l) = forallb p l.
Proof.
  induction l as [|a l IH]; [reflexivity|].
  cbn [rev forallb]. rewrite forallb_app, IH. cbn [forallb].
  rewrite andb_true_r. apply andb_comm.
Qed.

(** [trim] leaves nothing exactly of the texts made of white space only. *)
Lemma trim_nil (t : text) :
  trim t = [] <-> forallb white_space t = true.
Proof.
  unfold trim, trimEnd. split.
  - intros H. apply (f_equal (@rev N)) in H. rewrite rev_involutive in H.
    cbn [rev] in H. apply trimStart_nil in H. rewrite forallb_rev in H.
    apply trimStart_nil. now apply trimStart_blank.
  - intros H. apply trimStart_nil in H. rewrite H. reflexivity.
Qed.

(** X15. [handleAnalyze] refuses a text made of white space only (the
    empty text included): it shows the 'Error' toast and changes neither the
    state cells nor the static fields of the service; the button that calls
    it is disabled on such a text. *)
Theorem blank_text_is_refused
  (pipeline : string -> string -> Outcome Pipeline) (models : Models)
  (s : State) :
  forallb white_space (textValue s) = true ->
  handleAnalyze pipeline models s
  = (models, s,
     [ {| title := "Error";
          description := "Please enter some text to analyze";
          variant := Some "destructive" |} ])
  /\ button_disabled s = true.
Proof.
  intros Hblank. apply trim_nil in Hblank.
  unfold handleAnalyze, button_disabled. rewrite Hblank.
  split; [reflexivity | apply orb_true_r].
Qed.

Lemma blank_text_is_refused_witness :
  let s := {| textValue := [32; 9; 10; 160; 12288]%N; isAnalyzing := false;
              result := None; progress := 0 |} in
  forallb white_space (textValue s) = true
  /\ fst (handleAnalyze (stub Throws) no_models s) = (no_models, s).
Proof.
  intros s. split; [reflexivity|].
  now rewrite (proj1 (blank_text_is_refused (stub Throws) no_models s eq_refl)).
Defined.

(** X16. On any other text [handleAnalyze] calls the service once with
    the text as it stands (not trimmed, and never empty), stores the result,
    leaves [isAnalyzing] cleared and the progress at 100, and shows one
    toast that names the classification of the stored result; the card of
    the risk factors is shown exactly when the stored list is not empty, and
    the three classifications get three colours. *)
Theorem analysis_is_stored_and_announced
  (pipeline : string -> string -> Outcome Pipeline) (models : Models)
  (s : State) :
  forallb white_space (textValue s) = false ->
  let '(models', s', toasts) := handleAnalyze pipeline models s in
  let analysisResult := snd (analyzeText pipeline models (textValue s)) in
  models' = fst (analyzeText pipeline models (textValue s))
  /\ s' = {| textValue := textValue s; isAnalyzing := false;
             result := Some analysisResult; progress := 100 |}
  /\ toasts
     = [ {| title := "Analysis Complete";
            description :=
              "Text classified as "
              ++ classification_string (classification analysisResult);
            variant := None |} ]
  /\ 0 < length_of (textValue s)
  /\ risk_card_shown s' = negb (match riskFactors analysisResult with
                                | [] => true | _ => false end)
  /\ getClassificationColor (classification_string (classification analysisResult))
     = match classification analysisResult with
       | trustworthy => "trust-high"
       | misleading => "trust-low"
       | uncertain => "trust-medium"
       end.
Proof.
  intros Hblank.
  assert (Htrim : trim (textValue s) <> []).
  { intros H. apply trim_nil in H. congruence. }
  unfold handleAnalyze.
  destruct (trim (textValue s)) as [|c rest] eqn:E; [now contradiction Htrim|].
  cbn [fold_left progressUpdates setProgress setResult setIsAnalyzing
       textValue isAnalyzing result progress].
  destruct (analyzeText pipeline models (textValue s)) as [models' r] eqn:Hr.
  cbn [fst snd textValue isAnalyzing result progress].
  split; [reflexivity|]. split; [reflexivity|]. split; [reflexivity|].
  split.
  { destruct (textValue s); [discriminate Hblank|].
    unfold length_of. cbn [List.length]. lia. }
  split.
  { unfold risk_card_shown, setIsAnalyzing, setResult. cbn [result].
    destruct (riskFactors r); [reflexivity|].
    cbn [List.length negb]. apply Z.ltb_lt. lia. }
  destruct (classification r); reflexivity.
Qed.

Lemma analysis_is_stored_and_announced_witness :
  let s := {| textValue := shocking; isAnalyzing := false;
              result := None; progress := 0 |} in
  let negative := stub (Returns [entry "NEGATIVE" (div (of_Z 99) (of_Z 100))]) in
  forallb white_space (textValue s) = false
  /\ map description (snd (handleAnalyze negative no_models s))
     = ["Text classified as misleading"].
Proof.
  intros s negative. split; [reflexivity|].
  pose proof (analysis_is_stored_and_announced negative no_models s eq_refl) as H.
  destruct (handleAnalyze negative no_models s) as [[models' s'] toasts].
  destruct H as (_ & _ & -> & _).
  vm_compute. reflexivity.
Defined.
